(* ===== verification/_CoqProject ===== *)
-Q . S2P
Prelude.v
Codec.v
Wire.v
NonceWindow.v
Queue.v
Crypto.v
Noise.v
Session.v
Signals.v
Stun.v
Candidate.v
IceSession.v
IceExchange.v
IceConnector.v
Config.v
PluginManager.v
PluginFile.v
StoreBackend.v
StoreHandler.v
StoreService.v
Tcp.v
CmState.v
CmTransport.v
CmClose.v
CmHandshake.v
CmDispatch.v
CmLifecycle.v
HostApi.v
CmFrame.v
CmInvariant.v
CmScenario.v
CmReassembly.v
TcpStream.v
TcpListen.v
CmDelivery.v
CmLink.v
CmStream.v
CmTcp.v
CmContact.v
Identity.v
MachineId.v
CmTermination.v
CmPolicy.v
CmSafety.v
Core.v
CoreThreads.v
Capi.v
Logger.v
Double.v
Dashboard.v
Bench.v
Cli.v
Sdk.v
CmIce.v
Dynlib.v
StoreApp.v
