(* ===== verification/Prelude.v ===== *)
(** * GoodNet: a verification development

    GoodNet is a peer-to-peer networking core in C++.  Applications register message
    handlers; connector plugins (TCP, ICE) move bytes; the core authenticates peers with a
    Noise_XX handshake, encrypts and compresses packets, filters replays, reassembles
    frames from byte streams, queues and fails over between transports, relays frames by
    gossip and dispatches payloads to handlers by priority.

    ** Parts of the program and files of the development

    - wire structs ([sdk/types.h], [core/data/messages.hpp], [sdk/cpp/data.hpp]): [Codec]
      (packed little-endian layouts as codecs with their laws, class [CodecOk]) and [Wire]
      (every struct, its codec and the handshake-scheme helpers);
    - anti-replay window ([core/types/nonce_window.hpp], [NonceWindow::accept]): [NonceWindow];
    - send queue ([PerConnQueue] in [core/cm/impl.hpp]): [Queue], sequentially and as a step
      relation over threads ([qstep]) in which the atomic counter and the mutex-protected
      vector are touched by separate steps;
    - cryptographic primitives (libsodium, zstd): [Crypto], the class [CryptoOps] of
      operations and [CryptoLaws] of what the code relies on (decryption inverts encryption,
      Diffie-Hellman commutes, output lengths, signatures of a key pair verify, decompression
      inverts compression); [ToyCrypto] is an executable instance, so the laws are satisfiable;
    - Noise engine ([core/crypto/noise.cpp]): [Noise]; transport session ([NoiseSession] in
      [core/types/connection.hpp], [core/cm/transport.cpp]): [Session];
    - signal bus ([include/signals.hpp], [src/signals.cpp]): [Signals];
    - connection manager ([core/cm/*.cpp]): [CmState] (the fields of
      [ConnectionManager::Impl] as the record [cm], and the monad [CM]), [CmTransport]
      (framing, queues, sending), [CmClose] (disconnection), [CmHandshake], [CmDispatch]
      (reassembly, dispatch, heartbeat, relay), [CmLifecycle] (connections, registration,
      queries, and [run_call], the sum of everything a caller can do).
    - ICE ([plugins/connectors/ice/]): [Stun] ([stun.cpp]: messages, checksum, integrity and
      the retrying client; HMAC-SHA1 is a parameter), [Candidate] ([candidate.hpp]),
      [IceSession] ([session.cpp]: gathering, checks, nomination, keepalive; each asio
      completion is one operation, and random bytes and resolver answers are drawn from an
      input stream), [IceExchange] (two sessions that talk), [IceConnector] ([ice.cpp]: the
      session table, signalling and callbacks; sessions live in a heap, as shared pointers
      keep them alive after they leave the table), [CmIce] (its handler registered with the
      manager, and the endpoint a signal arrives with).
    - store ([apps/store/]): [StoreBackend] ([backend.hpp], [sqlite_backend.cpp]: [IStore] is a
      class with laws, SQLite a parameter with the documented meaning of its statements),
      [StoreHandler] ([handler.cpp], [store_app.cpp]: the message handlers), [StoreService]
      (the specification of the service and the proofs).
    - TCP ([plugins/connectors/tcp/tcp.cpp]): [Tcp] (the connector as an interleaving of
      posted tasks and completion handlers), [TcpStream] (proofs about its streams), [CmTcp]
      (two managers with their connectors and the stream between them).
    - configuration ([include/config.hpp], [src/config.cpp]): [Config] (settings, JSON form, flat
      keys; the JSON library is a parameter), and their way into the ICE connector.
    - plugins ([core/pm/]): [PluginManager] (loading, verification, unloading, queries; what the
      loader and the manifest say of a file is an input), [PluginFile] (the digest of a file
      and the reading of its manifest).
    - identity ([core/cm/identity.cpp], [core/crypto/machine_id.cpp]): [Identity] (key files, the
      OpenSSH parser, the machine id, loading and rotation; files are a map, the hardware a
      record, libsodium a class with laws), [MachineId] (the sources of the machine id on
      Windows, with the walk over the firmware table, and on macOS).
    - core ([src/core.cpp]): [Core] (construction, wiring of plugins and manager, threads and
      timer as flags, the forwarded calls; the vtables behind plugin descriptors and the
      calls plugins make during initialisation are parameters), [CoreThreads] (the joins of
      [run] and [stop] as an interleaving).
    - interfaces: [HostApi] (the function table given to plugins, the diagnostic document),
      [Capi] ([src/capi.cpp]: the C functions and C subscriptions).
    - connections from the TCP side: [TcpListen] (the acceptor, the accept loop, resolving and
      connecting).
    - loaded libraries ([core/dynlib.hpp], [core/pm/core.cpp]): [Dynlib] (owners of libraries in a
      store of objects).
    - logger ([src/logger.cpp]): [Logger] (settings, singleton, sinks, source flag, and what
      [Core] and [Config] do with it; a sink is a description and the lines that reach it).
    - command line ([cli/], [src/main.cpp]): [Double] (binary64 and its decimal form),
      [Dashboard] (samples, formatting, table, histogram), [Bench] (worker threads as a step
      relation, waits, monitor), [Cli] (server mode, [main]).
    - plugin SDK ([sdk/cpp/], [plugins/handlers], [plugins/connectors/template]): [Sdk] (base
      classes, host API calls, typed messages, the packet logger and the templates).
    - store program ([apps/store/main.cpp], [store_app.cpp]): [StoreApp] (database handle,
      construction, and one step function per thread).

    The other files hold proofs about the manager: [CmFrame] (what an operation may change),
    [CmInvariant] (the invariant of the connection table and its preservation), [CmScenario]
    (two nodes on [ToyCrypto] that complete a handshake, the states the concrete instances
    are evaluated on), [CmReassembly], [CmDelivery], [CmLink] (two managers
    with an established connection), [CmStream] (a stream of frames in pieces at an
    established connection), [CmContact] (two managers that meet), [CmTermination],
    [CmPolicy], [CmSafety].

    ** How code becomes definitions

    A C++ function is a Rocq function of the same name (with a [cm_] prefix where a name is
    taken).  A w-bit integer is a [Z] below [2 ^ w], with [u8] ... [u64] where the code
    wraps; bytes are [list byte]; [unordered_map] and [unordered_set] are [gmap]: iteration
    follows [map_to_list], one of the orders the library may choose.  Mutating methods are
    state passing: [SE] (state and failure, fields written before a failure are kept) for
    the Noise engine, [CM] for the manager.  [std::sort] on transport paths is a stable
    insertion sort; [std::hash<uint64_t>] is the identity, as in libstdc++.

    A call of the manager's API is one atomic step: the locks and the RCU map are what the
    code uses to get that effect, and they are not modelled, except in [Queue], where the
    code relies on atomics alone.  Calls out of the manager (connector [send_to], [connect],
    [close], handlers' [handle_message] and [handle_conn_state]) are appended to [c_trace];
    they do not re-enter the manager within the call (a packet callback that stops the core is
    in [Core]).  Since a call is atomic, the in-flight counter cannot fall while [shutdown]
    waits for it: the wait ends exactly when the counter is 0.  The return code of the n-th
    connector write is given by the vtable ([co_rc]); a handler's verdict is a function of
    header, endpoint and payload.  The two clocks are constant within a call and change by
    [ApiTick]; randomness is a stream of blocks.  Behaviour the language leaves undefined
    (a write past a buffer, a read past an object) is the event [EvUB].

    ** Bounds and fuel

    [reassemble] makes at most one round per buffered byte, and a frame is at least 20 bytes
    long, so its [rounds] suffice ([CmReassembly]); [chunks] takes at most one chunk per
    byte.  [cm_dispatch] bounds the mutual recursion of [dispatch_packet] and [handle_relay]
    by a fuel; [CmTermination.handle_data_terminates] shows that a large enough fuel is
    never used up.  Everything else is structurally recursive.

    ** What the theorems show

    - window and session: the bitmap refines the set of accepted nonces, no nonce and no
      packet id is accepted twice, sessions deliver exactly what was sent
      ([NonceWindow], [Session]);
    - handshake: the Noise exchange agrees on keys, identities are accepted exactly when
      signed and bound to the Noise key ([Noise], [CmDelivery]);
    - streams: reception dispatches exactly the complete frames ([CmReassembly]), and does
      not depend on how the stream is cut: within the buffer limit, handlers run for exactly
      the frames whose packet id is new ([CmStream.stream_pieces]);
    - end to end: a message built by one node reaches the other's handlers unchanged
      ([CmDelivery.secure_delivery]), a stream of them in order ([CmLink.link_delivers]),
      and two nodes that meet for the first time end with a secured connection that has
      delivered what was queued on both sides ([CmContact.first_contact]);
    - reachable states: connections, indices and pending queues are consistent after any
      sequence of API calls and any network input ([CmSafety], by the invariant of
      [CmInvariant]); shutdown and reception terminate;
    - queue: backpressure holds in every interleaving ([Queue]);
    - policies: handler order, relay, negotiation, heartbeats, registration, rekeying
      ([Signals], [CmPolicy]);
    - theorems of what the code does against its documentation or intent:
      [noise_init_overflow], [send_before_established_plaintext],
      [forged_packet_burns_nonce], [secondary_uri_dangles], [affinity_ignored].
    - ICE: a check request and a check response that were built are read back by the peer,
      and the password matters exactly as the HMAC does ([check_request_roundtrip],
      [check_response_roundtrip]); the client invokes each callback once and gives up after
      three expiries ([stun_client_once]); the table-driven checksum is the bit-by-bit one
      and detects a damaged byte ([crc32_bitwise]).  The attribute loop advances by at least
      four bytes a round, so a fuel of the packet's length is enough ([parse_attrs_enough]).
      A session keeps its invariant and never goes back ([ice_session_safe]), settles
      ([ice_session_settles]), connects with its peer by one check
      ([ice_check_connects]), and connects to a stranger's unsigned check as well
      ([ice_stranger_nominates]); signals carry credentials and candidates exactly
      ([ice_signal_roundtrip]); the connector registers each connected session exactly once
      and hands over data under the id answered for it ([ice_connector_sound]).  Posted tasks
      run one at a time, and callbacks of the STUN client do not call [resolve].  [try_servers] recurses once per server that is left.
      Signals reach the connector through the manager ([ice_signal_reaches]), over TCP
      without the key of their sender ([ice_signals_anonymous]).
    - store: the SQLite backend is a finite map with expiry ([sqlite_refines_map]) and the
      service on any backend implements its specification, replies and notifications
      included ([store_service_refines]); malformed packets have no effect
      ([store_rejects]); a sync answer is merged entry by entry, and the contents
      afterwards are determined by it ([sync_transfers]), and the
      merge can lose updates ([sync_loses_update]); a huge time to live hides an entry
      ([ttl_overflow_hides]).
    - TCP: writes are whole frames in order, one batch at a time, in every interleaving
      ([tcp_write_pipeline]); the stream is cut exactly at the frames ([tcp_framing]), so
      frames travel unchanged from connector to core ([tcp_end_to_end]); a frame sent while a
      connection is being registered can be lost ([tcp_early_send_lost]).
    - the whole path: two managers, their connectors and the two streams together.  In every
      schedule, posted tasks taken up in any order and writes that fail included, each side has
      handled messages the other sent, none more often than sent: a prefix of them when the
      tasks were taken up in order ([stack_prefix]); and every schedule without a failed write
      can be completed so that all of them are handled, when the tasks were in order or the
      messages are no more than the replay window holds ([stack_completes]).  The environment
      is assumed to send nothing more on a socket whose write failed, and no read to fail.
    - configuration: what is saved is loaded back ([config_roundtrip]); the ICE settings reach
      the connector ([config_reaches_ice]).
    - plugins: only verified plugins are ever initialised ([pm_verified]), and verified means
      that the manifest promises the digest of the whole file ([verified_digest]); the fuel
      of [sha_loop] is the file's length, and each round takes a block.
    - identity: an OpenSSH key is read back exactly ([ssh_key_roundtrip]), keys have the lengths
      of the wire format ([identity_typed]), and a node keeps its keys ([identity_stable]);
      the walk over the firmware table ends, since every structure takes at least two bytes,
      whatever the table, and on a well-formed one finds the system's identifier
      ([smbios_first_uuid]), but reads past a truncated table ([smbios_truncated]).
    - core: the manager knows exactly the loaded connectors ([core_wired]) and only calls loaded
      ones until the core is stopped, unless plugins are unloaded behind its back
      ([unload_leaves_vtable]); [stop] returns outside packet callbacks and hangs inside one
      ([core_lifecycle]); [stop] joins
      every thread once ([stop_joins_all], [stop_returns]) unless the core is in [run]
      ([run_stop_double_join]).
    - interfaces: the function table allows no more than the API calls of the manager
      ([host_api_is_calls]); C subscriptions deliver to exactly the subscribed callbacks
      ([csub_refines]) and copies fit the caller's buffer ([copy_out_bounds]).
    - TCP server: accepts go on at the current acceptor whatever happens to the others
      ([accept_loop]); a second listen that cannot bind spins ([relisten_spins]).
    - libraries: each is closed exactly once and no plugin is called afterwards
      ([libraries_closed_once]).
    - logger: it is made once from the settings of its first use ([logger_once]), which a
      configuration file reaches too late ([config_too_late]).
    - command line: the ring holds the last samples ([samples_window]), numbers are grouped by
      three digits ([fmt_num_groups]) and rows fill the frame ([row_width]); the benchmark sends
      at most one packet per further thread beyond its limit ([bench_packets]); how the
      program ends on every path, an exception of the core's constructor included
      ([exit_code_exact]).
    - SDK: handlers with the default verdict change no decision ([observer_transparent]); the
      packet logger writes one numbered line per packet ([msg_logger_exact]); the default
      gathering send is the longest prefix ([gather_prefix]); typed messages round-trip
      ([typed_roundtrip]).
    - store program: once it serves it shuts down in a bounded number of steps, with at most
      one late clean-up between the stops of handler and core ([store_shutdown]); a signal during start-up hangs or aborts it ([early_signal_hangs],
      [early_stop_aborts]), and its core reaches no peer ([store_isolated]).

    ** What is not modelled

    The operating system's files, hardware tables and dynamic loader (they are inputs), the asio
    sockets and timers of the connectors, the JSON text syntax, the parsing of command lines
    (Boost), spdlog's formatting, rotation and threads, the value-tracing macros, and the
    start of the worker threads, which are interleavings.  What is left is the wording of the
    log messages outside the plugins, and declarations without a body. *)

From Stdlib Require Import ZArith Strings.Byte String Ascii Lia.
From stdpp Require Import base gmap strings list fin_maps numbers pretty countable.

Local Open Scope Z_scope.

(** ** Machine integers: a w-bit unsigned value is a [Z] below [2 ^ w]. *)

Declare Scope gn_scope.
Delimit Scope gn_scope with gn.

Definition wrap (w : Z) (v : Z) : Z := v mod 2 ^ w.

Abbreviation u8 := (wrap 8).
Abbreviation u16 := (wrap 16).
Abbreviation u32 := (wrap 32).
Abbreviation u64 := (wrap 64).

Definition fits (w : Z) (v : Z) : Prop := 0 <= v < 2 ^ w.

Create HintDb gn.
Create Rewrite HintDb gn_rw.

#[export] Instance fits_dec w v : Decision (fits w v).
Proof. unfold fits. apply _. Defined.

Lemma wrap_fits w v : 0 <= w -> fits w (wrap w v).
Proof. intros. unfold fits, wrap. apply Z.mod_pos_bound. lia. Qed.

Lemma wrap_small w v : fits w v -> wrap w v = v.
Proof. intros [??]. unfold wrap. by apply Z.mod_small. Qed.

Lemma wrap_idem w v : 0 <= w -> wrap w (wrap w v) = wrap w v.
Proof. intros. by apply wrap_small, wrap_fits. Qed.

(** A counter that goes up and down again. *)
Lemma wrap_inc_dec w v : fits w v -> wrap w (wrap w (v + 1) + -1) = v.
Proof.
  intros Hv. unfold wrap. rewrite Zplus_mod_idemp_l, <-Z.add_assoc, Z.add_0_r. by apply wrap_small.
Qed.

(** [static_cast] to a signed type of [w] bits. *)
Definition signed (w v : Z) : Z := let u := wrap w v in if u <? 2 ^ (w - 1) then u else u - 2 ^ w.

Abbreviation i64 := (signed 64).
Abbreviation i32 := (signed 32).

Lemma signed_small w v : 0 < w -> fits (w - 1) v -> signed w v = v.
Proof.
  intros Hw [H1 H2]. assert (2 ^ w = 2 * 2 ^ (w - 1)) as Hp.
  { rewrite <-Z.pow_succ_r by lia. f_equal. lia. }
  unfold signed. rewrite (wrap_small w) by (unfold fits; lia).
  by rewrite (proj2 (Z.ltb_lt _ _)) by lia.
Qed.

Lemma wrap_signed w v : 0 < w -> fits w v -> wrap w (signed w v) = v.
Proof.
  intros Hw Hv. unfold signed. rewrite (wrap_small w v) by done. cbv zeta. destruct (v <? 2 ^ (w - 1)); [by apply wrap_small|].
  unfold wrap. rewrite <-(Z_mod_plus_full _ 1), Z.mul_1_l, Z.sub_add. by apply wrap_small.
Qed.

(** A value of the signed type is not changed. *)
Lemma signed_id w v : 0 < w -> - 2 ^ (w - 1) <= v < 2 ^ (w - 1) -> signed w v = v.
Proof.
  intros Hw Hv. assert (2 ^ w = 2 * 2 ^ (w - 1)) as Hp by (rewrite <-Z.pow_succ_r by lia; f_equal; lia).
  destruct (Z.leb_spec 0 v); [apply signed_small; [done|unfold fits; lia]|]. unfold signed.
  assert (wrap w v = v + 2 ^ w) as ->.
  { unfold wrap. rewrite <-(Z_mod_plus_full v 1), Z.mul_1_l. apply Z.mod_small. lia. }
  rewrite (proj2 (Z.ltb_ge _ _)) by lia. lia.
Qed.

(** ** Bytes *)

Abbreviation bytes := (list byte).

#[export] Instance byte_eq_dec : EqDecision byte := Byte.byte_eq_dec.

#[export] Instance byte_countable : Countable byte.
Proof.
  refine (inj_countable' Byte.to_N (fun n => default x00 (Byte.of_N n)) _).
  intros b. by rewrite Byte.of_to_N.
Defined.

Definition b2z (b : byte) : Z := Z.of_N (Byte.to_N b).

Definition z2b (v : Z) : byte :=
  match Byte.of_N (Z.to_N (v mod 256)) with Some b => b | None => x00 end.

Lemma b2z_range b : 0 <= b2z b < 256.
Proof.
  unfold b2z. pose proof (Byte.to_N_bounded b). lia.
Qed.

Lemma b2z_z2b v : b2z (z2b v) = v mod 256.
Proof.
  unfold z2b, b2z.
  pose proof (Z.mod_pos_bound v 256 ltac:(lia)) as Hb.
  destruct (Byte.of_N (Z.to_N (v mod 256))) as [b|] eqn:E.
  - apply Byte.to_of_N in E. rewrite E. lia.
  - apply Byte.of_N_None_iff in E. lia.
Qed.

Lemma z2b_b2z b : z2b (b2z b) = b.
Proof.
  unfold z2b, b2z.
  pose proof (Byte.to_N_bounded b).
  rewrite Z.mod_small by lia.
  rewrite N2Z.id. by rewrite Byte.of_to_N.
Qed.

Lemma b2z_inj a b : b2z a = b2z b -> a = b.
Proof. intros H. rewrite <-(z2b_b2z a), <-(z2b_b2z b). by f_equal. Qed.

Lemma b2z_z2b_small v : 0 <= v < 256 -> b2z (z2b v) = v.
Proof. intros. rewrite b2z_z2b. by apply Z.mod_small. Qed.

Lemma z2b_mod v : z2b (v mod 256) = z2b v.
Proof. apply b2z_inj. rewrite !b2z_z2b. by rewrite Z.mod_mod. Qed.

(** Little-endian fields of the packed structs (the targets the code supports are
    little-endian, and the wire comments of sdk/types.h say so). *)
Fixpoint le_enc (n : nat) (v : Z) : bytes :=
  match n with
  | O => []
  | S n => z2b v :: le_enc n (v / 256)
  end.

Fixpoint le_dec (bs : bytes) : Z :=
  match bs with
  | [] => 0
  | b :: bs => b2z b + 256 * le_dec bs
  end.

(** Big-endian fields (OpenSSH blobs, STUN). *)
Definition be_enc (n : nat) (v : Z) : bytes := rev (le_enc n v).
Definition be_dec (bs : bytes) : Z := le_dec (rev bs).

Lemma length_le_enc n v : length (le_enc n v) = n.
Proof. revert v. induction n as [|n IH]; intros v; simpl; [done|]. by rewrite IH. Qed.

Lemma length_be_enc n v : length (be_enc n v) = n.
Proof. unfold be_enc. by rewrite length_rev, length_le_enc. Qed.

Lemma le_dec_bound bs : 0 <= le_dec bs < 2 ^ (8 * Z.of_nat (length bs)).
Proof.
  induction bs as [|b bs IH]; simpl length; simpl le_dec; [simpl; lia|].
  pose proof (b2z_range b).
  replace (8 * Z.of_nat (S (length bs))) with (8 + 8 * Z.of_nat (length bs)) by lia.
  rewrite Z.pow_add_r by lia. change (2 ^ 8) with 256. lia.
Qed.

Lemma le_dec_enc n v : le_dec (le_enc n v) = v mod 2 ^ (8 * Z.of_nat n).
Proof.
  revert v. induction n as [|n IH]; intros v; simpl le_enc; simpl le_dec.
  - by rewrite Z.mod_1_r.
  - rewrite IH, b2z_z2b.
    replace (8 * Z.of_nat (S n)) with (8 + 8 * Z.of_nat n) by lia.
    rewrite Z.pow_add_r by lia. change (2 ^ 8) with 256.
    rewrite Z.rem_mul_r; lia.
Qed.

Lemma le_dec_enc_fits n v w :
  w = 8 * Z.of_nat n -> fits w v -> le_dec (le_enc n v) = v.
Proof. intros -> ?. rewrite le_dec_enc. by apply Z.mod_small. Qed.

Lemma le_enc_dec bs : le_enc (length bs) (le_dec bs) = bs.
Proof.
  induction bs as [|b bs IH]; simpl; [done|].
  pose proof (b2z_range b).
  rewrite (Z.mul_comm 256), Z.div_add by lia.
  rewrite (Z.div_small (b2z b)) by lia. rewrite Z.add_0_l, IH. f_equal.
  apply b2z_inj. rewrite b2z_z2b, Z.mod_add by lia. by apply Z.mod_small.
Qed.

Lemma be_dec_enc n v : be_dec (be_enc n v) = v mod 2 ^ (8 * Z.of_nat n).
Proof. unfold be_dec, be_enc. by rewrite rev_involutive, le_dec_enc. Qed.

Lemma be_enc_dec bs : be_enc (length bs) (be_dec bs) = bs.
Proof.
  unfold be_dec, be_enc.
  rewrite <-(length_rev bs), le_enc_dec. apply rev_involutive.
Qed.

Lemma be_dec_bound bs : 0 <= be_dec bs < 2 ^ (8 * Z.of_nat (length bs)).
Proof. unfold be_dec. rewrite <-(length_rev bs). apply le_dec_bound. Qed.

(** [slice off len bs]: the [len] bytes at offset [off] (a pointer plus a length). *)
Definition slice {A} (off len : nat) (l : list A) : list A := take len (drop off l).

Lemma length_slice {A} off len (l : list A) :
  (off + len <= length l)%nat -> length (slice off len l) = len.
Proof. intros. unfold slice. rewrite length_take, length_drop. lia. Qed.

Lemma slice_app_skip {A} off len (l k : list A) n :
  length l = n -> (n <= off)%nat -> slice off len (l ++ k) = slice (off - n) len k.
Proof.
  intros <- Hle. unfold slice. rewrite drop_app_ge by lia. done.
Qed.

Lemma slice_app_take {A} len (l k : list A) :
  length l = len -> slice 0 len (l ++ k) = l.
Proof. intros <-. unfold slice. rewrite drop_0. by rewrite take_app_length. Qed.

Lemma split_slice {A} off len (l : list A) :
  l = take off l ++ slice off len l ++ drop (off + len) l.
Proof. unfold slice. by rewrite <-drop_drop, !take_drop. Qed.

Lemma slice_exact {A} len (l : list A) : length l = len -> slice 0 len l = l.
Proof. intros <-. unfold slice. rewrite drop_0. by rewrite firstn_all. Qed.

#[export] Hint Resolve wrap_fits : gn.
#[export] Hint Rewrite length_le_enc length_be_enc @length_app @length_take @length_drop
  @length_replicate @length_rev : gn_rw.

(** ** Strings: [std::string] is [string]; a [char] buffer is [bytes]. *)

Definition str_bytes (s : string) : bytes := String.list_byte_of_string s.
Definition bytes_str (bs : bytes) : string := String.string_of_list_byte bs.

Lemma bytes_str_bytes s : bytes_str (str_bytes s) = s.
Proof. apply String.string_of_list_byte_of_string. Qed.

Lemma str_bytes_str bs : str_bytes (bytes_str bs) = bs.
Proof. apply String.list_byte_of_string_of_list_byte. Qed.

Lemma str_bytes_inj s t : str_bytes s = str_bytes t -> s = t.
Proof. intros H. rewrite <-(bytes_str_bytes s), <-(bytes_str_bytes t). by f_equal. Qed.

Lemma str_bytes_app s t : str_bytes (s +:+ t) = str_bytes s ++ str_bytes t.
Proof.
  unfold str_bytes, String.list_byte_of_string.
  induction s as [|a s IH]; simpl; [done|]. by f_equal.
Qed.

(** The bytes before the first NUL: what a [const char*] reader sees. *)
Fixpoint until_nul (bs : bytes) : bytes :=
  match bs with
  | [] => []
  | b :: bs => if bool_decide (b = x00) then [] else b :: until_nul bs
  end.

(** Whether a NUL occurs, so that a [strlen]-style read stays inside the buffer. *)
Fixpoint has_nul (bs : bytes) : bool :=
  match bs with
  | [] => false
  | b :: bs => bool_decide (b = x00) || has_nul bs
  end.

Lemma until_nul_no_nul bs : x00 ∉ until_nul bs.
Proof.
  induction bs as [|b bs IH]; simpl; [by apply not_elem_of_nil|].
  case_bool_decide; [by apply not_elem_of_nil|].
  rewrite elem_of_cons. naive_solver.
Qed.

Lemma until_nul_id bs : x00 ∉ bs -> until_nul bs = bs.
Proof.
  induction bs as [|b bs IH]; simpl; [done|].
  rewrite not_elem_of_cons. intros [? ?]. case_bool_decide; [congruence|].
  by rewrite IH.
Qed.

Lemma until_nul_app_nul bs k : x00 ∉ bs -> until_nul (bs ++ x00 :: k) = bs.
Proof.
  induction bs as [|b bs IH]; simpl; [done|].
  rewrite not_elem_of_cons. intros [? ?]. case_bool_decide; [congruence|].
  by rewrite IH.
Qed.

Lemma has_nul_app bs k : has_nul (bs ++ k) = has_nul bs || has_nul k.
Proof. induction bs as [|b bs IH]; simpl; [done|]. by rewrite IH, orb_assoc. Qed.

(** [strncpy dst src n] into a zeroed buffer: at most [n] bytes of the C string,
    padded with NULs up to [n]. *)
Definition strncpy (s : string) (n : nat) : bytes :=
  let src := take n (until_nul (str_bytes s)) in
  src ++ replicate (n - length src) x00.

Lemma length_strncpy s n : length (strncpy s n) = n.
Proof.
  unfold strncpy. rewrite length_app, length_replicate, length_take. lia.
Qed.

(** [std::string::find], [rfind] and [substr] on positions. *)
Fixpoint find_at (fuel : nat) (pos : nat) (pat : bytes) (s : bytes) : option nat :=
  match fuel with
  | O => None
  | S fuel =>
      if bool_decide (take (length pat) s = pat) then Some pos
      else match s with
           | [] => None
           | _ :: s => find_at fuel (S pos) pat s
           end
  end.

Definition str_find (pat s : bytes) : option nat := find_at (S (length s)) 0 pat s.

Fixpoint str_rfind (c : byte) (s : bytes) : option nat :=
  match s with
  | [] => None
  | b :: s =>
      match str_rfind c s with
      | Some i => Some (S i)
      | None => if bool_decide (b = c) then Some O else None
      end
  end.

(** Lowercase hexadecimal, [core/util.cpp] [bytes_to_hex] ("%02x" per byte). *)
Definition hex_digit (v : Z) : byte := z2b (if v <? 10 then 48 + v else 87 + v).

Definition hex_byte (b : byte) : bytes := [hex_digit (b2z b / 16); hex_digit (b2z b mod 16)].

Definition bytes_to_hex (bs : bytes) : string := bytes_str (concat (map hex_byte bs)).

Lemma hex_digit_inj a c : 0 <= a < 16 -> 0 <= c < 16 -> hex_digit a = hex_digit c -> a = c.
Proof.
  intros Ha Hc H. apply (f_equal b2z) in H. unfold hex_digit in H.
  destruct (Z.ltb_spec a 10), (Z.ltb_spec c 10);
    rewrite !b2z_z2b_small in H by lia; lia.
Qed.

Lemma hex_byte_inj a b : hex_byte a = hex_byte b -> a = b.
Proof.
  unfold hex_byte. intros H. injection H as H1 H2.
  pose proof (b2z_range a). pose proof (b2z_range b).
  apply b2z_inj.
  apply hex_digit_inj in H1; [|split; [apply Z.div_pos|apply Z.div_lt_upper_bound]; lia..].
  apply hex_digit_inj in H2; [|apply Z.mod_pos_bound; lia..].
  rewrite (Z.div_mod (b2z a) 16), (Z.div_mod (b2z b) 16) by lia. by rewrite H1, H2.
Qed.

Lemma bytes_to_hex_inj a b : bytes_to_hex a = bytes_to_hex b -> a = b.
Proof.
  unfold bytes_to_hex. intros H. apply (f_equal str_bytes) in H.
  rewrite !str_bytes_str in H. revert b H.
  induction a as [|x a IH]; intros [|y b] H; simpl in *; try done.
  injection H as H1 H2 H3. f_equal; [|by apply IH].
  apply hex_byte_inj. unfold hex_byte. by rewrite H1, H2.
Qed.

Lemma length_bytes_to_hex bs :
  length (str_bytes (bytes_to_hex bs)) = (2 * length bs)%nat.
Proof.
  unfold bytes_to_hex. rewrite str_bytes_str.
  induction bs as [|b bs IH]; simpl in *; lia.
Qed.

(** Decimal rendering, [std::to_string] of a non-negative integer. *)
Definition to_string (v : Z) : string := pretty.pretty v.

(** ** A state monad whose failures keep the state, as a C++ [return false] does *)

Definition SE (S A : Type) : Type := S -> option A * S.

Definition se_ret {S A} (a : A) : SE S A := fun s => (Some a, s).
Definition se_bind {S A B} (c : SE S A) (k : A -> SE S B) : SE S B :=
  fun s => match c s with (Some a, s') => k a s' | (None, s') => (None, s') end.
Definition se_fail {S A} : SE S A := fun s => (None, s).
Definition se_get {S A} (f : S -> A) : SE S A := fun s => (Some (f s), s).
Definition se_mod {S} (f : S -> S) : SE S unit := fun s => (Some tt, f s).
Definition se_opt {S A} (o : option A) : SE S A := fun s => (o, s).
Definition se_guard {S} (b : bool) : SE S unit := fun s => (if b then Some tt else None, s).

Notation "x <-- c ;; k" := (se_bind c (fun x => k))
  (at level 100, c at level 61, right associativity) : gn_scope.
Notation "c ;;; k" := (se_bind c (fun _ => k))
  (at level 100, k at level 200, right associativity) : gn_scope.

Lemma run_bind {S A B} (c : SE S A) (k : A -> SE S B) s a s' r :
  c s = (Some a, s') -> k a s' = r -> se_bind c k s = r.
Proof. unfold se_bind. by intros -> <-. Qed.

Lemma run_guard {S} (b : bool) (s : S) : b = true -> se_guard b s = (Some tt, s).
Proof. by intros ->. Qed.

(** A bind that returns a value ran both halves. *)
Lemma bind_Some_inv {S A B} (c : SE S A) (k : A -> SE S B) s b s'' :
  se_bind c k s = (Some b, s'') -> exists a s', c s = (Some a, s') /\ k a s' = (Some b, s'').
Proof. unfold se_bind. destruct (c s) as [[a|] s'] eqn:E; [|done]. intros. by exists a, s'. Qed.

#[global] Arguments le_enc : simpl never.
#[global] Arguments be_enc : simpl never.
#[global] Arguments wrap : simpl never.
