(* ===== verification/Codec.v ===== *)
(** * Packed structs as byte codecs

    The wire structs of the program are [#pragma pack(1)] records moved by [memcpy]
    ([sdk/cpp/data.hpp]).  A [codec] gives such a layout: its [sizeof], its image in
    memory, and the value an image decodes to; [CodecOk] is the interface every layout
    promises and every client of a layout relies on.  Combinators build the layouts of
    [Wire.v]; [PodData] is the wrapper class of the SDK. *)

From Stdlib Require Import ZArith Strings.Byte Lia.
From stdpp Require Import base list numbers.
From S2P Require Import Prelude.

Local Open Scope Z_scope.

Record codec (A : Type) := Codec {
  csize : nat;             (* sizeof(T) *)
  cenc : A -> bytes;       (* the object representation *)
  cdec : bytes -> A;       (* memcpy of the first sizeof(T) bytes into a T *)
  cwf : A -> Prop;         (* every field within its C type *)
}.
Arguments Codec {A}.
Arguments csize {A}.
Arguments cenc {A}.
Arguments cdec {A}.
Arguments cwf {A}.

Class CodecOk {A} (c : codec A) := {
  cenc_length x : cwf c x -> length (cenc c x) = csize c;
  cdec_enc x rest : cwf c x -> cdec c (cenc c x ++ rest) = x;
  cdec_wf bs : (csize c <= length bs)%nat -> cwf c (cdec c bs);
  cenc_dec bs : (csize c <= length bs)%nat -> cenc c (cdec c bs) = take (csize c) bs;
}.

(** Decoding looks at the first [sizeof(T)] bytes only. *)
Lemma cdec_app {A} (c : codec A) `{!CodecOk c} bs k :
  (csize c <= length bs)%nat -> cdec c (bs ++ k) = cdec c bs.
Proof.
  intros Hle. rewrite <-(take_drop (csize c) bs) at 1.
  rewrite <-(cenc_dec bs Hle), <-app_assoc. apply cdec_enc. by apply cdec_wf.
Qed.

(** ** Fields *)

Definition cuint (n : nat) : codec Z :=
  Codec n (le_enc n) (fun bs => le_dec (take n bs)) (fits (8 * Z.of_nat n)).

Definition carr (n : nat) : codec bytes :=
  Codec n id (take n) (fun bs => length bs = n).

Definition cpair {A B} (ca : codec A) (cb : codec B) : codec (A * B) :=
  Codec (csize ca + csize cb)%nat
    (fun p => cenc ca p.1 ++ cenc cb p.2)
    (fun bs => (cdec ca bs, cdec cb (drop (csize ca) bs)))
    (fun p => cwf ca p.1 /\ cwf cb p.2).

Fixpoint dec_n {A} (c : codec A) (n : nat) (bs : bytes) : list A :=
  match n with
  | O => []
  | S n => cdec c bs :: dec_n c n (drop (csize c) bs)
  end.

Definition cvec {A} (n : nat) (c : codec A) : codec (list A) :=
  Codec (n * csize c)%nat (fun l => concat (map (cenc c) l)) (dec_n c n)
    (fun l => length l = n /\ Forall (cwf c) l).

(** A struct is the product of its fields, renamed. *)
Definition cstruct {A B} (to : A -> B) (fr : B -> A) (c : codec A) : codec B :=
  Codec (csize c) (fun b => cenc c (fr b)) (fun bs => to (cdec c bs)) (fun b => cwf c (fr b)).

Notation "a *** b" := (cpair a b) (at level 60, right associativity) : gn_scope.

#[export] Instance cuint_ok n : CodecOk (cuint n).
Proof.
  split; simpl.
  - intros. apply length_le_enc.
  - intros x rest Hx. rewrite take_app_le, take_ge by (rewrite length_le_enc; lia).
    by eapply le_dec_enc_fits.
  - intros bs Hle. unfold fits. pose proof (le_dec_bound (take n bs)) as H.
    rewrite length_take_le in H by done. exact H.
  - intros bs Hle. pose proof (le_enc_dec (take n bs)) as H.
    by rewrite length_take_le in H.
Qed.

#[export] Instance carr_ok n : CodecOk (carr n).
Proof.
  split; simpl; unfold id.
  - done.
  - intros x rest <-. apply take_app_length.
  - intros. rewrite length_take. lia.
  - done.
Qed.

#[export] Instance cpair_ok {A B} (ca : codec A) (cb : codec B) :
  CodecOk ca -> CodecOk cb -> CodecOk (cpair ca cb).
Proof.
  intros Ha Hb. split; simpl.
  - intros [a b] [??]; simpl in *. rewrite length_app, !cenc_length; done.
  - intros [a b] rest [??]; simpl in *. rewrite <-app_assoc, cdec_enc by done.
    rewrite drop_app_length' by (by rewrite cenc_length). by rewrite cdec_enc.
  - intros bs Hle. split; apply cdec_wf; rewrite ?length_drop; lia.
  - intros bs Hle. rewrite !cenc_dec by (rewrite ?length_drop; lia).
    by rewrite take_take_drop.
Qed.

Lemma dec_n_spec {A} (c : codec A) `{!CodecOk c} n bs :
  (n * csize c <= length bs)%nat ->
  length (dec_n c n bs) = n /\ Forall (cwf c) (dec_n c n bs) /\
  concat (map (cenc c) (dec_n c n bs)) = take (n * csize c) bs.
Proof.
  revert bs. induction n as [|n IH]; intros bs Hle; simpl; [done|].
  destruct (IH (drop (csize c) bs)) as (Hl & Hf & He); [rewrite length_drop; lia|].
  split_and!; [lia| constructor; [apply cdec_wf; lia|done] |].
  rewrite He, cenc_dec by lia. by rewrite take_take_drop.
Qed.

#[export] Instance cvec_ok {A} n (c : codec A) : CodecOk c -> CodecOk (cvec n c).
Proof.
  intros Hc. split; simpl.
  - intros l [<- Hf]. induction Hf as [|x l Hx Hf IH]; simpl; [done|].
    by rewrite length_app, IH, cenc_length.
  - intros l rest [<- Hf]. induction Hf as [|x l Hx Hf IH]; simpl; [done|].
    rewrite <-app_assoc, cdec_enc by done.
    rewrite drop_app_length' by (by rewrite cenc_length). by rewrite IH.
  - intros bs Hle. pose proof (dec_n_spec c n bs Hle) as (?&?&?). done.
  - intros bs Hle. apply (dec_n_spec c n bs Hle).
Qed.

(** A record layout is [CodecOk] as soon as the renaming is a bijection. *)
Lemma cstruct_ok {A B} (to : A -> B) (fr : B -> A) (c : codec A) :
  (forall a, fr (to a) = a) -> (forall b, to (fr b) = b) ->
  CodecOk c -> CodecOk (cstruct to fr c).
Proof.
  intros Hto Hof Hc. split; simpl.
  - intros. by apply cenc_length.
  - intros. by rewrite cdec_enc, Hof.
  - intros. rewrite Hto. by apply cdec_wf.
  - intros. rewrite Hto. by apply cenc_dec.
Qed.

(** Discharges [CodecOk] for a struct given by tuple patterns. *)
Ltac solve_struct :=
  apply cstruct_ok; [by intros; destruct_product | by intros [] | apply _]
with destruct_product :=
  repeat match goal with p : (_ * _)%type |- _ => destruct p end.

(** ** [PodData<T>] ([sdk/cpp/data.hpp]): serialization by [memcpy]. *)

Module PodData.
Section pod.
Context {T : Type} (c : codec T).

Definition min_size : nat := csize c.

Definition serialize (value : T) : bytes := cenc c value.

(** [None] is the [std::runtime_error] "buffer too small". *)
Definition deserialize (b : bytes) : option T :=
  if bool_decide (length b < min_size)%nat then None else Some (cdec c b).

Context `{!CodecOk c}.

Lemma deserialize_serialize v rest :
  cwf c v -> deserialize (serialize v ++ rest) = Some v.
Proof.
  intros Hv. unfold deserialize, serialize, min_size.
  rewrite bool_decide_false by (rewrite length_app, cenc_length by done; lia).
  by rewrite cdec_enc.
Qed.

Lemma deserialize_Some b v :
  deserialize b = Some v ->
  (min_size <= length b)%nat /\ cwf c v /\ serialize v = take min_size b.
Proof.
  unfold deserialize, serialize, min_size.
  case_bool_decide; intros [= <-].
  split_and!; [lia|apply cdec_wf; lia|apply cenc_dec; lia].
Qed.
End pod.
End PodData.
