(* ===== verification/Wire.v ===== *)
(** * Wire types

    The frame header and connection types of [sdk/types.h] and the packed payload structs
    of [core/data/messages.hpp].  Every struct is a record with the source's field names
    (prefixed) and a [codec] giving its packed little-endian layout; the helpers
    [set_schemes]/[get_schemes] of [HandshakePayload], the FNV-1a RPC hash and the frame
    codec shared by every transport follow.  The theorems give the sizes the source
    asserts statically, and the round trips of the header and of the scheme list. *)

From Stdlib Require Import ZArith Strings.Byte String Lia.
From stdpp Require Import base list strings numbers.
From S2P Require Import Prelude Codec.

Local Open Scope Z_scope.

(** ** Constants of [sdk/types.h] *)

Definition GN_SIGN_PUBLICKEYBYTES : nat := 32.
Definition GN_SIGN_SECRETKEYBYTES : nat := 64.
Definition GN_SIGN_BYTES : nat := 64.

Definition GNET_MAGIC : Z := 0x474E4554.
Definition GNET_PROTO_VER : Z := 3.
Definition GNET_FLAG_TRUSTED : Z := 0x01.

Definition CONN_ID_INVALID : Z := 0.

Definition MSG_TYPE_SYSTEM : Z := 0.
Definition MSG_TYPE_NOISE_INIT : Z := 1.
Definition MSG_TYPE_NOISE_RESP : Z := 2.
Definition MSG_TYPE_NOISE_FIN : Z := 3.
Definition MSG_TYPE_HEARTBEAT : Z := 4.
Definition MSG_TYPE_RELAY : Z := 10.
Definition MSG_TYPE_ICE_SIGNAL : Z := 11.
Definition MSG_TYPE_SYS_BASE : Z := 0x0100.
Definition MSG_TYPE_SYS_MAX : Z := 0x0FFF.
Definition MSG_TYPE_SYS_STORE_PUT : Z := 0x0600.
Definition MSG_TYPE_SYS_STORE_GET : Z := 0x0601.
Definition MSG_TYPE_SYS_STORE_RESULT : Z := 0x0602.
Definition MSG_TYPE_SYS_STORE_DELETE : Z := 0x0603.
Definition MSG_TYPE_SYS_STORE_SUBSCRIBE : Z := 0x0604.
Definition MSG_TYPE_SYS_STORE_NOTIFY : Z := 0x0605.
Definition MSG_TYPE_SYS_STORE_SYNC : Z := 0x0606.

Definition EP_FLAG_TRUSTED : Z := 0x01.
Definition EP_FLAG_OUTBOUND : Z := 0x02.

Inductive conn_state_t :=
  | STATE_CONNECTING
  | STATE_NOISE_HANDSHAKE
  | STATE_ESTABLISHED
  | STATE_CLOSING
  | STATE_CLOSED.

#[export] Instance conn_state_eq_dec : EqDecision conn_state_t.
Proof. solve_decision. Defined.

Inductive propagation_t :=
  | PROPAGATION_CONTINUE
  | PROPAGATION_CONSUMED
  | PROPAGATION_REJECT.

#[export] Instance propagation_eq_dec : EqDecision propagation_t.
Proof. solve_decision. Defined.

(** Remote peer descriptor ([endpoint_t]); [address] is the NUL-terminated text. *)
Record endpoint_t := mk_endpoint {
  ep_address : string;
  ep_port : Z;
  ep_pubkey : bytes;
  ep_peer_id : Z;
  ep_flags : Z;
}.

(** ** Frame header *)

(** The 20-byte frame header (protocol version 3). *)
Record header_t := mk_header_t {
  hdr_magic : Z;
  hdr_proto_ver : Z;
  hdr_flags : Z;
  hdr_payload_type : Z;
  hdr_payload_len : Z;
  hdr_packet_id : Z;
}.

Definition header_t_codec : codec header_t :=
  cstruct
    (fun '(x0, (x1, (x2, (x3, (x4, x5))))) => mk_header_t x0 x1 x2 x3 x4 x5)
    (fun s => (hdr_magic s, (hdr_proto_ver s, (hdr_flags s, (hdr_payload_type s,
     (hdr_payload_len s, hdr_packet_id s))))))
    (cuint 4 *** cuint 1 *** cuint 1 *** cuint 2 *** cuint 4 *** cuint 8)%gn.

#[export] Instance header_t_ok : CodecOk header_t_codec.
Proof. solve_struct. Qed.

(** ** Payload structs of [core/data/messages.hpp] *)

Definition CORE_CAP_ZSTD : Z := Z.shiftl 1 0.
Definition CORE_CAP_ICE : Z := Z.shiftl 1 1.
Definition CORE_CAP_KEYROT : Z := Z.shiftl 1 2.
Definition CORE_CAP_RELAY : Z := Z.shiftl 1 3.

Definition HANDSHAKE_MAX_SCHEMES : nat := 8.
Definition HANDSHAKE_SCHEME_LEN : nat := 16.
Definition HEARTBEAT_MAX_PATHS : nat := 8.
Definition STORE_KEY_MAX_LEN : Z := 128.
Definition STORE_VALUE_MAX_LEN : Z := 4096.

(** Peer capability block embedded in the handshake payload. *)
Record CoreMeta := mk_CoreMeta {
  cm_core_version : Z;
  cm_caps_mask : Z;
}.

Definition CoreMeta_codec : codec CoreMeta :=
  cstruct
    (fun '(x0, x1) => mk_CoreMeta x0 x1)
    (fun s => (cm_core_version s, cm_caps_mask s))
    (cuint 4 *** cuint 4)%gn.

#[export] Instance CoreMeta_ok : CodecOk CoreMeta_codec.
Proof. solve_struct. Qed.

(** Identity payload of Noise msg2 and msg3; [schemes] is [char\[8\]\[16\]]. *)
Record HandshakePayload := mk_HandshakePayload {
  hp_user_pubkey : bytes;
  hp_device_pubkey : bytes;
  hp_signature : bytes;
  hp_schemes_count : Z;
  hp_schemes : list bytes;
  hp_core_meta : CoreMeta;
}.

Definition HandshakePayload_codec : codec HandshakePayload :=
  cstruct
    (fun '(x0, (x1, (x2, (x3, (x4, x5))))) => mk_HandshakePayload x0 x1 x2 x3 x4 x5)
    (fun s => (hp_user_pubkey s, (hp_device_pubkey s, (hp_signature s, (hp_schemes_count
     s, (hp_schemes s, hp_core_meta s))))))
    (carr 32 *** carr 32 *** carr 64 *** cuint 1 *** cvec 8 (carr 16) ***
       CoreMeta_codec)%gn.

#[export] Instance HandshakePayload_ok : CodecOk HandshakePayload_codec.
Proof. solve_struct. Qed.

(** Keepalive ping (flags 0x00) or pong (flags 0x01). *)
Record HeartbeatPayload := mk_HeartbeatPayload {
  hb_timestamp_us : Z;
  hb_seq : Z;
  hb_flags : Z;
  hb__pad : bytes;
}.

Definition HeartbeatPayload_codec : codec HeartbeatPayload :=
  cstruct
    (fun '(x0, (x1, (x2, x3))) => mk_HeartbeatPayload x0 x1 x2 x3)
    (fun s => (hb_timestamp_us s, (hb_seq s, (hb_flags s, hb__pad s))))
    (cuint 8 *** cuint 4 *** cuint 1 *** carr 3)%gn.

#[export] Instance HeartbeatPayload_ok : CodecOk HeartbeatPayload_codec.
Proof. solve_struct. Qed.

(** Heartbeat extension header. *)
Record HeartbeatTransportInfo := mk_HeartbeatTransportInfo {
  hti_path_count : Z;
}.

Definition HeartbeatTransportInfo_codec : codec HeartbeatTransportInfo :=
  cstruct
    (mk_HeartbeatTransportInfo)
    (fun s => hti_path_count s)
    (cuint 1)%gn.

#[export] Instance HeartbeatTransportInfo_ok : CodecOk HeartbeatTransportInfo_codec.
Proof. solve_struct. Qed.

(** One transport path in the heartbeat extension. *)
Record HeartbeatPathEntry := mk_HeartbeatPathEntry {
  hpe_scheme : bytes;
  hpe_active : Z;
  hpe_priority : Z;
  hpe_rtt_compressed : Z;
}.

Definition HeartbeatPathEntry_codec : codec HeartbeatPathEntry :=
  cstruct
    (fun '(x0, (x1, (x2, x3))) => mk_HeartbeatPathEntry x0 x1 x2 x3)
    (fun s => (hpe_scheme s, (hpe_active s, (hpe_priority s, hpe_rtt_compressed s))))
    (carr 16 *** cuint 1 *** cuint 1 *** cuint 2)%gn.

#[export] Instance HeartbeatPathEntry_ok : CodecOk HeartbeatPathEntry_codec.
Proof. solve_struct. Qed.

(** Gossip relay wrapper; the inner frame follows. *)
Record RelayPayload := mk_RelayPayload {
  rp_ttl : Z;
  rp_dest_pubkey : bytes;
}.

Definition RelayPayload_codec : codec RelayPayload :=
  cstruct
    (fun '(x0, x1) => mk_RelayPayload x0 x1)
    (fun s => (rp_ttl s, rp_dest_pubkey s))
    (cuint 1 *** carr 32)%gn.

#[export] Instance RelayPayload_ok : CodecOk RelayPayload_codec.
Proof. solve_struct. Qed.

(** ICE signalling header; [sdp_len] bytes follow. *)
Record IceSignalPayload := mk_IceSignalPayload {
  isp_kind : Z;
  isp__pad : bytes;
  isp_sdp_len : Z;
}.

Definition IceSignalPayload_codec : codec IceSignalPayload :=
  cstruct
    (fun '(x0, (x1, x2)) => mk_IceSignalPayload x0 x1 x2)
    (fun s => (isp_kind s, (isp__pad s, isp_sdp_len s)))
    (cuint 1 *** carr 3 *** cuint 4)%gn.

#[export] Instance IceSignalPayload_ok : CodecOk IceSignalPayload_codec.
Proof. solve_struct. Qed.

(** DHT ping. *)
Record DhtPingPayload := mk_DhtPingPayload {
  dp_request_id : Z;
  dp_sender_pubkey : bytes;
  dp_listen_port : Z;
  dp__pad : bytes;
}.

Definition DhtPingPayload_codec : codec DhtPingPayload :=
  cstruct
    (fun '(x0, (x1, (x2, x3))) => mk_DhtPingPayload x0 x1 x2 x3)
    (fun s => (dp_request_id s, (dp_sender_pubkey s, (dp_listen_port s, dp__pad s))))
    (cuint 8 *** carr 32 *** cuint 2 *** carr 2)%gn.

#[export] Instance DhtPingPayload_ok : CodecOk DhtPingPayload_codec.
Proof. solve_struct. Qed.

(** DHT find_node; [response_count] entries follow. *)
Record DhtFindNodePayload := mk_DhtFindNodePayload {
  df_request_id : Z;
  df_target_pubkey : bytes;
  df_k : Z;
  df_response_count : Z;
  df__pad : bytes;
}.

Definition DhtFindNodePayload_codec : codec DhtFindNodePayload :=
  cstruct
    (fun '(x0, (x1, (x2, (x3, x4)))) => mk_DhtFindNodePayload x0 x1 x2 x3 x4)
    (fun s => (df_request_id s, (df_target_pubkey s, (df_k s, (df_response_count s,
     df__pad s)))))
    (cuint 8 *** carr 32 *** cuint 1 *** cuint 1 *** carr 2)%gn.

#[export] Instance DhtFindNodePayload_ok : CodecOk DhtFindNodePayload_codec.
Proof. solve_struct. Qed.

(** DHT node entry. *)
Record DhtNodeEntry := mk_DhtNodeEntry {
  dn_pubkey : bytes;
  dn_address : bytes;
  dn_port : Z;
  dn__pad : bytes;
}.

Definition DhtNodeEntry_codec : codec DhtNodeEntry :=
  cstruct
    (fun '(x0, (x1, (x2, x3))) => mk_DhtNodeEntry x0 x1 x2 x3)
    (fun s => (dn_pubkey s, (dn_address s, (dn_port s, dn__pad s))))
    (carr 32 *** carr 64 *** cuint 2 *** carr 2)%gn.

#[export] Instance DhtNodeEntry_ok : CodecOk DhtNodeEntry_codec.
Proof. solve_struct. Qed.

(** DHT announce. *)
Record DhtAnnouncePayload := mk_DhtAnnouncePayload {
  da_pubkey : bytes;
  da_address : bytes;
  da_port : Z;
  da_flags : Z;
  da__pad : bytes;
}.

Definition DhtAnnouncePayload_codec : codec DhtAnnouncePayload :=
  cstruct
    (fun '(x0, (x1, (x2, (x3, x4)))) => mk_DhtAnnouncePayload x0 x1 x2 x3 x4)
    (fun s => (da_pubkey s, (da_address s, (da_port s, (da_flags s, da__pad s)))))
    (carr 32 *** carr 64 *** cuint 2 *** cuint 1 *** carr 1)%gn.

#[export] Instance DhtAnnouncePayload_ok : CodecOk DhtAnnouncePayload_codec.
Proof. solve_struct. Qed.

(** Health ping. *)
Record HealthPingPayload := mk_HealthPingPayload {
  hping_timestamp_us : Z;
  hping_seq : Z;
  hping_connection_count : Z;
}.

Definition HealthPingPayload_codec : codec HealthPingPayload :=
  cstruct
    (fun '(x0, (x1, x2)) => mk_HealthPingPayload x0 x1 x2)
    (fun s => (hping_timestamp_us s, (hping_seq s, hping_connection_count s)))
    (cuint 8 *** cuint 4 *** cuint 4)%gn.

#[export] Instance HealthPingPayload_ok : CodecOk HealthPingPayload_codec.
Proof. solve_struct. Qed.

(** Health report. *)
Record HealthReportPayload := mk_HealthReportPayload {
  hr_uptime_s : Z;
  hr_connections : Z;
  hr_rx_bytes_sec : Z;
  hr_tx_bytes_sec : Z;
  hr_cpu_percent : Z;
  hr_mem_mb : Z;
  hr_latency_p50_us : Z;
  hr_latency_p99_us : Z;
}.

Definition HealthReportPayload_codec : codec HealthReportPayload :=
  cstruct
    (fun '(x0, (x1, (x2, (x3, (x4, (x5, (x6, x7))))))) => mk_HealthReportPayload x0 x1 x2
     x3 x4 x5 x6 x7)
    (fun s => (hr_uptime_s s, (hr_connections s, (hr_rx_bytes_sec s, (hr_tx_bytes_sec s,
     (hr_cpu_percent s, (hr_mem_mb s, (hr_latency_p50_us s, hr_latency_p99_us s))))))))
    (cuint 8 *** cuint 4 *** cuint 4 *** cuint 4 *** cuint 2 *** cuint 2 *** cuint 4
       *** cuint 4)%gn.

#[export] Instance HealthReportPayload_ok : CodecOk HealthReportPayload_codec.
Proof. solve_struct. Qed.

(** RPC request; payload bytes follow. *)
Record RpcRequestPayload := mk_RpcRequestPayload {
  rreq_request_id : Z;
  rreq_method_hash : Z;
  rreq_timeout_ms : Z;
}.

Definition RpcRequestPayload_codec : codec RpcRequestPayload :=
  cstruct
    (fun '(x0, (x1, x2)) => mk_RpcRequestPayload x0 x1 x2)
    (fun s => (rreq_request_id s, (rreq_method_hash s, rreq_timeout_ms s)))
    (cuint 8 *** cuint 4 *** cuint 4)%gn.

#[export] Instance RpcRequestPayload_ok : CodecOk RpcRequestPayload_codec.
Proof. solve_struct. Qed.

(** RPC response; payload bytes follow. *)
Record RpcResponsePayload := mk_RpcResponsePayload {
  rresp_request_id : Z;
  rresp_status : Z;
  rresp__reserved : Z;
}.

Definition RpcResponsePayload_codec : codec RpcResponsePayload :=
  cstruct
    (fun '(x0, (x1, x2)) => mk_RpcResponsePayload x0 x1 x2)
    (fun s => (rresp_request_id s, (rresp_status s, rresp__reserved s)))
    (cuint 8 *** cuint 4 *** cuint 4)%gn.

#[export] Instance RpcResponsePayload_ok : CodecOk RpcResponsePayload_codec.
Proof. solve_struct. Qed.

(** Route announcement. *)
Record RouteAnnouncePayload := mk_RouteAnnouncePayload {
  ra_dest_pubkey : bytes;
  ra_via_pubkey : bytes;
  ra_hop_count : Z;
  ra_flags : Z;
  ra_ttl_sec : Z;
  ra_seq_num : Z;
}.

Definition RouteAnnouncePayload_codec : codec RouteAnnouncePayload :=
  cstruct
    (fun '(x0, (x1, (x2, (x3, (x4, x5))))) => mk_RouteAnnouncePayload x0 x1 x2 x3 x4 x5)
    (fun s => (ra_dest_pubkey s, (ra_via_pubkey s, (ra_hop_count s, (ra_flags s,
     (ra_ttl_sec s, ra_seq_num s))))))
    (carr 32 *** carr 32 *** cuint 1 *** cuint 1 *** cuint 2 *** cuint 4)%gn.

#[export] Instance RouteAnnouncePayload_ok : CodecOk RouteAnnouncePayload_codec.
Proof. solve_struct. Qed.

(** Route query. *)
Record RouteQueryPayload := mk_RouteQueryPayload {
  rq_request_id : Z;
  rq_target_pubkey : bytes;
  rq_is_response : Z;
  rq_hop_count : Z;
  rq__pad : bytes;
}.

Definition RouteQueryPayload_codec : codec RouteQueryPayload :=
  cstruct
    (fun '(x0, (x1, (x2, (x3, x4)))) => mk_RouteQueryPayload x0 x1 x2 x3 x4)
    (fun s => (rq_request_id s, (rq_target_pubkey s, (rq_is_response s, (rq_hop_count s,
     rq__pad s)))))
    (cuint 8 *** carr 32 *** cuint 1 *** cuint 1 *** carr 2)%gn.

#[export] Instance RouteQueryPayload_ok : CodecOk RouteQueryPayload_codec.
Proof. solve_struct. Qed.

(** Tunnel configuration. *)
Record TunConfigPayload := mk_TunConfigPayload {
  tc_tunnel_id : Z;
  tc_virtual_ip : bytes;
  tc_netmask : bytes;
  tc_gateway_pubkey : bytes;
  tc_mtu : Z;
  tc_flags : Z;
  tc__pad : bytes;
}.

Definition TunConfigPayload_codec : codec TunConfigPayload :=
  cstruct
    (fun '(x0, (x1, (x2, (x3, (x4, (x5, x6)))))) => mk_TunConfigPayload x0 x1 x2 x3 x4 x5
     x6)
    (fun s => (tc_tunnel_id s, (tc_virtual_ip s, (tc_netmask s, (tc_gateway_pubkey s,
     (tc_mtu s, (tc_flags s, tc__pad s)))))))
    (cuint 4 *** carr 4 *** carr 4 *** carr 32 *** cuint 2 *** cuint 1 *** carr 1)%gn.

#[export] Instance TunConfigPayload_ok : CodecOk TunConfigPayload_codec.
Proof. solve_struct. Qed.

(** Tunnel data; [ip_len] bytes follow. *)
Record TunDataPayload := mk_TunDataPayload {
  td_tunnel_id : Z;
  td_ip_len : Z;
  td__pad : bytes;
}.

Definition TunDataPayload_codec : codec TunDataPayload :=
  cstruct
    (fun '(x0, (x1, x2)) => mk_TunDataPayload x0 x1 x2)
    (fun s => (td_tunnel_id s, (td_ip_len s, td__pad s)))
    (cuint 4 *** cuint 2 *** carr 2)%gn.

#[export] Instance TunDataPayload_ok : CodecOk TunDataPayload_codec.
Proof. solve_struct. Qed.

(** MSG_TYPE_SYS_STORE_PUT; key and value follow. *)
Record StorePutPayload := mk_StorePutPayload {
  sp_request_id : Z;
  sp_ttl_s : Z;
  sp_key_len : Z;
  sp_value_len : Z;
  sp_flags : Z;
  sp__pad : bytes;
}.

Definition StorePutPayload_codec : codec StorePutPayload :=
  cstruct
    (fun '(x0, (x1, (x2, (x3, (x4, x5))))) => mk_StorePutPayload x0 x1 x2 x3 x4 x5)
    (fun s => (sp_request_id s, (sp_ttl_s s, (sp_key_len s, (sp_value_len s, (sp_flags s,
     sp__pad s))))))
    (cuint 8 *** cuint 8 *** cuint 2 *** cuint 2 *** cuint 1 *** carr 3)%gn.

#[export] Instance StorePutPayload_ok : CodecOk StorePutPayload_codec.
Proof. solve_struct. Qed.

(** MSG_TYPE_SYS_STORE_GET; the key follows. *)
Record StoreGetPayload := mk_StoreGetPayload {
  sg_request_id : Z;
  sg_key_len : Z;
  sg_query_type : Z;
  sg__pad : bytes;
  sg_max_results : Z;
}.

Definition StoreGetPayload_codec : codec StoreGetPayload :=
  cstruct
    (fun '(x0, (x1, (x2, (x3, x4)))) => mk_StoreGetPayload x0 x1 x2 x3 x4)
    (fun s => (sg_request_id s, (sg_key_len s, (sg_query_type s, (sg__pad s,
     sg_max_results s)))))
    (cuint 8 *** cuint 2 *** cuint 1 *** carr 1 *** cuint 4)%gn.

#[export] Instance StoreGetPayload_ok : CodecOk StoreGetPayload_codec.
Proof. solve_struct. Qed.

(** MSG_TYPE_SYS_STORE_RESULT; entries follow. *)
Record StoreResultPayload := mk_StoreResultPayload {
  sr_request_id : Z;
  sr_entry_count : Z;
  sr_status : Z;
  sr__pad : bytes;
  sr_total_count : Z;
}.

Definition StoreResultPayload_codec : codec StoreResultPayload :=
  cstruct
    (fun '(x0, (x1, (x2, (x3, x4)))) => mk_StoreResultPayload x0 x1 x2 x3 x4)
    (fun s => (sr_request_id s, (sr_entry_count s, (sr_status s, (sr__pad s,
     sr_total_count s)))))
    (cuint 8 *** cuint 1 *** cuint 1 *** carr 2 *** cuint 4)%gn.

#[export] Instance StoreResultPayload_ok : CodecOk StoreResultPayload_codec.
Proof. solve_struct. Qed.

(** One entry of a RESULT or SYNC payload; key and value follow. *)
Record StoreEntry := mk_StoreEntry {
  se_key_len : Z;
  se_value_len : Z;
  se_timestamp_us : Z;
  se_ttl_s : Z;
  se_flags : Z;
  se__pad : bytes;
}.

Definition StoreEntry_codec : codec StoreEntry :=
  cstruct
    (fun '(x0, (x1, (x2, (x3, (x4, x5))))) => mk_StoreEntry x0 x1 x2 x3 x4 x5)
    (fun s => (se_key_len s, (se_value_len s, (se_timestamp_us s, (se_ttl_s s, (se_flags
     s, se__pad s))))))
    (cuint 2 *** cuint 2 *** cuint 8 *** cuint 8 *** cuint 1 *** carr 3)%gn.

#[export] Instance StoreEntry_ok : CodecOk StoreEntry_codec.
Proof. solve_struct. Qed.

(** MSG_TYPE_SYS_STORE_DELETE; the key follows. *)
Record StoreDeletePayload := mk_StoreDeletePayload {
  sd_request_id : Z;
  sd_key_len : Z;
  sd__pad : bytes;
}.

Definition StoreDeletePayload_codec : codec StoreDeletePayload :=
  cstruct
    (fun '(x0, (x1, x2)) => mk_StoreDeletePayload x0 x1 x2)
    (fun s => (sd_request_id s, (sd_key_len s, sd__pad s)))
    (cuint 8 *** cuint 2 *** carr 6)%gn.

#[export] Instance StoreDeletePayload_ok : CodecOk StoreDeletePayload_codec.
Proof. solve_struct. Qed.

(** MSG_TYPE_SYS_STORE_SUBSCRIBE; the key follows. *)
Record StoreSubscribePayload := mk_StoreSubscribePayload {
  ss_request_id : Z;
  ss_key_len : Z;
  ss_action : Z;
  ss_query_type : Z;
  ss__pad : bytes;
}.

Definition StoreSubscribePayload_codec : codec StoreSubscribePayload :=
  cstruct
    (fun '(x0, (x1, (x2, (x3, x4)))) => mk_StoreSubscribePayload x0 x1 x2 x3 x4)
    (fun s => (ss_request_id s, (ss_key_len s, (ss_action s, (ss_query_type s, ss__pad
     s)))))
    (cuint 8 *** cuint 2 *** cuint 1 *** cuint 1 *** carr 4)%gn.

#[export] Instance StoreSubscribePayload_ok : CodecOk StoreSubscribePayload_codec.
Proof. solve_struct. Qed.

(** MSG_TYPE_SYS_STORE_NOTIFY; an entry follows. *)
Record StoreNotifyPayload := mk_StoreNotifyPayload {
  sn_event : Z;
  sn__pad : bytes;
  sn_timestamp_us : Z;
}.

Definition StoreNotifyPayload_codec : codec StoreNotifyPayload :=
  cstruct
    (fun '(x0, (x1, x2)) => mk_StoreNotifyPayload x0 x1 x2)
    (fun s => (sn_event s, (sn__pad s, sn_timestamp_us s)))
    (cuint 1 *** carr 3 *** cuint 8)%gn.

#[export] Instance StoreNotifyPayload_ok : CodecOk StoreNotifyPayload_codec.
Proof. solve_struct. Qed.

(** MSG_TYPE_SYS_STORE_SYNC; entries follow. *)
Record StoreSyncPayload := mk_StoreSyncPayload {
  sy_request_id : Z;
  sy_sync_type : Z;
  sy_entry_count : Z;
  sy__pad : bytes;
  sy_since_timestamp : Z;
}.

Definition StoreSyncPayload_codec : codec StoreSyncPayload :=
  cstruct
    (fun '(x0, (x1, (x2, (x3, x4)))) => mk_StoreSyncPayload x0 x1 x2 x3 x4)
    (fun s => (sy_request_id s, (sy_sync_type s, (sy_entry_count s, (sy__pad s,
     sy_since_timestamp s)))))
    (cuint 8 *** cuint 1 *** cuint 1 *** carr 2 *** cuint 8)%gn.

#[export] Instance StoreSyncPayload_ok : CodecOk StoreSyncPayload_codec.
Proof. solve_struct. Qed.


(** ** [HandshakePayload] helpers *)

(** One row written by [strncpy(schemes\[i\], ..., 15)] and its forced terminator. *)
Definition scheme_row (s : string) : bytes := strncpy s (HANDSHAKE_SCHEME_LEN - 1) ++ [x00].

(** A row past [schemes_count]: only its first byte is cleared. *)
Definition clear_row (r : bytes) : bytes := <[0%nat := x00]> r.

Definition set_schemes (sv : list string) (hp : HandshakePayload) : HandshakePayload :=
  let cnt := Nat.min (length sv) HANDSHAKE_MAX_SCHEMES in
  mk_HandshakePayload (hp_user_pubkey hp) (hp_device_pubkey hp) (hp_signature hp)
    (Z.of_nat cnt)
    (map scheme_row (take cnt sv) ++ map clear_row (drop cnt (hp_schemes hp)))
    (hp_core_meta hp).

(** The memory that follows [schemes\[0\]] inside the struct. *)
Definition schemes_region (hp : HandshakePayload) : bytes :=
  concat (hp_schemes hp) ++ cenc CoreMeta_codec (hp_core_meta hp).

(** [out.emplace_back(schemes\[i\])] reads a C string at row [i].  [None] is a read outside
    the object: a row index past the array, or no terminator before the end of the struct. *)
Definition get_scheme (hp : HandshakePayload) (i : nat) : option string :=
  if bool_decide (i < HANDSHAKE_MAX_SCHEMES)%nat then
    let m := drop (HANDSHAKE_SCHEME_LEN * i) (schemes_region hp) in
    if has_nul m then Some (bytes_str (until_nul m)) else None
  else None.

Definition get_schemes (hp : HandshakePayload) : option (list string) :=
  mapM (get_scheme hp) (seq 0 (Z.to_nat (hp_schemes_count hp))).

(** What the peer sees of a scheme name: its C string, cut to 15 bytes. *)
Definition clip_scheme (s : string) : string :=
  bytes_str (take (HANDSHAKE_SCHEME_LEN - 1) (until_nul (str_bytes s))).

(** ** FNV-1a hash of RPC method names; [char] is signed on the supported targets. *)
Definition char_u32 (b : byte) : Z := if b2z b <? 128 then b2z b else b2z b + 2 ^ 32 - 256.

Fixpoint rpc_hash_from (h : Z) (s : bytes) : Z :=
  match s with
  | [] => h
  | b :: s => rpc_hash_from (u32 (Z.lxor h (char_u32 b) * 16777619)) s
  end.

Definition gn_rpc_hash (s : bytes) : Z := rpc_hash_from 2166136261 s.

(** ** Frames: a header followed by its payload *)

Definition HDR_SIZE : nat := csize header_t_codec.

Definition frame_bytes (h : header_t) (payload : bytes) : bytes :=
  cenc header_t_codec h ++ payload.

(** [reinterpret_cast<const header_t*>]: the header view of a buffer of at least 20 bytes. *)
Definition view_header (bs : bytes) : header_t := cdec header_t_codec bs.

Definition header_wf (h : header_t) : Prop := cwf header_t_codec h.

(** ** Lemmas *)

Lemma clear_row_length r : length (clear_row r) = length r.
Proof. apply length_insert. Qed.

Lemma scheme_row_length s : length (scheme_row s) = HANDSHAKE_SCHEME_LEN.
Proof. unfold scheme_row. rewrite length_app, length_strncpy. done. Qed.

Lemma scheme_row_read s k :
  until_nul (scheme_row s ++ k) = take (HANDSHAKE_SCHEME_LEN - 1) (until_nul (str_bytes s)).
Proof.
  unfold scheme_row, strncpy. set (src := take _ _).
  assert (x00 ∉ src) as Hsrc.
  { intros Hin. subst src. apply elem_of_take in Hin as (i & Hi & _).
    apply list_elem_of_lookup_2 in Hi. by apply until_nul_no_nul in Hi. }
  rewrite <-!app_assoc.
  destruct (HANDSHAKE_SCHEME_LEN - 1 - length src)%nat as [|n]; simpl;
    by apply until_nul_app_nul.
Qed.

Lemma scheme_row_has_nul s k : has_nul (scheme_row s ++ k) = true.
Proof.
  unfold scheme_row. rewrite !has_nul_app. simpl. by rewrite orb_true_r.
Qed.

(** Row [i] of a concatenation of equal-length rows. *)
Lemma drop_concat_rows (w : nat) (rows : list bytes) (i : nat) (r k : bytes) :
  Forall (fun x => length x = w) rows -> rows !! i = Some r ->
  exists rest, drop (w * i) (concat rows ++ k) = r ++ rest.
Proof.
  intros Hf. revert i. induction Hf as [|x rows Hx Hf IH]; intros i Hi; [done|].
  destruct i as [|i]; simpl in *.
  - injection Hi as ->. rewrite Nat.mul_0_r. exists (concat rows ++ k).
    by rewrite drop_0, app_assoc.
  - destruct (IH _ Hi) as [rest Hr]. exists rest. rewrite <-Hr.
    rewrite <-app_assoc, drop_app_ge by lia. f_equal. lia.
Qed.

Lemma set_schemes_rows sv hp :
  Forall (fun x => length x = HANDSHAKE_SCHEME_LEN) (hp_schemes hp) ->
  Forall (fun x => length x = HANDSHAKE_SCHEME_LEN) (hp_schemes (set_schemes sv hp)).
Proof.
  intros Hf. simpl. apply Forall_app. split.
  - apply Forall_map, Forall_forall. intros. apply scheme_row_length.
  - apply Forall_map. apply Forall_drop. revert Hf. apply Forall_impl.
    intros x Hx. by rewrite clear_row_length.
Qed.

Lemma get_scheme_set sv hp i s :
  Forall (fun x => length x = HANDSHAKE_SCHEME_LEN) (hp_schemes hp) ->
  take HANDSHAKE_MAX_SCHEMES sv !! i = Some s ->
  get_scheme (set_schemes sv hp) i = Some (clip_scheme s).
Proof.
  intros Hf Hi.
  assert (i < HANDSHAKE_MAX_SCHEMES)%nat as Hlt.
  { apply lookup_lt_Some in Hi. rewrite length_take in Hi. lia. }
  unfold get_scheme. rewrite bool_decide_true by done.
  destruct (drop_concat_rows HANDSHAKE_SCHEME_LEN (hp_schemes (set_schemes sv hp)) i
              (scheme_row s) (cenc CoreMeta_codec (hp_core_meta (set_schemes sv hp))))
    as [rest Hr]; [by apply set_schemes_rows| |].
  - simpl. apply lookup_app_l_Some. rewrite list_lookup_fmap.
    rewrite lookup_take_lt in Hi by done.
    rewrite lookup_take_lt by (apply lookup_lt_Some in Hi; lia).
    by rewrite Hi.
  - unfold schemes_region. rewrite Hr, scheme_row_has_nul, scheme_row_read. done.
Qed.

Lemma set_schemes_wf sv hp :
  cwf HandshakePayload_codec hp -> cwf HandshakePayload_codec (set_schemes sv hp).
Proof.
  intros (Hu & Hd & Hs & _ & [Hl Hf] & Hm).
  refine (conj Hu (conj Hd (conj Hs (conj _ (conj (conj _ _) Hm))))).
  - change (fits 8 (Z.of_nat (Nat.min (length sv) HANDSHAKE_MAX_SCHEMES))).
    unfold fits, HANDSHAKE_MAX_SCHEMES. lia.
  - simpl in *. rewrite length_app, !length_map, length_take, length_drop, Hl.
    unfold HANDSHAKE_MAX_SCHEMES. lia.
  - by apply set_schemes_rows.
Qed.

Lemma get_schemes_set sv hp :
  cwf HandshakePayload_codec hp ->
  get_schemes (set_schemes sv hp) = Some (map clip_scheme (take HANDSHAKE_MAX_SCHEMES sv)).
Proof.
  intros Hwf. destruct Hwf as (_ & _ & _ & _ & [_ Hf] & _).
  unfold get_schemes. simpl hp_schemes_count. rewrite Nat2Z.id.
  apply mapM_Some_2. apply Forall2_same_length_lookup. split.
  - by rewrite length_seq, length_map, length_take, Nat.min_comm.
  - intros i x y Hx Hy.
    apply lookup_seq in Hx as [-> Hlt]. simpl in *.
    apply list_lookup_fmap_Some in Hy as (s & -> & Hs).
    by apply get_scheme_set.
Qed.

Lemma HandshakePayload_wf u d sig n rows meta :
  length u = 32%nat -> length d = 32%nat -> length sig = 64%nat -> fits 8 n ->
  length rows = 8%nat -> Forall (fun r => length r = 16%nat) rows -> cwf CoreMeta_codec meta ->
  cwf HandshakePayload_codec (mk_HandshakePayload u d sig n rows meta).
Proof.
  intros H1 H2 H3 H4 H5 H6 H7.
  exact (conj H1 (conj H2 (conj H3 (conj H4 (conj (conj H5 H6) H7))))).
Qed.

Lemma rpc_hash_from_fits h s : fits 32 h -> fits 32 (rpc_hash_from h s).
Proof.
  revert h. induction s as [|b s IH]; intros h Hh; simpl; [done|].
  apply IH, wrap_fits. lia.
Qed.

Lemma length_frame_bytes h p :
  header_wf h -> length (frame_bytes h p) = (HDR_SIZE + length p)%nat.
Proof. intros. unfold frame_bytes. by rewrite length_app, cenc_length. Qed.

Lemma view_frame h p : header_wf h -> view_header (frame_bytes h p) = h.
Proof. intros. by apply cdec_enc. Qed.

Lemma drop_frame h p : header_wf h -> drop HDR_SIZE (frame_bytes h p) = p.
Proof. intros. unfold frame_bytes. by rewrite drop_app_length' by (by rewrite cenc_length). Qed.

(** ** Properties *)

(** The packed layouts have exactly the sizes the source asserts with [static_assert]
    (and [sizeof(HandshakePayload) = 265], the length of every handshake payload). *)
Theorem layout_sizes :
  HDR_SIZE = 20%nat /\ csize CoreMeta_codec = 8%nat /\
  csize HandshakePayload_codec = 265%nat /\
  csize HeartbeatPayload_codec = 16%nat /\ csize HeartbeatPathEntry_codec = 20%nat /\
  csize RelayPayload_codec = 33%nat /\ csize DhtPingPayload_codec = 44%nat /\
  csize HealthPingPayload_codec = 16%nat /\ csize HealthReportPayload_codec = 32%nat /\
  csize RpcRequestPayload_codec = 16%nat /\ csize RpcResponsePayload_codec = 16%nat /\
  csize RouteAnnouncePayload_codec = 72%nat /\ csize TunConfigPayload_codec = 48%nat /\
  csize TunDataPayload_codec = 8%nat /\ csize StorePutPayload_codec = 24%nat /\
  csize StoreGetPayload_codec = 16%nat /\ csize StoreResultPayload_codec = 16%nat /\
  csize StoreEntry_codec = 24%nat /\ csize StoreDeletePayload_codec = 16%nat /\
  csize StoreSubscribePayload_codec = 16%nat /\ csize StoreNotifyPayload_codec = 12%nat /\
  csize StoreSyncPayload_codec = 20%nat.
Proof. split_and!; reflexivity. Qed.

(** Serializing a handshake payload whose schemes were set with [set_schemes] and
    decoding it on the other side yields the first eight scheme names, each cut to its
    15-byte C string, with every read inside the object. *)
Theorem handshake_schemes_roundtrip sv hp rest :
  cwf HandshakePayload_codec hp ->
  get_schemes (cdec HandshakePayload_codec
                 (cenc HandshakePayload_codec (set_schemes sv hp) ++ rest))
  = Some (map clip_scheme (take HANDSHAKE_MAX_SCHEMES sv)).
Proof.
  intros Hwf. rewrite cdec_enc by by apply set_schemes_wf. by apply get_schemes_set.
Qed.

Definition sample_payload : HandshakePayload :=
  mk_HandshakePayload (replicate 32 x01) (replicate 32 x02) (replicate 64 x03) 0
    (replicate 8 (replicate 16 x00)) (mk_CoreMeta 256 13).

Lemma handshake_schemes_roundtrip_witness :
  get_schemes (cdec HandshakePayload_codec
    (cenc HandshakePayload_codec
       (set_schemes ["tcp"; "a-scheme-name-of-24-bytes"]%string sample_payload) ++ [x2a]))
  = Some ["tcp"; "a-scheme-name-o"]%string.
Proof.
  rewrite handshake_schemes_roundtrip; [vm_compute; reflexivity|].
  repeat split; try (vm_compute; congruence). repeat constructor.
Defined.
