(* ===== verification/NonceWindow.v ===== *)
(** * Anti-replay window ([core/types/nonce_window.hpp], [core/cm/transport.cpp])

    [NonceWindow] keeps the highest accepted nonce and a 256-bit map of the nonces just
    below it; [std::bitset<256>] is a [Z] whose bits 256 and up are clear.  The abstract
    specification remembers every accepted nonce.  [accept_refines] is the simulation
    between the two, from which replay safety and the acceptance of fresh in-window nonces
    follow for every sequence of packets. *)

From Stdlib Require Import ZArith Lia.
From stdpp Require Import base list numbers.
From S2P Require Import Prelude.

Local Open Scope Z_scope.

Definition WINDOW_SIZE : Z := 256.

(** ** [std::bitset<WINDOW_SIZE>] *)

Definition bitset_shl (b k : Z) : Z := Z.land (Z.shiftl b k) (Z.ones WINDOW_SIZE).

Record NonceWindow := mk_window {
  highest_nonce : Z;
  bitmap : Z;
}.

Definition window_init : NonceWindow := mk_window 0 0.

(** [NonceWindow::accept]: the verdict and the window after it. *)
Definition accept (nonce : Z) (w : NonceWindow) : bool * NonceWindow :=
  if nonce =? 0 then (false, w)
  else if highest_nonce w =? 0 then (true, mk_window nonce (Z.setbit 0 0))
  else if highest_nonce w <? nonce then
    let shift := nonce - highest_nonce w in
    let bm := if WINDOW_SIZE <=? shift then 0 else bitset_shl (bitmap w) shift in
    (true, mk_window nonce (Z.setbit bm 0))
  else
    let diff := highest_nonce w - nonce in
    if WINDOW_SIZE <=? diff then (false, w)
    else if Z.testbit (bitmap w) diff then (false, w)
    else (true, mk_window (highest_nonce w) (Z.setbit (bitmap w) diff)).

(** [NonceWindow::reset]: used after a rekey. *)
Definition reset (w : NonceWindow) : NonceWindow := window_init.

(** ** Abstract specification: the list of accepted nonces *)

Definition top (seen : list Z) : Z := foldr Z.max 0 seen.

Definition spec_accept (nonce : Z) (seen : list Z) : bool :=
  negb (nonce =? 0) &&
  ((top seen <? nonce) ||
   ((top seen - nonce <? WINDOW_SIZE) && negb (bool_decide (nonce ∈ seen)))).

Definition spec_step (nonce : Z) (seen : list Z) : bool * list Z :=
  if spec_accept nonce seen then (true, nonce :: seen) else (false, seen).

(** Both machines over a sequence of packets. *)
Fixpoint run {S} (step : Z -> S -> bool * S) (s : S) (ns : list Z) : list bool * S :=
  match ns with
  | [] => ([], s)
  | n :: ns =>
      let '(b, s) := step n s in
      let '(bs, s) := run step s ns in
      (b :: bs, s)
  end.

(** The nonces a run accepted, oldest first. *)
Fixpoint accepted (bs : list bool) (ns : list Z) : list Z :=
  match bs, ns with
  | b :: bs, n :: ns => if b then n :: accepted bs ns else accepted bs ns
  | _, _ => []
  end.

(** ** The simulation relation *)

Definition window_rel (seen : list Z) (w : NonceWindow) : Prop :=
  highest_nonce w = top seen /\
  Forall (fun n => 0 < n) seen /\
  (seen <> [] -> forall i, 0 <= i < WINDOW_SIZE ->
     Z.testbit (bitmap w) i = true <-> top seen - i ∈ seen).

Lemma top_nonneg seen : 0 <= top seen.
Proof. induction seen; simpl; lia. Qed.

Lemma top_upper seen n : n ∈ seen -> n <= top seen.
Proof.
  induction seen as [|x seen IH]; [by intros ?%not_elem_of_nil|].
  rewrite elem_of_cons. simpl. intros [->|H]; [lia|]. specialize (IH H). lia.
Qed.

Lemma top_pos seen : Forall (fun n => 0 < n) seen -> seen <> [] -> 0 < top seen.
Proof. intros Hf Hne. destruct Hf as [|x l Hx Hf]; [done|]. simpl. lia. Qed.

Lemma top_zero seen : Forall (fun n => 0 < n) seen -> top seen = 0 -> seen = [].
Proof.
  intros Hf Ht. destruct seen as [|x l]; [done|].
  pose proof (top_pos _ Hf ltac:(done)). lia.
Qed.

Lemma setbit_testbit b k i :
  0 <= k -> 0 <= i -> Z.testbit (Z.setbit b k) i = true <-> i = k \/ Z.testbit b i = true.
Proof.
  intros. rewrite Z.setbit_eqb, orb_true_iff, Z.eqb_eq by lia. naive_solver.
Qed.

Lemma bitset_shl_testbit b k i :
  0 <= k -> 0 <= i < WINDOW_SIZE ->
  Z.testbit (bitset_shl b k) i = true <-> k <= i /\ Z.testbit b (i - k) = true.
Proof.
  intros Hk Hi. unfold bitset_shl.
  rewrite Z.land_spec, Z.shiftl_spec by lia.
  rewrite Z.ones_spec_low by lia. rewrite andb_true_r.
  destruct (Z.le_gt_cases k i).
  - naive_solver.
  - rewrite Z.testbit_neg_r by lia. naive_solver lia.
Qed.

Lemma window_rel_init : window_rel [] window_init.
Proof. split_and!; [done|constructor|done]. Qed.

(** A nonce above everything seen shifts the window. *)
Lemma window_rel_advance seen w n :
  window_rel seen w -> top seen < n -> seen <> [] ->
  window_rel (n :: seen)
    (mk_window n (Z.setbit (if WINDOW_SIZE <=? n - top seen then 0
                            else bitset_shl (bitmap w) (n - top seen)) 0)).
Proof.
  intros (Hh & Hf & Hb) Hn Hne.
  assert (top (n :: seen) = n) as Htop by (simpl; lia).
  pose proof (top_nonneg seen).
  split_and!; [done|constructor; [lia|done]|].
  intros _ i Hi. rewrite Htop. simpl bitmap.
  rewrite setbit_testbit by lia. rewrite elem_of_cons.
  destruct (Z.leb_spec WINDOW_SIZE (n - top seen)).
  - rewrite Z.testbit_0_l. split; [naive_solver lia|].
    intros [?|Hin]; [lia|]. apply top_upper in Hin. lia.
  - rewrite bitset_shl_testbit by lia. split.
    + intros [->|[? Hbit]]; [left; lia|right].
      apply Hb in Hbit; [|done|lia]. by replace (n - i) with (top seen - (i - (n - top seen))) by lia.
    + intros [?|Hin]; [lia|]. right. pose proof (top_upper _ _ Hin). split; [lia|].
      apply Hb; [done|lia|]. by replace (top seen - (i - (n - top seen))) with (n - i) by lia.
Qed.

(** A fresh nonce inside the window sets its bit. *)
Lemma window_rel_mark seen w n :
  window_rel seen w -> 0 < n <= top seen -> top seen - n < WINDOW_SIZE -> seen <> [] ->
  window_rel (n :: seen) (mk_window (top seen) (Z.setbit (bitmap w) (top seen - n))).
Proof.
  intros (Hh & Hf & Hb) Hn Hw Hne.
  assert (top (n :: seen) = top seen) as Htop by (simpl; lia).
  split_and!; [by rewrite Htop|by constructor; [lia|]|].
  intros _ i Hi. rewrite Htop. simpl bitmap.
  rewrite setbit_testbit, elem_of_cons, Hb by (done || lia).
  split; intros [?|?]; [left; lia|by right|left; lia|by right].
Qed.

(** One step of the code is one step of the specification. *)
Lemma accept_simulates seen w n :
  window_rel seen w -> 0 <= n ->
  (accept n w).1 = (spec_step n seen).1 /\
  window_rel (spec_step n seen).2 (accept n w).2.
Proof.
  intros Hrel Hn. pose proof Hrel as (Hh & Hf & Hb).
  unfold accept, spec_step, spec_accept. rewrite Hh.
  destruct (Z.eqb_spec n 0) as [->|Hn0]; [done|]. simpl negb. rewrite andb_true_l.
  destruct (Z.eqb_spec (top seen) 0) as [H0|H0].
  { apply top_zero in H0 as ->; [|done]. simpl.
    destruct (Z.ltb_spec 0 n); [|lia]. simpl. split; [done|].
    split_and!; [simpl; lia|by constructor; [lia|constructor]|].
    intros _ i Hi. simpl bitmap. simpl top. rewrite setbit_testbit by lia.
    rewrite Z.testbit_0_l, list_elem_of_singleton. naive_solver lia. }
  assert (seen <> []) as Hne by (intros ->; simpl in H0; lia).
  destruct (Z.ltb_spec (top seen) n); simpl.
  { split; [done|]. by apply window_rel_advance. }
  destruct (Z.leb_spec WINDOW_SIZE (top seen - n)), (Z.ltb_spec (top seen - n) WINDOW_SIZE);
    try lia; simpl; [done|].
  destruct (Z.testbit (bitmap w) (top seen - n)) eqn:Hbit.
  - apply Hb in Hbit; [|done|lia]. replace (top seen - (top seen - n)) with n in Hbit by lia.
    by rewrite bool_decide_true.
  - rewrite bool_decide_false; simpl; [|intros Hin].
    + split; [done|]. apply window_rel_mark; [done|lia..|done].
    + assert (Z.testbit (bitmap w) (top seen - n) = true); [|congruence].
      apply Hb; [done|lia|]. by replace (top seen - (top seen - n)) with n by lia.
Qed.

(** ** Runs *)

Lemma run_simulates seen w ns :
  window_rel seen w -> Forall (fun n => 0 <= n) ns ->
  (run accept w ns).1 = (run spec_step seen ns).1 /\
  window_rel (run spec_step seen ns).2 (run accept w ns).2.
Proof.
  intros Hrel Hf. revert seen w Hrel.
  induction Hf as [|n ns Hn Hf IH]; intros seen w Hrel; simpl; [done|].
  destruct (accept_simulates _ _ _ Hrel Hn) as [Hb Hrel'].
  destruct (accept n w) as [b w'], (spec_step n seen) as [b' seen']; simpl in *.
  destruct (IH _ _ Hrel') as [Hbs Hrel''].
  destruct (run accept w' ns), (run spec_step seen' ns); simpl in *. by subst.
Qed.

Lemma spec_accept_fresh n seen : spec_accept n seen = true -> n ∉ seen.
Proof.
  unfold spec_accept. rewrite !andb_true_iff, orb_true_iff, andb_true_iff.
  intros [_ [H|[_ H]]].
  - apply Z.ltb_lt in H. intros Hin%top_upper. lia.
  - by apply negb_true_iff, bool_decide_eq_false in H.
Qed.

(** The specification never accepts a nonce twice, from any history. *)
Lemma spec_run_nodup seen ns :
  let bs := (run spec_step seen ns).1 in
  NoDup (accepted bs ns) /\ forall n, n ∈ accepted bs ns -> n ∉ seen.
Proof.
  revert seen. induction ns as [|n ns IH]; intros seen; simpl.
  { split; [constructor|by intros ? ?%not_elem_of_nil]. }
  unfold spec_step at 1 3. destruct (spec_accept n seen) eqn:Ha; simpl.
  - destruct (IH (n :: seen)) as [Hnd Hfr].
    destruct (run spec_step (n :: seen) ns) as [bs s'] eqn:E. simpl in *.
    split.
    + constructor; [|done]. intros Hin%Hfr. apply not_elem_of_cons in Hin. naive_solver.
    + intros m [->|Hin%Hfr]%elem_of_cons; [by apply spec_accept_fresh|].
      by apply not_elem_of_cons in Hin as [_ ?].
  - destruct (IH seen) as [Hnd Hfr].
    destruct (run spec_step seen ns) as [bs s'] eqn:E. simpl in *. done.
Qed.

(** ** Nonces in any order

    From any window on, as long as the nonces stay within a window's width: each that is new is
    accepted, in whatever order they come. *)

(** [seen] are the nonces above [h0] accepted since the highest one was [h0]. *)
Record since (h0 : Z) (seen : list Z) (w : NonceWindow) : Prop := mk_since {
  sn_top : highest_nonce w = h0 \/ highest_nonce w ∈ seen;
  sn_range n : n ∈ seen -> h0 < n <= highest_nonce w;
  sn_bits i : 0 <= i < WINDOW_SIZE -> h0 < highest_nonce w - i -> Z.testbit (bitmap w) i = true ->
    highest_nonce w - i ∈ seen;
}.

Lemma since_start w : since (highest_nonce w) [] w.
Proof. split; [by left|by intros n ?%elem_of_nil|intros; lia]. Qed.

Lemma accept_since h0 seen w n :
  since h0 seen w -> 0 < n -> h0 < n -> n ∉ seen -> highest_nonce w - n < WINDOW_SIZE ->
  exists w', accept n w = (true, w') /\ since h0 (n :: seen) w'.
Proof.
  intros [Ht Hr Hb] Hpos Hn Hnew Hwin. unfold accept. rewrite (proj2 (Z.eqb_neq n 0)) by lia.
  destruct (Z.eqb_spec (highest_nonce w) 0) as [H0|H0].
  { eexists. split; [done|]. split; cbn [highest_nonce bitmap]; [right; left| |].
    - intros m [->|Hm%Hr]%elem_of_cons; lia.
    - intros i Hi _. rewrite setbit_testbit, Z.testbit_0_l by lia. intros [->|?]; [|done]. rewrite Z.sub_0_r. left. }
  destruct (Z.ltb_spec (highest_nonce w) n) as [Hlt|Hge].
  - eexists. split; [done|]. split; cbn [highest_nonce bitmap]; [right; left| |].
    + intros m [->|Hm%Hr]%elem_of_cons; lia.
    + intros i Hi Hlow. rewrite setbit_testbit by lia. intros [->|Hbit]; [rewrite Z.sub_0_r; left|]. right.
      destruct (Z.leb_spec WINDOW_SIZE (n - highest_nonce w)); [by rewrite Z.testbit_0_l in Hbit|].
      apply bitset_shl_testbit in Hbit as [Hk Hbit]; [|lia..]. apply Hb in Hbit; [|lia..].
      by replace (n - i) with (highest_nonce w - (i - (n - highest_nonce w))) by lia.
  - destruct (Z.leb_spec WINDOW_SIZE (highest_nonce w - n)); [lia|].
    destruct (Z.testbit (bitmap w) (highest_nonce w - n)) eqn:Hbit.
    + apply Hb in Hbit; [|lia..]. replace (highest_nonce w - (highest_nonce w - n)) with n in Hbit by lia. done.
    + eexists. split; [done|]. split; cbn [highest_nonce bitmap].
      * destruct Ht as [?|?]; [by left|right; by right].
      * intros m [->|Hm%Hr]%elem_of_cons; lia.
      * intros i Hi Hlow. rewrite setbit_testbit by lia. intros [->|?]; [|right; auto].
        replace (highest_nonce w - (highest_nonce w - n)) with n by lia. left.
Qed.

(** ** Properties *)

(** C6: for every sequence of 64-bit nonces, the bitmap window gives the same verdicts as
    the specification that remembers every accepted nonce (accept if above the highest
    seen, or within 256 below it and not yet accepted; never nonce 0). *)
Theorem accept_refines ns :
  Forall (fits 64) ns ->
  (run accept window_init ns).1 = (run spec_step [] ns).1.
Proof.
  intros Hf. apply run_simulates; [apply window_rel_init|].
  revert Hf. apply Forall_impl. by intros n [? _].
Qed.

Lemma accept_refines_witness :
  (run accept window_init [5; 4; 5; 300; 44; 45]).1 = [true; true; false; true; false; true]
  /\ (run accept window_init [5; 4; 5; 300; 44; 45]).1 = (run spec_step [] [5; 4; 5; 300; 44; 45]).1.
Proof.
  split; [vm_compute; reflexivity|].
  apply accept_refines. repeat (constructor; [unfold fits; lia|]). constructor.
Defined.

(** Replay safety: in any run of the window no nonce is accepted twice. *)
Theorem accept_no_replay ns :
  Forall (fits 64) ns -> NoDup (accepted (run accept window_init ns).1 ns).
Proof.
  intros Hf.
  destruct (run_simulates [] window_init ns window_rel_init) as [-> _].
  { revert Hf. apply Forall_impl. by intros n [? _]. }
  apply spec_run_nodup.
Qed.

Lemma accept_no_replay_witness :
  accepted (run accept window_init [7; 7; 3; 3; 9]).1 [7; 7; 3; 3; 9] = [7; 3; 9]
  /\ NoDup (accepted (run accept window_init [7; 7; 3; 3; 9]).1 [7; 7; 3; 3; 9]).
Proof.
  split; [vm_compute; reflexivity|].
  apply accept_no_replay. repeat (constructor; [unfold fits; lia|]). constructor.
Defined.
