(* ===== verification/Queue.v ===== *)
(** * Per-connection send queue ([PerConnQueue], [core/cm/impl.hpp])

    The sequential operations [try_push] and [drain_batch], and the same code as a step
    relation of several threads: the byte counter is an atomic updated outside the mutex,
    so a reservation, its check, the push and the two halves of a drain interleave freely.
    [queue_bounded] shows that the frames held never exceed the 8 MB limit in any
    interleaving and that the counter accounts for exactly the held and reserved bytes. *)

From Stdlib Require Import ZArith Strings.Byte Lia.
From stdpp Require Import base list numbers relations.
From S2P Require Import Prelude.

Local Open Scope Z_scope.

Definition MAX_BYTES : Z := 8 * 1024 * 1024.

Definition blen (b : bytes) : Z := Z.of_nat (length b).
Definition frames_size (fs : list bytes) : Z := foldr (fun f n => blen f + n) 0 fs.

Record PerConnQueue := mk_queue {
  frames : list bytes;
  pending_bytes : Z;
  draining : bool;
}.

Definition queue_init : PerConnQueue := mk_queue [] 0 false.

(** [try_push]: reserve, check the backpressure limit, roll back or enqueue. *)
Definition try_push (frame : bytes) (q : PerConnQueue) : bool * PerConnQueue :=
  let sz := blen frame in
  let prev := pending_bytes q in
  let reserved := u64 (prev + sz) in
  if MAX_BYTES <? u64 (prev + sz) then
    (false, mk_queue (frames q) (u64 (reserved - sz)) (draining q))
  else (true, mk_queue (frames q ++ [frame]) reserved (draining q)).

(** [drain_batch]: dequeue up to [max_frames] frames. *)
Definition drain_batch (max_frames : nat) (q : PerConnQueue) : list bytes * PerConnQueue :=
  let n := Nat.min (length (frames q)) max_frames in
  let batch := take n (frames q) in
  (batch, mk_queue (drop n (frames q)) (u64 (pending_bytes q - frames_size batch)) (draining q)).

Definition set_draining (q : PerConnQueue) : PerConnQueue :=
  mk_queue (frames q) (pending_bytes q) true.

(** The counter is the size of the held frames, and below the limit. *)
Definition queue_wf (q : PerConnQueue) : Prop :=
  pending_bytes q = frames_size (frames q) /\ pending_bytes q <= MAX_BYTES.

Lemma blen_nonneg b : 0 <= blen b.
Proof. unfold blen. lia. Qed.

Lemma frames_size_nonneg fs : 0 <= frames_size fs.
Proof. induction fs as [|f fs IH]; simpl; [lia|]. pose proof (blen_nonneg f). lia. Qed.

Lemma frames_size_app a b : frames_size (a ++ b) = frames_size a + frames_size b.
Proof. induction a as [|f a IH]; simpl; [done|]. rewrite IH. lia. Qed.

Lemma frames_size_split n fs :
  frames_size fs = frames_size (take n fs) + frames_size (drop n fs).
Proof. by rewrite <-frames_size_app, take_drop. Qed.

Lemma queue_init_wf : queue_wf queue_init.
Proof. split; [done|]. unfold MAX_BYTES. simpl. lia. Qed.

Lemma try_push_wf f q : queue_wf q -> blen f < 2 ^ 63 -> queue_wf (try_push f q).2.
Proof.
  intros [Hp Hle] Hf. unfold try_push, queue_wf.
  pose proof (frames_size_nonneg (frames q)). pose proof (blen_nonneg f).
  rewrite !wrap_small by (unfold fits, MAX_BYTES in *; lia).
  destruct (Z.ltb_spec MAX_BYTES (pending_bytes q + blen f)); simpl.
  - lia.
  - rewrite frames_size_app. simpl. lia.
Qed.

Lemma drain_batch_wf n q : queue_wf q -> queue_wf (drain_batch n q).2.
Proof.
  intros [Hp Hle]. unfold drain_batch, queue_wf. simpl.
  set (k := Nat.min _ _). pose proof (frames_size_split k (frames q)).
  pose proof (frames_size_nonneg (take k (frames q))).
  pose proof (frames_size_nonneg (drop k (frames q))).
  rewrite wrap_small by (unfold fits, MAX_BYTES in *; lia). lia.
Qed.

#[export] Hint Resolve queue_init_wf try_push_wf drain_batch_wf : gn.

(** ** Interleaved execution *)

(** Where one thread stands inside [try_push] or [drain_batch]. *)
Inductive tstate :=
  | TIdle
  | TReserved (f : bytes) (prev : Z)   (* after fetch_add, before the check *)
  | TDrained (n : Z).                  (* mutex held: frames erased, counter not yet lowered *)

Record cqueue := mk_cqueue {
  cq_frames : list bytes;
  cq_pending : Z;
  cq_locked : bool;
  cq_threads : list tstate;
}.

Inductive qstep (max_frame : Z) : cqueue -> cqueue -> Prop :=
  | q_reserve s t f :
      cq_threads s !! t = Some TIdle -> blen f <= max_frame ->
      qstep max_frame s
        (mk_cqueue (cq_frames s) (u64 (cq_pending s + blen f)) (cq_locked s)
           (<[t := TReserved f (cq_pending s)]> (cq_threads s)))
  | q_reject s t f prev :
      cq_threads s !! t = Some (TReserved f prev) -> MAX_BYTES < u64 (prev + blen f) ->
      qstep max_frame s
        (mk_cqueue (cq_frames s) (u64 (cq_pending s - blen f)) (cq_locked s)
           (<[t := TIdle]> (cq_threads s)))
  | q_commit s t f prev :
      cq_threads s !! t = Some (TReserved f prev) -> u64 (prev + blen f) <= MAX_BYTES ->
      cq_locked s = false ->
      qstep max_frame s
        (mk_cqueue (cq_frames s ++ [f]) (cq_pending s) false (<[t := TIdle]> (cq_threads s)))
  | q_drain s t max_frames :
      cq_threads s !! t = Some TIdle -> cq_locked s = false ->
      let n := Nat.min (length (cq_frames s)) max_frames in
      qstep max_frame s
        (mk_cqueue (drop n (cq_frames s)) (cq_pending s) true
           (<[t := TDrained (frames_size (take n (cq_frames s)))]> (cq_threads s)))
  | q_drained s t b :
      cq_threads s !! t = Some (TDrained b) ->
      qstep max_frame s
        (mk_cqueue (cq_frames s) (u64 (cq_pending s - b)) false
           (<[t := TIdle]> (cq_threads s))).

Definition cqueue_init (nthreads : nat) : cqueue :=
  mk_cqueue [] 0 false (replicate nthreads TIdle).

(** Bytes a thread has added to the counter and not yet put in, or taken off, the queue. *)
Definition held (ts : tstate) : Z :=
  match ts with TIdle => 0 | TReserved f _ => blen f | TDrained n => n end.

(** The part of [held] that is, or will be, accounted as queued. *)
Definition committed (ts : tstate) : Z :=
  match ts with
  | TIdle => 0
  | TReserved f prev => if MAX_BYTES <? prev + blen f then 0 else blen f
  | TDrained n => n
  end.

Definition total (g : tstate -> Z) (ts : list tstate) : Z := foldr (fun x n => g x + n) 0 ts.

Lemma total_insert g ts i old new :
  ts !! i = Some old -> total g (<[i := new]> ts) = total g ts - g old + g new.
Proof.
  revert i. induction ts as [|x ts IH]; intros i H; [done|].
  destruct i as [|i]; simpl in *.
  - injection H as ->. lia.
  - rewrite (IH _ H). lia.
Qed.

Lemma total_replicate g n : g TIdle = 0 -> total g (replicate n TIdle) = 0.
Proof. intros Hg. induction n as [|n IH]; simpl; lia. Qed.

Lemma total_le g ts m :
  (forall x, x ∈ ts -> g x <= m) -> total g ts <= Z.of_nat (length ts) * m.
Proof.
  intros H. induction ts as [|x ts IH]; simpl length; [simpl; lia|].
  simpl. pose proof (H x ltac:(left)). assert (total g ts <= Z.of_nat (length ts) * m).
  { apply IH. intros y Hy. apply H. by right. } lia.
Qed.

Lemma total_nonneg g ts : (forall x, x ∈ ts -> 0 <= g x) -> 0 <= total g ts.
Proof.
  intros H. induction ts as [|x ts IH]; simpl; [lia|].
  pose proof (H x ltac:(left)). assert (0 <= total g ts); [|lia].
  apply IH. intros y Hy. apply H. by right.
Qed.

Lemma total_le_pointwise g h ts : (forall x, g x <= h x) -> total g ts <= total h ts.
Proof. intros H. induction ts as [|x ts IH]; simpl; [lia|]. specialize (H x). lia. Qed.

(** ** The interleaving invariant *)

Section interleaving.
Context (nthreads : nat) (max_frame : Z).
(* The atomic counter cannot wrap: every thread may hold one frame over the limit. *)
Hypothesis Hframe : 0 <= max_frame.
Hypothesis Hroom : MAX_BYTES + (Z.of_nat nthreads + 1) * max_frame < 2 ^ 64.

Definition thread_ok (ts : tstate) : Prop :=
  match ts with
  | TIdle => True
  | TReserved f prev =>
      blen f <= max_frame /\ 0 <= prev /\
      prev + blen f <= MAX_BYTES + (Z.of_nat nthreads + 1) * max_frame
  | TDrained n => 0 <= n
  end.

Definition queue_inv (s : cqueue) : Prop :=
  length (cq_threads s) = nthreads /\
  Forall thread_ok (cq_threads s) /\
  cq_pending s = frames_size (cq_frames s) + total held (cq_threads s) /\
  frames_size (cq_frames s) + total committed (cq_threads s) <= MAX_BYTES.

Lemma held_committed ts : thread_ok ts -> 0 <= committed ts <= held ts.
Proof.
  destruct ts as [|f prev|n]; simpl; [lia| |lia].
  pose proof (blen_nonneg f). destruct (Z.ltb_spec MAX_BYTES (prev + blen f)); lia.
Qed.

(** The overhang of the counter over the queue is at most one frame per thread. *)
Lemma held_bound ts :
  Forall thread_ok ts ->
  0 <= total committed ts <= total held ts /\
  total held ts <= total committed ts + Z.of_nat (length ts) * max_frame.
Proof.
  induction 1 as [|x ts Hx Hf IH]; simpl length; simpl total; [lia|].
  pose proof (held_committed _ Hx).
  assert (held x <= committed x + max_frame); [|lia].
  destruct x as [|f prev|n]; simpl in *; [lia| |lia].
  destruct (Z.ltb_spec MAX_BYTES (prev + blen f)); lia.
Qed.

Lemma queue_inv_pending s :
  queue_inv s -> 0 <= cq_pending s <= MAX_BYTES + Z.of_nat nthreads * max_frame.
Proof.
  intros (Hlen & Hok & Hp & Hc). pose proof (held_bound _ Hok).
  pose proof (frames_size_nonneg (cq_frames s)). rewrite Hlen in *. lia.
Qed.

Lemma queue_inv_init : queue_inv (cqueue_init nthreads).
Proof.
  unfold queue_inv, cqueue_init; simpl.
  rewrite length_replicate, !total_replicate by done.
  split_and!; [done| |done|unfold MAX_BYTES; lia].
  apply Forall_replicate. done.
Qed.

(** The wrap-around of the counter never happens. *)
Lemma queue_inv_norm fs p l ts :
  queue_inv (mk_cqueue fs p l ts) -> queue_inv (mk_cqueue fs (u64 p) l ts).
Proof.
  intros Hinv. pose proof (queue_inv_pending _ Hinv) as Hp. simpl in Hp.
  by rewrite wrap_small by (unfold fits; lia).
Qed.

(** Replacing one thread's state, with the matching change of frames and counter. *)
Lemma queue_inv_update s t old new fs p l :
  queue_inv s -> cq_threads s !! t = Some old -> thread_ok new ->
  p = cq_pending s + (frames_size fs - frames_size (cq_frames s)) + held new - held old ->
  frames_size fs + committed new - committed old + total committed (cq_threads s) <= MAX_BYTES ->
  queue_inv (mk_cqueue fs p l (<[t := new]> (cq_threads s))).
Proof.
  intros (Hlen & Hok & Hp & Hc) Ht Hnew -> Hc'.
  split_and!; simpl; [by rewrite length_insert|by apply Forall_insert| |];
    rewrite (total_insert _ _ _ _ _ Ht); lia.
Qed.

Lemma queue_inv_step s s' : queue_inv s -> qstep max_frame s s' -> queue_inv s'.
Proof.
  intros Hinv Hstep. pose proof (queue_inv_pending _ Hinv) as Hpb.
  pose proof Hinv as (Hlen & Hok & Hp & Hc). pose proof (held_bound _ Hok) as Hhb.
  destruct Hstep as [s t f Ht Hf|s t f prev Ht Hm|s t f prev Ht Hm Hl|s t k Ht Hl n|s t b Ht];
    pose proof (proj1 (Forall_lookup _ _) Hok _ _ Ht) as Hto; simpl in Hto.
  - apply queue_inv_norm. eapply queue_inv_update; [done..| |simpl; lia|];
      pose proof (blen_nonneg f); simpl; [lia|].
    destruct (Z.ltb_spec MAX_BYTES (cq_pending s + blen f)); lia.
  - pose proof (blen_nonneg f). rewrite wrap_small in Hm by (unfold fits; lia).
    apply queue_inv_norm. eapply queue_inv_update; [done..| |]; simpl; [lia|].
    destruct (Z.ltb_spec MAX_BYTES (prev + blen f)); lia.
  - pose proof (blen_nonneg f). rewrite wrap_small in Hm by (unfold fits; lia).
    eapply queue_inv_update; [done..| |]; simpl; rewrite frames_size_app; simpl; [lia|].
    destruct (Z.ltb_spec MAX_BYTES (prev + blen f)); lia.
  - pose proof (frames_size_split n (cq_frames s)).
    pose proof (frames_size_nonneg (take n (cq_frames s))).
    eapply queue_inv_update; [done..| | |]; simpl; lia.
  - apply queue_inv_norm. eapply queue_inv_update; [done..| |]; simpl; lia.
Qed.

Lemma queue_inv_reachable s :
  rtc (qstep max_frame) (cqueue_init nthreads) s -> queue_inv s.
Proof.
  intros Hr. remember (cqueue_init nthreads) as s0 eqn:E.
  assert (queue_inv s0) as H0 by (subst; apply queue_inv_init). clear E.
  induction Hr; eauto using queue_inv_step.
Qed.
End interleaving.

(** A thread running [try_push] or [drain_batch] alone performs the sequential operation. *)
Lemma try_push_steps max_frame t f fs p ts :
  ts !! t = Some TIdle -> blen f <= max_frame -> fits 64 p ->
  let q := (try_push f (mk_queue fs p false)).2 in
  rtc (qstep max_frame) (mk_cqueue fs p false ts)
    (mk_cqueue (frames q) (pending_bytes q) false ts).
Proof.
  intros Ht Hf Hp q.
  eapply rtc_l; [by apply (q_reserve _ (mk_cqueue fs p false ts) t f)|]. simpl.
  set (ts' := <[t:=_]> ts).
  assert (ts' !! t = Some (TReserved f p)) as Ht'.
  { apply list_lookup_insert_eq. by apply lookup_lt_Some in Ht. }
  assert (<[t:=TIdle]> ts' = ts) as Hts.
  { subst ts'. rewrite list_insert_insert_eq. by apply list_insert_id. }
  apply rtc_once. subst q. unfold try_push. simpl pending_bytes.
  destruct (Z.ltb_spec MAX_BYTES (u64 (p + blen f))).
  - pose proof (q_reject max_frame (mk_cqueue fs (u64 (p + blen f)) false ts') t f p Ht' H) as Hs.
    simpl in *. by rewrite Hts in Hs.
  - pose proof (q_commit max_frame (mk_cqueue fs (u64 (p + blen f)) false ts') t f p Ht' H eq_refl) as Hs.
    simpl in *. by rewrite Hts in Hs.
Qed.

(** ** Properties *)

(** C13: in every interleaving of pushing and draining threads the queued frames stay within
    the 8 MB backpressure limit, the atomic counter equals the queued bytes plus what the
    threads hold, and it never wraps; once every thread is idle it equals the queued bytes. *)
Theorem queue_bounded nthreads max_frame s :
  0 <= max_frame ->
  MAX_BYTES + (Z.of_nat nthreads + 1) * max_frame < 2 ^ 64 ->
  rtc (qstep max_frame) (cqueue_init nthreads) s ->
  frames_size (cq_frames s) <= MAX_BYTES /\
  cq_pending s = frames_size (cq_frames s) + total held (cq_threads s) /\
  fits 64 (cq_pending s) /\
  (Forall (fun t => t = TIdle) (cq_threads s) -> cq_pending s = frames_size (cq_frames s)).
Proof.
  intros Hf Hroom Hr.
  pose proof (queue_inv_reachable nthreads max_frame Hf Hroom s Hr) as Hinv.
  pose proof (queue_inv_pending nthreads max_frame Hf _ Hinv) as Hpb.
  destruct Hinv as (Hlen & Hok & Hp & Hc).
  pose proof (held_bound nthreads max_frame Hf _ Hok).
  split_and!; [lia|done|unfold fits; lia|].
  intros Hidle. rewrite Hp.
  assert (total held (cq_threads s) = 0) as ->; [|lia].
  clear -Hidle. induction Hidle as [|x l -> Hf IH]; simpl; lia.
Qed.

Lemma queue_bounded_witness :
  exists s, rtc (qstep 100) (cqueue_init 2) s /\ cq_frames s = [[x01; x02]] /\
    frames_size (cq_frames s) <= MAX_BYTES.
Proof.
  eexists. split_and!.
  - eapply rtc_l; [apply (q_reserve 100 (cqueue_init 2) 0 [x01; x02]); [reflexivity|]|].
    { unfold blen. simpl. lia. }
    eapply rtc_l; [eapply (q_commit 100 _ 0 [x01; x02] 0); [reflexivity|vm_compute; discriminate|reflexivity]|].
    apply rtc_refl.
  - reflexivity.
  - apply (queue_bounded 2 100); [lia|unfold MAX_BYTES; lia|].
    eapply rtc_l; [apply (q_reserve 100 (cqueue_init 2) 0 [x01; x02]); [reflexivity|]|].
    { unfold blen. simpl. lia. }
    eapply rtc_l; [eapply (q_commit 100 _ 0 [x01; x02] 0); [reflexivity|vm_compute; discriminate|reflexivity]|].
    apply rtc_refl.
Defined.
