(* ===== verification/Crypto.v ===== *)
(** * Interface to libsodium and zstd

    The cryptographic library and the compressor are not part of the repository: they are
    the operations of the class [CryptoOps], an argument of every definition that calls
    them, and [CryptoLaws] names the documented behaviour the theorems rely on.
    [ToyCrypto] is a concrete, executable instance used to evaluate the model. *)

From Stdlib Require Import ZArith Strings.Byte Lia.
From stdpp Require Import base list numbers.
From S2P Require Import Prelude.

Local Open Scope Z_scope.

Class CryptoOps := {
  (* crypto_generichash_blake2b with a 32-byte output; an empty key is the unkeyed mode *)
  generichash : bytes -> bytes -> bytes;
  (* crypto_scalarmult, [None] for a non-zero return code *)
  scalarmult : bytes -> bytes -> option bytes;
  scalarmult_base : bytes -> bytes;
  (* crypto_aead_chacha20poly1305_ietf_encrypt / _decrypt: key, nonce, ad, message *)
  aead_encrypt : bytes -> bytes -> bytes -> bytes -> option bytes;
  aead_decrypt : bytes -> bytes -> bytes -> bytes -> option bytes;
  (* crypto_sign_ed25519_detached: secret key, message; _verify_detached: signature, message, pk *)
  sign_detached : bytes -> bytes -> bytes;
  verify_detached : bytes -> bytes -> bytes -> bool;
  (* crypto_sign_ed25519_pk_to_curve25519 / _sk_to_curve25519 *)
  pk_to_curve25519 : bytes -> option bytes;
  sk_to_curve25519 : bytes -> bytes;
  (* the i-th 32-byte block drawn with randombytes_buf *)
  random_block : nat -> bytes;
  (* ZSTD_compress (level, input) into a compressBound buffer; ZSTD_decompress (capacity, input) *)
  zstd_compress : Z -> bytes -> option bytes;
  zstd_decompress : nat -> bytes -> option bytes;
}.

Definition zeros (n : nat) : bytes := replicate n x00.

Class CryptoLaws (C : CryptoOps) := {
  generichash_length k d : length (generichash k d) = 32%nat;
  (* Diffie-Hellman: both sides compute the same secret, and fail together *)
  scalarmult_comm a b : scalarmult a (scalarmult_base b) = scalarmult b (scalarmult_base a);
  scalarmult_base_length sk : length (scalarmult_base sk) = 32%nat;
  random_block_length i : length (random_block i) = 32%nat;
  (* encryption always succeeds and appends a 16-byte tag *)
  aead_encrypt_Some k n ad m :
    exists c, aead_encrypt k n ad m = Some c /\ length c = (length m + 16)%nat;
  aead_decrypt_encrypt k n ad m c :
    aead_encrypt k n ad m = Some c -> aead_decrypt k n ad c = Some m;
  aead_encrypt_decrypt k n ad m c :
    aead_decrypt k n ad c = Some m -> aead_encrypt k n ad m = Some c;
  (* the conversion refuses small-order points, so never yields the zero key *)
  pk_to_curve25519_nonzero pk x : pk_to_curve25519 pk = Some x -> x <> zeros 32;
  sign_detached_length sk m : length (sign_detached sk m) = 64%nat;
  zstd_decompress_compress lvl m c cap :
    zstd_compress lvl m = Some c -> (length m <= cap)%nat -> zstd_decompress cap c = Some m;
  zstd_decompress_length cap c m : zstd_decompress cap c = Some m -> (length m <= cap)%nat;
}.

(** An Ed25519 key pair: signatures by [sk] verify under [pk], and the X25519 images of
    the two halves are a Diffie-Hellman key pair. *)
Record ed_keypair `{!CryptoOps} (pk sk : bytes) : Prop := {
  ed_pk_length : length pk = 32%nat;
  ed_verify m : verify_detached (sign_detached sk m) m pk = true;
  ed_curve : pk_to_curve25519 pk = Some (scalarmult_base (sk_to_curve25519 sk));
}.

(** A decrypted message is 16 bytes shorter than its ciphertext. *)
Lemma aead_decrypt_length `{!CryptoOps, !CryptoLaws _} k n ad c m :
  aead_decrypt k n ad c = Some m -> length c = (length m + 16)%nat.
Proof.
  intros Hd. apply aead_encrypt_decrypt in Hd.
  destruct (aead_encrypt_Some k n ad m) as (c' & Hc & Hl). congruence.
Qed.

(** ** An executable instance *)

Module ToyCrypto.
(** Evaluated on every byte: a base-257 polynomial modulo 2^64. *)
Definition mixdown (bs : bytes) : Z :=
  fold_left (fun acc b => Z.land (Z.shiftl acc 8 + acc + b2z b + 1) (Z.ones 64)) bs 7.

Definition hash (k d : bytes) : bytes := (let v := le_enc 8 (mixdown (k ++ x3a :: d)) in v ++ v ++ v ++ v).

Definition norm32 (k : bytes) : bytes := take 32 (k ++ zeros 32).

Definition add_bytes (a b : bytes) : bytes :=
  zip_with (fun x y => z2b (b2z x + b2z y)) (norm32 a) (norm32 b).

Definition tag (k n ad m : bytes) : bytes := take 16 (hash (k ++ n) (ad ++ x2f :: m)).

Definition enc (k n ad m : bytes) : option bytes := Some (m ++ tag k n ad m).

Definition dec (k n ad c : bytes) : option bytes :=
  let l := (length c - 16)%nat in
  let m := take l c in
  if bool_decide (c = m ++ tag k n ad m) then Some m else None.

Definition sign (sk m : bytes) : bytes := hash (drop 32 sk) m ++ hash (drop 32 sk) m.

Definition verify (sig m pk : bytes) : bool :=
  bool_decide (sig = hash pk m ++ hash pk m).

Definition pk_curve (pk : bytes) : option bytes :=
  if bool_decide (norm32 pk = zeros 32) then None else Some (norm32 pk).

(** Compresses runs of zero bytes only. *)
Definition compress (m : bytes) : option bytes :=
  if bool_decide (m = zeros (length m)) then Some (le_enc 8 (Z.of_nat (length m))) else None.

Definition decompress (cap : nat) (c : bytes) : option bytes :=
  let n := le_dec c in
  if Z.of_nat cap <? n then None else Some (zeros (Z.to_nat n)).

#[export] Instance ops : CryptoOps := {
  generichash := hash;
  scalarmult a b := Some (add_bytes a b);
  scalarmult_base := norm32;
  aead_encrypt := enc;
  aead_decrypt := dec;
  sign_detached := sign;
  verify_detached := verify;
  pk_to_curve25519 := pk_curve;
  sk_to_curve25519 sk := drop 32 sk;
  random_block i := le_enc 32 (Z.of_nat i + 1);
  zstd_compress _ m := if Z.of_nat (length m) <? 2 ^ 64 then compress m else None;
  zstd_decompress := decompress;
}.

Lemma norm32_length k : length (norm32 k) = 32%nat.
Proof. unfold norm32, zeros. rewrite length_take, length_app, length_replicate. lia. Qed.

Lemma norm32_idem k : norm32 (norm32 k) = norm32 k.
Proof.
  unfold norm32 at 1. rewrite take_app_le by (rewrite norm32_length; lia).
  rewrite take_ge; [done|]. rewrite norm32_length. lia.
Qed.

Lemma add_bytes_comm a b : add_bytes a b = add_bytes b a.
Proof.
  unfold add_bytes. generalize (norm32 a), (norm32 b). intros x.
  induction x as [|u x IH]; intros [|v y]; simpl; [done..|].
  by rewrite IH, (Z.add_comm (b2z u)).
Qed.

Lemma add_bytes_norm a b : add_bytes a (norm32 b) = add_bytes a b.
Proof. unfold add_bytes. by rewrite norm32_idem. Qed.

Lemma tag_length k n ad m : length (tag k n ad m) = 16%nat.
Proof. reflexivity. Qed.

Lemma dec_enc k n ad m : dec k n ad (m ++ tag k n ad m) = Some m.
Proof.
  unfold dec. rewrite length_app, tag_length, Nat.add_sub, take_app_length.
  by rewrite bool_decide_true.
Qed.

#[export] Instance laws : CryptoLaws ops.
Proof.
  split.
  - intros. reflexivity.
  - intros a b. simpl. by rewrite !add_bytes_norm, add_bytes_comm.
  - intros. apply norm32_length.
  - intros i. reflexivity.
  - intros k n ad m. simpl. eexists. split; [done|]. by rewrite length_app, tag_length.
  - intros k n ad m c [= <-]. apply dec_enc.
  - intros k n ad m c. simpl. unfold dec, enc. case_bool_decide as Hc; intros [= <-]. by rewrite <-Hc.
  - intros pk x. simpl. unfold pk_curve. case_bool_decide; intros [= <-]; done.
  - intros. reflexivity.
  - intros lvl m c cap. simpl. destruct (Z.ltb_spec (Z.of_nat (length m)) (2 ^ 64)); [|done].
    unfold compress, decompress. case_bool_decide as Hm; intros Hc Hcap; [|done].
    injection Hc as <-.
    assert (le_dec (le_enc 8 (Z.of_nat (length m))) = Z.of_nat (length m)) as ->.
    { rewrite le_dec_enc. apply Z.mod_small. simpl. lia. }
    destruct (Z.ltb_spec (Z.of_nat cap) (Z.of_nat (length m))); [lia|].
    by rewrite Nat2Z.id, <-Hm.
  - intros cap c m. simpl. unfold decompress.
    destruct (Z.ltb_spec (Z.of_nat cap) (le_dec c)); intros [= <-].
    unfold zeros. rewrite length_replicate. pose proof (le_dec_bound c). lia.
Qed.

(** Toy identities: a secret key is a seed followed by its public key. *)
Definition keypair_of (seed : bytes) : bytes * bytes := (norm32 seed, zeros 32 ++ norm32 seed).

Lemma keypair_of_ok seed :
  norm32 seed <> zeros 32 -> ed_keypair (keypair_of seed).1 (keypair_of seed).2.
Proof.
  intros Hne. split; simpl.
  - apply norm32_length.
  - intros m. unfold verify, sign. change (drop 32 (zeros 32 ++ norm32 seed)) with (norm32 seed).
    by apply bool_decide_eq_true.
  - unfold pk_curve. rewrite norm32_idem, bool_decide_false by done.
    f_equal. symmetry. apply norm32_idem.
Qed.
End ToyCrypto.
