(* ===== verification/Noise.v ===== *)
(** * Noise_XX engine ([core/crypto/noise.hpp], [core/crypto/noise.cpp])

    [CipherState], [SymmetricState] and [HandshakeState] as records, one definition per
    method.  Methods that return [bool] are computations of the failure-preserving state
    monad of the prelude: a [return false] keeps the fields already written, as in the
    code.  The main theorem runs the three messages between two parties. *)

From Stdlib Require Import ZArith Strings.Byte String Lia.
From stdpp Require Import base list numbers.
From S2P Require Import Prelude Crypto.

Local Open Scope Z_scope.
Local Open Scope gn_scope.

Definition DHLEN : nat := 32.
Definition HASHLEN : nat := 32.
Definition KEYLEN : nat := 32.
Definition MACLEN : nat := 16.
Definition NONCELEN : nat := 12.
Definition PROTOCOL_NAME : bytes := str_bytes "Noise_XX_25519_ChaChaPoly_BLAKE2b".

Record CipherState := mk_cipher {
  key : bytes;
  nonce : Z;
  has_key : bool;
}.

Definition cipher_init : CipherState := mk_cipher (zeros KEYLEN) 0 false.

Record SymmetricState := mk_symmetric {
  ck : bytes;
  h : bytes;
  cipher : CipherState;
}.

Record HandshakeState := mk_handshake {
  symmetric : SymmetricState;
  s_pk : bytes;
  s_sk : bytes;
  e_pk : bytes;
  e_sk : bytes;
  rs : bytes;
  re : bytes;
  initiator : bool;
  step : Z;
}.

Definition with_symmetric (f : SymmetricState -> SymmetricState) (s : HandshakeState) :=
  mk_handshake (f (symmetric s)) (s_pk s) (s_sk s) (e_pk s) (e_sk s) (rs s) (re s)
    (initiator s) (step s).
Definition with_ephemeral (pk sk : bytes) (s : HandshakeState) :=
  mk_handshake (symmetric s) (s_pk s) (s_sk s) pk sk (rs s) (re s) (initiator s) (step s).
Definition with_rs (v : bytes) (s : HandshakeState) :=
  mk_handshake (symmetric s) (s_pk s) (s_sk s) (e_pk s) (e_sk s) v (re s) (initiator s) (step s).
Definition with_re (v : bytes) (s : HandshakeState) :=
  mk_handshake (symmetric s) (s_pk s) (s_sk s) (e_pk s) (e_sk s) (rs s) v (initiator s) (step s).
Definition next_step (s : HandshakeState) :=
  mk_handshake (symmetric s) (s_pk s) (s_sk s) (e_pk s) (e_sk s) (rs s) (re s)
    (initiator s) (step s + 1).

(** 4 zero bytes and the little-endian counter. *)
Definition nonce12 (n : Z) : bytes := zeros 4 ++ le_enc 8 n.

Section engine.
Context `{CO : !CryptoOps}.

Definition dh (sk pk : bytes) : option bytes := scalarmult sk pk.

Definition hash (data : bytes) : bytes := generichash [] data.

Definition hmac_hash (k data : bytes) : bytes := generichash k data.

Definition hkdf2 (chain ikm : bytes) : bytes * bytes :=
  let temp_key := hmac_hash chain ikm in
  let out1 := hmac_hash temp_key [x01] in
  let out2 := hmac_hash temp_key (out1 ++ [x02]) in
  (out1, out2).

(** ** CipherState *)

Definition cipher_encrypt (ad plain : bytes) : SE CipherState bytes := fun cs =>
  if has_key cs then
    match aead_encrypt (key cs) (nonce12 (nonce cs)) ad plain with
    | Some c => (Some c, mk_cipher (key cs) (u64 (nonce cs + 1)) true)
    | None => (None, cs)
    end
  else (Some plain, cs).

Definition cipher_decrypt (ad c : bytes) : SE CipherState bytes := fun cs =>
  if has_key cs then
    if bool_decide (length c < MACLEN)%nat then (None, cs)
    else match aead_decrypt (key cs) (nonce12 (nonce cs)) ad c with
         | Some m => (Some m, mk_cipher (key cs) (u64 (nonce cs + 1)) true)
         | None => (None, cs)
         end
  else (Some c, cs).

(** Noise REKEY: the nonce is kept.  A failed encryption would leave [out] unset; the
    library never fails here. *)
Definition cipher_rekey (cs : CipherState) : CipherState :=
  match aead_encrypt (key cs) (nonce12 (2 ^ 64 - 1)) [] (zeros KEYLEN) with
  | Some out => mk_cipher (take KEYLEN out) (nonce cs) (has_key cs)
  | None => cs
  end.

Definition cipher_clear (cs : CipherState) : CipherState := cipher_init.

(** ** SymmetricState *)

Definition sym_init (name : bytes) : SymmetricState :=
  let h0 := if bool_decide (length name <= HASHLEN)%nat
            then name ++ zeros (HASHLEN - length name) else hash name in
  mk_symmetric h0 h0 cipher_init.

Definition mix_hash (data : bytes) (s : SymmetricState) : SymmetricState :=
  mk_symmetric (ck s) (generichash [] (h s ++ data)) (cipher s).

Definition mix_key (ikm : bytes) (s : SymmetricState) : SymmetricState :=
  let '(ck', temp_k) := hkdf2 (ck s) ikm in
  mk_symmetric ck' (h s) (mk_cipher (take KEYLEN temp_k) 0 true).

Definition encrypt_and_hash (plain : bytes) : SE SymmetricState bytes := fun s =>
  match cipher_encrypt (h s) plain (cipher s) with
  | (Some out, cs) => (Some out, mix_hash out (mk_symmetric (ck s) (h s) cs))
  | (None, cs) => (None, mk_symmetric (ck s) (h s) cs)
  end.

Definition decrypt_and_hash (c : bytes) : SE SymmetricState bytes := fun s =>
  match cipher_decrypt (h s) c (cipher s) with
  | (Some out, cs) => (Some out, mix_hash c (mk_symmetric (ck s) (h s) cs))
  | (None, cs) => (None, mk_symmetric (ck s) (h s) cs)
  end.

Definition sym_split (s : SymmetricState) : CipherState * CipherState :=
  let '(k1, k2) := hkdf2 (ck s) [] in
  (mk_cipher (take KEYLEN k1) 0 true, mk_cipher (take KEYLEN k2) 0 true).

(** ** HandshakeState *)

Definition hs_init (is_initiator : bool) (static_pk static_sk : bytes) : HandshakeState :=
  mk_handshake (sym_init PROTOCOL_NAME) static_pk static_sk (zeros DHLEN) (zeros DHLEN)
    (zeros DHLEN) (zeros DHLEN) is_initiator 0.

(** [generate_keypair(e_pk, e_sk)] with the random block [rnd]. *)
Definition generate_keypair (rnd : bytes) : SE HandshakeState bytes := fun s =>
  let pk := scalarmult_base rnd in (Some pk, with_ephemeral pk rnd s).

Definition lift_sym {A} (c : SE SymmetricState A) : SE HandshakeState A := fun s =>
  let '(r, sym) := c (symmetric s) in (r, with_symmetric (fun _ => sym) s).

Definition hs_mix_hash (data : bytes) : SE HandshakeState unit :=
  se_mod (with_symmetric (mix_hash data)).

(** [if (!dh(...)) return false; symmetric.mix_key(dh_out)]. *)
Definition dh_mix (sk pk : HandshakeState -> bytes) : SE HandshakeState unit :=
  a <-- se_get sk ;; b <-- se_get pk ;;
  secret <-- se_opt (dh a b) ;;
  se_mod (with_symmetric (mix_key secret)).

(** Token [es]: the initiator uses its ephemeral and the remote static key. *)
Definition token_es : SE HandshakeState unit :=
  ini <-- se_get initiator ;;
  if ini then dh_mix e_sk rs else dh_mix s_sk re.

(** Token [se]: the initiator uses its static and the remote ephemeral key. *)
Definition token_se : SE HandshakeState unit :=
  ini <-- se_get initiator ;;
  if ini then dh_mix s_sk re else dh_mix e_sk rs.

Definition send_static : SE HandshakeState bytes :=
  pk <-- se_get s_pk ;; lift_sym (encrypt_and_hash pk).

Definition recv_static (c : bytes) : SE HandshakeState unit :=
  v <-- lift_sym (decrypt_and_hash c) ;; se_mod (with_rs v).

Definition recv_ephemeral (msg : bytes) : SE HandshakeState unit :=
  se_guard (bool_decide (DHLEN <= length msg)%nat) ;;;
  se_mod (with_re (take DHLEN msg)) ;;;
  hs_mix_hash (take DHLEN msg).

(** [HandshakeState::write_message]; the result is the message written to [out]. *)
Definition write_message (payload rnd : bytes) : SE HandshakeState bytes :=
  st <-- se_get step ;;
  out <-- (if st =? 0 then
             e <-- generate_keypair rnd ;;
             hs_mix_hash e ;;;
             c <-- lift_sym (encrypt_and_hash payload) ;;
             se_ret (e ++ c)
           else if st =? 1 then
             e <-- generate_keypair rnd ;;
             hs_mix_hash e ;;;
             dh_mix e_sk re ;;;
             s <-- send_static ;;
             token_es ;;;
             c <-- lift_sym (encrypt_and_hash payload) ;;
             se_ret (e ++ s ++ c)
           else if st =? 2 then
             s <-- send_static ;;
             token_se ;;;
             c <-- lift_sym (encrypt_and_hash payload) ;;
             se_ret (s ++ c)
           else se_fail) ;;
  se_mod next_step ;;;
  se_ret out.

(** [HandshakeState::read_message]; the result is the payload written to [payload_out]. *)
Definition read_message (msg : bytes) : SE HandshakeState bytes :=
  st <-- se_get step ;;
  out <-- (if st =? 0 then
             recv_ephemeral msg ;;;
             lift_sym (decrypt_and_hash (drop DHLEN msg))
           else if st =? 1 then
             recv_ephemeral msg ;;;
             dh_mix e_sk re ;;;
             se_guard (bool_decide (DHLEN + (DHLEN + MACLEN) <= length msg)%nat) ;;;
             recv_static (slice DHLEN (DHLEN + MACLEN) msg) ;;;
             token_es ;;;
             lift_sym (decrypt_and_hash (drop (DHLEN + (DHLEN + MACLEN)) msg))
           else if st =? 2 then
             se_guard (bool_decide (DHLEN + MACLEN <= length msg)%nat) ;;;
             recv_static (take (DHLEN + MACLEN) msg) ;;;
             token_se ;;;
             lift_sym (decrypt_and_hash (drop (DHLEN + MACLEN) msg))
           else se_fail) ;;
  se_mod next_step ;;;
  se_ret out.

Definition is_complete (s : HandshakeState) : bool := 3 <=? step s.

(** [HandshakeState::split]: (send, recv). *)
Definition hs_split (s : HandshakeState) : CipherState * CipherState :=
  let '(c1, c2) := sym_split (symmetric s) in
  if initiator s then (c1, c2) else (c2, c1).

Definition get_handshake_hash (s : HandshakeState) : bytes := h (symmetric s).

Definition hs_clear (s : HandshakeState) : HandshakeState :=
  mk_handshake (mk_symmetric (zeros HASHLEN) (zeros HASHLEN) (cipher_clear (cipher (symmetric s))))
    (zeros DHLEN) (zeros DHLEN) (zeros DHLEN) (zeros DHLEN) (zeros DHLEN) (zeros DHLEN)
    (initiator s) (step s).
End engine.

(** ** Lemmas *)

Section facts.
Context `{CO : !CryptoOps} {CL : CryptoLaws CO}.

(** Encrypting on one side and decrypting on the other keep equal symmetric states equal. *)
Lemma encrypt_decrypt_lockstep s p :
  exists c s', encrypt_and_hash p s = (Some c, s') /\ decrypt_and_hash c s = (Some p, s') /\
    length c = (length p + if has_key (cipher s) then MACLEN else 0)%nat /\
    has_key (cipher s') = has_key (cipher s) /\ ck s' = ck s.
Proof.
  unfold encrypt_and_hash, decrypt_and_hash, cipher_encrypt, cipher_decrypt.
  destruct (has_key (cipher s)) eqn:Hk.
  - destruct (aead_encrypt_Some (key (cipher s)) (nonce12 (nonce (cipher s))) (h s) p)
      as (c & Hc & Hl).
    rewrite Hc. eexists c, _. split; [done|].
    rewrite bool_decide_false by (unfold MACLEN; lia).
    by rewrite (aead_decrypt_encrypt _ _ _ _ _ Hc).
  - eexists p, _. split_and!; [done|done| |done|done]. lia.
Qed.

(** A message of the other side's AEAD only decrypts if it is what encryption produces. *)
Lemma decrypt_and_hash_inv c s p s' :
  has_key (cipher s) = true -> decrypt_and_hash c s = (Some p, s') ->
  encrypt_and_hash p s = (Some c, s').
Proof.
  unfold encrypt_and_hash, decrypt_and_hash, cipher_encrypt, cipher_decrypt.
  intros -> Hd. case_bool_decide; [done|].
  destruct (aead_decrypt _ _ _ _) as [m|] eqn:E; [|done].
  injection Hd as <- <-. by rewrite (aead_encrypt_decrypt _ _ _ _ _ E).
Qed.

Lemma mix_key_has_key ikm s : has_key (cipher (mix_key ikm s)) = true.
Proof. unfold mix_key. by destruct (hkdf2 _ _). Qed.

Lemma run_lift_sym {A} (c : SE SymmetricState A) s r sym :
  c (symmetric s) = (r, sym) -> lift_sym c s = (r, with_symmetric (fun _ => sym) s).
Proof. unfold lift_sym. by intros ->. Qed.

Lemma run_dh_mix sk pk s secret :
  scalarmult (sk s) (pk s) = Some secret ->
  dh_mix sk pk s = (Some tt, with_symmetric (mix_key secret) s).
Proof. unfold dh_mix, se_bind, se_get, se_opt, dh. by intros ->. Qed.
End facts.

(** Runs the next command of a computation: [tac] proves what the command does. *)
Ltac hs_cbn :=
  cbn [with_symmetric with_ephemeral with_rs with_re next_step symmetric s_pk s_sk e_pk e_sk
       rs re initiator step].
Tactic Notation "run" "by" tactic3(tac) := eapply run_bind; [tac|hs_cbn].
Ltac run_pure := eapply run_bind; [reflexivity|hs_cbn].
Ltac run_branch := run_pure; cbn [Z.eqb Pos.eqb]; cbv iota.

Section messages.
Context `{CO : !CryptoOps} {CL : CryptoLaws CO}.
Implicit Types S : SymmetricState.

(** msg1: [-> e]. *)
Lemma msg1_exchange S ipk isk rpk rsk iep ies rep res irs rrs ire rre rnd p :
  exists m S',
    write_message p rnd (mk_handshake S ipk isk iep ies irs ire true 0) =
      (Some m, mk_handshake S' ipk isk (scalarmult_base rnd) rnd irs ire true 1) /\
    read_message m (mk_handshake S rpk rsk rep res rrs rre false 0) =
      (Some p, mk_handshake S' rpk rsk rep res rrs (scalarmult_base rnd) false 1) /\
    length m = (DHLEN + length p + if has_key (cipher S) then MACLEN else 0)%nat.
Proof.
  set (e := scalarmult_base rnd). pose proof (scalarmult_base_length rnd) as He. fold e in He.
  destruct (encrypt_decrypt_lockstep (mix_hash e S) p) as (c & S' & Henc & Hdec & Hl & _ & _).
  exists (e ++ c), S'. split_and!.
  - unfold write_message. run_branch.
    run by (run_pure; run_pure; run by (apply run_lift_sym, Henc); reflexivity).
    done.
  - unfold read_message, recv_ephemeral. run_branch.
    run by (run by (run by (apply run_guard, bool_decide_true; rewrite length_app; unfold DHLEN; lia);
                    run_pure; rewrite take_app_length' by done; reflexivity);
            rewrite drop_app_length' by done; apply run_lift_sym, Hdec).
    done.
  - rewrite length_app, Hl, He. cbn [mix_hash cipher]. unfold DHLEN. lia.
Qed.

(** A payload after a Diffie-Hellman token is encrypted. *)
Lemma keyed_payload S secret p :
  exists c S', encrypt_and_hash p (mix_key secret S) = (Some c, S') /\
    decrypt_and_hash c (mix_key secret S) = (Some p, S') /\
    length c = (length p + MACLEN)%nat /\ has_key (cipher S') = true.
Proof.
  destruct (encrypt_decrypt_lockstep (mix_key secret S) p)
    as (c & S' & He & Hd & Hl & Hk & _).
  rewrite mix_key_has_key in Hl, Hk. eauto 10.
Qed.

(** msg2: [<- e, ee, s, es]. *)
Lemma msg2_exchange S ipk isk rpk rsk ies rep res irs rrs ire rnd p ee es :
  scalarmult rnd (scalarmult_base ies) = Some ee ->
  scalarmult rsk (scalarmult_base ies) = Some es ->
  rpk = scalarmult_base rsk ->
  exists m S',
    write_message p rnd
      (mk_handshake S rpk rsk rep res rrs (scalarmult_base ies) false 1) =
      (Some m, mk_handshake S' rpk rsk (scalarmult_base rnd) rnd rrs
                 (scalarmult_base ies) false 2) /\
    read_message m (mk_handshake S ipk isk (scalarmult_base ies) ies irs ire true 1) =
      (Some p, mk_handshake S' ipk isk (scalarmult_base ies) ies rpk
                 (scalarmult_base rnd) true 2) /\
    length m = (2 * DHLEN + 2 * MACLEN + length p)%nat /\ has_key (cipher S') = true.
Proof.
  intros Hee Hes Hrpk.
  set (e := scalarmult_base rnd). pose proof (scalarmult_base_length rnd) as He. fold e in He.
  assert (length rpk = 32%nat) as Hr by (rewrite Hrpk; apply scalarmult_base_length).
  set (S1 := mix_key ee (mix_hash e S)).
  destruct (encrypt_decrypt_lockstep S1 rpk) as (sc & S2 & Hse & Hsd & Hsl & Hsk & _).
  unfold S1 in Hsl, Hsk. rewrite mix_key_has_key in Hsl, Hsk.
  destruct (keyed_payload S2 es p) as (c & S' & Henc & Hdec & Hl & Hk).
  exists (e ++ sc ++ c), S'. split_and!; [| | |done].
  - unfold write_message. run_branch.
    run by (run_pure; run_pure;
            run by (apply run_dh_mix; exact Hee);
            run by (unfold send_static; run_pure; apply run_lift_sym; exact Hse);
            run by (unfold token_es; run_pure; apply run_dh_mix; exact Hes);
            run by (apply run_lift_sym; exact Henc); reflexivity).
    done.
  - unfold read_message, recv_ephemeral. run_branch.
    run by (run by (run by (apply run_guard, bool_decide_true; rewrite length_app; unfold DHLEN; lia);
                    run_pure; rewrite take_app_length' by done; reflexivity);
            run by (apply run_dh_mix; hs_cbn; unfold e; rewrite scalarmult_comm; exact Hee);
            run by (apply run_guard, bool_decide_true; rewrite !length_app; unfold DHLEN, MACLEN in *; lia);
            run by (unfold recv_static; rewrite (slice_app_skip _ _ e _ 32%nat) by done;
                    unfold DHLEN in *; rewrite Nat.sub_diag, slice_app_take by lia;
                    run by (apply run_lift_sym; exact Hsd); reflexivity);
            run by (unfold token_es; run_pure; apply run_dh_mix; hs_cbn;
                    rewrite Hrpk, scalarmult_comm; exact Hes);
            rewrite app_assoc, drop_app_length'
              by (rewrite length_app; unfold DHLEN, MACLEN in *; lia);
            apply run_lift_sym; exact Hdec).
    done.
  - rewrite !length_app. unfold DHLEN, MACLEN in *. lia.
Qed.

(** msg3: [-> s, se]. *)
Lemma msg3_exchange S ipk isk rpk rsk ies res iep rep irs rrs rre rnd p se :
  has_key (cipher S) = true ->
  scalarmult isk (scalarmult_base res) = Some se ->
  ipk = scalarmult_base isk ->
  exists m S',
    write_message p rnd (mk_handshake S ipk isk iep ies irs (scalarmult_base res) true 2) =
      (Some m, mk_handshake S' ipk isk iep ies irs (scalarmult_base res) true 3) /\
    read_message m (mk_handshake S rpk rsk rep res rrs rre false 2) =
      (Some p, mk_handshake S' rpk rsk rep res ipk rre false 3) /\
    length m = (DHLEN + 2 * MACLEN + length p)%nat.
Proof.
  intros Hkey Hse Hipk.
  assert (length ipk = 32%nat) as Hr by (rewrite Hipk; apply scalarmult_base_length).
  destruct (encrypt_decrypt_lockstep S ipk) as (sc & S2 & Hsenc & Hsd & Hsl & Hsk & _).
  rewrite Hkey in Hsl, Hsk.
  destruct (keyed_payload S2 se p) as (c & S' & Henc & Hdec & Hl & Hk).
  exists (sc ++ c), S'. split_and!.
  - unfold write_message. run_branch.
    run by (run by (unfold send_static; run_pure; apply run_lift_sym; exact Hsenc);
            run by (unfold token_se; run_pure; apply run_dh_mix; exact Hse);
            run by (apply run_lift_sym; exact Henc); reflexivity).
    done.
  - unfold read_message. run_branch.
    run by (run by (apply run_guard, bool_decide_true; rewrite !length_app; unfold DHLEN, MACLEN in *; lia);
            run by (unfold recv_static; rewrite take_app_length' by (unfold DHLEN, MACLEN in *; lia);
                    run by (apply run_lift_sym; exact Hsd); reflexivity);
            run by (unfold token_se; run_pure; apply run_dh_mix; hs_cbn;
                    rewrite Hipk, scalarmult_comm; exact Hse);
            rewrite drop_app_length' by (unfold DHLEN, MACLEN in *; lia);
            apply run_lift_sym; exact Hdec).
    done.
  - rewrite !length_app. unfold DHLEN, MACLEN in *. lia.
Qed.
End messages.

(** ** The three-message run *)

(** One party writes a message with a payload, the other reads it; the payload read, the
    wire message and both new states. *)
Definition exchange `{CO : !CryptoOps} (payload rnd : bytes) (writer reader : HandshakeState)
    : option (bytes * bytes * HandshakeState * HandshakeState) :=
  match write_message payload rnd writer with
  | (Some m, writer') =>
      match read_message m reader with
      | (Some p, reader') => Some (p, m, writer', reader')
      | (None, _) => None
      end
  | (None, _) => None
  end.

(** ** What a message can change *)

(** [keeps f c]: whatever [c] does, it leaves [f] of the state alone. *)
Definition keeps {S A B} (f : S -> B) (c : SE S A) : Prop := forall s, f (c s).2 = f s.

Lemma keeps_bind {S A B C} (f : S -> C) (c : SE S A) (k : A -> SE S B) :
  keeps f c -> (forall a, keeps f (k a)) -> keeps f (se_bind c k).
Proof.
  intros Hc Hk s. unfold se_bind. specialize (Hc s).
  destruct (c s) as [[a|] s']; simpl in *; [|done]. by rewrite Hk.
Qed.

Lemma keeps_pure {S A B} (f : S -> B) (c : SE S A) :
  (forall s, (c s).2 = s) -> keeps f c.
Proof. intros H s. by rewrite H. Qed.

(** The fields a message exchange never writes. *)
Definition identity_of (s : HandshakeState) := (s_pk s, s_sk s, initiator s, step s).

Section step_machine.
Context `{CO : !CryptoOps}.

Lemma keeps_lift {A} (c : SE SymmetricState A) : keeps identity_of (lift_sym c).
Proof. intros s. unfold lift_sym. by destruct (c (symmetric s)). Qed.

Lemma keeps_se_mod f : (forall s, identity_of (f s) = identity_of s) -> keeps identity_of (se_mod f).
Proof. intros H s. apply H. Qed.

Ltac keeps_step :=
  match goal with
  | |- keeps _ (se_bind _ _) => apply keeps_bind; [|intros ?]
  | |- keeps _ (lift_sym _) => apply keeps_lift
  | |- keeps _ (if ?b then _ else _) => destruct b
  | |- keeps _ (se_mod _) => by apply keeps_se_mod
  | |- keeps _ (generate_keypair _) => by intros ?
  | |- keeps _ (hs_mix_hash _) => by intros ?
  | |- keeps _ _ => by apply keeps_pure
  end.

Lemma keeps_dh_mix sk pk : keeps identity_of (dh_mix sk pk).
Proof. unfold dh_mix. repeat keeps_step. Qed.

(** Either direction: a message that goes through was at step 0, 1 or 2 and moves the
    state to the next one; a refused message leaves the step where it was. *)
Lemma step_machine (msg0 msg1 msg2 : SE HandshakeState bytes) s r s' :
  keeps identity_of msg0 -> keeps identity_of msg1 -> keeps identity_of msg2 ->
  (st <-- se_get step ;;
   out <-- (if st =? 0 then msg0 else if st =? 1 then msg1 else if st =? 2 then msg2
            else se_fail) ;;
   se_mod next_step ;;; se_ret out) s = (r, s') ->
  match r with
  | Some _ => 0 <= step s < 3 /\ step s' = step s + 1
  | None => step s' = step s
  end /\ s_pk s' = s_pk s /\ s_sk s' = s_sk s /\ initiator s' = initiator s.
Proof.
  intros H0 H1 H2. unfold se_bind at 1, se_get.
  set (c := if step s =? 0 then _ else _).
  assert (keeps identity_of c) as Hc by (unfold c; repeat case_match; try done; by apply keeps_pure).
  specialize (Hc s). unfold se_bind. destruct (c s) as [[out|] s1] eqn:E; simpl in Hc;
    intros [= <- <-]; injection Hc as ????; [|done].
  split; [|done]. unfold next_step; simpl. split; [|congruence].
  unfold c in E. repeat case_match; try discriminate; lia.
Qed.

Lemma write_message_keeps p rnd s r s' :
  write_message p rnd s = (r, s') ->
  match r with
  | Some _ => 0 <= step s < 3 /\ step s' = step s + 1
  | None => step s' = step s
  end /\ s_pk s' = s_pk s /\ s_sk s' = s_sk s /\ initiator s' = initiator s.
Proof.
  apply step_machine; unfold send_static, token_es, token_se;
    repeat (apply keeps_dh_mix || keeps_step).
Qed.

Lemma read_message_keeps m s r s' :
  read_message m s = (r, s') ->
  match r with
  | Some _ => 0 <= step s < 3 /\ step s' = step s + 1
  | None => step s' = step s
  end /\ s_pk s' = s_pk s /\ s_sk s' = s_sk s /\ initiator s' = initiator s.
Proof.
  apply step_machine; unfold recv_ephemeral, recv_static, token_es, token_se;
    repeat (apply keeps_dh_mix || keeps_step).
Qed.
End step_machine.

(** The messages one party handles in sequence: [inl] writes, [inr] reads. *)
Fixpoint run_messages `{CO : !CryptoOps} (ms : list (bytes * bytes + bytes)) (s : HandshakeState)
    : nat * HandshakeState :=
  match ms with
  | [] => (0%nat, s)
  | m :: ms =>
      let '(r, s1) := match m with
                      | inl (p, rnd) => write_message p rnd s
                      | inr msg => read_message msg s
                      end in
      let '(k, s2) := run_messages ms s1 in
      ((if r is Some _ then S k else k), s2)
  end.

Section theorems.
Context `{CO : !CryptoOps} {CL : CryptoLaws CO}.

(** Whatever messages a party writes or reads, in any order, valid or not, exactly
    the successful ones advance the handshake, there are never more than three of them,
    it is complete if and only if there were three, and its role and static keys never change. *)
Theorem noise_at_most_three_messages ms ini pk sk :
  let '(k, s) := run_messages ms (hs_init ini pk sk) in
  (k <= 3)%nat /\ step s = Z.of_nat k /\ is_complete s = bool_decide (k = 3%nat) /\
  s_pk s = pk /\ s_sk s = sk /\ initiator s = ini.
Proof.
  enough (forall s, 0 <= step s <= 3 ->
    let '(k, s') := run_messages ms s in
    step s' = step s + Z.of_nat k /\ step s' <= 3 /\
    s_pk s' = s_pk s /\ s_sk s' = s_sk s /\ initiator s' = initiator s) as H.
  { specialize (H (hs_init ini pk sk) ltac:(simpl; lia)).
    destruct (run_messages ms _) as [k s']. simpl in H.
    destruct H as (H1 & H2 & H3 & H4 & H5). split_and!; [lia|lia| |done|done|done].
    unfold is_complete. case_bool_decide; [apply Z.leb_le|apply Z.leb_gt]; lia. }
  clear. induction ms as [|m ms IH]; intros s Hs; simpl; [split_and!; lia || done|].
  destruct (match m with inl (p, rnd) => write_message p rnd s | inr msg => read_message msg s end)
    as [r s1] eqn:E.
  assert (match r with Some _ => 0 <= step s < 3 /\ step s1 = step s + 1 | None => step s1 = step s end
    /\ s_pk s1 = s_pk s /\ s_sk s1 = s_sk s /\ initiator s1 = initiator s) as (H1 & H2 & H3 & H4).
  { destruct m as [[p rnd]|msg]; [by eapply write_message_keeps|by eapply read_message_keeps]. }
  specialize (IH s1). destruct (run_messages ms s1) as [k s2].
  destruct IH as (I1 & I2 & I3 & I4 & I5); [destruct r; lia|].
  destruct r; (split_and!; [lia|lia|congruence..]).
Qed.

(** C8: Noise_XX correctness.  An initiator with static secret [isk] and ephemeral [ie]
    and a responder with [rsk] and [re'] that exchange the three messages, when no
    Diffie-Hellman result is refused, succeed at every step whatever the payloads;
    each payload arrives unchanged; the messages are 32, 96 and 64 bytes longer than
    the payloads; both sides are complete, know the other's static key, agree on the
    handshake hash, and [split] gives each side's send key to the other as receive key. *)
Theorem noise_xx_agreement isk rsk ie re' p1 p2 p3 rnd3 ee es se :
  scalarmult re' (scalarmult_base ie) = Some ee ->
  scalarmult rsk (scalarmult_base ie) = Some es ->
  scalarmult isk (scalarmult_base re') = Some se ->
  exists m1 m2 m3 I1 R1 I2 R2 I3 R3,
    exchange p1 ie (hs_init true (scalarmult_base isk) isk)
      (hs_init false (scalarmult_base rsk) rsk) = Some (p1, m1, I1, R1) /\
    exchange p2 re' R1 I1 = Some (p2, m2, R2, I2) /\
    exchange p3 rnd3 I2 R2 = Some (p3, m3, I3, R3) /\
    length m1 = (32 + length p1)%nat /\ length m2 = (96 + length p2)%nat /\
    length m3 = (64 + length p3)%nat /\
    is_complete I3 = true /\ is_complete R3 = true /\
    rs I3 = scalarmult_base rsk /\ rs R3 = scalarmult_base isk /\
    get_handshake_hash I3 = get_handshake_hash R3 /\
    hs_split R3 = ((hs_split I3).2, (hs_split I3).1).
Proof.
  intros Hee Hes Hse. unfold hs_init.
  edestruct (msg1_exchange (sym_init PROTOCOL_NAME)) as (m1 & S1 & W1 & R1 & L1).
  edestruct msg2_exchange as (m2 & S2 & W2 & R2 & L2 & K2); [exact Hee|exact Hes|done|].
  edestruct msg3_exchange as (m3 & S3 & W3 & R3 & L3); [exact K2|exact Hse|done|].
  eexists m1, m2, m3, _, _, _, _, _, _. unfold exchange. rewrite W1, R1. split; [done|].
  rewrite W2, R2. split; [done|]. rewrite W3, R3. split; [done|].
  unfold DHLEN, MACLEN in *. simpl in L1.
  split_and!; [lia|lia|lia|done|done|done|done|done|].
  unfold hs_split; simpl. by destruct (sym_split S3).
Qed.
End theorems.

#[local] Existing Instances ToyCrypto.ops ToyCrypto.laws.

Lemma noise_xx_agreement_witness :
  exists m1 m2 m3 I1 R1 I2 R2 I3 R3,
    exchange [x2a] (zeros 32)
      (hs_init true (scalarmult_base (replicate 32 x01)) (replicate 32 x01))
      (hs_init false (scalarmult_base (replicate 32 x02)) (replicate 32 x02)) = Some ([x2a], m1, I1, R1) /\
    exchange [] (replicate 32 x03) R1 I1 = Some ([], m2, R2, I2) /\
    exchange [x07; x08] [] I2 R2 = Some ([x07; x08], m3, I3, R3) /\
    length m1 = 33%nat /\ length m2 = 96%nat /\ length m3 = 66%nat /\
    is_complete I3 = true /\ is_complete R3 = true /\
    rs I3 = scalarmult_base (replicate 32 x02) /\ rs R3 = scalarmult_base (replicate 32 x01) /\
    get_handshake_hash I3 = get_handshake_hash R3 /\
    hs_split R3 = ((hs_split I3).2, (hs_split I3).1).
Proof.
  eapply (noise_xx_agreement (replicate 32 x01) (replicate 32 x02) (zeros 32)
    (replicate 32 x03) [x2a] [] [x07; x08] []); vm_compute; reflexivity.
Defined.
