(* ===== verification/Session.v ===== *)
(** * Transport session ([NoiseSession], [core/types/connection.hpp], [core/cm/transport.cpp])

    Encryption with optional zstd compression and the receiving side with its anti-replay
    window.  [decrypt] returns the empty vector on every failure, as the code does.  The
    theorems relate a sender to a receiver holding the same key, for packets that are
    lost, reordered, duplicated or forged. *)

From Stdlib Require Import ZArith Strings.Byte Lia.
From stdpp Require Import base list numbers.
From S2P Require Import Prelude Crypto Noise NonceWindow Queue.

Local Open Scope Z_scope.

Definition FLAG_RAW : byte := x00.
Definition FLAG_ZSTD : byte := x01.
Definition MAC_SIZE : nat := 16.
Definition MAX_ORIG_SIZE : Z := 128 * 1024 * 1024.

Record NoiseSession := mk_session {
  send_key : bytes;
  recv_key : bytes;
  handshake_hash : bytes;
  recv_window : NonceWindow;
}.

Definition with_window (w : NonceWindow) (s : NoiseSession) : NoiseSession :=
  mk_session (send_key s) (recv_key s) (handshake_hash s) w.

Section session.
Context `{CO : !CryptoOps}.

(** The compressed form, when compression is on, the payload is above the threshold
    (an [int] converted to [size_t]) and zstd makes it smaller. *)
Definition try_compress (plain : bytes) (enabled : bool) (threshold level : Z) : option bytes :=
  if enabled && (u64 threshold <? blen plain) then
    match zstd_compress level plain with
    | Some c => if bool_decide (length c < length plain)%nat then Some c else None
    | None => None
    end
  else None.

(** [flags] [+ orig_size] + data. *)
Definition body_of (plain : bytes) (compressed : option bytes) : bytes :=
  match compressed with
  | Some c => FLAG_ZSTD :: le_enc 4 (u32 (blen plain)) ++ c
  | None => FLAG_RAW :: plain
  end.

Definition encrypt (plain : bytes) (nonce : Z) (enabled : bool) (threshold level : Z)
    (s : NoiseSession) : bytes :=
  match aead_encrypt (send_key s) (nonce12 nonce) []
          (body_of plain (try_compress plain enabled threshold level)) with
  | Some wire => wire
  | None => []
  end.

(** The plaintext of a decrypted body. *)
Definition open_body (body : bytes) : bytes :=
  match body with
  | [] => []
  | flags :: payload =>
      if bool_decide (flags = FLAG_RAW) then payload
      else if bool_decide (flags = FLAG_ZSTD) then
        if bool_decide (length payload < 4)%nat then []
        else
          let orig_size := le_dec (take 4 payload) in
          if (orig_size =? 0) || (MAX_ORIG_SIZE <? orig_size) then []
          else match zstd_decompress (Z.to_nat orig_size) (drop 4 payload) with
               | Some plain => plain
               | None => []
               end
      else []
  end.

Definition decrypt (wire : bytes) (nonce : Z) (s : NoiseSession) : bytes * NoiseSession :=
  if bool_decide (length wire < MAC_SIZE)%nat then ([], s)
  else
    let '(ok, w) := accept nonce (recv_window s) in
    let s := with_window w s in
    if ok then
      match aead_decrypt (recv_key s) (nonce12 nonce) [] wire with
      | Some body => (open_body body, s)
      | None => ([], s)
      end
    else ([], s).

(** [~NoiseSession]: the keys are wiped. *)
Definition session_destroy (s : NoiseSession) : NoiseSession :=
  mk_session (zeros KEYLEN) (zeros KEYLEN) (zeros HASHLEN) (recv_window s).

(** Packets given to [decrypt] one after the other. *)
Fixpoint decrypt_all (ws : list (bytes * Z)) (s : NoiseSession) : list bytes * NoiseSession :=
  match ws with
  | [] => ([], s)
  | (wire, nonce) :: ws =>
      let '(out, s) := decrypt wire nonce s in
      let '(outs, s) := decrypt_all ws s in
      (out :: outs, s)
  end.
End session.

Section facts.
Context `{CO : !CryptoOps} {CL : CryptoLaws CO}.

Lemma open_body_of p enabled th lvl :
  blen p <= MAX_ORIG_SIZE -> open_body (body_of p (try_compress p enabled th lvl)) = p.
Proof.
  intros Hp. unfold try_compress. pose proof (blen_nonneg p).
  destruct (enabled && _); [|done].
  destruct (zstd_compress lvl p) as [c|] eqn:Hc; [|done].
  case_bool_decide as Hlt; [|done]. unfold open_body, body_of.
  rewrite bool_decide_false, bool_decide_true by done.
  rewrite bool_decide_false by (rewrite length_app, length_le_enc; lia).
  rewrite take_app_length', drop_app_length' by by rewrite length_le_enc.
  assert (fits 32 (blen p)) as Hfit by (unfold fits, MAX_ORIG_SIZE in *; lia).
  rewrite wrap_small by done. rewrite (le_dec_enc_fits 4 _ 32) by done.
  assert (0 < blen p) by (unfold blen; lia).
  destruct (Z.eqb_spec (blen p) 0); [lia|]. destruct (Z.ltb_spec MAX_ORIG_SIZE (blen p)); [lia|].
  simpl. erewrite zstd_decompress_compress by (unfold blen; done || lia). done.
Qed.

(** A packet of a sender holding the same key: its plaintext iff the window accepts it. *)
Lemma decrypt_honest p n enabled th lvl sender receiver :
  send_key sender = recv_key receiver -> blen p <= MAX_ORIG_SIZE ->
  decrypt (encrypt p n enabled th lvl sender) n receiver =
    let '(ok, w) := accept n (recv_window receiver) in
    (if ok then p else [], with_window w receiver).
Proof.
  intros Hk Hp. unfold encrypt, decrypt.
  destruct (aead_encrypt_Some (send_key sender) (nonce12 n) []
    (body_of p (try_compress p enabled th lvl))) as (c & Hc & Hl).
  rewrite Hc, bool_decide_false by (unfold MAC_SIZE; lia).
  destruct (accept n (recv_window receiver)) as [[|] w]; [|done]. simpl.
  rewrite <-Hk, (aead_decrypt_encrypt _ _ _ _ _ Hc). by rewrite open_body_of.
Qed.

Lemma decrypt_recv_key wire n s : recv_key (decrypt wire n s).2 = recv_key s.
Proof.
  unfold decrypt. case_bool_decide; [done|]. destruct (accept n _) as [[|] w]; [|done].
  by destruct (aead_decrypt _ _ _ _).
Qed.

(** A packet long enough to carry a tag always runs through the window first. *)
Lemma decrypt_window wire n s :
  (MAC_SIZE <= length wire)%nat ->
  recv_window (decrypt wire n s).2 = (accept n (recv_window s)).2 /\
  ((accept n (recv_window s)).1 = false -> (decrypt wire n s).1 = []).
Proof.
  intros. unfold decrypt. rewrite bool_decide_false by lia.
  destruct (accept n _) as [[|] w]; [|done]. by destruct (aead_decrypt _ _ _ _).
Qed.

Lemma decrypt_short wire n s : (length wire < MAC_SIZE)%nat -> decrypt wire n s = ([], s).
Proof. intros. unfold decrypt. by rewrite bool_decide_true. Qed.

(** The verdicts behind a run: every delivered packet was accepted by the window. *)
Lemma decrypt_all_delivered seen ws s :
  window_rel seen (recv_window s) -> Forall (fun w => 0 <= w.2) ws ->
  NoDup (omap (fun '(out, w) => if bool_decide (out = []) then None else Some w.2)
           (zip (decrypt_all ws s).1 ws)) /\
  forall n, n ∈ omap (fun '(out, w) => if bool_decide (out = []) then None else Some w.2)
           (zip (decrypt_all ws s).1 ws) -> n ∉ seen.
Proof.
  intros Hrel Hf. revert seen s Hrel.
  induction Hf as [|[wire n] ws Hn Hf IH]; intros seen s Hrel; simpl in *.
  { split; [constructor|by intros ? ?%not_elem_of_nil]. }
  destruct (decide (length wire < MAC_SIZE)%nat) as [Hs|Hs].
  { rewrite decrypt_short by done. destruct (IH _ _ Hrel) as [H1 H2].
    destruct (decrypt_all ws s) as [outs s'] eqn:E. simpl. done. }
  destruct (decrypt_window wire n s) as [Hw Hrej]; [lia|].
  destruct (accept_simulates _ _ _ Hrel Hn) as [Hb Hrel'].
  rewrite <-Hw in Hrel'. destruct (IH _ _ Hrel') as [H1 H2].
  destruct (decrypt wire n s) as [out s1]. simpl in *.
  destruct (decrypt_all ws s1) as [outs s2]. simpl in *.
  unfold spec_step in *. destruct (spec_accept n seen) eqn:Ha; simpl in *.
  - case_bool_decide.
    + split; [done|]. intros m Hm. apply H2, not_elem_of_cons in Hm. naive_solver.
    + split.
      * constructor; [|done]. intros Hin%H2. apply not_elem_of_cons in Hin. naive_solver.
      * intros m [->|Hin%H2]%elem_of_cons; [by apply spec_accept_fresh|].
        by apply not_elem_of_cons in Hin as [_ ?].
  - rewrite Hrej by done. rewrite bool_decide_true by done. done.
Qed.
End facts.

(** ** Properties *)

(** Honest packets: payload, nonce and the compression settings of the sender. *)
Definition seal_all `{CO : !CryptoOps} (enabled : bool) (th lvl : Z) (sender : NoiseSession)
    (ps : list (bytes * Z)) : list (bytes * Z) :=
  map (fun '(p, n) => (encrypt p n enabled th lvl sender, n)) ps.

Section theorems.
Context `{CO : !CryptoOps} {CL : CryptoLaws CO}.

(** C14: transport round trip.  Packets of a sender whose send key is the receiver's
    receive key, delivered in any order, with losses and duplicates, with compression on
    or off at any threshold and level: each one decrypts to exactly the payload sent if
    the anti-replay specification accepts its packet id, and to nothing otherwise. *)
Theorem session_delivery enabled th lvl sender receiver ps :
  send_key sender = recv_key receiver -> recv_window receiver = window_init ->
  Forall (fun '(p, n) => blen p <= MAX_ORIG_SIZE /\ fits 64 n) ps ->
  (decrypt_all (seal_all enabled th lvl sender ps) receiver).1 =
    zip_with (fun (ok : bool) p => if ok then p else []) (run spec_step [] ps.*2).1 ps.*1.
Proof.
  intros Hk Hw Hf.
  assert (window_rel [] (recv_window receiver)) as Hrel
    by (rewrite Hw; apply window_rel_init).
  clear Hw. revert receiver Hk Hrel. generalize (@nil Z).
  induction Hf as [|[p n] ps [Hp Hn] Hf IH]; intros seen receiver Hk Hrel; [done|]. simpl.
  rewrite decrypt_honest by done.
  destruct (accept_simulates seen (recv_window receiver) n Hrel) as [Hb Hrel'];
    [by destruct Hn|].
  destruct (accept n (recv_window receiver)) as [ok w], (spec_step n seen) as [ok' seen'].
  simpl in *. subst ok'. specialize (IH seen' (with_window w receiver) Hk Hrel').
  destruct (decrypt_all _ _) as [outs s'], (run spec_step seen' _) as [oks s''].
  simpl in *. by rewrite IH.
Qed.

(** C9: replay safety of the session: whatever wires arrive, forged ones included, no
    packet id delivers a payload twice. *)
Theorem session_no_replay s ws :
  recv_window s = window_init -> Forall (fun w => fits 64 w.2) ws ->
  NoDup (omap (fun '(out, w) => if bool_decide (out = []) then None else Some w.2)
           (zip (decrypt_all ws s).1 ws)).
Proof.
  intros Hw Hf. eapply (decrypt_all_delivered []).
  - rewrite Hw. apply window_rel_init.
  - revert Hf. apply Forall_impl. intros w Hx. by destruct Hx.
Qed.

(** The window is consumed before authentication: after any wire of at least 16
    bytes with a fresh packet id, a packet that fails authentication included, the
    genuine packet with that id is refused. *)
Theorem forged_packet_burns_nonce s forged genuine n seen :
  window_rel seen (recv_window s) -> fits 64 n -> spec_accept n seen = true ->
  (MAC_SIZE <= length forged)%nat ->
  aead_decrypt (recv_key s) (nonce12 n) [] forged = None ->
  (decrypt forged n s).1 = [] /\
  (decrypt genuine n (decrypt forged n s).2).1 = [].
Proof.
  intros Hrel Hn Ha Hlen Hauth.
  destruct (accept_simulates seen (recv_window s) n Hrel) as [Hb Hrel']; [by destruct Hn|].
  split.
  { unfold decrypt. rewrite bool_decide_false by lia.
    destruct (accept n _) as [[|] w]; [|done]. simpl. by rewrite Hauth. }
  destruct (decrypt_window forged n s) as [Hw _]; [done|].
  destruct (decide (length genuine < MAC_SIZE)%nat); [by rewrite decrypt_short|].
  destruct (decrypt_window genuine n (decrypt forged n s).2) as [_ Hrej]; [lia|].
  apply Hrej. rewrite <-Hw in Hrel'. unfold spec_step in Hrel', Hb. rewrite Ha in Hrel', Hb.
  destruct (accept_simulates _ _ n Hrel') as [-> _]; [by destruct Hn|].
  unfold spec_step; simpl. destruct (spec_accept n (n :: seen)) eqn:E; [|reflexivity].
  apply spec_accept_fresh, not_elem_of_cons in E. naive_solver.
Qed.

(** Memory bound: a decrypted payload is at most 128 MB or shorter than the wire
    that carried it, whatever size the wire declares. *)
Theorem decrypt_bounded wire n s :
  blen (decrypt wire n s).1 <= Z.max MAX_ORIG_SIZE (blen wire - 17).
Proof.
  unfold decrypt. assert (blen (@nil byte) = 0) as Hnil by done.
  assert (0 <= MAX_ORIG_SIZE) by done.
  case_bool_decide; simpl; [lia|]. destruct (accept n _) as [[|] w]; simpl; [|lia].
  destruct (aead_decrypt _ _ _ _) as [body|] eqn:Hd; simpl; [|lia].
  apply aead_decrypt_length in Hd. unfold open_body.
  destruct body as [|f payload]; [lia|]. simpl in Hd.
  repeat case_bool_decide; try (unfold blen in *; lia).
  case_match eqn:Ho; [lia|]. apply orb_false_iff in Ho as [_ Ho%Z.ltb_ge].
  pose proof (le_dec_bound (take 4 payload)) as [Hge _].
  destruct (zstd_decompress _ _) as [m|] eqn:Hz; [|lia].
  apply zstd_decompress_length in Hz. unfold blen. lia.
Qed.
End theorems.

#[local] Existing Instances ToyCrypto.ops ToyCrypto.laws.

Definition toy_session (a b : byte) : NoiseSession :=
  mk_session (replicate 32 a) (replicate 32 b) (zeros 32) window_init.

Lemma session_delivery_witness :
  (decrypt_all (seal_all true 4 1 (toy_session x01 x02)
     [([x2a], 2); ([x2b; x2c], 1); ([x2a], 2); (replicate 40 x00, 3)]) (toy_session x02 x01)).1
  = [[x2a]; [x2b; x2c]; []; replicate 40 x00].
Proof.
  rewrite session_delivery; [reflexivity|reflexivity|reflexivity|].
  repeat (constructor; [split; [unfold blen, MAX_ORIG_SIZE; simpl; lia|unfold fits; lia]|]).
  constructor.
Defined.

Lemma session_no_replay_witness :
  NoDup (omap (fun '(out, w) => if bool_decide (out = []) then None else Some w.2)
    (zip (decrypt_all (seal_all true 4 1 (toy_session x01 x02) [([x2a], 2); ([x2a], 2)])
            (toy_session x02 x01)).1
         (seal_all true 4 1 (toy_session x01 x02) [([x2a], 2); ([x2a], 2)]))).
Proof.
  apply session_no_replay; [reflexivity|].
  repeat (constructor; [unfold fits; simpl; lia|]). constructor.
Defined.

Lemma forged_packet_burns_nonce_witness :
  (decrypt (zeros 20) 2 (toy_session x02 x01)).1 = [] /\
  (decrypt (encrypt [x2a] 2 false 0 1 (toy_session x01 x02)) 2
     (decrypt (zeros 20) 2 (toy_session x02 x01)).2).1 = [].
Proof.
  apply (forged_packet_burns_nonce _ _ _ _ []);
    [apply window_rel_init|unfold fits; lia|reflexivity|simpl; unfold MAC_SIZE; lia|
     vm_compute; reflexivity].
Defined.


(** A 40-byte payload that travels compressed. *)
Lemma decrypt_bounded_witness :
  blen (decrypt (encrypt (replicate 40 x00) 1 true 4 1 (toy_session x01 x02)) 1
          (toy_session x02 x01)).1
  <= Z.max MAX_ORIG_SIZE
       (blen (encrypt (replicate 40 x00) 1 true 4 1 (toy_session x01 x02)) - 17).
Proof. apply decrypt_bounded. Defined.
