(* ===== verification/Signals.v ===== *)
(** * Event dispatch ([include/signals.hpp], [src/signals.cpp])

    [PipelineSignal] is the ordered handler chain, [SignalBus] the per-type channels with
    the wildcard chain, the subscription table and the accumulated counters.  A handler is
    an entry whose function gives its verdict; [emit] also returns the names of the
    handlers it invoked, in order.  [std::atomic] counters wrap at their width.  The
    asynchronous [EventSignal]s post to a strand: an emission appends one task per
    connected handler. *)

From Stdlib Require Import ZArith Strings.Byte String Lia Sorting.Sorted.
From stdpp Require Import base gmap list strings numbers sorting.
From S2P Require Import Prelude Wire.

Local Open Scope Z_scope.

(** ** PipelineSignal *)

Abbreviation HandlerPacketFn := (header_t -> endpoint_t -> bytes -> propagation_t).

Record Entry := mk_entry {
  e_priority : Z;
  e_name : string;
  e_fn : HandlerPacketFn;
}.

Abbreviation PipelineSignal := (list Entry).

(** [std::stable_sort] with the comparison [a.priority > b.priority]. *)
Fixpoint insert_entry (e : Entry) (l : list Entry) : list Entry :=
  match l with
  | [] => [e]
  | x :: l => if e_priority x <? e_priority e then e :: x :: l else x :: insert_entry e l
  end.

Definition stable_sort (l : list Entry) : list Entry :=
  fold_left (fun acc e => insert_entry e acc) l [].

Definition connect (priority : Z) (name : string) (fn : HandlerPacketFn) (p : PipelineSignal)
    : PipelineSignal :=
  stable_sort (p ++ [mk_entry priority name fn]).

Definition disconnect (name : string) (p : PipelineSignal) : PipelineSignal :=
  List.filter (fun e => negb (String.eqb (e_name e) name)) p.

Record EmitResult := mk_emit {
  er_result : propagation_t;
  er_consumed_by : string;
}.

(** The result and the handlers invoked. *)
Fixpoint emit (p : PipelineSignal) (hdr : header_t) (ep : endpoint_t) (data : bytes)
    : EmitResult * list string :=
  match p with
  | [] => (mk_emit PROPAGATION_CONTINUE "", [])
  | e :: p =>
      match e_fn e hdr ep data with
      | PROPAGATION_CONSUMED => (mk_emit PROPAGATION_CONSUMED (e_name e), [e_name e])
      | PROPAGATION_REJECT => (mk_emit PROPAGATION_REJECT (e_name e), [e_name e])
      | PROPAGATION_CONTINUE =>
          let '(r, calls) := emit p hdr ep data in (r, e_name e :: calls)
      end
  end.

(** ** EventSignal: connected handlers and the tasks posted to the strand *)

Record EventSignal (A : Type) := mk_event_signal {
  es_handlers : list nat;
  es_strand : list (nat * A);
}.
Arguments mk_event_signal {A}.
Arguments es_handlers {A}.
Arguments es_strand {A}.

Definition es_connect {A} (h : nat) (s : EventSignal A) : EventSignal A :=
  mk_event_signal (es_handlers s ++ [h]) (es_strand s).

Definition es_emit {A} (a : A) (s : EventSignal A) : EventSignal A :=
  mk_event_signal (es_handlers s) (es_strand s ++ map (fun h => (h, a)) (es_handlers s)).

(** ** Counters *)

Inductive DropReason :=
  | BadMagic | BadProtoVer | ConnNotFound | StateNotEstablished | AuthFail | DecryptFail
  | ReplayDetected | Backpressure | PerConnLimitExceeded | SessionNotReady
  | RejectedByHandler | ShuttingDown | RelayDropped | SenderIdMismatch | TrustedFromRemote
  | RecvBufOverflow | ConnectorNotFound.

#[export] Instance drop_reason_eq_dec : EqDecision DropReason.
Proof. solve_decision. Defined.

Definition drop_index (r : DropReason) : nat :=
  match r with
  | BadMagic => 0 | BadProtoVer => 1 | ConnNotFound => 2 | StateNotEstablished => 3
  | AuthFail => 4 | DecryptFail => 5 | ReplayDetected => 6 | Backpressure => 7
  | PerConnLimitExceeded => 8 | SessionNotReady => 9 | RejectedByHandler => 10
  | ShuttingDown => 11 | RelayDropped => 12 | SenderIdMismatch => 13
  | TrustedFromRemote => 14 | RecvBufOverflow => 15 | ConnectorNotFound => 16
  end.

Definition DROP_COUNT : nat := 17.

Definition BUCKET_NS : list Z :=
  [1000; 10000; 100000; 1000000; 10000000; 100000000; 2 ^ 64 - 1].

Record LatencyHistogram := mk_histogram {
  buckets : list Z;
  total_ns : Z;
  lat_count : Z;
}.

Definition histogram_init : LatencyHistogram := mk_histogram (replicate 7 0) 0 0.

(** The first bucket whose bound exceeds [ns] takes the sample. *)
Fixpoint bump_bucket (bounds bs : list Z) (ns : Z) : list Z :=
  match bounds, bs with
  | bound :: bounds, b :: bs =>
      if ns <? bound then u64 (b + 1) :: bs else b :: bump_bucket bounds bs ns
  | _, _ => bs
  end.

Definition record (ns : Z) (l : LatencyHistogram) : LatencyHistogram :=
  mk_histogram (bump_bucket BUCKET_NS (buckets l) ns) (u64 (total_ns l + ns))
    (u64 (lat_count l + 1)).

Definition avg_ns (l : LatencyHistogram) : Z :=
  if lat_count l =? 0 then 0 else total_ns l / lat_count l.

Inductive StatsKind :=
  | RxBytes | TxBytes | RxPacket | TxPacket | AuthOk | KAuthFail | KDecryptFail
  | KBackpressure | Consumed | Rejected | Connect | Disconnect | Drop | DispatchLatencyNs.

Record StatsEvent := mk_stat {
  ev_kind : StatsKind;
  ev_value : Z;
  ev_conn_id : Z;
  ev_drop_reason : DropReason;
}.

Record Accum := mk_accum {
  rx_bytes : Z; tx_bytes : Z; rx_packets : Z; tx_packets : Z;
  auth_ok : Z; auth_fail : Z; decrypt_fail : Z; backpressure : Z;
  consumed : Z; rejected : Z;
  connections : Z; total_conn : Z; total_disc : Z;
  drops : list Z;
  dispatch_lat : LatencyHistogram;
}.

Definition accum_init : Accum :=
  mk_accum 0 0 0 0 0 0 0 0 0 0 0 0 0 (replicate DROP_COUNT 0) histogram_init.

(** The counter updates of [SignalBus::emit_stat]. *)
Definition bump (ev : StatsEvent) (a : Accum) : Accum :=
  let '(mk_accum rxb txb rxp txp ao af df bp co rj cn tc td dr lat) := a in
  let v := ev_value ev in
  match ev_kind ev with
  | RxBytes => mk_accum (u64 (rxb + v)) txb rxp txp ao af df bp co rj cn tc td dr lat
  | TxBytes => mk_accum rxb (u64 (txb + v)) rxp txp ao af df bp co rj cn tc td dr lat
  | RxPacket => mk_accum rxb txb (u64 (rxp + 1)) txp ao af df bp co rj cn tc td dr lat
  | TxPacket => mk_accum rxb txb rxp (u64 (txp + v)) ao af df bp co rj cn tc td dr lat
  | AuthOk => mk_accum rxb txb rxp txp (u64 (ao + 1)) af df bp co rj cn tc td dr lat
  | KAuthFail => mk_accum rxb txb rxp txp ao (u64 (af + 1)) df bp co rj cn tc td dr lat
  | KDecryptFail => mk_accum rxb txb rxp txp ao af (u64 (df + 1)) bp co rj cn tc td dr lat
  | KBackpressure => mk_accum rxb txb rxp txp ao af df (u64 (bp + 1)) co rj cn tc td dr lat
  | Consumed => mk_accum rxb txb rxp txp ao af df bp (u64 (co + 1)) rj cn tc td dr lat
  | Rejected => mk_accum rxb txb rxp txp ao af df bp co (u64 (rj + 1)) cn tc td dr lat
  | Connect =>
      mk_accum rxb txb rxp txp ao af df bp co rj (u32 (cn + 1)) (u32 (tc + 1)) td dr lat
  | Disconnect =>
      mk_accum rxb txb rxp txp ao af df bp co rj (u32 (cn - 1)) tc (u32 (td + 1)) dr lat
  | Drop =>
      mk_accum rxb txb rxp txp ao af df bp co rj cn tc td
        (alter (fun n => u64 (n + 1)) (drop_index (ev_drop_reason ev)) dr) lat
  | DispatchLatencyNs => mk_accum rxb txb rxp txp ao af df bp co rj cn tc td dr (record v lat)
  end.

(** ** SignalBus *)

Record SignalBus := mk_bus {
  channels : gmap Z PipelineSignal;
  wildcards : PipelineSignal;
  next_sub_id : Z;
  sub_map : gmap Z (Z * string);
  accum : Accum;
  on_stat : EventSignal StatsEvent;
  on_log : EventSignal string;
  on_conn_state : EventSignal (Z * conn_state_t);
  on_transport_change : EventSignal (Z * string * bool);
}.

Definition signal_init {A} : EventSignal A := mk_event_signal [] [].

Definition bus_init : SignalBus :=
  mk_bus ∅ [] 1 ∅ accum_init signal_init signal_init signal_init signal_init.

Definition with_channels (c : gmap Z PipelineSignal) (b : SignalBus) : SignalBus :=
  mk_bus c (wildcards b) (next_sub_id b) (sub_map b) (accum b) (on_stat b) (on_log b)
    (on_conn_state b) (on_transport_change b).
Definition with_subs (n : Z) (m : gmap Z (Z * string)) (b : SignalBus) : SignalBus :=
  mk_bus (channels b) (wildcards b) n m (accum b) (on_stat b) (on_log b)
    (on_conn_state b) (on_transport_change b).

Definition subscribe (msg_type : Z) (name : string) (cb : HandlerPacketFn) (prio : Z)
    (b : SignalBus) : Z * SignalBus :=
  let id := next_sub_id b in
  let b := with_subs (u64 (id + 1)) (<[id := (msg_type, name)]> (sub_map b)) b in
  let ch := default [] (channels b !! msg_type) in
  (id, with_channels (<[msg_type := connect prio name cb ch]> (channels b)) b).

Definition subscribe_wildcard (name : string) (cb : HandlerPacketFn) (prio : Z)
    (b : SignalBus) : SignalBus :=
  mk_bus (channels b) (connect prio name cb (wildcards b)) (next_sub_id b) (sub_map b)
    (accum b) (on_stat b) (on_log b) (on_conn_state b) (on_transport_change b).

Definition unsubscribe (sub_id : Z) (b : SignalBus) : SignalBus :=
  match sub_map b !! sub_id with
  | None => b
  | Some (msg_type, name) =>
      let b := match channels b !! msg_type with
               | Some ch => with_channels (<[msg_type := disconnect name ch]> (channels b)) b
               | None => b
               end in
      with_subs (next_sub_id b) (delete sub_id (sub_map b)) b
  end.

Definition dispatch_packet (b : SignalBus) (msg_type : Z) (hdr : header_t) (ep : endpoint_t)
    (data : bytes) : EmitResult * list string :=
  match channels b !! msg_type with
  | Some ch =>
      let '(r, calls) := emit ch hdr ep data in
      if bool_decide (er_result r = PROPAGATION_CONTINUE) then
        let '(r', calls') := emit (wildcards b) hdr ep data in (r', calls ++ calls')
      else (r, calls)
  | None => emit (wildcards b) hdr ep data
  end.

Definition emit_stat (ev : StatsEvent) (b : SignalBus) : SignalBus :=
  mk_bus (channels b) (wildcards b) (next_sub_id b) (sub_map b) (bump ev (accum b))
    (es_emit ev (on_stat b)) (on_log b) (on_conn_state b) (on_transport_change b).

Definition emit_drop (id : Z) (why : DropReason) (b : SignalBus) : SignalBus :=
  emit_stat (mk_stat Drop 1 id why) b.

Definition emit_latency (id ns : Z) (b : SignalBus) : SignalBus :=
  emit_stat (mk_stat DispatchLatencyNs ns id BadMagic) b.

(** [stats_snapshot]: field by field, so the accumulated record itself. *)
Definition stats_snapshot (b : SignalBus) : Accum := accum b.

Definition emit_conn_state (id : Z) (st : conn_state_t) (b : SignalBus) : SignalBus :=
  mk_bus (channels b) (wildcards b) (next_sub_id b) (sub_map b) (accum b) (on_stat b)
    (on_log b) (es_emit (id, st) (on_conn_state b)) (on_transport_change b).

Definition emit_transport_change (id : Z) (scheme : string) (added : bool) (b : SignalBus)
    : SignalBus :=
  mk_bus (channels b) (wildcards b) (next_sub_id b) (sub_map b) (accum b) (on_stat b)
    (on_log b) (on_conn_state b) (es_emit (id, scheme, added) (on_transport_change b)).

(** ** Ordering of the chain *)

Definition prio_ge (a b : Entry) : Prop := e_priority b <= e_priority a.

Lemma insert_entry_split e l :
  StronglySorted prio_ge l ->
  insert_entry e l = List.filter (fun x => e_priority e <=? e_priority x) l
                     ++ e :: List.filter (fun x => e_priority x <? e_priority e) l.
Proof.
  induction 1 as [|x l Hs IH Hx]; simpl; [done|].
  destruct (Z.ltb_spec (e_priority x) (e_priority e)), (Z.leb_spec (e_priority e) (e_priority x));
    try lia; simpl; [|by rewrite IH].
  clear IH Hs. enough (List.filter (fun x => e_priority e <=? e_priority x) l = [] /\
    List.filter (fun x => e_priority x <? e_priority e) l = l) as [-> ->] by done.
  induction Hx as [|y l Hy Hx IH]; [done|]. unfold prio_ge in Hy. simpl.
  destruct IH as [-> ->].
  by destruct (Z.leb_spec (e_priority e) (e_priority y)),
    (Z.ltb_spec (e_priority y) (e_priority e)); try lia.
Qed.

Lemma insert_entry_elem e l x : x ∈ insert_entry e l <-> x = e \/ x ∈ l.
Proof.
  induction l as [|y l IH]; simpl; [set_solver|]. case_match; set_solver.
Qed.

Lemma insert_entry_sorted e l :
  StronglySorted prio_ge l -> StronglySorted prio_ge (insert_entry e l).
Proof.
  induction 1 as [|x l Hs IH Hx]; simpl; [by repeat constructor|].
  destruct (Z.ltb_spec (e_priority x) (e_priority e)) as [Hlt|Hge].
  - constructor; [by constructor|]. constructor; [unfold prio_ge; lia|].
    eapply Forall_impl; [exact Hx|]. unfold prio_ge. intros; lia.
  - constructor; [done|]. apply Forall_forall. intros y Hy.
    apply insert_entry_elem in Hy as [->|Hy]; [done|].
    rewrite Forall_forall in Hx. by apply Hx.
Qed.

(** An entry that is below everything stays last. *)
Lemma insert_entry_last e l :
  Forall (fun x => prio_ge x e) l -> insert_entry e l = l ++ [e].
Proof.
  induction 1 as [|x l Hx Hl IH]; simpl; [done|]. unfold prio_ge in Hx.
  destruct (Z.ltb_spec (e_priority x) (e_priority e)); [lia|]. by rewrite IH.
Qed.

Lemma sort_onto l acc :
  StronglySorted prio_ge (acc ++ l) ->
  fold_left (fun acc e => insert_entry e acc) l acc = acc ++ l.
Proof.
  revert acc. induction l as [|e l IH]; intros acc Hs; simpl; [by rewrite app_nil_r|].
  assert (Forall (fun x => prio_ge x e) acc) as Hacc.
  { clear IH. induction acc as [|x acc IHa]; [constructor|]. simpl in Hs.
    inversion Hs as [|?? Hs' Hx]; subst. constructor; [|by apply IHa].
    rewrite Forall_forall in Hx. apply Hx. set_solver. }
  rewrite insert_entry_last, IH by (done || by rewrite <-app_assoc). by rewrite <-app_assoc.
Qed.

Lemma stable_sort_id l : StronglySorted prio_ge l -> stable_sort l = l.
Proof. apply (sort_onto l []). Qed.

(** On a sorted chain [connect] places the new handler after the equals. *)
Lemma connect_insert prio name fn p :
  StronglySorted prio_ge p -> connect prio name fn p = insert_entry (mk_entry prio name fn) p.
Proof.
  intros Hs. rewrite <-(stable_sort_id p Hs) at 2.
  unfold connect, stable_sort. by rewrite fold_left_app.
Qed.

Lemma filter_sorted f l : StronglySorted prio_ge l -> StronglySorted prio_ge (List.filter f l).
Proof.
  induction 1 as [|x l Hs IH Hx]; simpl; [constructor|].
  destruct (f x); [|done]. constructor; [done|].
  rewrite Forall_forall in Hx |- *. intros y [Hy _]%list_elem_of_In%filter_In. apply Hx.
  by apply list_elem_of_In.
Qed.

Lemma filter_insert_entry k e l :
  StronglySorted prio_ge l ->
  List.filter (fun x => e_priority x =? k) (insert_entry e l) =
  List.filter (fun x => e_priority x =? k) l ++ (if e_priority e =? k then [e] else []).
Proof.
  induction 1 as [|x l Hs IH Hx]; simpl; [done|].
  destruct (Z.ltb_spec (e_priority x) (e_priority e)); simpl.
  2: { rewrite IH. by destruct (e_priority x =? k). }
  destruct (Z.eqb_spec (e_priority e) k) as [<-|Hne]; [|by rewrite app_nil_r].
  destruct (Z.eqb_spec (e_priority x) (e_priority e)); [lia|].
  replace (List.filter _ l) with (@nil Entry); [done|]. symmetry.
  clear IH Hs. induction Hx as [|y l Hy Hx IH]; simpl; [done|]. unfold prio_ge in Hy.
  destruct (Z.eqb_spec (e_priority y) (e_priority e)); [lia|done].
Qed.

(** ** The registrations a chain stands for *)

Inductive chain_op :=
  | OpConnect (e : Entry)
  | OpDisconnect (name : string).

Definition run_op (op : chain_op) (p : PipelineSignal) : PipelineSignal :=
  match op with
  | OpConnect e => connect (e_priority e) (e_name e) (e_fn e) p
  | OpDisconnect name => disconnect name p
  end.

(** Specification: live registrations, oldest first. *)
Definition live_op (op : chain_op) (l : list Entry) : list Entry :=
  match op with
  | OpConnect e => l ++ [e]
  | OpDisconnect name => disconnect name l
  end.

Lemma filter_comm {A} (f g : A -> bool) l :
  List.filter f (List.filter g l) = List.filter g (List.filter f l).
Proof.
  induction l as [|x l IH]; simpl; [done|].
  destruct (g x) eqn:Hg, (f x) eqn:Hf; simpl; rewrite ?Hg, ?Hf, ?IH; done.
Qed.

Lemma emit_app p q hdr ep data :
  emit (p ++ q) hdr ep data =
    let '(r, calls) := emit p hdr ep data in
    if bool_decide (er_result r = PROPAGATION_CONTINUE) then
      let '(r', calls') := emit q hdr ep data in (r', calls ++ calls')
    else (r, calls).
Proof.
  induction p as [|e p IH]; simpl; [by destruct (emit q hdr ep data)|].
  destruct (e_fn e hdr ep data); simpl; [|done|done]. rewrite IH.
  destruct (emit p hdr ep data) as [r calls]. case_bool_decide; [|done].
  by destruct (emit q hdr ep data).
Qed.

(** The chain stops at its first handler that does not continue. *)
Lemma emit_stops p hdr ep data :
  match list_find (fun e => e_fn e hdr ep data <> PROPAGATION_CONTINUE) p with
  | Some (i, e) =>
      emit p hdr ep data = (mk_emit (e_fn e hdr ep data) (e_name e), map e_name (take (S i) p))
  | None => emit p hdr ep data = (mk_emit PROPAGATION_CONTINUE "", map e_name p)
  end.
Proof.
  induction p as [|e p IH]; simpl; [done|].
  destruct (decide (e_fn e hdr ep data <> PROPAGATION_CONTINUE)) as [Hd|Hd].
  - destruct (e_fn e hdr ep data); done.
  - destruct (list_find _ p) as [[i x]|]; simpl;
      (destruct (e_fn e hdr ep data); [|by destruct Hd..]); by rewrite IH.
Qed.

Lemma bump_bucket_sum bounds bs ns :
  length bs = length bounds -> Forall (fits 64) bs ->
  foldr Z.add 0 (bump_bucket bounds bs ns) mod 2 ^ 64 =
    (foldr Z.add 0 bs + if existsb (fun b => ns <? b) bounds then 1 else 0) mod 2 ^ 64 /\
  length (bump_bucket bounds bs ns) = length bounds /\ Forall (fits 64) (bump_bucket bounds bs ns).
Proof.
  revert bs. induction bounds as [|b bounds IH]; intros [|x bs] Hl Hf; simpl in *; try done.
  apply Forall_cons in Hf as [Hx Hf]. destruct (ns <? b); simpl.
  - split_and!; [|lia|constructor; [by apply wrap_fits|done]].
    unfold wrap. rewrite Zplus_mod_idemp_l. f_equal. lia.
  - destruct (IH bs) as (H1 & H2 & H3); [lia|done|].
    split_and!; [|lia|by constructor].
    rewrite <-Zplus_mod_idemp_r, H1, Zplus_mod_idemp_r. f_equal. lia.
Qed.

#[global] Arguments bump_bucket : simpl never.

(** ** Properties *)

(** After any sequence of registrations and removals a channel is sorted by
    descending priority, and among handlers of equal priority the live ones run in the
    order they were registered. *)
Theorem pipeline_order ops :
  let p := foldl (fun p op => run_op op p) [] ops in
  let l := foldl (fun l op => live_op op l) [] ops in
  StronglySorted prio_ge p /\
  forall k, List.filter (fun e => e_priority e =? k) p = List.filter (fun e => e_priority e =? k) l.
Proof.
  simpl. induction ops as [|op ops [IHs IHf]] using rev_ind; [by split; [constructor|]|].
  rewrite !foldl_app. simpl. destruct op as [e|name]; simpl.
  - rewrite connect_insert by done.
    split; [by apply insert_entry_sorted|]. intros k.
    rewrite filter_insert_entry by done. rewrite List.filter_app, IHf. simpl.
    by destruct e as [pr nm fn]; simpl; destruct (pr =? k).
  - split; [by apply filter_sorted|]. intros k. unfold disconnect.
    rewrite filter_comm, IHf. by rewrite filter_comm.
Qed.

(** A packet runs the channel of its type and then the wildcard chain, up to and
    including the first handler that does not return CONTINUE, whose verdict and name are
    the result; with no such handler every one of them ran and the result is CONTINUE. *)
Theorem dispatch_packet_chain b t hdr ep data :
  let chain := default [] (channels b !! t) ++ wildcards b in
  match list_find (fun e => e_fn e hdr ep data <> PROPAGATION_CONTINUE) chain with
  | Some (i, e) =>
      dispatch_packet b t hdr ep data =
        (mk_emit (e_fn e hdr ep data) (e_name e), map e_name (take (S i) chain))
  | None =>
      dispatch_packet b t hdr ep data = (mk_emit PROPAGATION_CONTINUE "", map e_name chain)
  end.
Proof.
  intros chain.
  assert (dispatch_packet b t hdr ep data = emit chain hdr ep data) as ->.
  { unfold dispatch_packet, chain. destruct (channels b !! t) as [ch|]; [|done].
    simpl. by rewrite emit_app. }
  apply emit_stops.
Qed.

(** Whatever events are emitted, the number of current connections is the number of
    Connect events minus the number of Disconnect events modulo 2^32, and every latency
    sample other than the value 2^64-1 is counted in exactly one of the seven buckets. *)
Theorem stats_consistent evs :
  let a := foldl (fun a ev => bump ev a) accum_init evs in
  connections a = u32 (total_conn a - total_disc a) /\
  foldr Z.add 0 (buckets (dispatch_lat a)) mod 2 ^ 64 =
    Z.of_nat (length (List.filter (fun ev => match ev_kind ev with
      | DispatchLatencyNs => ev_value ev <? 2 ^ 64 - 1 | _ => false end) evs)) mod 2 ^ 64.
Proof.
  simpl. enough (forall a, a = foldl (fun a ev => bump ev a) accum_init evs ->
    length (buckets (dispatch_lat a)) = 7%nat /\ Forall (fits 64) (buckets (dispatch_lat a)) /\
    connections a = u32 (total_conn a - total_disc a) /\
    foldr Z.add 0 (buckets (dispatch_lat a)) mod 2 ^ 64 =
    Z.of_nat (length (List.filter (fun ev => match ev_kind ev with
      | DispatchLatencyNs => ev_value ev <? 2 ^ 64 - 1 | _ => false end) evs)) mod 2 ^ 64) as H.
  { by destruct (H _ eq_refl) as (_ & _ & ? & ?). }
  induction evs as [|ev evs IH] using rev_ind; intros a ->.
  { simpl. split_and!; [done|repeat constructor; unfold fits; lia|done|done]. }
  rewrite foldl_app, List.filter_app, length_app. simpl foldl.
  specialize (IH _ eq_refl). destruct IH as (Hl & Hf & Hc & Hs).
  destruct (foldl _ _ _) as [rxb txb rxp txp ao af df bp co rj cn tc td dr lat]; simpl in *.
  unfold bump. destruct ev as [k v id dr']; simpl.
  destruct k; simpl; rewrite ?Nat.add_0_r; try done.
  - split_and!; try done. rewrite Hc. unfold wrap. rewrite Zplus_mod_idemp_l, Zminus_mod_idemp_l.
    f_equal. lia.
  - split_and!; try done. rewrite Hc. unfold wrap. rewrite Zminus_mod_idemp_l, Zminus_mod_idemp_r.
    f_equal. lia.
  - destruct (bump_bucket_sum BUCKET_NS (buckets lat) v) as (H1 & H2 & H3); [done|done|].
    split_and!; [done|done|done|]. change (2 ^ 64) with 18446744073709551616 in *. rewrite H1.
    rewrite <-Zplus_mod_idemp_l, Hs, Zplus_mod_idemp_l. f_equal.
    replace (existsb (fun b => v <? b) BUCKET_NS) with (v <? 2 ^ 64 - 1).
    { change (2 ^ 64) with 18446744073709551616.
      destruct (v <? 18446744073709551616 - 1); simpl; lia. }
    unfold BUCKET_NS. cbn [existsb].
    destruct (Z.ltb_spec v (2 ^ 64 - 1)); [by rewrite !orb_true_r|].
    repeat match goal with |- context [v <? ?c] => destruct (Z.ltb_spec v c); [lia|] end.
    reflexivity.
Qed.
