(* ===== verification/Stun.v ===== *)
(** * STUN messages and client ([plugins/connectors/ice/stun.hpp], [stun.cpp])

    The connectivity checks of the ICE connector: building and parsing Binding requests
    and responses, CRC-32 fingerprints, HMAC integrity, and the retrying client that asks a
    server for the mapped address.  HMAC-SHA1 comes from OpenSSL and is a parameter; a
    builder that would write past its buffer and a parser that would read past the packet
    return the outer [None].  The client's socket, resolver and timer are its inputs; the
    callbacks it invokes are its output, and do not call back into the client. *)

From Stdlib Require Import ZArith Strings.Byte String Lia.
From stdpp Require Import base list strings numbers.
From S2P Require Import Prelude.

Local Open Scope Z_scope.

(** ** Constants *)

Definition STUN_BINDING_REQUEST : Z := 0x0001.
Definition STUN_BINDING_RESPONSE : Z := 0x0101.
Definition STUN_ATTR_MAPPED_ADDRESS : Z := 0x0001.
Definition STUN_ATTR_USERNAME : Z := 0x0006.
Definition STUN_ATTR_MESSAGE_INTEGRITY : Z := 0x0008.
Definition STUN_ATTR_XOR_MAPPED_ADDRESS : Z := 0x0020.
Definition STUN_ATTR_PRIORITY : Z := 0x0024.
Definition STUN_ATTR_USE_CANDIDATE : Z := 0x0025.
Definition STUN_ATTR_FINGERPRINT : Z := 0x8028.
Definition STUN_ATTR_ICE_CONTROLLED : Z := 0x8029.
Definition STUN_ATTR_ICE_CONTROLLING : Z := 0x802A.
Definition STUN_MAGIC_COOKIE : Z := 0x2112A442.
Definition STUN_HEADER_SIZE : nat := 20.
Definition STUN_HMAC_SIZE : nat := 20.

(** [boost::asio::ip::address]: 4 or 16 bytes. *)
Inductive ip_address := V4 (b : bytes) | V6 (b : bytes).

Record StunAddress := mk_addr { sa_ip : ip_address; sa_port : Z }.
Record StunResult := mk_result { sr_mapped : StunAddress; sr_txn_id : bytes }.
Record StunRequest := mk_request {
  rq_txn_id : bytes;
  rq_priority : Z;
  rq_use_candidate : bool;
  rq_username : bytes;
}.

(** ** Byte order *)

Definition read_u16 (off : nat) (d : bytes) : Z := be_dec (slice off 2 d).
Definition read_u32 (off : nat) (d : bytes) : Z := be_dec (slice off 4 d).
Definition write_u16 (off : nat) (v : Z) (d : bytes) : bytes :=
  take off d ++ be_enc 2 v ++ drop (off + 2) d.

(** ** CRC-32 *)

Definition CRC_POLY : Z := 0xEDB88320.

(** One bit of the division. *)
Definition crc_bit (crc : Z) : Z :=
  Z.lxor (Z.shiftr crc 1) (if Z.testbit crc 0 then CRC_POLY else 0).

Fixpoint crc_bits (n : nat) (crc : Z) : Z :=
  match n with O => crc | S n => crc_bit (crc_bits n crc) end.

(** The entries [init_crc32_table] computes. *)
Definition crc32_entry (i : Z) : Z := crc_bits 8 i.

Definition crc32_table : list Z := map (fun i => crc32_entry (Z.of_nat i)) (seq 0 256).

Definition crc_byte (crc : Z) (b : byte) : Z :=
  Z.lxor (Z.shiftr crc 8)
    (nth (Z.to_nat (Z.land (Z.lxor crc (b2z b)) 0xFF)) crc32_table 0).

Definition compute_crc32 (data : bytes) : Z :=
  Z.lxor (fold_left crc_byte data 0xFFFFFFFF) 0xFFFFFFFF.

Definition stun_fingerprint (data : bytes) : Z := Z.lxor (compute_crc32 data) 0x5354554E.

(** ** Attributes *)

(** [(len + 3u) & ~3u]. *)
Definition pad4 (len : Z) : Z := Z.land (len + 3) (2 ^ 32 - 4).

(** [None]: the padded length wraps at 16 bits and [memcpy] writes past the buffer. *)
Definition append_attr (type : Z) (value : bytes) (value_len : Z) (buf : bytes) : option bytes :=
  let padded := u16 (pad4 value_len) in
  if padded <? value_len then None
  else Some (buf ++ be_enc 2 type ++ be_enc 2 value_len ++ take (Z.to_nat value_len) value
               ++ replicate (Z.to_nat (padded - value_len)) x00).

Definition append_attr_u32 (type v : Z) (buf : bytes) : option bytes :=
  append_attr type (be_enc 4 v) 4 buf.
Definition append_attr_u64 (type v : Z) (buf : bytes) : option bytes :=
  append_attr type (be_enc 8 v) 8 buf.

Definition update_msg_length (buf : bytes) : bytes :=
  write_u16 2 (u16 (Z.of_nat (length buf) - Z.of_nat STUN_HEADER_SIZE)) buf.

Definition write_header (type : Z) (txn : bytes) : bytes :=
  be_enc 2 type ++ be_enc 2 0 ++ be_enc 4 STUN_MAGIC_COOKIE ++ txn.

(** The bytes of the cookie and the transaction id that mask an IPv6 address. *)
Definition xor_key (txn : bytes) : bytes := be_enc 4 STUN_MAGIC_COOKIE ++ txn.
Definition xor_bytes (a b : bytes) : bytes := zip_with (fun x y => z2b (Z.lxor (b2z x) (b2z y))) a b.
Definition cookie_hi : Z := u16 (Z.shiftr STUN_MAGIC_COOKIE 16).

Section stun.
(** [HMAC(EVP_sha1(), key, data)]. *)
Context (hmac_sha1 : bytes -> bytes -> bytes).

Definition append_integrity_and_fingerprint (password buf : bytes) : option bytes :=
  let mi_len := u16 (Z.of_nat (length buf) - Z.of_nat STUN_HEADER_SIZE + 4 + Z.of_nat STUN_HMAC_SIZE) in
  let buf := write_u16 2 mi_len buf in
  let hmac := hmac_sha1 password buf in
  buf ← append_attr STUN_ATTR_MESSAGE_INTEGRITY hmac (Z.of_nat STUN_HMAC_SIZE) buf;
  let fp_len := u16 (Z.of_nat (length buf) - Z.of_nat STUN_HEADER_SIZE + 8) in
  let buf := write_u16 2 fp_len buf in
  buf ← append_attr_u32 STUN_ATTR_FINGERPRINT (stun_fingerprint buf) buf;
  Some (update_msg_length buf).

(** ** Builders *)

(** With the transaction id that was drawn. *)
Definition build_binding_request (txn : bytes) : bytes :=
  update_msg_length (write_header STUN_BINDING_REQUEST txn).

Definition build_check_request (txn username password : bytes) (priority : Z)
    (use_candidate controlling : bool) (tie_breaker : Z) : option bytes :=
  buf ← append_attr STUN_ATTR_USERNAME username (u16 (Z.of_nat (length username)))
          (write_header STUN_BINDING_REQUEST txn);
  buf ← append_attr_u32 STUN_ATTR_PRIORITY priority buf;
  buf ← append_attr_u64 (if controlling then STUN_ATTR_ICE_CONTROLLING else STUN_ATTR_ICE_CONTROLLED)
          tie_breaker buf;
  buf ← (if use_candidate : bool then append_attr STUN_ATTR_USE_CANDIDATE [] 0 buf else Some buf);
  append_integrity_and_fingerprint password buf.

Definition mapped_attr (txn : bytes) (a : StunAddress) : bytes :=
  match sa_ip a with
  | V4 b => [x00; x01] ++ be_enc 2 (Z.lxor (sa_port a) cookie_hi)
              ++ be_enc 4 (Z.lxor (be_dec b) STUN_MAGIC_COOKIE)
  | V6 b => [x00; x02] ++ be_enc 2 (Z.lxor (sa_port a) cookie_hi) ++ xor_bytes b (xor_key txn)
  end.

Definition build_check_response (txn : bytes) (a : StunAddress) (password : bytes) : option bytes :=
  let xma := mapped_attr txn a in
  buf ← append_attr STUN_ATTR_XOR_MAPPED_ADDRESS xma
          (match sa_ip a with V4 _ => 8 | V6 _ => 20 end) (write_header STUN_BINDING_RESPONSE txn);
  append_integrity_and_fingerprint password buf.

(** ** Parsers *)

(** The attribute loop: [f] is the body, given the position, type, length and value of an
    attribute; [fuel] bounds the iterations, each of which advances by at least four. *)
Fixpoint parse_attrs {S} (f : S -> nat -> Z -> Z -> bytes -> S) (fuel : nat) (data : bytes)
    (pos stop : nat) (s : S) : S :=
  match fuel with
  | O => s
  | S fuel =>
      if bool_decide (pos + 4 <= stop)%nat then
        let attr_type := read_u16 pos data in
        let attr_len := read_u16 (pos + 2) data in
        let attr_padded := Z.to_nat (pad4 attr_len) in
        if bool_decide (stop < pos + 4 + attr_padded)%nat then s
        else parse_attrs f fuel data (pos + 4 + attr_padded) stop
               (f s pos attr_type attr_len (slice (pos + 4) (Z.to_nat attr_len) data))
      else s
  end.

(** The header checks both parsers start with; the result is the end of the attributes. *)
Definition check_header (type : Z) (data : bytes) : option nat :=
  if bool_decide (length data < STUN_HEADER_SIZE)%nat then None
  else if negb (read_u16 0 data =? type) then None
  else if negb (read_u32 4 data =? STUN_MAGIC_COOKIE) then None
  else
    let stop := (STUN_HEADER_SIZE + Z.to_nat (read_u16 2 data))%nat in
    if bool_decide (length data < stop)%nat then None else Some stop.

(** The mapped address found so far and [result.mapped], which a rejected attribute may
    have changed too. *)
Definition response_attr (txn : bytes) (s : bool * StunAddress) (_ : nat) (type len : Z) (v : bytes)
    : bool * StunAddress :=
  let '(found, a) := s in
  let family := read_u16 0 v mod 256 in
  if (type =? STUN_ATTR_XOR_MAPPED_ADDRESS) && (8 <=? len) then
    let port := Z.lxor (read_u16 2 v) cookie_hi in
    if family =? 1 then
      (true, mk_addr (V4 (be_enc 4 (Z.lxor (read_u32 4 v) STUN_MAGIC_COOKIE))) port)
    else if (family =? 2) && (20 <=? len) then
      (true, mk_addr (V6 (xor_bytes (slice 4 16 v) (xor_key txn))) port)
    else (found, mk_addr (sa_ip a) port)
  else if (type =? STUN_ATTR_MAPPED_ADDRESS) && negb found && (8 <=? len) then
    let port := read_u16 2 v in
    if family =? 1 then (true, mk_addr (V4 (slice 4 4 v)) port)
    else (found, mk_addr (sa_ip a) port)
  else s.

Definition parse_binding_response (data : bytes) : option StunResult :=
  match check_header STUN_BINDING_RESPONSE data with
  | None => None
  | Some stop =>
      let txn := slice 8 12 data in
      let '(found, a) := parse_attrs (response_attr txn) (S stop) data STUN_HEADER_SIZE stop
                           (false, mk_addr (V4 (replicate 4 x00)) 0) in
      if found : bool then Some (mk_result a txn) else None
  end.

(** The request and the position of its MESSAGE-INTEGRITY attribute. *)
Definition request_attr (s : StunRequest * nat) (pos : nat) (type len : Z) (v : bytes)
    : StunRequest * nat :=
  let '(r, mi) := s in
  if type =? STUN_ATTR_USERNAME then
    (mk_request (rq_txn_id r) (rq_priority r) (rq_use_candidate r) v, mi)
  else if type =? STUN_ATTR_PRIORITY then
    if 4 <=? len then (mk_request (rq_txn_id r) (read_u32 0 v) (rq_use_candidate r) (rq_username r), mi)
    else s
  else if type =? STUN_ATTR_USE_CANDIDATE then
    (mk_request (rq_txn_id r) (rq_priority r) true (rq_username r), mi)
  else if type =? STUN_ATTR_MESSAGE_INTEGRITY then (r, pos)
  else s.

(** The HMAC a request with MESSAGE-INTEGRITY at [mi_offset] must carry. *)
Definition expected_hmac (password data : bytes) (mi_offset : nat) : bytes :=
  hmac_sha1 password
    (write_u16 2 (u16 (Z.of_nat mi_offset - Z.of_nat STUN_HEADER_SIZE + 4 + Z.of_nat STUN_HMAC_SIZE))
       (take mi_offset data)).

(** The outer [None] is a read of the 20 HMAC bytes past the packet. *)
Definition parse_binding_request (data password : bytes) : option (option StunRequest) :=
  match check_header STUN_BINDING_REQUEST data with
  | None => Some None
  | Some stop =>
      let '(req, mi_offset) := parse_attrs request_attr (S stop) data STUN_HEADER_SIZE stop
                                 (mk_request (slice 8 12 data) 0 false [], 0%nat) in
      if bool_decide (0 < mi_offset)%nat && negb (bool_decide (password = [])) then
        if bool_decide (length data < mi_offset + 4 + STUN_HMAC_SIZE)%nat then None
        else if bool_decide (expected_hmac password data mi_offset
                             = slice (mi_offset + 4) STUN_HMAC_SIZE data)
        then Some (Some req) else Some None
      else Some (Some req)
  end.

Definition is_stun_packet (data : bytes) : bool :=
  match data with
  | [] => false
  | b0 :: _ =>
      if bool_decide (length data < STUN_HEADER_SIZE)%nat then false
      else if negb (Z.land (b2z b0) 0xC0 =? 0) then false
      else read_u32 4 data =? STUN_MAGIC_COOKIE
  end.
End stun.

(** ** The client *)

Definition MAX_RETRIES : Z := 3.

(** [sc_cb] is the callback waiting; [sc_sent] the packets handed to the socket and
    [sc_log] the callbacks invoked, with what they were given. *)
Record StunClient := mk_client {
  sc_active : bool;
  sc_cb : option nat;
  sc_txn : bytes;
  sc_retries : Z;
  sc_sent : list bytes;
  sc_log : list (nat * option StunAddress);
}.

Definition client_init : StunClient := mk_client false None (replicate 12 x00) 0 [] [].

Definition finish (result : option StunAddress) (c : StunClient) : StunClient :=
  mk_client false None (sc_txn c) (sc_retries c) (sc_sent c)
    (sc_log c ++ match sc_cb c with Some cb => [(cb, result)] | None => [] end).

(** Draws [txn] and sends. *)
Definition send_binding (txn : bytes) (c : StunClient) : StunClient :=
  mk_client (sc_active c) (sc_cb c) txn (sc_retries c) (sc_sent c ++ [build_binding_request txn])
    (sc_log c).

Definition send_request (txn : bytes) (send_ok : bool) (c : StunClient) : StunClient :=
  let c := send_binding txn c in
  if send_ok then c else finish None c.

(** [found]: the resolver knows the server. *)
Definition resolve (cb : nat) (found : bool) (txn : bytes) (send_ok : bool) (c : StunClient)
    : StunClient :=
  let c := if sc_active c then finish None c else c in
  let c := mk_client true (Some cb) (sc_txn c) 0 (sc_sent c) (sc_log c) in
  if found then send_request txn send_ok c else finish None c.

Definition feed_client (data : bytes) (c : StunClient) : bool * StunClient :=
  if negb (sc_active c) then (false, c)
  else if negb (is_stun_packet data) then (false, c)
  else match parse_binding_response data with
       | None => (false, c)
       | Some r => if bool_decide (sr_txn_id r = sc_txn c) then (true, finish (Some (sr_mapped r)) c)
                   else (false, c)
       end.

Definition cancel (c : StunClient) : StunClient := if sc_active c then finish None c else c.

(** The wait handler, when the wait was not cancelled. *)
Definition retry_timer (txn : bytes) (c : StunClient) : StunClient :=
  if negb (sc_active c) then c
  else
    let n := sc_retries c + 1 in
    let c := mk_client (sc_active c) (sc_cb c) (sc_txn c) n (sc_sent c) (sc_log c) in
    if MAX_RETRIES <=? n then finish None c else send_binding txn c.

Inductive client_op :=
  | OpResolve (cb : nat) (found : bool) (txn : bytes) (send_ok : bool)
  | OpFeed (data : bytes)
  | OpCancel
  | OpTimer (txn : bytes).

Definition run_client_op (c : StunClient) (op : client_op) : StunClient :=
  match op with
  | OpResolve cb found txn send_ok => resolve cb found txn send_ok c
  | OpFeed data => snd (feed_client data c)
  | OpCancel => cancel c
  | OpTimer txn => retry_timer txn c
  end.

Definition run_client (ops : list client_op) : StunClient := fold_left run_client_op ops client_init.

(** A constant fits its width. *)
Ltac const_fits := solve [split; vm_compute; [discriminate|reflexivity]].

(** ** Lemmas: CRC *)

Lemma crc_bit_lxor a b : crc_bit (Z.lxor a b) = Z.lxor (crc_bit a) (crc_bit b).
Proof.
  unfold crc_bit. rewrite Z.shiftr_lxor, Z.lxor_spec.
  destruct (Z.testbit a 0), (Z.testbit b 0); simpl xorb; cbv iota;
    rewrite ?Z.lxor_0_r; apply Z.bits_inj; intros i; rewrite !Z.lxor_spec;
    repeat destruct (Z.testbit _ i); done.
Qed.

Lemma crc_bits_lxor n a b : crc_bits n (Z.lxor a b) = Z.lxor (crc_bits n a) (crc_bits n b).
Proof.
  induction n as [|n IH]; [done|]. cbn [crc_bits]. by rewrite IH, crc_bit_lxor.
Qed.

(** Bits shifted out that are zero leave a plain shift. *)
Lemma crc_bits_shift n x :
  (forall i, 0 <= i < Z.of_nat n -> Z.testbit x i = false) -> crc_bits n x = Z.shiftr x (Z.of_nat n).
Proof.
  induction n as [|n IH]; intros Hx; [by rewrite Z.shiftr_0_r|].
  cbn [crc_bits]. rewrite IH by (intros; apply Hx; lia). unfold crc_bit.
  rewrite Z.shiftr_shiftr, Z.shiftr_spec by lia.
  rewrite (Hx (0 + Z.of_nat n)) by lia. rewrite Z.lxor_0_r. f_equal. lia.
Qed.

Lemma crc_table_lookup i : 0 <= i < 256 -> nth (Z.to_nat i) crc32_table 0 = crc32_entry i.
Proof.
  intros Hi. unfold crc32_table.
  rewrite (nth_indep _ 0 (crc32_entry (Z.of_nat 0))) by (rewrite length_map, length_seq; lia).
  rewrite (map_nth (fun i => crc32_entry (Z.of_nat i))), seq_nth by lia. f_equal. lia.
Qed.

Lemma crc_byte_bits crc b : crc_byte crc b = crc_bits 8 (Z.lxor crc (b2z b)).
Proof.
  pose proof (b2z_range b) as Hb. unfold crc_byte. set (x := Z.lxor crc (b2z b)).
  assert (0 <= Z.land x 255 < 256) as Hl.
  { change 255 with (Z.ones 8). rewrite Z.land_ones by lia. apply Z.mod_pos_bound. lia. }
  rewrite crc_table_lookup by done.
  assert (x = Z.lxor (Z.ldiff x 255) (Z.land x 255)) as Hx.
  { apply Z.bits_inj. intros i. rewrite Z.lxor_spec, Z.ldiff_spec, Z.land_spec.
    by destruct (Z.testbit x i), (Z.testbit 255 i). }
  rewrite Hx at 2. rewrite crc_bits_lxor. f_equal.
  rewrite crc_bits_shift.
  - apply Z.bits_inj'. intros i Hi. rewrite !Z.shiftr_spec by lia.
    rewrite Z.ldiff_spec. unfold x. rewrite Z.lxor_spec.
    change 255 with (Z.ones 8). rewrite Z.ones_spec_high by lia.
    rewrite (Z.bits_above_log2 (b2z b)); [by destruct (Z.testbit crc _)|lia|].
    destruct (decide (b2z b = 0)) as [->|]; [cbn; lia|].
    apply Z.log2_lt_pow2; [lia|]. assert (2 ^ 8 <= 2 ^ (i + Z.of_nat 8)) by (apply Z.pow_le_mono_r; lia). lia.
  - intros i Hi. rewrite Z.ldiff_spec. change 255 with (Z.ones 8). rewrite Z.ones_spec_low by lia.
    apply andb_false_r.
Qed.

(** The bit-by-bit checksum. *)
Definition crc32_reference (data : bytes) : Z :=
  Z.lxor (fold_left (fun crc b => crc_bits 8 (Z.lxor crc (b2z b))) data 0xFFFFFFFF) 0xFFFFFFFF.

(** ** Lemmas: messages *)

Lemma pad4_eq v : 0 <= v < 2 ^ 16 -> pad4 v = 4 * ((v + 3) / 4).
Proof.
  intros Hv. unfold pad4. change (2 ^ 32 - 4) with (Z.shiftl (Z.ones 30) 2).
  change 4 with (2 ^ 2) at 2. rewrite <-Z.shiftr_div_pow2, Z.mul_comm by lia.
  change 4 with (2 ^ 2). rewrite <-Z.shiftl_mul_pow2 by lia.
  apply Z.bits_inj'. intros i Hi. rewrite Z.land_spec.
  destruct (Z.ltb_spec i 2).
  - rewrite !Z.shiftl_spec_low by lia. apply andb_false_r.
  - rewrite !Z.shiftl_spec, Z.shiftr_spec by lia. replace (i - 2 + 2) with i by lia.
    destruct (Z.ltb_spec (i - 2) 30); [rewrite Z.ones_spec_low by lia; apply andb_true_r|].
    rewrite Z.ones_spec_high, andb_false_r by lia. symmetry. apply Z.bits_above_log2; [lia|].
    assert (Z.log2 (v + 3) <= Z.log2 (2 ^ 17)) by (apply Z.log2_le_mono; lia).
    change (Z.log2 (2 ^ 17)) with 17 in *. lia.
Qed.

(** A type-length-value attribute as it is on the wire. *)
Definition attr_bytes (a : Z * bytes) : bytes :=
  be_enc 2 a.1 ++ be_enc 2 (Z.of_nat (length a.2)) ++ a.2
  ++ replicate (Z.to_nat (pad4 (Z.of_nat (length a.2))) - length a.2) x00.

Definition attr_ok (a : Z * bytes) : Prop := fits 16 a.1 /\ Z.of_nat (length a.2) <= 65532.

Lemma pad4_bounds n :
  Z.of_nat n <= 65532 ->
  (n <= Z.to_nat (pad4 (Z.of_nat n)) <= n + 3)%nat /\ 0 <= pad4 (Z.of_nat n) < 2 ^ 16.
Proof.
  intros Hn. rewrite pad4_eq by lia.
  pose proof (Z.div_mod (Z.of_nat n + 3) 4 ltac:(lia)).
  pose proof (Z.mod_pos_bound (Z.of_nat n + 3) 4 ltac:(lia)). lia.
Qed.

Lemma length_attr_bytes a :
  attr_ok a -> length (attr_bytes a) = (4 + Z.to_nat (pad4 (Z.of_nat (length a.2))))%nat.
Proof.
  intros [_ Hl]. pose proof (pad4_bounds _ Hl). unfold attr_bytes.
  rewrite !length_app, !length_be_enc, length_replicate. lia.
Qed.

Lemma append_attr_ok t v n buf :
  n = Z.of_nat (length v) -> n <= 65532 -> append_attr t v n buf = Some (buf ++ attr_bytes (t, v)).
Proof.
  intros -> Hl. destruct (pad4_bounds _ Hl) as [H1 H2]. unfold append_attr, attr_bytes. simpl.
  rewrite (wrap_small 16) by done. rewrite (proj2 (Z.ltb_ge _ _)) by lia.
  by rewrite Nat2Z.id, firstn_all, Z2Nat.inj_sub, Nat2Z.id by lia.
Qed.

(** A message: header, then attributes. *)
Definition stun_header (type len : Z) (txn : bytes) : bytes :=
  be_enc 2 type ++ be_enc 2 len ++ be_enc 4 STUN_MAGIC_COOKIE ++ txn.

Definition attrs_bytes (l : list (Z * bytes)) : bytes := concat (map attr_bytes l).

Definition stun_message (type : Z) (txn : bytes) (l : list (Z * bytes)) : bytes :=
  stun_header type (Z.of_nat (length (attrs_bytes l))) txn ++ attrs_bytes l.

Lemma attrs_bytes_app l k : attrs_bytes (l ++ k) = attrs_bytes l ++ attrs_bytes k.
Proof. unfold attrs_bytes. by rewrite map_app, concat_app. Qed.

Lemma attrs_bytes_snoc l a : attrs_bytes l ++ attr_bytes a = attrs_bytes (l ++ [a]).
Proof. rewrite attrs_bytes_app. unfold attrs_bytes at 3. cbn [map concat]. by rewrite app_nil_r. Qed.

Lemma length_stun_header type len txn : length txn = 12%nat -> length (stun_header type len txn) = 20%nat.
Proof. intros H. unfold stun_header. by rewrite !length_app, !length_be_enc, H. Qed.

Lemma write_u16_header v type len txn rest :
  write_u16 2 v (stun_header type len txn ++ rest) = stun_header type v txn ++ rest.
Proof.
  reflexivity.
Qed.

Lemma read_be off n (pre rest : bytes) v :
  length pre = off -> 0 <= v < 2 ^ (8 * Z.of_nat n) ->
  be_dec (slice off n (pre ++ be_enc n v ++ rest)) = v.
Proof.
  intros Hpre Hv. rewrite (slice_app_skip off n pre _ off) by done. rewrite Nat.sub_diag.
  rewrite slice_app_take by apply length_be_enc. rewrite be_dec_enc. by apply Z.mod_small.
Qed.

Lemma read_header type len txn rest :
  fits 16 type -> fits 16 len -> length txn = 12%nat ->
  let d := stun_header type len txn ++ rest in
  read_u16 0 d = type /\ read_u16 2 d = len /\ read_u32 4 d = STUN_MAGIC_COOKIE /\ slice 8 12 d = txn.
Proof.
  intros Ht Hl Htxn d. unfold d, stun_header. rewrite <-!app_assoc. split_and!.
  - by apply (read_be 0 2 []).
  - by apply (read_be 2 2 (be_enc 2 type)).
  - by apply (read_be 4 4 (be_enc 2 type ++ be_enc 2 len)).
  - rewrite !app_assoc, <-(app_assoc _ txn).
    rewrite (slice_app_skip 8 12 _ _ 8) by done. rewrite Nat.sub_diag. by apply slice_app_take.
Qed.

Lemma check_header_message type txn l :
  fits 16 type -> length txn = 12%nat -> Z.of_nat (length (attrs_bytes l)) < 2 ^ 16 ->
  check_header type (stun_message type txn l) = Some (20 + length (attrs_bytes l))%nat.
Proof.
  intros Ht Htxn Hl. unfold check_header, stun_message, STUN_HEADER_SIZE.
  destruct (read_header type (Z.of_nat (length (attrs_bytes l))) txn (attrs_bytes l)) as (E1 & E2 & E3 & _);
    [done|split; lia|done|].
  rewrite E1, E2, E3, length_app, length_stun_header, !Z.eqb_refl, Nat2Z.id by done. cbv iota.
  rewrite !bool_decide_false by lia. done.
Qed.

Lemma message_txn type txn l :
  fits 16 type -> length txn = 12%nat -> Z.of_nat (length (attrs_bytes l)) < 2 ^ 16 ->
  slice 8 12 (stun_message type txn l) = txn.
Proof. intros Ht Htxn Hl. apply read_header; [done|split; lia|done]. Qed.

(** The loop body applied to a list of attributes laid out from [pos]. *)
Fixpoint fold_attrs {S} (f : S -> nat -> Z -> Z -> bytes -> S) (pos : nat) (l : list (Z * bytes)) (s : S)
    : S :=
  match l with
  | [] => s
  | a :: l => fold_attrs f (pos + length (attr_bytes a)) l
                (f s pos a.1 (Z.of_nat (length a.2)) a.2)
  end.

Lemma read_attr pre a rest :
  attr_ok a ->
  let d := pre ++ attr_bytes a ++ rest in
  read_u16 (length pre) d = a.1 /\ read_u16 (length pre + 2) d = Z.of_nat (length a.2) /\
  slice (length pre + 4) (length a.2) d = a.2.
Proof.
  intros [Ht Hl] d. unfold d, attr_bytes. rewrite <-!app_assoc. split_and!.
  - by apply read_be.
  - rewrite app_assoc. apply read_be; [by rewrite length_app, length_be_enc|]. simpl. lia.
  - rewrite !app_assoc, <-(app_assoc _ a.2), <-app_assoc.
    rewrite (slice_app_skip _ _ _ _ (length pre + 4)); [|rewrite !length_app, !length_be_enc; lia|lia].
    rewrite Nat.sub_diag. rewrite <-?app_assoc. by apply slice_app_take.
Qed.

(** The attribute loop reads back the attributes that were written, and its fuel lasts. *)
Lemma parse_attrs_list {S} (f : S -> nat -> Z -> Z -> bytes -> S) fuel pre l s :
  Forall attr_ok l -> (length l < fuel)%nat ->
  parse_attrs f fuel (pre ++ attrs_bytes l) (length pre) (length pre + length (attrs_bytes l)) s =
  fold_attrs f (length pre) l s.
Proof.
  revert fuel pre s. induction l as [|a l IH]; intros fuel pre s Hok Hf.
  - destruct fuel; [done|]. cbn [parse_attrs]. unfold attrs_bytes. simpl.
    rewrite bool_decide_false by lia. done.
  - apply Forall_cons_iff in Hok as [Ha Hok]. destruct fuel as [|fuel]; [simpl in Hf; lia|].
    unfold attrs_bytes. cbn [map concat parse_attrs fold_attrs]. fold (attrs_bytes l).
    destruct (read_attr pre a (attrs_bytes l) Ha) as (E1 & E2 & E3). rewrite E1, E2, Nat2Z.id, E3.
    pose proof (length_attr_bytes a Ha) as La. rewrite length_app.
    rewrite bool_decide_true by lia. rewrite bool_decide_false by lia.
    rewrite app_assoc, Nat.add_assoc.
    rewrite <-(Nat.add_assoc (length pre) 4), <-La, <-length_app.
    apply IH; [done|simpl in Hf; lia].
Qed.

(** Every round advances by at least four bytes, so any fuel above the bytes left gives the
    same result: the fuel the parsers use is never exhausted, whatever the packet. *)
Lemma parse_attrs_enough {S} (f : S -> nat -> Z -> Z -> bytes -> S) n m data pos stop s :
  (stop - pos < n)%nat -> (stop - pos < m)%nat ->
  parse_attrs f n data pos stop s = parse_attrs f m data pos stop s.
Proof.
  revert m pos s. induction n as [|n IH]; intros m pos s Hn Hm; [lia|]. destruct m as [|m]; [lia|].
  cbn [parse_attrs]. case_bool_decide; [|done]. case_bool_decide; [done|]. apply IH; lia.
Qed.

Lemma attrs_count l : Forall attr_ok l -> (length l <= length (attrs_bytes l))%nat.
Proof.
  induction 1 as [|a l Ha Hl IH]; [done|]. unfold attrs_bytes. cbn [map concat length].
  rewrite length_app, length_attr_bytes by done. unfold attrs_bytes in IH. lia.
Qed.

Section roundtrip.
Context (hmac_sha1 : bytes -> bytes -> bytes) (hmac_length : forall k d, length (hmac_sha1 k d) = 20%nat).

(** The HMAC of a message with attributes [l], its length field counting the integrity
    attribute. *)
Definition message_hmac (password : bytes) (type : Z) (txn : bytes) (l : list (Z * bytes)) : bytes :=
  hmac_sha1 password
    (stun_header type (Z.of_nat (length (attrs_bytes l) + 24)) txn ++ attrs_bytes l).

Definition integrity (password : bytes) (type : Z) (txn : bytes) (l : list (Z * bytes))
    : list (Z * bytes) :=
  let l1 := l ++ [(STUN_ATTR_MESSAGE_INTEGRITY, message_hmac password type txn l)] in
  [(STUN_ATTR_MESSAGE_INTEGRITY, message_hmac password type txn l);
   (STUN_ATTR_FINGERPRINT, be_enc 4 (stun_fingerprint
      (stun_header type (Z.of_nat (length (attrs_bytes l1) + 8)) txn ++ attrs_bytes l1)))].

Lemma length_small_attr t (v : bytes) n :
  length v = n -> (n mod 4 = 0)%nat -> (n <= 100)%nat -> fits 16 t ->
  length (attr_bytes (t, v)) = (4 + n)%nat.
Proof.
  intros Hv Hn Hb Ht. rewrite length_attr_bytes by (split; simpl; [done|lia]). simpl.
  rewrite Hv. f_equal. rewrite pad4_eq by lia.
  pose proof (Nat.div_mod_eq n 4) as Hd. rewrite Hn in Hd.
  set (q := (n / 4)%nat) in *. replace (Z.of_nat n + 3) with (3 + Z.of_nat q * 4) by lia.
  rewrite Z.div_add by lia. change (3 / 4) with 0. lia.
Qed.

Lemma append_integrity type txn l password :
  length txn = 12%nat -> fits 16 type ->
  Z.of_nat (length (attrs_bytes l)) + 32 < 2 ^ 16 ->
  append_integrity_and_fingerprint hmac_sha1 password (stun_header type 0 txn ++ attrs_bytes l) =
  Some (stun_message type txn (l ++ integrity password type txn l)).
Proof.
  intros Htxn Ht Hlen. unfold append_integrity_and_fingerprint, STUN_HMAC_SIZE, STUN_HEADER_SIZE.
  rewrite length_app, length_stun_header by done.
  rewrite write_u16_header.
  replace (Z.of_nat (20 + length (attrs_bytes l)) - Z.of_nat 20 + 4 + Z.of_nat 20)
    with (Z.of_nat (length (attrs_bytes l) + 24)) by lia.
  rewrite (wrap_small 16) by (split; lia).
  fold (message_hmac password type txn l). set (mac := message_hmac password type txn l).
  assert (length mac = 20%nat) as Hmac by apply hmac_length.
  rewrite append_attr_ok by lia. cbn [mbind option_bind].
  rewrite <-app_assoc. set (mi := (STUN_ATTR_MESSAGE_INTEGRITY, mac)).
  rewrite attrs_bytes_snoc.
  assert (length (attr_bytes mi) = 24)%nat as Hmi by (apply (length_small_attr _ _ 20); done || lia).
  assert (length (attrs_bytes (l ++ [mi])) = length (attrs_bytes l) + 24)%nat as Hl1.
  { by rewrite <-attrs_bytes_snoc, length_app, Hmi. }
  rewrite length_app, length_stun_header, write_u16_header by done.
  replace (Z.of_nat (20 + length (attrs_bytes (l ++ [mi]))) - Z.of_nat 20 + 8)
    with (Z.of_nat (length (attrs_bytes (l ++ [mi])) + 8)) by lia.
  rewrite (wrap_small 16) by (split; lia).
  unfold append_attr_u32. set (fpv := be_enc 4 _).
  rewrite append_attr_ok by done.
  cbn [mbind option_bind]. set (fp := (STUN_ATTR_FINGERPRINT, fpv)).
  rewrite <-app_assoc.
  rewrite attrs_bytes_snoc, <-app_assoc. cbn [app].
  unfold update_msg_length, stun_message, STUN_HEADER_SIZE.
  rewrite length_app, length_stun_header, write_u16_header by done.
  change (integrity password type txn l) with [mi; fp].
  do 3 f_equal. replace (Z.of_nat (20 + length (attrs_bytes (l ++ [mi; fp]))) - Z.of_nat 20)
    with (Z.of_nat (length (attrs_bytes (l ++ [mi; fp])))) by lia.
  apply wrap_small. split; [lia|]. rewrite (app_assoc l [mi] [fp] : l ++ [mi; fp] = _).
  rewrite <-attrs_bytes_snoc, length_app, Hl1.
  unfold fp. rewrite (length_small_attr _ _ 4) by (done || lia || (unfold fits; lia)). lia.
Qed.

Lemma fold_attrs_app {S} (f : S -> nat -> Z -> Z -> bytes -> S) pos l k s :
  fold_attrs f pos (l ++ k) s = fold_attrs f (pos + length (attrs_bytes l)) k (fold_attrs f pos l s).
Proof.
  revert pos s. induction l as [|a l IH]; intros pos s; [by rewrite Nat.add_0_r|].
  cbn [app fold_attrs]. rewrite IH. f_equal. unfold attrs_bytes. cbn [map concat]. rewrite length_app. lia.
Qed.

Lemma integrity_ok password type txn l : Forall attr_ok (integrity password type txn l).
Proof.
  unfold integrity.
  constructor; [|constructor; [|constructor]]; (split; [unfold fits; cbn [fst]; unfold
    STUN_ATTR_MESSAGE_INTEGRITY, STUN_ATTR_FINGERPRINT; lia|cbn [snd]]).
  - unfold message_hmac. rewrite hmac_length. lia.
  - rewrite length_be_enc. lia.
Qed.

Lemma length_integrity password type txn l :
  length (attrs_bytes (integrity password type txn l)) = 32%nat.
Proof.
  unfold integrity, attrs_bytes. cbn [map concat]. rewrite !length_app.
  rewrite (length_small_attr _ _ 20), (length_small_attr _ _ 4);
    try done; try lia; try (unfold fits; lia). apply hmac_length.
Qed.

(** Parsing a message that carries integrity gives the fold over all its attributes. *)
Lemma parse_message {S} (f : S -> nat -> Z -> Z -> bytes -> S) type txn l s :
  Forall attr_ok l -> length txn = 12%nat ->
  parse_attrs f (20 + length (attrs_bytes l) + 1) (stun_message type txn l) 20
    (20 + length (attrs_bytes l)) s = fold_attrs f 20 l s.
Proof.
  intros Hok Htxn. unfold stun_message.
  pose proof (length_stun_header type (Z.of_nat (length (attrs_bytes l))) txn Htxn) as Hh.
  pose proof (attrs_count l Hok).
  rewrite <-Hh at 2 3. rewrite parse_attrs_list by (done || lia). by rewrite Hh.
Qed.

(** The integrity attribute of a built message, and what the parser compares it with. *)
Lemma message_authentic password password' type txn l :
  length txn = 12%nat -> Z.of_nat (length (attrs_bytes l)) + 32 < 2 ^ 16 ->
  let data := stun_message type txn (l ++ integrity password type txn l) in
  let mi := (20 + length (attrs_bytes l))%nat in
  (mi + 24 <= length data)%nat /\
  expected_hmac hmac_sha1 password' data mi = message_hmac password' type txn l /\
  slice (mi + 4) 20 data = message_hmac password type txn l.
Proof.
  intros Htxn Hlen data mi. unfold data, stun_message. rewrite attrs_bytes_app.
  set (h := stun_header type _ txn).
  assert (length (h ++ attrs_bytes l) = mi) as Hmi by (unfold h, mi; by rewrite length_app, length_stun_header).
  rewrite app_assoc. split_and!.
  { rewrite length_app, Hmi, length_integrity. lia. }
  - unfold expected_hmac. rewrite take_app_length' by done. unfold h. rewrite write_u16_header.
    replace (Z.of_nat mi - Z.of_nat STUN_HEADER_SIZE + 4 + Z.of_nat STUN_HMAC_SIZE)
      with (Z.of_nat (length (attrs_bytes l) + 24)) by (unfold mi, STUN_HEADER_SIZE, STUN_HMAC_SIZE; lia).
    by rewrite (wrap_small 16) by (split; lia).
  - set (a := (STUN_ATTR_MESSAGE_INTEGRITY, message_hmac password type txn l)).
    pose proof (integrity_ok password type txn l) as [Ha _]%Forall_cons_iff. fold a in Ha.
    unfold integrity. fold a. unfold attrs_bytes at 2. cbn [map concat].
    edestruct (read_attr (h ++ attrs_bytes l) a) as (_ & _ & E); [done|].
    rewrite Hmi in E. unfold a in E at 1 4. cbn [snd] in E. unfold message_hmac in E at 1.
    rewrite hmac_length in E. exact E.
Qed.

Definition request_attrs (username : bytes) (priority : Z) (use_candidate controlling : bool)
    (tie_breaker : Z) : list (Z * bytes) :=
  [(STUN_ATTR_USERNAME, username); (STUN_ATTR_PRIORITY, be_enc 4 priority);
   (if controlling then STUN_ATTR_ICE_CONTROLLING else STUN_ATTR_ICE_CONTROLLED, be_enc 8 tie_breaker)]
  ++ (if use_candidate then [(STUN_ATTR_USE_CANDIDATE, [])] else []).

Lemma attr_ok_intro t v : fits 16 t -> Z.of_nat (length v) <= 65532 -> attr_ok (t, v).
Proof. by split. Qed.

Lemma request_attrs_ok username priority use ctl tie :
  Z.of_nat (length username) <= 65532 -> Forall attr_ok (request_attrs username priority use ctl tie).
Proof.
  intros Hu. unfold request_attrs.
  assert (forall n v, Z.of_nat (length (be_enc n v)) = Z.of_nat n) as Hb by (intros; by rewrite length_be_enc).
  apply Forall_app; split; [constructor; [|constructor; [|constructor; [|constructor]]]|];
    [apply attr_ok_intro..|].
  1, 3: const_fits.
  - done.
  - rewrite Hb. lia.
  - destruct ctl; const_fits.
  - rewrite Hb. lia.
  - destruct use; [|constructor]. constructor; [|constructor].
    apply attr_ok_intro; [const_fits|done].
Qed.

Lemma length_request_attrs username priority use ctl tie :
  Z.of_nat (length username) <= 65532 ->
  (length (attrs_bytes (request_attrs username priority use ctl tie)) <= length username + 31)%nat.
Proof.
  intros Hu. unfold request_attrs. rewrite attrs_bytes_app. unfold attrs_bytes. cbn [map concat].
  pose proof (pad4_bounds _ Hu). rewrite !length_app.
  rewrite (length_attr_bytes (STUN_ATTR_USERNAME, username)) by (split; [const_fits|done]).
  rewrite (length_small_attr STUN_ATTR_PRIORITY _ 4), (length_small_attr _ _ 8)
    by (apply length_be_enc || done || lia || const_fits || (destruct ctl; const_fits)).
  destruct use; simpl; lia.
Qed.

Lemma build_check_request_message txn username password priority use ctl tie :
  length txn = 12%nat -> Z.of_nat (length username) + 63 < 2 ^ 16 ->
  let l := request_attrs username priority use ctl tie in
  build_check_request hmac_sha1 txn username password priority use ctl tie =
  Some (stun_message STUN_BINDING_REQUEST txn (l ++ integrity password STUN_BINDING_REQUEST txn l)).
Proof.
  intros Htxn Hu l. unfold build_check_request.
  rewrite (wrap_small 16) by (unfold fits; lia).
  rewrite append_attr_ok by lia. cbn [mbind option_bind].
  unfold append_attr_u32. rewrite append_attr_ok by done. cbn [mbind option_bind].
  unfold append_attr_u64. rewrite append_attr_ok by done. cbn [mbind option_bind].
  rewrite <-append_integrity; [|done|const_fits|].
  2: { pose proof (length_request_attrs username priority use ctl tie ltac:(lia)) as H. fold l in H. lia. }
  destruct use; cbn [mbind option_bind]; [rewrite append_attr_ok by done; cbn [mbind option_bind]|];
    f_equal; unfold l, request_attrs, attrs_bytes; cbn [app map concat];
    rewrite <-!app_assoc, ?app_nil_r; reflexivity.
Qed.

(** What the parser makes of the request's own attributes. *)
Lemma fold_request_attrs txn username priority use ctl tie :
  fits 32 priority ->
  fold_attrs request_attr 20 (request_attrs username priority use ctl tie)
    (mk_request txn 0 false [], 0%nat) = (mk_request txn priority use username, 0%nat).
Proof.
  intros Hp. unfold request_attrs. cbn [app fold_attrs fst snd].
  unfold request_attr at 3. rewrite Z.eqb_refl.
  unfold request_attr at 2. rewrite length_be_enc. unfold read_u32.
  rewrite <-(app_nil_r (be_enc 4 priority)), slice_app_take by apply length_be_enc.
  rewrite be_dec_enc, (Z.mod_small priority) by exact Hp.
  destruct use, ctl; reflexivity.
Qed.

(** The integrity attribute is noticed, the fingerprint skipped. *)
Lemma fold_integrity pos r mi password type txn l :
  fold_attrs request_attr pos (integrity password type txn l) (r, mi) = (r, pos).
Proof. destruct r. reflexivity. Qed.

Lemma check_request_parses txn username password priority use ctl tie :
  length txn = 12%nat -> Z.of_nat (length username) + 63 < 2 ^ 16 -> fits 32 priority ->
  exists data signed,
    build_check_request hmac_sha1 txn username password priority use ctl tie = Some data /\
    forall password', parse_binding_request hmac_sha1 data password' = Some
      (if bool_decide (password' = [] \/ hmac_sha1 password' signed = hmac_sha1 password signed)
       then Some (mk_request txn priority use username) else None).
Proof.
  intros Htxn Hu Hp. eexists _, _. split; [by apply build_check_request_message|]. intros password'.
  set (l := request_attrs _ _ _ _ _). set (l' := l ++ _). unfold parse_binding_request.
  pose proof (length_request_attrs username priority use ctl tie ltac:(lia)) as Hl. fold l in Hl.
  assert (length (attrs_bytes l') = length (attrs_bytes l) + 32)%nat as Hl'.
  { unfold l'. by rewrite attrs_bytes_app, length_app, length_integrity. }
  rewrite check_header_message by (done || const_fits || lia).
  rewrite message_txn by (done || const_fits || lia).
  rewrite <-(Nat.add_1_r (20 + _)), parse_message; [|apply Forall_app; split|done];
    [|apply request_attrs_ok; lia|apply integrity_ok].
  unfold l' at 1. rewrite fold_attrs_app.
  rewrite (fold_request_attrs txn username priority use ctl tie Hp : fold_attrs _ _ l _ = _), fold_integrity.
  destruct (message_authentic password password' STUN_BINDING_REQUEST txn l Htxn) as (Hin & H1 & H2); [lia|].
  fold l' in Hin, H1, H2. unfold STUN_HMAC_SIZE.
  rewrite (bool_decide_true (0 < _)%nat) by lia. rewrite (bool_decide_false (_ < _)%nat) by lia.
  rewrite H1, H2. unfold message_hmac.
  destruct (decide (password' = [])) as [He|Hne].
  - rewrite (bool_decide_true (password' = [])) by done. cbn [andb negb].
    by rewrite bool_decide_true by (by left).
  - rewrite (bool_decide_false (password' = [])) by done. cbn [andb negb].
    case_bool_decide as Hc; [by rewrite bool_decide_true by (by right)|].
    rewrite bool_decide_false; [done|]. intros [?|?]; [done|]. by apply Hc.
Qed.

(** A connectivity check that was built is read back by the peer: the transaction id,
    priority, nomination flag and user name arrive, and a receiver with another password
    accepts exactly when the two keys give the signed bytes the same HMAC. *)
Theorem check_request_roundtrip txn username password priority use ctl tie :
  length txn = 12%nat -> Z.of_nat (length username) + 63 < 2 ^ 16 -> fits 32 priority ->
  exists data signed,
    build_check_request hmac_sha1 txn username password priority use ctl tie = Some data /\
    forall password', parse_binding_request hmac_sha1 data password' = Some
      (if bool_decide (password' = [] \/ hmac_sha1 password' signed = hmac_sha1 password signed)
       then Some (mk_request txn priority use username) else None).
Proof. apply check_request_parses. Qed.
(** An address with the sizes [boost::asio] gives it. *)
Definition addr_ok (a : StunAddress) : Prop :=
  fits 16 (sa_port a) /\ match sa_ip a with V4 b => length b = 4%nat | V6 b => length b = 16%nat end.

Definition addr_len (a : StunAddress) : Z := match sa_ip a with V4 _ => 8 | V6 _ => 20 end.

Lemma length_mapped_attr txn a :
  addr_ok a -> length txn = 12%nat -> Z.of_nat (length (mapped_attr txn a)) = addr_len a.
Proof.
  intros [_ Hb] Htxn. unfold mapped_attr, addr_len. destruct (sa_ip a) as [b|b].
  - by rewrite !length_app, !length_be_enc.
  - unfold xor_bytes, xor_key.
    rewrite !length_app, length_be_enc, length_zip_with_l_eq; rewrite ?Hb; [done|].
    by rewrite length_app, length_be_enc, Htxn.
Qed.

Lemma lxor_twice a b : Z.lxor (Z.lxor a b) b = a.
Proof. by rewrite Z.lxor_assoc, Z.lxor_nilpotent, Z.lxor_0_r. Qed.

Lemma fits_lxor w a b : 0 <= w -> fits w a -> fits w b -> fits w (Z.lxor a b).
Proof.
  intros Hw Ha Hb. unfold fits in *. assert (0 <= Z.lxor a b) as H0 by (apply Z.lxor_nonneg; lia).
  split; [done|]. rewrite <-(Z.mod_small a (2 ^ w)), <-(Z.mod_small b (2 ^ w)) by done.
  rewrite <-!Z.land_ones by done.
  assert (Z.lxor (Z.land a (Z.ones w)) (Z.land b (Z.ones w)) = Z.lxor a b mod 2 ^ w) as ->.
  { rewrite <-Z.land_ones by done. apply Z.bits_inj. intros i. rewrite !Z.lxor_spec, !Z.land_spec, Z.lxor_spec.
    by destruct (Z.testbit a i), (Z.testbit b i), (Z.testbit (Z.ones w) i). }
  apply Z.mod_pos_bound. lia.
Qed.

Lemma xor_bytes_twice a k : (length a <= length k)%nat -> xor_bytes (xor_bytes a k) k = a.
Proof.
  revert k. induction a as [|x a IH]; intros k Hk; [done|]. destruct k as [|y k]; [simpl in Hk; lia|].
  unfold xor_bytes in *. cbn [zip_with]. rewrite IH by (simpl in Hk; lia). f_equal.
  apply b2z_inj. rewrite !b2z_z2b_small.
  - apply lxor_twice.
  - pose proof (b2z_range x). pose proof (b2z_range y). by apply (fits_lxor 8).
  - pose proof (b2z_range x). pose proof (b2z_range y). rewrite b2z_z2b_small; [rewrite lxor_twice; lia|].
    by apply (fits_lxor 8).
Qed.

(** The attribute the responder writes, read by the requester. *)
Lemma response_attr_mapped txn a pos s :
  addr_ok a -> length txn = 12%nat ->
  response_attr txn s pos STUN_ATTR_XOR_MAPPED_ADDRESS (addr_len a) (mapped_attr txn a) = (true, a).
Proof.
  destruct a as [[b|b] port], s as [found a0]; intros [Hp Hb] Htxn; cbn [sa_ip sa_port] in *.
  - assert (fits 16 (Z.lxor port cookie_hi)) as Hx by (apply fits_lxor; [lia|done|const_fits]).
    assert (fits 32 (Z.lxor (be_dec b) STUN_MAGIC_COOKIE)) as Hy.
    { apply fits_lxor; [lia| |const_fits]. pose proof (be_dec_bound b) as H. by rewrite Hb in H. }
    assert (read_u16 2 (mapped_attr txn (mk_addr (V4 b) port)) = Z.lxor port cookie_hi) as E1
      by (by apply (read_be 2 2 [x00; x01])).
    assert (read_u32 4 (mapped_attr txn (mk_addr (V4 b) port)) = Z.lxor (be_dec b) STUN_MAGIC_COOKIE) as E2.
    { unfold mapped_attr. cbn [sa_ip sa_port]. rewrite app_assoc, <-(app_nil_r (be_enc 4 _)). by apply read_be. }
    unfold response_attr. rewrite E1, E2, !lxor_twice.
    pose proof (be_enc_dec b) as Hd. rewrite Hb in Hd. rewrite Hd. reflexivity.
  - assert (fits 16 (Z.lxor port cookie_hi)) as Hx by (apply fits_lxor; [lia|done|const_fits]).
    assert (read_u16 2 (mapped_attr txn (mk_addr (V6 b) port)) = Z.lxor port cookie_hi) as E1
      by (by apply (read_be 2 2 [x00; x02])).
    assert (length (xor_key txn) = 16%nat) as Hk by (unfold xor_key; by rewrite length_app, length_be_enc, Htxn).
    assert (slice 4 16 (mapped_attr txn (mk_addr (V6 b) port)) = xor_bytes b (xor_key txn)) as E2.
    { unfold mapped_attr. cbn [sa_ip sa_port]. rewrite app_assoc, (slice_app_skip 4 16 _ _ 4) by done.
      apply slice_exact. unfold xor_bytes. rewrite length_zip_with_l_eq; lia. }
    unfold response_attr. rewrite E1, E2, lxor_twice, xor_bytes_twice by lia. reflexivity.
Qed.

(** The responder's attributes after the mapped address leave the result alone. *)
Lemma fold_response_integrity pos txn a password type txn' l :
  fold_attrs (response_attr txn) pos (integrity password type txn' l) (true, a) = (true, a).
Proof. reflexivity. Qed.

Lemma is_stun_response txn l :
  length txn = 12%nat -> is_stun_packet (stun_message STUN_BINDING_RESPONSE txn l) = true.
Proof.
  intros Htxn. unfold is_stun_packet.
  assert (STUN_HEADER_SIZE <= length (stun_message STUN_BINDING_RESPONSE txn l))%nat as Hl
    by (unfold stun_message, STUN_HEADER_SIZE; rewrite length_app, length_stun_header by done; lia).
  rewrite bool_decide_false by lia. reflexivity.
Qed.

Lemma build_check_response_message txn a password :
  length txn = 12%nat -> addr_ok a ->
  let l := [(STUN_ATTR_XOR_MAPPED_ADDRESS, mapped_attr txn a)] in
  build_check_response hmac_sha1 txn a password =
  Some (stun_message STUN_BINDING_RESPONSE txn (l ++ integrity password STUN_BINDING_RESPONSE txn l)) /\
  Forall attr_ok l /\ (length (attrs_bytes l) <= 24)%nat.
Proof.
  intros Htxn Ha l. pose proof (length_mapped_attr txn a Ha Htxn) as Hm.
  assert (addr_len a <= 20) as Hal by (unfold addr_len; destruct (sa_ip a); lia).
  assert (Forall attr_ok l) as Hok.
  { constructor; [|constructor]. apply attr_ok_intro; [const_fits|lia]. }
  assert (length (attrs_bytes l) <= 24)%nat as Hlen.
  { unfold l, attrs_bytes. cbn [map concat]. rewrite app_nil_r, length_attr_bytes.
    - cbn [snd]. rewrite Hm. unfold addr_len. destruct (sa_ip a); vm_compute; lia.
    - by apply Forall_cons_iff in Hok as [? _]. }
  split_and!; [|done..]. unfold build_check_response. fold (addr_len a).
  rewrite append_attr_ok by lia. cbn [mbind option_bind].
  rewrite <-append_integrity; [|done|const_fits|lia].
  unfold l, attrs_bytes. cbn [map concat]. by rewrite app_nil_r.
Qed.

Lemma check_response_parses txn a password :
  length txn = 12%nat -> addr_ok a ->
  exists data, build_check_response hmac_sha1 txn a password = Some data /\
    is_stun_packet data = true /\ parse_binding_response data = Some (mk_result a txn) /\
    forall c, sc_active c = true -> sc_txn c = txn -> feed_client data c = (true, finish (Some a) c).
Proof.
  intros Htxn Ha. destruct (build_check_response_message txn a password Htxn Ha) as (-> & Hok & Hlen).
  set (l := [_]) in *. set (l' := l ++ _). eexists. split; [done|].
  assert (length (attrs_bytes l') = length (attrs_bytes l) + 32)%nat as Hl'.
  { unfold l'. by rewrite attrs_bytes_app, length_app, length_integrity. }
  pose proof (is_stun_response txn l' Htxn) as Hstun.
  assert (parse_binding_response (stun_message STUN_BINDING_RESPONSE txn l') = Some (mk_result a txn)) as Hparse.
  { unfold parse_binding_response. rewrite check_header_message by (done || const_fits || lia).
    rewrite message_txn by (done || const_fits || lia).
    rewrite <-(Nat.add_1_r (20 + _)), parse_message; [|apply Forall_app; split|done];
      [|done|apply integrity_ok].
    unfold l', l at 1. cbn [app fold_attrs fst snd].
    rewrite length_mapped_attr, response_attr_mapped by done. by rewrite fold_response_integrity. }
  split_and!; [done..|]. intros c Hact <-. unfold feed_client. rewrite Hact, Hstun, Hparse. cbn [negb].
  by rewrite bool_decide_true.
Qed.

(** A check response that was built is a STUN packet, and the requester's parser
    recovers from it the transaction id and the mapped address, IPv4 or IPv6; a client
    waiting on that transaction takes it and hands the address to its callback. *)
Theorem check_response_roundtrip txn a password :
  length txn = 12%nat -> addr_ok a ->
  exists data, build_check_response hmac_sha1 txn a password = Some data /\
    is_stun_packet data = true /\ parse_binding_response data = Some (mk_result a txn) /\
    forall c, sc_active c = true -> sc_txn c = txn -> feed_client data c = (true, finish (Some a) c).
Proof. apply check_response_parses. Qed.
End roundtrip.

(** ** Lemmas: the checksum detects a damaged byte *)

Lemma crc_bit_fits x : fits 32 x -> fits 32 (crc_bit x).
Proof.
  intros Hx. apply fits_lxor; [lia| |destruct (Z.testbit x 0); const_fits].
  rewrite Z.shiftr_div_pow2 by lia. unfold fits in *. split; [apply Z.div_pos; lia|].
  apply Z.div_lt_upper_bound; lia.
Qed.

Lemma crc_bits_fits n x : fits 32 x -> fits 32 (crc_bits n x).
Proof. intros Hx. induction n as [|n IH]; [done|]. by apply crc_bit_fits. Qed.

Lemma fits_testbit w x i : 0 <= w <= i -> fits w x -> Z.testbit x i = false.
Proof.
  intros Hi [H0 H1]. destruct (decide (x = 0)) as [->|]; [apply Z.testbit_0_l|].
  apply Z.bits_above_log2; [lia|]. assert (Z.log2 x < w) by (apply Z.log2_lt_pow2; lia). lia.
Qed.

(** The polynomial's top bit records the bit shifted out, so a step loses nothing. *)
Lemma crc_bit_inj x y : fits 32 x -> fits 32 y -> crc_bit x = crc_bit y -> x = y.
Proof.
  intros Hx Hy H.
  assert (forall z i, 0 <= i -> Z.testbit (crc_bit z) i =
    xorb (Z.testbit z (i + 1)) (Z.testbit (if Z.testbit z 0 then CRC_POLY else 0) i)) as Hb.
  { intros z i Hi. unfold crc_bit. by rewrite Z.lxor_spec, Z.shiftr_spec by done. }
  assert (Z.testbit x 0 = Z.testbit y 0) as H0.
  { pose proof (f_equal (fun z => Z.testbit z 31) H) as H31. cbv beta in H31.
    rewrite !Hb in H31 by lia. rewrite (fits_testbit 32 x), (fits_testbit 32 y) in H31 by (done || lia).
    destruct (Z.testbit x 0), (Z.testbit y 0); try done; vm_compute in H31; discriminate. }
  apply Z.bits_inj'. intros i Hi. destruct (decide (i = 0)) as [->|]; [done|].
  pose proof (f_equal (fun z => Z.testbit z (i - 1)) H) as Hi1. cbv beta in Hi1.
  rewrite !Hb, H0 in Hi1 by lia. replace (i - 1 + 1) with i in Hi1 by lia.
  by destruct (Z.testbit x i), (Z.testbit y i), (Z.testbit _ (i - 1)).
Qed.

Lemma crc_bits_inj n x y : fits 32 x -> fits 32 y -> crc_bits n x = crc_bits n y -> x = y.
Proof.
  intros Hx Hy. induction n as [|n IH]; [done|]. cbn [crc_bits]. intros H.
  apply IH, crc_bit_inj; auto using crc_bits_fits.
Qed.

Lemma lxor_inj_l a b c : Z.lxor a b = Z.lxor a c -> b = c.
Proof.
  intros H. rewrite <-(lxor_twice b a), <-(lxor_twice c a). by rewrite !(Z.lxor_comm _ a), H.
Qed.

Lemma byte_fits b : fits 32 (b2z b).
Proof. pose proof (b2z_range b). unfold fits. lia. Qed.

Lemma crc_byte_fits x b : fits 32 x -> fits 32 (crc_byte x b).
Proof.
  intros Hx. rewrite crc_byte_bits. apply crc_bits_fits, fits_lxor; [lia|done|apply byte_fits].
Qed.

Lemma crc_byte_inj x y b c :
  fits 32 x -> fits 32 y -> crc_byte x b = crc_byte y c -> Z.lxor x (b2z b) = Z.lxor y (b2z c).
Proof.
  intros Hx Hy. rewrite !crc_byte_bits. apply crc_bits_inj; apply fits_lxor; auto using byte_fits; lia.
Qed.

Lemma crc_fold_fits data x : fits 32 x -> fits 32 (fold_left crc_byte data x).
Proof. revert x. induction data as [|b d IH]; intros x Hx; [done|]. by apply IH, crc_byte_fits. Qed.

Lemma crc_fold_inj data x y :
  fits 32 x -> fits 32 y -> fold_left crc_byte data x = fold_left crc_byte data y -> x = y.
Proof.
  revert x y. induction data as [|b d IH]; intros x y Hx Hy; [done|]. cbn [fold_left]. intros H.
  apply IH, crc_byte_inj in H; auto using crc_byte_fits.
  rewrite !(Z.lxor_comm _ (b2z b)) in H. by apply lxor_inj_l in H.
Qed.

(** The table-driven checksum is the bit-by-bit division by the CRC-32 polynomial, a
    32-bit value, and two packets that differ in one byte have different fingerprints. *)
Theorem crc32_bitwise data :
  compute_crc32 data = crc32_reference data /\ fits 32 (stun_fingerprint data) /\
  forall pre b b' post, data = pre ++ b :: post -> b <> b' ->
    stun_fingerprint (pre ++ b' :: post) <> stun_fingerprint data.
Proof.
  assert (fits 32 (0xFFFFFFFF)) as Hff by const_fits.
  assert (forall l x, fold_left crc_byte l x =
            fold_left (fun crc b => crc_bits 8 (Z.lxor crc (b2z b))) l x) as Hfold.
  { induction l as [|b l IH]; intros x; [done|]. cbn [fold_left]. by rewrite crc_byte_bits, IH. }
  split_and!.
  - unfold compute_crc32, crc32_reference. by rewrite Hfold.
  - apply fits_lxor; [lia| |const_fits]. apply fits_lxor; [lia| |done]. by apply crc_fold_fits.
  - intros pre b b' post -> Hne H. apply Hne. unfold stun_fingerprint, compute_crc32 in H.
    rewrite !(Z.lxor_comm _ 0x5354554E) in H. apply lxor_inj_l in H.
    rewrite !(Z.lxor_comm _ 0xFFFFFFFF) in H. apply lxor_inj_l in H.
    rewrite !fold_left_app in H. cbn [fold_left] in H.
    pose proof (crc_fold_fits pre _ Hff) as Hp.
    apply crc_fold_inj, crc_byte_inj, lxor_inj_l, b2z_inj in H; auto using crc_byte_fits.
Qed.

(** The standard check value of CRC-32. *)
Example crc32_check : compute_crc32 (list_byte_of_string "123456789") = 0xCBF43926.
Proof. vm_compute. reflexivity. Qed.

(** ** Lemmas: the client *)

(** The callbacks handed to [resolve], in order. *)
Fixpoint resolves (ops : list client_op) : list nat :=
  match ops with
  | [] => []
  | OpResolve cb _ _ _ :: ops => cb :: resolves ops
  | _ :: ops => resolves ops
  end.

Definition pending (c : StunClient) : list nat := match sc_cb c with Some cb => [cb] | None => [] end.

(** Requests the current exchange may still send. *)
Definition sends_left (c : StunClient) : Z := if sc_active c then MAX_RETRIES - 1 - sc_retries c else 0.

Record client_inv (c : StunClient) (cbs : list nat) : Prop := {
  ci_calls : (sc_log c).*1 ++ pending c = cbs;
  ci_active : sc_active c = bool_decide (sc_cb c <> None);
  ci_retries : sc_active c = true -> 0 <= sc_retries c < MAX_RETRIES;
  ci_sends : Z.of_nat (length (sc_sent c)) + sends_left c <= MAX_RETRIES * Z.of_nat (length cbs);
}.

Lemma sends_left_nonneg c cbs : client_inv c cbs -> 0 <= sends_left c.
Proof.
  intros H. pose proof (ci_retries _ _ H). unfold sends_left. destruct (sc_active c); [|done].
  assert (0 <= sc_retries c < MAX_RETRIES) by auto. lia.
Qed.

Lemma finish_inv r c cbs :
  (sc_log c).*1 ++ pending c = cbs ->
  Z.of_nat (length (sc_sent c)) <= MAX_RETRIES * Z.of_nat (length cbs) -> client_inv (finish r c) cbs.
Proof.
  intros Hc Hs. split; unfold finish; cbn [sc_log sc_cb sc_active sc_retries sc_sent]; try done.
  - rewrite <-Hc, fmap_app. unfold pending. cbn [sc_cb]. rewrite app_nil_r. by destruct (sc_cb c).
  - unfold sends_left. cbn [sc_active]. lia.
Qed.

Lemma finish_keeps r c cbs : client_inv c cbs -> client_inv (finish r c) cbs.
Proof.
  intros H. pose proof (sends_left_nonneg _ _ H). destruct H as [? ? ? Hs]. apply finish_inv; [done|lia].
Qed.

Lemma cancel_keeps c cbs : client_inv c cbs -> client_inv (cancel c) cbs.
Proof. unfold cancel. destruct (sc_active c); auto using finish_keeps. Qed.

Lemma resolve_keeps cb found txn ok c cbs :
  client_inv c cbs -> client_inv (resolve cb found txn ok c) (cbs ++ [cb]).
Proof.
  intros H%cancel_keeps. unfold resolve. fold (cancel c). set (c1 := cancel c) in *.
  assert (sc_active c1 = false) as Hact.
  { unfold c1, cancel. destruct (sc_active c) eqn:E; [done|exact E]. }
  assert (pending c1 = []) as Hp.
  { destruct H as [_ Ha _ _]. rewrite Hact in Ha. symmetry in Ha. apply bool_decide_eq_false in Ha.
    unfold pending. destruct (sc_cb c1); [|done]. by destruct Ha. }
  destruct H as [Hcalls _ _ Hsends]. rewrite Hp, app_nil_r in Hcalls.
  unfold sends_left in Hsends. rewrite Hact in Hsends.
  assert (MAX_RETRIES * Z.of_nat (length (cbs ++ [cb])) = MAX_RETRIES * Z.of_nat (length cbs) + 3) as Hm.
  { rewrite length_app. cbn [length]. unfold MAX_RETRIES. lia. }
  unfold send_request, send_binding.
  destruct found, ok; cbn [sc_active sc_cb sc_txn sc_retries sc_sent sc_log];
    try (apply finish_inv; cbn [sc_log sc_sent]; [by rewrite Hcalls|rewrite Hm, ?length_app; cbn [length]; lia]).
  split; unfold sends_left; cbn [sc_log sc_cb sc_active sc_retries sc_sent]; [by rewrite Hcalls|done|done|].
  rewrite Hm, length_app. cbn [length]. unfold MAX_RETRIES in *. lia.
Qed.

Lemma timer_keeps txn c cbs : client_inv c cbs -> client_inv (retry_timer txn c) cbs.
Proof.
  intros H. pose proof (sends_left_nonneg _ _ H) as Hnn. unfold retry_timer.
  destruct (sc_active c) eqn:Hact; [|done]. cbn [negb].
  destruct H as [Hcalls Ha Hr Hs]. specialize (Hr Hact). unfold sends_left in Hs, Hnn. rewrite Hact in Hs, Hnn.
  destruct (Z.leb_spec MAX_RETRIES (sc_retries c + 1)).
  - apply finish_inv; cbn [sc_log sc_sent]; [exact Hcalls|lia].
  - split; unfold sends_left, send_binding; cbn [sc_log sc_cb sc_active sc_retries sc_sent];
      [done|by rewrite Hact in *|lia|rewrite length_app; cbn [length]; lia].
Qed.

Lemma feed_keeps data c cbs : client_inv c cbs -> client_inv (feed_client data c).2 cbs.
Proof.
  intros H. unfold feed_client. repeat case_match; try done. by apply finish_keeps.
Qed.

Lemma run_client_inv_from ops c cbs :
  client_inv c cbs -> client_inv (fold_left run_client_op ops c) (cbs ++ resolves ops).
Proof.
  revert c cbs. induction ops as [|op ops IH]; intros c cbs H; [by rewrite app_nil_r|].
  cbn [fold_left]. destruct op; cbn [resolves run_client_op].
  - rewrite (cons_middle cb cbs (resolves ops)), app_assoc. by apply IH, resolve_keeps.
  - by apply IH, feed_keeps.
  - by apply IH, cancel_keeps.
  - by apply IH, timer_keeps.
Qed.

Lemma run_client_inv ops : client_inv (run_client ops) (resolves ops).
Proof. apply (run_client_inv_from ops client_init []). by split. Qed.

Lemma resolves_timers ops txns : resolves (ops ++ map OpTimer txns) = resolves ops.
Proof.
  induction ops as [|[] ops IH]; cbn [app resolves]; [by induction txns|by rewrite IH|done..].
Qed.

Lemma timers_end txns c cbs :
  client_inv c cbs -> MAX_RETRIES - (if sc_active c then sc_retries c else MAX_RETRIES) <= Z.of_nat (length txns) ->
  sc_active (fold_left run_client_op (map OpTimer txns) c) = false.
Proof.
  revert c. induction txns as [|txn txns IH]; intros c H Hn; cbn [map fold_left run_client_op length] in *.
  - pose proof (ci_retries _ _ H) as Hr. destruct (sc_active c); [|done]. specialize (Hr eq_refl). lia.
  - apply IH; [by apply timer_keeps|]. unfold retry_timer.
    pose proof (ci_retries _ _ H) as Hr. destruct (sc_active c) eqn:Hact; cbn [negb]; [|rewrite Hact; lia].
    specialize (Hr eq_refl).
    destruct (MAX_RETRIES <=? sc_retries c + 1); cbn [finish send_binding sc_active sc_retries]; lia.
Qed.

(** C40: Whatever the server, the network, the timer and the caller do, every callback handed
    to [resolve] is invoked exactly once, in order, except the last one while its exchange is
    still active; at most three requests are sent per [resolve]; and three expiries of the
    timer with nothing else end an exchange, its callback invoked. *)
Theorem stun_client_once ops :
  let c := run_client ops in
  (sc_log c).*1 ++ pending c = resolves ops /\
  sc_active c = bool_decide (sc_cb c <> None) /\
  Z.of_nat (length (sc_sent c)) <= MAX_RETRIES * Z.of_nat (length (resolves ops)) /\
  forall t1 t2 t3, let c' := run_client (ops ++ map OpTimer [t1; t2; t3]) in
    sc_active c' = false /\ (sc_log c').*1 = resolves ops.
Proof.
  intros c. pose proof (run_client_inv ops) as H. fold c in H.
  pose proof (sends_left_nonneg _ _ H). split_and!; [apply H..| |].
  { pose proof (ci_sends _ _ H). lia. }
  intros t1 t2 t3 c'.
  assert (sc_active c' = false) as Hact.
  { unfold c', run_client. rewrite fold_left_app. apply (timers_end _ _ _ H).
    pose proof (ci_retries _ _ H) as Hr. cbn [length]. unfold MAX_RETRIES in *. fold c.
    destruct (sc_active c); [specialize (Hr eq_refl)|]; lia. }
  split; [done|].
  pose proof (run_client_inv (ops ++ map OpTimer [t1; t2; t3])) as [Hc Ha _ _]. fold c' in Hc, Ha.
  rewrite resolves_timers in Hc. rewrite Hact in Ha. symmetry in Ha. apply bool_decide_eq_false in Ha.
  unfold pending in Hc. destruct (sc_cb c'); [by destruct Ha|]. by rewrite app_nil_r in Hc.
Qed.

(** A request without MESSAGE-INTEGRITY is accepted whatever password is expected. *)
Lemma request_unsigned hmac password :
  let data := stun_message STUN_BINDING_REQUEST (replicate 12 x00) [(STUN_ATTR_USE_CANDIDATE, [])] in
  parse_binding_request hmac data password = Some (Some (mk_request (replicate 12 x00) 0 true [])).
Proof. reflexivity. Qed.

(** An empty MESSAGE-INTEGRITY at the end of the packet makes the comparison read past it. *)
Lemma request_short_integrity hmac b password :
  let data := stun_message STUN_BINDING_REQUEST (replicate 12 x00) [(STUN_ATTR_MESSAGE_INTEGRITY, [])] in
  parse_binding_request hmac data (b :: password) = None.
Proof. reflexivity. Qed.

(** A retransmission draws a new transaction id, so the answer to the first request is
    ignored from then on. *)
Lemma retransmit_forgets t1 t2 c data r :
  t1 <> t2 -> sc_active c = true -> sc_retries c = 0 -> sc_txn c = t1 ->
  parse_binding_response data = Some r -> sr_txn_id r = t1 ->
  (feed_client data (retry_timer t2 c)).1 = false.
Proof.
  intros Hne Ha Hr Ht Hp <-. unfold retry_timer. rewrite Ha, Hr. cbn [negb]. change (MAX_RETRIES <=? 0 + 1) with false.
  unfold feed_client, send_binding. cbn [sc_active sc_txn negb].
  destruct (is_stun_packet data); [|done]. cbn [negb]. rewrite Hp. by rewrite bool_decide_false.
Qed.

(** ** Witnesses *)

Definition toy_hmac (_ _ : bytes) : bytes := replicate 20 x00.

Lemma check_request_roundtrip_witness :
  exists data signed,
    build_check_request toy_hmac (replicate 12 x01) [x61] [x62] 7 true true 9 = Some data /\
    forall password', parse_binding_request toy_hmac data password' = Some
      (if bool_decide (password' = [] \/ toy_hmac password' signed = toy_hmac [x62] signed)
       then Some (mk_request (replicate 12 x01) 7 true [x61]) else None).
Proof.
  apply (check_request_roundtrip toy_hmac (fun _ _ => eq_refl)); [reflexivity|simpl; lia|const_fits].
Defined.

Lemma check_response_roundtrip_witness :
  exists data,
    build_check_response toy_hmac (replicate 12 x01) (mk_addr (V4 [x0a; x00; x00; x01]) 3478) [x62] = Some data /\
    is_stun_packet data = true /\
    parse_binding_response data = Some (mk_result (mk_addr (V4 [x0a; x00; x00; x01]) 3478) (replicate 12 x01)) /\
    forall c, sc_active c = true -> sc_txn c = replicate 12 x01 ->
      feed_client data c = (true, finish (Some (mk_addr (V4 [x0a; x00; x00; x01]) 3478)) c).
Proof.
  apply (check_response_roundtrip toy_hmac (fun _ _ => eq_refl)); [reflexivity|].
  split; [const_fits|reflexivity].
Defined.

Lemma crc32_bitwise_witness :
  compute_crc32 [x61; x62] = crc32_reference [x61; x62] /\
  stun_fingerprint [x61; x63] <> stun_fingerprint [x61; x62].
Proof.
  split; [apply (crc32_bitwise [x61; x62])|].
  by apply (proj2 (proj2 (crc32_bitwise [x61; x62])) [x61] x62 x63 []).
Defined.
