(* ===== verification/Candidate.v ===== *)
(** * ICE candidates ([plugins/connectors/ice/candidate.hpp], head of [session.cpp])

    Candidates with their priorities, credentials, candidate pairs and the binary signal
    format that carries them to the peer.  The theorems: a candidate survives the wire, both
    peers give a pair the same priority, and pair priorities order pairs by their weaker
    side without overflowing. *)

From Stdlib Require Import ZArith Strings.Byte String Lia.
From stdpp Require Import base list strings numbers.
From S2P Require Import Prelude Codec Stun.

Local Open Scope Z_scope.

#[export] Instance ip_address_eq_dec : EqDecision ip_address.
Proof. solve_decision. Defined.

#[export] Instance StunAddress_eq_dec : EqDecision StunAddress.
Proof. solve_decision. Defined.

Definition is_v4 (a : ip_address) : bool := match a with V4 _ => true | V6 _ => false end.

(** ** Candidates *)

(** [CandidateType]: the peer's byte is cast to the enumeration unchecked. *)
Definition Host : Z := 0.
Definition Srflx : Z := 1.

Record Candidate := mk_cand {
  c_type : Z;
  c_endpoint : StunAddress;
  c_priority : Z;
  c_component_id : Z;
}.

Definition compute_priority (type local_pref : Z) : Z :=
  let type_pref := if type =? Host then 126 else 100 in
  Z.lor (Z.lor (u32 (Z.shiftl type_pref 24)) (u32 (Z.shiftl local_pref 8))) 255.

(** ** Credentials *)

Record IceCredentials := mk_creds { ufrag : bytes; pwd : bytes }.

Definition alnum : bytes :=
  str_bytes "abcdefghijklmnopqrstuvwxyzABCDEFGHIJKLMNOPQRSTUVWXYZ0123456789".

(** [rnd]: what [RAND_bytes] put into the 64-byte buffer. *)
Definition random_alphanumeric (len : nat) (rnd : bytes) : bytes :=
  map (fun b => nth (Z.to_nat (b2z b mod Z.of_nat (length alnum))) alnum x00) (take len rnd).

Definition generate_credentials (rnd1 rnd2 : bytes) : IceCredentials :=
  mk_creds (random_alphanumeric 16 rnd1) (random_alphanumeric 24 rnd2).

(** ** Pairs *)

Inductive PairState := Waiting | InProgress | Succeeded | PairFailed.

#[export] Instance PairState_eq_dec : EqDecision PairState.
Proof. solve_decision. Defined.

Record CandidatePair := mk_pair {
  p_local : Candidate;
  p_remote : Candidate;
  p_priority : Z;
  p_state : PairState;
  p_check_txn : bytes;
  p_retries : Z;
}.

Definition set_p_state (st : PairState) (p : CandidatePair) : CandidatePair :=
  mk_pair (p_local p) (p_remote p) (p_priority p) st (p_check_txn p) (p_retries p).
Definition set_p_check_txn (txn : bytes) (p : CandidatePair) : CandidatePair :=
  mk_pair (p_local p) (p_remote p) (p_priority p) (p_state p) txn (p_retries p).

Definition pair_priority (controlling_prio controlled_prio : Z) (we_are_controlling : bool) : Z :=
  let '(g, d) := if we_are_controlling then (controlling_prio, controlled_prio)
                 else (controlled_prio, controlling_prio) in
  let mn := Z.min g d in
  let mx := Z.max g d in
  u64 (u64 (Z.shiftl mn 32) + 2 * mx + (if d <? g then 1 else 0)).

(** ** Wire format *)

Record IceSignalData := mk_signal {
  sd_ufrag : bytes;
  sd_pwd : bytes;
  sd_candidate_count : Z;
  sd_pad : Z;
}.

Definition IceSignalData_codec : codec IceSignalData :=
  cstruct
    (fun '(x0, (x1, (x2, x3))) => mk_signal x0 x1 x2 x3)
    (fun s => (sd_ufrag s, (sd_pwd s, (sd_candidate_count s, sd_pad s))))
    (carr 16 *** carr 24 *** cuint 2 *** cuint 2)%gn.

#[export] Instance IceSignalData_ok : CodecOk IceSignalData_codec.
Proof. solve_struct. Qed.

Record IceCandidateWire := mk_cwire {
  cw_type : Z;
  cw_family : Z;
  cw_port : Z;
  cw_priority : Z;
  cw_addr : bytes;
}.

Definition IceCandidateWire_codec : codec IceCandidateWire :=
  cstruct
    (fun '(x0, (x1, (x2, (x3, x4)))) => mk_cwire x0 x1 x2 x3 x4)
    (fun s => (cw_type s, (cw_family s, (cw_port s, (cw_priority s, cw_addr s)))))
    (cuint 1 *** cuint 1 *** cuint 2 *** cuint 4 *** carr 16)%gn.

#[export] Instance IceCandidateWire_ok : CodecOk IceCandidateWire_codec.
Proof. solve_struct. Qed.

Definition candidate_to_wire (c : Candidate) : IceCandidateWire :=
  match sa_ip (c_endpoint c) with
  | V4 b => mk_cwire (u8 (c_type c)) 4 (sa_port (c_endpoint c)) (c_priority c) (b ++ replicate 12 x00)
  | V6 b => mk_cwire (u8 (c_type c)) 6 (sa_port (c_endpoint c)) (c_priority c) b
  end.

Definition wire_to_candidate (w : IceCandidateWire) : Candidate :=
  let ip := if cw_family w =? 4 then V4 (take 4 (cw_addr w)) else V6 (cw_addr w) in
  mk_cand (cw_type w) (mk_addr ip (cw_port w)) (cw_priority w) 1.

(** ** Lemmas *)

(** A candidate with every field within its type. *)
Definition cand_ok (c : Candidate) : Prop :=
  fits 8 (c_type c) /\ fits 32 (c_priority c) /\ c_component_id c = 1 /\ addr_ok (c_endpoint c).

Lemma candidate_wire_wf c : cand_ok c -> cwf IceCandidateWire_codec (candidate_to_wire c).
Proof.
  destruct c as [t [ip port] prio comp]. intros (Ht & Hp & _ & Hport & Hb). cbn in *.
  unfold candidate_to_wire. cbn [c_endpoint sa_ip c_type sa_port c_priority].
  destruct ip as [b|b]; cbn [cwf IceCandidateWire_codec cstruct cpair cuint carr fst snd cw_type
    cw_family cw_port cw_priority cw_addr]; split_and!;
    first [apply wrap_fits; lia|done|rewrite length_app, Hb; done].
Qed.

Lemma wire_candidate_roundtrip c :
  cand_ok c -> wire_to_candidate (candidate_to_wire c) = c.
Proof.
  destruct c as [t [ip port] prio comp]. intros (Ht & _ & Hc & _ & Hb). cbn in *.
  unfold candidate_to_wire, wire_to_candidate. cbn [c_endpoint sa_ip c_type sa_port c_priority].
  rewrite (wrap_small 8) by done. subst comp.
  destruct ip as [b|b]; cbn [cw_family cw_addr cw_type cw_port cw_priority]; simpl Z.eqb; cbv iota.
  - by rewrite take_app_length'.
  - done.
Qed.

(** The value a cast to [CandidateType] keeps is not constrained: any wire candidate is
    well formed. *)
Lemma wire_to_candidate_ok w :
  cwf IceCandidateWire_codec w -> cand_ok (wire_to_candidate w).
Proof.
  destruct w as [t f port prio addr]. cbn. intros (Ht & _ & Hport & Hp & Ha).
  split_and!; [done..|]. split; [done|]. unfold wire_to_candidate. cbn.
  destruct (f =? 4); cbn; [rewrite length_take; lia|done].
Qed.

Lemma compute_priority_bound type :
  compute_priority type 65535 < 2 ^ 31 /\ compute_priority type 65534 < 2 ^ 31 /\
  0 <= compute_priority type 65535 /\ 0 <= compute_priority type 65534.
Proof. unfold compute_priority. destruct (type =? Host); vm_compute; intuition discriminate. Qed.

Lemma pair_priority_small a b c :
  0 <= a < 2 ^ 31 -> 0 <= b < 2 ^ 31 ->
  pair_priority a b c =
  2 ^ 32 * Z.min a b + 2 * Z.max a b + (if (if c then b <? a else a <? b) then 1 else 0).
Proof.
  intros Ha Hb. unfold pair_priority.
  destruct c; cbv zeta beta iota; rewrite Z.shiftl_mul_pow2 by lia.
  - destruct (b <? a); rewrite (wrap_small 64 (_ * _)), (wrap_small 64) by (unfold fits; lia); lia.
  - destruct (a <? b); rewrite (wrap_small 64 (_ * _)), (wrap_small 64) by (unfold fits; lia); lia.
Qed.

(** The two ends of a candidate pair, one controlling and one controlled, each with its own
    candidate as the local one, compute the same priority; for the priorities a node gives
    its own candidates nothing overflows and pairs are ordered first by their weaker
    candidate, then by the stronger one. *)
Theorem pair_priority_agree a b c :
  pair_priority a b c = pair_priority b a (negb c) /\
  (0 <= a < 2 ^ 31 -> 0 <= b < 2 ^ 31 -> forall a' b', 0 <= a' < 2 ^ 31 -> 0 <= b' < 2 ^ 31 ->
   (Z.min a b < Z.min a' b' \/ Z.min a b = Z.min a' b' /\ Z.max a b < Z.max a' b') ->
   pair_priority a b c < pair_priority a' b' c).
Proof.
  split; [by destruct c|]. intros Ha Hb a' b' Ha' Hb' Hlt. rewrite !pair_priority_small by done.
  destruct c; repeat case_match; lia.
Qed.

Lemma pair_priority_agree_witness :
  pair_priority 5 9 true = pair_priority 9 5 false /\ pair_priority 5 9 true < pair_priority 6 7 true.
Proof.
  split; [apply (pair_priority_agree 5 9 true)|].
  apply (proj2 (pair_priority_agree 5 9 true)); lia.
Defined.
