(* ===== verification/IceSession.v ===== *)
(** * ICE session ([plugins/connectors/ice/session.hpp], [session.cpp])

    One session with a peer: candidate gathering through the STUN client, the check list,
    connectivity checks, nomination, keepalives with consent expiry, and the data path.  The
    environment enters as inputs: a stream [rng] of what the next call draws (a transaction
    id, whether the resolver knows a server, whether a datagram could be sent), the packets
    received, and the expiries of the three timers.  A timer is a flag saying that a wait is
    pending.  What the session does is its list [out] of datagrams handed to the socket and
    callbacks invoked; callbacks that act on the session run at the end of the operation that
    invokes them, so the connector processes them afterwards.  [HMAC] is a parameter. *)

From Stdlib Require Import ZArith Strings.Byte String Lia.
From stdpp Require Import base list strings numbers sorting.
From S2P Require Import Prelude Codec Wire Stun Candidate.

Local Open Scope Z_scope.

(** ** State *)

Inductive SessionState := New | Gathering | WaitingRemote | Checking | Connected | Failed.

#[export] Instance SessionState_eq_dec : EqDecision SessionState.
Proof. solve_decision. Defined.

Record StunServer := mk_server { ss_host : bytes; ss_port : Z }.

Record IceConfig := mk_ice_config {
  stun_servers : list StunServer;
  session_timeout : Z;
  keepalive_interval : Z;
  consent_max_failures : Z;
}.

(** [EvUB]: an access outside a buffer. *)
Inductive ice_event :=
  | EvSend (to : StunAddress) (data : bytes)
  | EvGathered
  | EvConnected
  | EvFailed
  | EvData (data : bytes)
  | EvUB.

(** [drawn] counts what was taken from [rng]. *)
Record IceSession := mk_ice {
  i_peer_hex : bytes;
  i_controlling : bool;
  i_state : SessionState;
  i_local_creds : IceCredentials;
  i_remote_creds : IceCredentials;
  i_local_candidates : list Candidate;
  i_remote_candidates : list Candidate;
  i_check_list : list CandidatePair;
  i_nominated : bool;
  i_remote_ep : StunAddress;
  i_stun_client : StunClient;
  i_config : IceConfig;
  i_stun_try_idx : nat;
  i_tie_breaker : Z;
  i_next_check_idx : nat;
  i_check_timer : bool;
  i_timeout_timer : bool;
  i_keepalive_timer : bool;
  i_keepalive_txn : bytes;
  i_consent_missed : Z;
  i_recv_active : bool;
  i_closed : bool;
  i_socket_open : bool;
  i_conn_id : Z;
  i_drawn : nat;
  i_out : list ice_event;
}.

Definition set_i_state (v : SessionState) (s : IceSession) : IceSession :=
  mk_ice (i_peer_hex s) (i_controlling s) v (i_local_creds s) (i_remote_creds s)
    (i_local_candidates s) (i_remote_candidates s) (i_check_list s) (i_nominated s)
    (i_remote_ep s) (i_stun_client s) (i_config s) (i_stun_try_idx s) (i_tie_breaker s)
    (i_next_check_idx s) (i_check_timer s) (i_timeout_timer s) (i_keepalive_timer s)
    (i_keepalive_txn s) (i_consent_missed s) (i_recv_active s) (i_closed s) (i_socket_open s)
    (i_conn_id s) (i_drawn s) (i_out s).
Definition set_i_remote_creds (v : IceCredentials) (s : IceSession) : IceSession :=
  mk_ice (i_peer_hex s) (i_controlling s) (i_state s) (i_local_creds s) v (i_local_candidates s)
    (i_remote_candidates s) (i_check_list s) (i_nominated s) (i_remote_ep s) (i_stun_client s)
    (i_config s) (i_stun_try_idx s) (i_tie_breaker s) (i_next_check_idx s) (i_check_timer s)
    (i_timeout_timer s) (i_keepalive_timer s) (i_keepalive_txn s) (i_consent_missed s)
    (i_recv_active s) (i_closed s) (i_socket_open s) (i_conn_id s) (i_drawn s) (i_out s).
Definition set_i_local_candidates (v : list Candidate) (s : IceSession) : IceSession :=
  mk_ice (i_peer_hex s) (i_controlling s) (i_state s) (i_local_creds s) (i_remote_creds s) v
    (i_remote_candidates s) (i_check_list s) (i_nominated s) (i_remote_ep s) (i_stun_client s)
    (i_config s) (i_stun_try_idx s) (i_tie_breaker s) (i_next_check_idx s) (i_check_timer s)
    (i_timeout_timer s) (i_keepalive_timer s) (i_keepalive_txn s) (i_consent_missed s)
    (i_recv_active s) (i_closed s) (i_socket_open s) (i_conn_id s) (i_drawn s) (i_out s).
Definition set_i_remote_candidates (v : list Candidate) (s : IceSession) : IceSession :=
  mk_ice (i_peer_hex s) (i_controlling s) (i_state s) (i_local_creds s) (i_remote_creds s)
    (i_local_candidates s) v (i_check_list s) (i_nominated s) (i_remote_ep s) (i_stun_client s)
    (i_config s) (i_stun_try_idx s) (i_tie_breaker s) (i_next_check_idx s) (i_check_timer s)
    (i_timeout_timer s) (i_keepalive_timer s) (i_keepalive_txn s) (i_consent_missed s)
    (i_recv_active s) (i_closed s) (i_socket_open s) (i_conn_id s) (i_drawn s) (i_out s).
Definition set_i_check_list (v : list CandidatePair) (s : IceSession) : IceSession :=
  mk_ice (i_peer_hex s) (i_controlling s) (i_state s) (i_local_creds s) (i_remote_creds s)
    (i_local_candidates s) (i_remote_candidates s) v (i_nominated s) (i_remote_ep s)
    (i_stun_client s) (i_config s) (i_stun_try_idx s) (i_tie_breaker s) (i_next_check_idx s)
    (i_check_timer s) (i_timeout_timer s) (i_keepalive_timer s) (i_keepalive_txn s)
    (i_consent_missed s) (i_recv_active s) (i_closed s) (i_socket_open s) (i_conn_id s)
    (i_drawn s) (i_out s).
Definition set_i_nominated (v : bool) (s : IceSession) : IceSession :=
  mk_ice (i_peer_hex s) (i_controlling s) (i_state s) (i_local_creds s) (i_remote_creds s)
    (i_local_candidates s) (i_remote_candidates s) (i_check_list s) v (i_remote_ep s)
    (i_stun_client s) (i_config s) (i_stun_try_idx s) (i_tie_breaker s) (i_next_check_idx s)
    (i_check_timer s) (i_timeout_timer s) (i_keepalive_timer s) (i_keepalive_txn s)
    (i_consent_missed s) (i_recv_active s) (i_closed s) (i_socket_open s) (i_conn_id s)
    (i_drawn s) (i_out s).
Definition set_i_remote_ep (v : StunAddress) (s : IceSession) : IceSession :=
  mk_ice (i_peer_hex s) (i_controlling s) (i_state s) (i_local_creds s) (i_remote_creds s)
    (i_local_candidates s) (i_remote_candidates s) (i_check_list s) (i_nominated s) v
    (i_stun_client s) (i_config s) (i_stun_try_idx s) (i_tie_breaker s) (i_next_check_idx s)
    (i_check_timer s) (i_timeout_timer s) (i_keepalive_timer s) (i_keepalive_txn s)
    (i_consent_missed s) (i_recv_active s) (i_closed s) (i_socket_open s) (i_conn_id s)
    (i_drawn s) (i_out s).
Definition set_i_stun_client (v : StunClient) (s : IceSession) : IceSession :=
  mk_ice (i_peer_hex s) (i_controlling s) (i_state s) (i_local_creds s) (i_remote_creds s)
    (i_local_candidates s) (i_remote_candidates s) (i_check_list s) (i_nominated s)
    (i_remote_ep s) v (i_config s) (i_stun_try_idx s) (i_tie_breaker s) (i_next_check_idx s)
    (i_check_timer s) (i_timeout_timer s) (i_keepalive_timer s) (i_keepalive_txn s)
    (i_consent_missed s) (i_recv_active s) (i_closed s) (i_socket_open s) (i_conn_id s)
    (i_drawn s) (i_out s).
Definition set_i_stun_try_idx (v : nat) (s : IceSession) : IceSession :=
  mk_ice (i_peer_hex s) (i_controlling s) (i_state s) (i_local_creds s) (i_remote_creds s)
    (i_local_candidates s) (i_remote_candidates s) (i_check_list s) (i_nominated s)
    (i_remote_ep s) (i_stun_client s) (i_config s) v (i_tie_breaker s) (i_next_check_idx s)
    (i_check_timer s) (i_timeout_timer s) (i_keepalive_timer s) (i_keepalive_txn s)
    (i_consent_missed s) (i_recv_active s) (i_closed s) (i_socket_open s) (i_conn_id s)
    (i_drawn s) (i_out s).
Definition set_i_next_check_idx (v : nat) (s : IceSession) : IceSession :=
  mk_ice (i_peer_hex s) (i_controlling s) (i_state s) (i_local_creds s) (i_remote_creds s)
    (i_local_candidates s) (i_remote_candidates s) (i_check_list s) (i_nominated s)
    (i_remote_ep s) (i_stun_client s) (i_config s) (i_stun_try_idx s) (i_tie_breaker s) v
    (i_check_timer s) (i_timeout_timer s) (i_keepalive_timer s) (i_keepalive_txn s)
    (i_consent_missed s) (i_recv_active s) (i_closed s) (i_socket_open s) (i_conn_id s)
    (i_drawn s) (i_out s).
Definition set_i_check_timer (v : bool) (s : IceSession) : IceSession :=
  mk_ice (i_peer_hex s) (i_controlling s) (i_state s) (i_local_creds s) (i_remote_creds s)
    (i_local_candidates s) (i_remote_candidates s) (i_check_list s) (i_nominated s)
    (i_remote_ep s) (i_stun_client s) (i_config s) (i_stun_try_idx s) (i_tie_breaker s)
    (i_next_check_idx s) v (i_timeout_timer s) (i_keepalive_timer s) (i_keepalive_txn s)
    (i_consent_missed s) (i_recv_active s) (i_closed s) (i_socket_open s) (i_conn_id s)
    (i_drawn s) (i_out s).
Definition set_i_timeout_timer (v : bool) (s : IceSession) : IceSession :=
  mk_ice (i_peer_hex s) (i_controlling s) (i_state s) (i_local_creds s) (i_remote_creds s)
    (i_local_candidates s) (i_remote_candidates s) (i_check_list s) (i_nominated s)
    (i_remote_ep s) (i_stun_client s) (i_config s) (i_stun_try_idx s) (i_tie_breaker s)
    (i_next_check_idx s) (i_check_timer s) v (i_keepalive_timer s) (i_keepalive_txn s)
    (i_consent_missed s) (i_recv_active s) (i_closed s) (i_socket_open s) (i_conn_id s)
    (i_drawn s) (i_out s).
Definition set_i_keepalive_timer (v : bool) (s : IceSession) : IceSession :=
  mk_ice (i_peer_hex s) (i_controlling s) (i_state s) (i_local_creds s) (i_remote_creds s)
    (i_local_candidates s) (i_remote_candidates s) (i_check_list s) (i_nominated s)
    (i_remote_ep s) (i_stun_client s) (i_config s) (i_stun_try_idx s) (i_tie_breaker s)
    (i_next_check_idx s) (i_check_timer s) (i_timeout_timer s) v (i_keepalive_txn s)
    (i_consent_missed s) (i_recv_active s) (i_closed s) (i_socket_open s) (i_conn_id s)
    (i_drawn s) (i_out s).
Definition set_i_keepalive_txn (v : bytes) (s : IceSession) : IceSession :=
  mk_ice (i_peer_hex s) (i_controlling s) (i_state s) (i_local_creds s) (i_remote_creds s)
    (i_local_candidates s) (i_remote_candidates s) (i_check_list s) (i_nominated s)
    (i_remote_ep s) (i_stun_client s) (i_config s) (i_stun_try_idx s) (i_tie_breaker s)
    (i_next_check_idx s) (i_check_timer s) (i_timeout_timer s) (i_keepalive_timer s) v
    (i_consent_missed s) (i_recv_active s) (i_closed s) (i_socket_open s) (i_conn_id s)
    (i_drawn s) (i_out s).
Definition set_i_consent_missed (v : Z) (s : IceSession) : IceSession :=
  mk_ice (i_peer_hex s) (i_controlling s) (i_state s) (i_local_creds s) (i_remote_creds s)
    (i_local_candidates s) (i_remote_candidates s) (i_check_list s) (i_nominated s)
    (i_remote_ep s) (i_stun_client s) (i_config s) (i_stun_try_idx s) (i_tie_breaker s)
    (i_next_check_idx s) (i_check_timer s) (i_timeout_timer s) (i_keepalive_timer s)
    (i_keepalive_txn s) v (i_recv_active s) (i_closed s) (i_socket_open s) (i_conn_id s)
    (i_drawn s) (i_out s).
Definition set_i_recv_active (v : bool) (s : IceSession) : IceSession :=
  mk_ice (i_peer_hex s) (i_controlling s) (i_state s) (i_local_creds s) (i_remote_creds s)
    (i_local_candidates s) (i_remote_candidates s) (i_check_list s) (i_nominated s)
    (i_remote_ep s) (i_stun_client s) (i_config s) (i_stun_try_idx s) (i_tie_breaker s)
    (i_next_check_idx s) (i_check_timer s) (i_timeout_timer s) (i_keepalive_timer s)
    (i_keepalive_txn s) (i_consent_missed s) v (i_closed s) (i_socket_open s) (i_conn_id s)
    (i_drawn s) (i_out s).
Definition set_i_closed (v : bool) (s : IceSession) : IceSession :=
  mk_ice (i_peer_hex s) (i_controlling s) (i_state s) (i_local_creds s) (i_remote_creds s)
    (i_local_candidates s) (i_remote_candidates s) (i_check_list s) (i_nominated s)
    (i_remote_ep s) (i_stun_client s) (i_config s) (i_stun_try_idx s) (i_tie_breaker s)
    (i_next_check_idx s) (i_check_timer s) (i_timeout_timer s) (i_keepalive_timer s)
    (i_keepalive_txn s) (i_consent_missed s) (i_recv_active s) v (i_socket_open s) (i_conn_id s)
    (i_drawn s) (i_out s).
Definition set_i_socket_open (v : bool) (s : IceSession) : IceSession :=
  mk_ice (i_peer_hex s) (i_controlling s) (i_state s) (i_local_creds s) (i_remote_creds s)
    (i_local_candidates s) (i_remote_candidates s) (i_check_list s) (i_nominated s)
    (i_remote_ep s) (i_stun_client s) (i_config s) (i_stun_try_idx s) (i_tie_breaker s)
    (i_next_check_idx s) (i_check_timer s) (i_timeout_timer s) (i_keepalive_timer s)
    (i_keepalive_txn s) (i_consent_missed s) (i_recv_active s) (i_closed s) v (i_conn_id s)
    (i_drawn s) (i_out s).
Definition set_i_conn_id (v : Z) (s : IceSession) : IceSession :=
  mk_ice (i_peer_hex s) (i_controlling s) (i_state s) (i_local_creds s) (i_remote_creds s)
    (i_local_candidates s) (i_remote_candidates s) (i_check_list s) (i_nominated s)
    (i_remote_ep s) (i_stun_client s) (i_config s) (i_stun_try_idx s) (i_tie_breaker s)
    (i_next_check_idx s) (i_check_timer s) (i_timeout_timer s) (i_keepalive_timer s)
    (i_keepalive_txn s) (i_consent_missed s) (i_recv_active s) (i_closed s) (i_socket_open s) v
    (i_drawn s) (i_out s).
Definition set_i_drawn (v : nat) (s : IceSession) : IceSession :=
  mk_ice (i_peer_hex s) (i_controlling s) (i_state s) (i_local_creds s) (i_remote_creds s)
    (i_local_candidates s) (i_remote_candidates s) (i_check_list s) (i_nominated s)
    (i_remote_ep s) (i_stun_client s) (i_config s) (i_stun_try_idx s) (i_tie_breaker s)
    (i_next_check_idx s) (i_check_timer s) (i_timeout_timer s) (i_keepalive_timer s)
    (i_keepalive_txn s) (i_consent_missed s) (i_recv_active s) (i_closed s) (i_socket_open s)
    (i_conn_id s) v (i_out s).
Definition set_i_out (v : list ice_event) (s : IceSession) : IceSession :=
  mk_ice (i_peer_hex s) (i_controlling s) (i_state s) (i_local_creds s) (i_remote_creds s)
    (i_local_candidates s) (i_remote_candidates s) (i_check_list s) (i_nominated s)
    (i_remote_ep s) (i_stun_client s) (i_config s) (i_stun_try_idx s) (i_tie_breaker s)
    (i_next_check_idx s) (i_check_timer s) (i_timeout_timer s) (i_keepalive_timer s)
    (i_keepalive_txn s) (i_consent_missed s) (i_recv_active s) (i_closed s) (i_socket_open s)
    (i_conn_id s) (i_drawn s) v.

(** What the environment answers the next time it is asked. *)
Record draw := mk_draw { d_txn : bytes; d_found : bool; d_send_ok : bool }.

Definition emit_ice (e : ice_event) (s : IceSession) : IceSession := set_i_out (i_out s ++ [e]) s.

(** A datagram handed to the socket; [None] is a builder that left its buffer. *)
Definition send_to (to : StunAddress) (pkt : option bytes) (s : IceSession) : IceSession :=
  emit_ice (match pkt with Some d => EvSend to d | None => EvUB end) s.

Definition transition (to : SessionState) (s : IceSession) : IceSession := set_i_state to s.

(** [socket_]'s port is known once it is bound; [creds] and [tie] are random. *)
Definition ice_init (peer : bytes) (controlling : bool) (cfg : IceConfig) (creds : IceCredentials)
    (tie : Z) : IceSession :=
  mk_ice peer controlling New creds (mk_creds [] []) [] [] [] false (mk_addr (V4 (replicate 4 x00)) 0)
    client_init cfg 0 tie 0 false false false (replicate 12 x00) 0 false false true CONN_ID_INVALID 0 [].

Section session.
Context (hmac_sha1 : bytes -> bytes -> bytes) (rng : nat -> draw).

Definition next_draw (s : IceSession) : draw * IceSession := (rng (i_drawn s), set_i_drawn (S (i_drawn s)) s).

Definition username (s : IceSession) : bytes :=
  ufrag (i_remote_creds s) ++ [x3a] ++ ufrag (i_local_creds s).

(** ** Keepalive and consent *)

Definition local_priority (s : IceSession) : Z :=
  match i_local_candidates s with [] => 0 | c :: _ => c_priority c end.

Definition send_keepalive (s : IceSession) : IceSession :=
  if negb (i_nominated s) || i_closed s || negb (bool_decide (i_state s = Connected)) then s
  else
    let '(d, s) := next_draw s in
    let s := set_i_keepalive_txn (d_txn d) s in
    let pkt := build_check_request hmac_sha1 (d_txn d) (username s) (pwd (i_remote_creds s))
                 (local_priority s) false (i_controlling s) (i_tie_breaker s) in
    let s := send_to (i_remote_ep s) pkt s in
    let s := set_i_consent_missed (i_consent_missed s + 1) s in
    set_i_keepalive_timer true s.

Definition start_keepalive (s : IceSession) : IceSession := send_keepalive (set_i_consent_missed 0 s).

(** The wait handler of the keepalive timer. *)
Definition on_keepalive_timer (s : IceSession) : IceSession :=
  let s := set_i_keepalive_timer false s in
  if consent_max_failures (i_config s) <=? i_consent_missed s then
    emit_ice EvFailed (transition Failed s)
  else send_keepalive s.

Definition on_keepalive_response (s : IceSession) : IceSession := set_i_consent_missed 0 s.

(** ** Nomination *)

Definition nominate (pair_idx : nat) (s : IceSession) : IceSession :=
  if i_nominated s then s
  else match i_check_list s !! pair_idx with
       | None => s
       | Some p =>
           let s := set_i_nominated true s in
           let s := set_i_remote_ep (c_endpoint (p_remote p)) s in
           let s := set_i_check_timer false s in
           let s := set_i_timeout_timer false s in
           let s := transition Connected s in
           emit_ice EvConnected (start_keepalive s)
       end.

(** ** Check list *)

Definition make_pair (ctl : bool) (l r : Candidate) : CandidatePair :=
  mk_pair l r (pair_priority (c_priority l) (c_priority r) ctl) Waiting (replicate 12 x00) 0.

Definition same_family (l r : Candidate) : bool :=
  Bool.eqb (is_v4 (sa_ip (c_endpoint l))) (is_v4 (sa_ip (c_endpoint r))).

Definition all_pairs (ctl : bool) (ls rs : list Candidate) : list CandidatePair :=
  concat (map (fun l => map (make_pair ctl l) (base.filter (fun r => same_family l r) rs)) ls).

(** [std::sort] by descending priority. *)
Definition by_priority (a b : CandidatePair) : Prop := p_priority b <= p_priority a.

#[local] Instance by_priority_dec : RelDecision by_priority.
Proof. intros a b. unfold by_priority. apply _. Defined.

Definition form_check_list (s : IceSession) : IceSession :=
  set_i_next_check_idx 0
    (set_i_check_list
       (merge_sort by_priority
          (all_pairs (i_controlling s) (i_local_candidates s) (i_remote_candidates s))) s).

Definition check_pair (i : nat) (p : CandidatePair) (s : IceSession) : IceSession :=
  let '(d, s) := next_draw s in
  let s := set_i_check_list (<[i := set_p_check_txn (d_txn d) (set_p_state InProgress p)]> (i_check_list s)) s in
  send_to (c_endpoint (p_remote p))
    (build_check_request hmac_sha1 (d_txn d) (username s) (pwd (i_remote_creds s))
       (c_priority (p_local p)) (i_controlling s) (i_controlling s) (i_tie_breaker s)) s.

(** The [while] loop: the first [Waiting] pair from [i] on, and the index after it. *)
Fixpoint find_waiting (i : nat) (ps : list CandidatePair) : option (nat * CandidatePair) * nat :=
  match ps with
  | [] => (None, i)
  | p :: ps => if bool_decide (p_state p = Waiting) then (Some (i, p), S i) else find_waiting (S i) ps
  end.

Definition any_state (st : PairState) (ps : list CandidatePair) : bool :=
  existsb (fun p => bool_decide (p_state p = st)) ps.

Definition send_next_check (s : IceSession) : IceSession :=
  if negb (bool_decide (i_state s = Checking)) || i_closed s then s
  else
    let '(found, idx) := find_waiting (i_next_check_idx s) (drop (i_next_check_idx s) (i_check_list s)) in
    let s := match found with Some (i, p) => check_pair i p s | None => s end in
    let s := set_i_next_check_idx idx s in
    let any_waiting := any_state Waiting (i_check_list s) in
    let any_in_progress := any_state InProgress (i_check_list s) in
    if negb any_waiting && negb any_in_progress && negb (i_nominated s) then
      emit_ice EvFailed (transition Failed s)
    else if any_waiting then set_i_check_timer true s else s.

Definition on_check_timer (s : IceSession) : IceSession := send_next_check (set_i_check_timer false s).

(** ** Session timeout *)

Definition start_session_timeout (s : IceSession) : IceSession := set_i_timeout_timer true s.

Definition on_timeout_timer (s : IceSession) : IceSession :=
  let s := set_i_timeout_timer false s in
  if bool_decide (i_state s = Checking) && negb (i_nominated s) then
    emit_ice EvFailed (transition Failed s)
  else s.

(** The four calls that [gathering_complete], [set_remote] and [start_checks] repeat. *)
Definition begin_checks (s : IceSession) : IceSession :=
  send_next_check (start_session_timeout (form_check_list (transition Checking s))).

(** ** Gathering *)

Definition gathering_complete (s : IceSession) : IceSession :=
  if negb (bool_decide (i_state s = Gathering)) then s
  else
    let s := if bool_decide (i_remote_candidates s = []) then transition WaitingRemote s
             else begin_checks s in
    emit_ice EvGathered s.

Definition on_srflx_result (addr : option StunAddress) (s : IceSession) : IceSession :=
  let s := match addr with
           | Some a => set_i_local_candidates
               (i_local_candidates s ++ [mk_cand Srflx a (compute_priority Srflx 65534) 1]) s
           | None => s
           end in
  gathering_complete s.

(** [resolve] either leaves an exchange pending or finishes at once without an address, and
    then its callback tries the next server; the recursion ends with the server list. *)
Fixpoint try_servers (fuel : nat) (s : IceSession) : IceSession :=
  if bool_decide (length (stun_servers (i_config s)) <= i_stun_try_idx s)%nat then on_srflx_result None s
  else
    match fuel with
    | O => s
    | S fuel =>
        let '(d, s) := next_draw s in
        let c := resolve 0 (d_found d) (d_txn d) (d_send_ok d && i_socket_open s) (i_stun_client s) in
        let done := drop (length (sc_log (i_stun_client s))) (sc_log c) in
        let s := set_i_stun_client c s in
        match done with
        | [] => s
        | (_, Some a) :: _ => on_srflx_result (Some a) s
        | (_, None) :: _ => try_servers fuel (set_i_stun_try_idx (S (i_stun_try_idx s)) s)
        end
    end.

Definition try_next_stun_server (s : IceSession) : IceSession :=
  try_servers (length (stun_servers (i_config s)) - i_stun_try_idx s) s.

(** Stores the client and runs the callback it invoked, if any. *)
Definition after_client (c : StunClient) (s : IceSession) : IceSession :=
  let done := drop (length (sc_log (i_stun_client s))) (sc_log c) in
  let s := set_i_stun_client c s in
  match done with
  | [] => s
  | (_, Some a) :: _ => on_srflx_result (Some a) s
  | (_, None) :: _ => try_next_stun_server (set_i_stun_try_idx (S (i_stun_try_idx s)) s)
  end.

(** [probe]: the local address of a socket connected to a server, [None] when the server
    does not resolve or the socket does not connect. *)
Definition unspecified (a : ip_address) : bool :=
  match a with V4 b => bool_decide (b = replicate 4 x00) | V6 b => bool_decide (b = replicate 16 x00) end.

Definition gather_host_candidates (probe : StunServer -> option ip_address) (port : Z) (s : IceSession)
    : IceSession :=
  let found := default (V4 (replicate 4 x00)) (head (omap probe (stun_servers (i_config s)))) in
  let local_addr := if unspecified found then V4 [x7f; x00; x00; x01] else found in
  set_i_local_candidates
    (i_local_candidates s ++ [mk_cand Host (mk_addr local_addr port) (compute_priority Host 65535) 1]) s.

Definition start_recv_loop (s : IceSession) : IceSession :=
  if i_recv_active s || i_closed s then s else set_i_recv_active true s.

Definition gather_srflx (s : IceSession) : IceSession :=
  try_next_stun_server (start_recv_loop (set_i_stun_try_idx 0 s)).

Definition gather (probe : StunServer -> option ip_address) (port : Z) (s : IceSession) : IceSession :=
  if negb (bool_decide (i_state s = New)) then s
  else gather_srflx (gather_host_candidates probe port (transition Gathering s)).

(** ** Remote candidates *)

Definition set_remote (remote : IceSignalData) (candidates : list IceCandidateWire) (s : IceSession)
    : IceSession :=
  let s := set_i_remote_creds (mk_creds (until_nul (sd_ufrag remote)) (until_nul (sd_pwd remote))) s in
  let s := set_i_remote_candidates (map wire_to_candidate candidates) s in
  if bool_decide (i_state s = WaitingRemote) then begin_checks s else s.

Definition start_checks (s : IceSession) : IceSession :=
  if bool_decide (i_state s = WaitingRemote) && negb (bool_decide (i_remote_candidates s = []))
  then begin_checks s else s.

(** ** Receiving *)

Definition handle_stun_response (data : bytes) (s : IceSession) : IceSession :=
  match parse_binding_response data with
  | None => s
  | Some result =>
      if i_nominated s && bool_decide (sr_txn_id result = i_keepalive_txn s) then on_keepalive_response s
      else
        match list_find (fun p => p_state p = InProgress /\ p_check_txn p = sr_txn_id result) (i_check_list s) with
        | None => s
        | Some (i, p) =>
            let s := set_i_check_list (<[i := set_p_state Succeeded p]> (i_check_list s)) s in
            if i_controlling s && negb (i_nominated s) then nominate i s else s
        end
  end.

(** The pair a peer that is in no candidate list is given. *)
Definition reflexive_pair (from : StunAddress) (prio : Z) (s : IceSession) : CandidatePair :=
  let local := default (mk_cand Host (mk_addr (V4 (replicate 4 x00)) 0) 0 1) (head (i_local_candidates s)) in
  mk_pair local (mk_cand Host from prio 1) (pair_priority (c_priority local) prio (i_controlling s))
    Succeeded (replicate 12 x00) 0.

Definition handle_stun_request (from : StunAddress) (data : bytes) (s : IceSession) : IceSession :=
  match parse_binding_request hmac_sha1 data (pwd (i_local_creds s)) with
  | None => emit_ice EvUB s
  | Some None => s
  | Some (Some req) =>
      let s := send_to from (build_check_response hmac_sha1 (rq_txn_id req) from (pwd (i_local_creds s))) s in
      if rq_use_candidate req && negb (i_controlling s) && negb (i_nominated s) then
        match list_find (fun p => c_endpoint (p_remote p) = from) (i_check_list s) with
        | Some (i, p) =>
            nominate i (set_i_check_list (<[i := set_p_state Succeeded p]> (i_check_list s)) s)
        | None =>
            let s := set_i_check_list (i_check_list s ++ [reflexive_pair from (rq_priority req) s]) s in
            nominate (length (i_check_list s) - 1) s
        end
      else s
  end.

Definition handle_stun_packet (from : StunAddress) (data : bytes) (s : IceSession) : IceSession :=
  if bool_decide (length data < STUN_HEADER_SIZE)%nat then s
  else
    let msg_type := read_u16 0 data in
    if msg_type =? STUN_BINDING_RESPONSE then handle_stun_response data s
    else if msg_type =? STUN_BINDING_REQUEST then handle_stun_request from data s
    else s.

Definition on_recv (from : StunAddress) (data : bytes) (s : IceSession) : IceSession :=
  let '(taken, c) := feed_client data (i_stun_client s) in
  if taken : bool then after_client c s
  else if is_stun_packet data then handle_stun_packet from data s
  else if i_nominated s && bool_decide (i_state s = Connected) then emit_ice (EvData data) s
  else s.

(** A receive that failed; the loop is not started again. *)
Definition on_recv_error (aborted : bool) (s : IceSession) : IceSession :=
  if aborted then s else set_i_recv_active false s.

(** ** Data *)

Definition ice_send (data : bytes) (s : IceSession) : IceSession :=
  if negb (i_nominated s) || negb (bool_decide (i_state s = Connected)) || i_closed s then s
  else send_to (i_remote_ep s) (Some data) s.

Definition ice_close (s : IceSession) : IceSession :=
  if i_closed s then s
  else
    let s := set_i_closed true s in
    let s := after_client (cancel (i_stun_client s)) s in
    set_i_socket_open false (set_i_keepalive_timer false (set_i_timeout_timer false (set_i_check_timer false s))).

(** The retry timer of the STUN client. *)
Definition on_stun_timer (s : IceSession) : IceSession :=
  let '(d, s) := next_draw s in after_client (retry_timer (d_txn d) (i_stun_client s)) s.

(** [memcpy] of at most [n] characters into a zeroed array. *)
Definition fixed_chars (n : nat) (v : bytes) : bytes := take n v ++ replicate (n - length v) x00.

Definition serialize_signal (s : IceSession) : bytes :=
  cenc IceSignalData_codec
    (mk_signal (fixed_chars 16 (ufrag (i_local_creds s))) (fixed_chars 24 (pwd (i_local_creds s)))
       (u16 (Z.of_nat (length (i_local_candidates s)))) 0)
  ++ concat (map (fun c => cenc IceCandidateWire_codec (candidate_to_wire c)) (i_local_candidates s)).

(** ** Runs *)

Inductive ice_op :=
  | OpGather (probe : StunServer -> option ip_address) (port : Z)
  | OpSetRemote (remote : IceSignalData) (candidates : list IceCandidateWire)
  | OpStartChecks
  | OpRecv (from : StunAddress) (data : bytes)
  | OpRecvError (aborted : bool)
  | OpCheckTimer
  | OpTimeoutTimer
  | OpKeepaliveTimer
  | OpStunTimer
  | OpIceSend (data : bytes)
  | OpIceClose.

Definition run_ice_op (s : IceSession) (op : ice_op) : IceSession :=
  match op with
  | OpGather probe port => gather probe port s
  | OpSetRemote remote cands => set_remote remote cands s
  | OpStartChecks => start_checks s
  | OpRecv from data => on_recv from data s
  | OpRecvError aborted => on_recv_error aborted s
  | OpCheckTimer => on_check_timer s
  | OpTimeoutTimer => on_timeout_timer s
  | OpKeepaliveTimer => on_keepalive_timer s
  | OpStunTimer => on_stun_timer s
  | OpIceSend data => ice_send data s
  | OpIceClose => ice_close s
  end.

Definition run_ice (ops : list ice_op) (s : IceSession) : IceSession := fold_left run_ice_op ops s.
End session.

(** ** The invariant of a session *)

Definition is_connected_ev (e : ice_event) : bool := match e with EvConnected => true | _ => false end.
Definition is_gathered_ev (e : ice_event) : bool := match e with EvGathered => true | _ => false end.
Definition is_data_ev (e : ice_event) : bool := match e with EvData _ => true | _ => false end.

Definition count (f : ice_event -> bool) (l : list ice_event) : nat := length (List.filter f l).

Lemma count_app f l k : count f (l ++ k) = (count f l + count f k)%nat.
Proof. unfold count. by rewrite List.filter_app, length_app. Qed.

(** How far a session has come. *)
Definition rank (st : SessionState) : nat :=
  match st with
  | New => 0 | Gathering => 1 | WaitingRemote => 2 | Checking => 3 | Connected | Failed => 4
  end.

(** The part of a session the invariant speaks of. *)
Record core_inv (st : SessionState) (nom closed : bool) (pairs : list CandidatePair) (ep : StunAddress)
    (timeout keepalive : bool) (missed max : Z) (evs : list ice_event) : Prop := {
  ci_nominated : st = Connected -> nom = true;
  ci_settled : nom = true -> rank st = 4%nat;
  ci_once : count is_connected_ev evs = if nom then 1%nat else 0%nat;
  ci_gathered : (count is_gathered_ev evs <= if bool_decide (rank st <= 1)%nat then 0 else 1)%nat;
  ci_data : nom = false -> count is_data_ev evs = 0%nat;
  ci_remote : nom = true -> exists p, p ∈ pairs /\ p_state p = Succeeded /\ c_endpoint (p_remote p) = ep;
  ci_timeout : st = Checking -> closed = false -> timeout = true;
  ci_keepalive : st = Connected -> closed = false -> keepalive = true;
  ci_consent : 0 < max /\ 0 <= missed <= max;
  ci_idle : nom = false -> missed = 0;
}.

Definition ice_inv (s : IceSession) : Prop :=
  core_inv (i_state s) (i_nominated s) (i_closed s) (i_check_list s) (i_remote_ep s) (i_timeout_timer s)
    (i_keepalive_timer s) (i_consent_missed s) (consent_max_failures (i_config s)) (i_out s).

(** A step of a session: the invariant is kept and the session does not go back. *)
Definition advances (s s' : IceSession) : Prop :=
  ice_inv s' /\ (rank (i_state s) <= rank (i_state s'))%nat.

#[local] Hint Unfold ice_inv advances : core.

Lemma inv_init peer ctl cfg creds tie :
  0 < consent_max_failures cfg -> ice_inv (ice_init peer ctl cfg creds tie).
Proof. split; simpl; try done; lia. Qed.

(** Events that are not callbacks of interest. *)
Lemma inv_emit e s :
  ice_inv s -> is_connected_ev e = false -> is_gathered_ev e = false ->
  (is_data_ev e = true -> i_nominated s = true) -> ice_inv (emit_ice e s).
Proof.
  intros [] Hc Hg Hd. split; simpl; try done; rewrite count_app; unfold count at 2; simpl;
    rewrite ?Hc, ?Hg; simpl; rewrite ?Nat.add_0_r; try done.
  intros Hn. destruct (is_data_ev e); [by rewrite Hn in Hd; discriminate Hd|].
  simpl. rewrite Nat.add_0_r. auto.
Qed.

Lemma inv_send_to ep pkt s : ice_inv s -> ice_inv (send_to ep pkt s).
Proof. intros H. unfold send_to. apply inv_emit; by destruct pkt. Qed.

(** Failure of a session that is past gathering. *)
Lemma inv_fail s :
  ice_inv s -> (2 <= rank (i_state s))%nat -> ice_inv (emit_ice EvFailed (transition Failed s)).
Proof.
  intros [] Hr. apply inv_emit; try done. split; simpl; try done.
  destruct (rank (i_state s)) as [|[|?]]; simpl in *; lia.
Qed.

Section invariant.
Context (hmac_sha1 : bytes -> bytes -> bytes) (rng : nat -> draw).

(** Sending a keepalive arms the timer again, so the flag may be down before. *)
Lemma send_keepalive_keeps s :
  ice_inv (set_i_keepalive_timer true s) -> i_consent_missed s < consent_max_failures (i_config s) ->
  let s' := send_keepalive hmac_sha1 rng s in
  ice_inv s' /\ i_state s' = i_state s /\ i_nominated s' = i_nominated s.
Proof.
  intros H Hlt. unfold send_keepalive, next_draw.
  destruct (negb (i_nominated s) || i_closed s || negb (bool_decide (i_state s = Connected))) eqn:E.
  - split; [|done]. destruct H as [Hcon]. split; try done.
    intros Hst Hcl. simpl in Hcon. rewrite (Hcon Hst), Hcl, Hst in E. discriminate E.
  - apply orb_false_iff in E as [[Hn%negb_false_iff Hc]%orb_false_iff Hst%negb_false_iff%bool_decide_eq_true].
    set (pkt := build_check_request _ _ _ _ _ _ _ _). split; [|done].
    apply (inv_send_to (i_remote_ep s) pkt) in H. revert H. unfold ice_inv, send_to, emit_ice. simpl.
    intros []. split; try done; [lia|by rewrite Hn].
Qed.

Lemma keepalive_timer_keeps s : ice_inv s -> advances s (on_keepalive_timer hmac_sha1 rng s).
Proof.
  intros H. unfold on_keepalive_timer.
  destruct (Z.leb_spec (consent_max_failures (i_config s)) (i_consent_missed s)) as [Hle|Hlt].
  - cbn [i_config set_i_keepalive_timer i_consent_missed]. rewrite (proj2 (Z.leb_le _ _) Hle).
    assert (rank (i_state s) = 4%nat) as Hr.
    { destruct H as [_ Hs _ _ _ _ _ _ Hc Hidle]. apply Hs. destruct (i_nominated s); [done|].
      specialize (Hidle eq_refl). lia. }
    split; [|simpl; lia]. apply inv_emit; try done.
    destruct H as [_ _ ? Hg ? ? _ _ ? ?]. split; simpl; try done. rewrite Hr in Hg. exact Hg.
  - cbn [i_config set_i_keepalive_timer i_consent_missed]. rewrite (proj2 (Z.leb_gt _ _) Hlt).
    destruct (send_keepalive_keeps (set_i_keepalive_timer false s)) as (Hi & Hst & _); [|done|].
    + destruct H. by split.
    + split; [done|]. rewrite Hst. done.
Qed.

(** What nomination does to the part of the session the invariant speaks of. *)
Lemma inv_nominated i p s missed keepalive evs :
  ice_inv s -> i_nominated s = false -> i_check_list s !! i = Some p -> p_state p = Succeeded ->
  0 <= missed <= consent_max_failures (i_config s) -> (i_closed s = false -> keepalive = true) ->
  count is_connected_ev evs = 1%nat -> count is_gathered_ev evs = 0%nat ->
  core_inv Connected true (i_closed s) (i_check_list s) (c_endpoint (p_remote p)) false keepalive missed
    (consent_max_failures (i_config s)) (i_out s ++ evs).
Proof.
  intros [] Hn Hp Hs Hm Hk Hc Hg. split; simpl; try done; rewrite ?count_app.
  - rewrite ci_once0, Hn, Hc. done.
  - revert ci_gathered0. case_bool_decide; lia.
  - intros _. exists p. split_and!; [by eapply list_elem_of_lookup_2|done..].
  - lia.
Qed.

(** Nominating a pair that has succeeded. *)
Lemma nominate_keeps i p s :
  ice_inv s -> i_check_list s !! i = Some p -> p_state p = Succeeded ->
  advances s (nominate hmac_sha1 rng i s).
Proof.
  intros H Hp Hs. unfold nominate. destruct (i_nominated s) eqn:Hn; [done|]. rewrite Hp.
  pose proof (ci_consent _ _ _ _ _ _ _ _ _ _ H) as [Hmax _].
  unfold start_keepalive, send_keepalive, next_draw, send_to, emit_ice, transition. simpl.
  destruct (i_closed s) eqn:Hcl; simpl; (split; [|simpl; destruct (i_state s); simpl; lia]);
    unfold ice_inv; simpl; rewrite <-?app_assoc; apply (inv_nominated i); try done; try lia.
  - intros. congruence.
  - by destruct (build_check_request _ _ _ _ _ _ _ _).
  - by destruct (build_check_request _ _ _ _ _ _ _ _).
Qed.

Lemma check_pair_keeps i p s :
  ice_inv s -> i_check_list s !! i = Some p -> p_state p = Waiting ->
  ice_inv (check_pair hmac_sha1 rng i p s).
Proof.
  intros H Hp Hw. unfold check_pair, next_draw. apply inv_send_to.
  destruct H. split; simpl; try done.
  intros Hn. destruct (ci_remote0 Hn) as (q & [j Hq]%list_elem_of_lookup & Hqs & He).
  exists q. split_and!; [|done..]. apply list_elem_of_lookup. exists j.
  rewrite list_lookup_insert_ne; [done|]. intros ->. congruence.
Qed.

Lemma find_waiting_spec i ps j p k :
  find_waiting i ps = (Some (j, p), k) -> (i <= j)%nat /\ ps !! (j - i)%nat = Some p /\ p_state p = Waiting.
Proof.
  revert i. induction ps as [|q ps IH]; intros i; simpl; [done|].
  case_bool_decide as Hq.
  - intros [= <- <- <-]. by rewrite Nat.sub_diag.
  - intros (Hle & Hl & Hs)%IH. split_and!; [lia| |done].
    replace (j - i)%nat with (S (j - S i)) by lia. done.
Qed.

(** A check may fail the session, never move it back. *)
Lemma send_next_check_keeps s : ice_inv s -> advances s (send_next_check hmac_sha1 rng s).
Proof.
  intros H. unfold send_next_check.
  destruct (negb (bool_decide (i_state s = Checking)) || i_closed s) eqn:E; [done|].
  apply orb_false_iff in E as [Hst%negb_false_iff%bool_decide_eq_true Hcl].
  destruct (find_waiting _ _) as [found idx] eqn:Hf.
  set (s1 := match found with Some _ => _ | None => s end).
  assert (ice_inv s1 /\ i_state s1 = Checking) as [H1 Hst1].
  { unfold s1. destruct found as [[i p]|]; [|done]. split; [|exact Hst].
    apply find_waiting_spec in Hf as (Hle & Hl & Hw). apply check_pair_keeps; [done| |done].
    rewrite lookup_drop in Hl. by replace (i_next_check_idx s + (i - i_next_check_idx s))%nat with i in Hl by lia. }
  assert (ice_inv (set_i_next_check_idx idx s1)) as H2 by exact H1.
  destruct (_ && _ && _).
  - split; [apply inv_fail; [done|]; simpl; rewrite Hst1; simpl; lia|]. rewrite Hst. simpl. lia.
  - destruct (any_state _ _); (split; [exact H2|]); simpl; rewrite Hst, Hst1; lia.
Qed.
Lemma check_pair_gathered i p s :
  count is_gathered_ev (i_out (check_pair hmac_sha1 rng i p s)) = count is_gathered_ev (i_out s).
Proof.
  unfold check_pair, next_draw, send_to, emit_ice. simpl. rewrite count_app.
  by destruct (build_check_request _ _ _ _ _ _ _ _); rewrite Nat.add_0_r.
Qed.

Lemma send_next_check_gathered s :
  count is_gathered_ev (i_out (send_next_check hmac_sha1 rng s)) = count is_gathered_ev (i_out s).
Proof.
  unfold send_next_check. destruct (_ || _); [done|]. destruct (find_waiting _ _) as [found idx].
  set (s1 := match found with Some _ => _ | None => s end).
  assert (count is_gathered_ev (i_out s1) = count is_gathered_ev (i_out s)) as <-.
  { unfold s1. destruct found as [[i p]|]; [apply check_pair_gathered|done]. }
  destruct (_ && _ && _); [|by destruct (any_state _ _)].
  unfold emit_ice. simpl. rewrite count_app. apply Nat.add_0_r.
Qed.

Lemma not_nominated s : ice_inv s -> (rank (i_state s) < 4)%nat -> i_nominated s = false.
Proof. intros [_ Hs] Hr. destruct (i_nominated s); [|done]. specialize (Hs eq_refl). lia. Qed.

Lemma begin_checks_keeps s :
  ice_inv s -> (rank (i_state s) <= 2)%nat ->
  advances s (begin_checks hmac_sha1 rng s) /\ (3 <= rank (i_state (begin_checks hmac_sha1 rng s)))%nat /\
  count is_gathered_ev (i_out (begin_checks hmac_sha1 rng s)) = count is_gathered_ev (i_out s).
Proof.
  intros H Hr. unfold begin_checks. set (s1 := start_session_timeout _).
  assert (ice_inv s1) as H1.
  { pose proof (not_nominated s H ltac:(lia)) as Hn. unfold s1, ice_inv. simpl. rewrite Hn in *.
    unfold ice_inv in H. rewrite Hn in H. destruct H. split; try done.
    revert ci_gathered0. simpl. case_bool_decide; lia. }
  apply send_next_check_keeps in H1 as [H1 Hrk]. change (i_state s1) with Checking in Hrk. simpl in Hrk.
  split_and!; [split; [done|lia]|done|by rewrite send_next_check_gathered].
Qed.

Lemma gathering_complete_keeps s : ice_inv s -> advances s (gathering_complete hmac_sha1 rng s).
Proof.
  intros H. unfold gathering_complete. case_bool_decide as Hst; cbn [negb]; [|done].
  assert (count is_gathered_ev (i_out s) = 0%nat) as H0.
  { destruct H as [_ _ _ Hg]. rewrite Hst in Hg. simpl in Hg. lia. }
  set (s1 := if bool_decide _ then _ else _).
  assert (ice_inv s1 /\ (2 <= rank (i_state s1))%nat /\ count is_gathered_ev (i_out s1) = 0%nat) as (H1 & Hr1 & Hc1).
  { unfold s1. case_bool_decide.
    - split_and!; [|simpl; lia|done]. pose proof (not_nominated s H) as Hn. rewrite Hst in Hn.
      specialize (Hn ltac:(simpl; lia)). unfold ice_inv in *. simpl. rewrite Hn in *.
      destruct H. split; try done. rewrite H0. simpl. lia.
    - destruct (begin_checks_keeps s) as ([? _] & ? & ?); [done|rewrite Hst; simpl; lia|].
      split_and!; [done|lia|congruence]. }
  split; [|simpl; rewrite Hst; simpl in *; lia].
  destruct H1. split; simpl; try done; rewrite count_app; unfold count at 2; simpl; rewrite ?Nat.add_0_r; try done.
  rewrite Hc1. rewrite bool_decide_false by lia. done.
Qed.
Lemma advances_refl s : ice_inv s -> advances s s.
Proof. done. Qed.

(** The starting session matters through its state only. *)
Lemma advances_from s s0 s' : advances s0 s' -> i_state s0 = i_state s -> advances s s'.
Proof. unfold advances. by intros [? ?] <-. Qed.

Ltac through H := eapply advances_from; [apply H; assumption|reflexivity].

Lemma on_srflx_result_keeps addr s : ice_inv s -> advances s (on_srflx_result hmac_sha1 rng addr s).
Proof.
  intros H. unfold on_srflx_result. destruct addr; through gathering_complete_keeps.
Qed.

Lemma try_servers_keeps fuel s : ice_inv s -> advances s (try_servers hmac_sha1 rng fuel s).
Proof.
  revert s. induction fuel as [|fuel IH]; intros s H; simpl; case_bool_decide;
    try (by apply on_srflx_result_keeps); [done|].
  destruct (drop _ _) as [|[? [a|]] ?]; [exact (advances_refl s H)|through on_srflx_result_keeps|through IH].
Qed.

Lemma after_client_keeps c s : ice_inv s -> advances s (after_client hmac_sha1 rng c s).
Proof.
  intros H. unfold after_client, try_next_stun_server.
  destruct (drop _ _) as [|[? [a|]] ?];
    [exact (advances_refl s H)|through on_srflx_result_keeps|through try_servers_keeps].
Qed.

Lemma gather_keeps probe port s : ice_inv s -> advances s (gather hmac_sha1 rng probe port s).
Proof.
  intros H. unfold gather. case_bool_decide as Hst; cbn [negb]; [|done].
  unfold gather_srflx, try_next_stun_server. set (s1 := start_recv_loop _).
  assert (ice_inv s1 /\ i_state s1 = Gathering) as [H1 Hst1].
  { pose proof (not_nominated s H ltac:(rewrite Hst; simpl; lia)) as Hn.
    assert (ice_inv (transition Gathering s)) as Hg.
    { unfold ice_inv in *. simpl. rewrite Hn, Hst in *. destruct H. by split. }
    unfold s1, start_recv_loop. by destruct (_ || _). }
  destruct (try_servers_keeps (length (stun_servers (i_config s1)) - i_stun_try_idx s1) s1 H1) as [H2 Hr2].
  split; [done|]. rewrite Hst1 in Hr2. rewrite Hst. simpl in *. lia.
Qed.

Lemma set_remote_keeps r cs s : ice_inv s -> advances s (set_remote hmac_sha1 rng r cs s).
Proof.
  intros H. unfold set_remote. case_bool_decide as Hst; [|done].
  eapply advances_from; [apply begin_checks_keeps; [done|by rewrite Hst]|reflexivity].
Qed.

Lemma start_checks_keeps s : ice_inv s -> advances s (start_checks hmac_sha1 rng s).
Proof.
  intros H. unfold start_checks. case_bool_decide as Hst; [|done]. simpl.
  case_bool_decide; [done|]. apply begin_checks_keeps; [done|]. by rewrite Hst.
Qed.

(** Marking a pair as succeeded keeps the invariant. *)
Lemma succeed_keeps i p s :
  ice_inv s -> i_check_list s !! i = Some p ->
  ice_inv (set_i_check_list (<[i := set_p_state Succeeded p]> (i_check_list s)) s).
Proof.
  intros H Hp. destruct H. split; simpl; try done.
  intros Hn. destruct (ci_remote0 Hn) as (q & [j Hq]%list_elem_of_lookup & Hqs & He).
  destruct (decide (j = i)) as [->|Hne].
  - replace q with p in * by congruence. exists (set_p_state Succeeded p). split_and!; [|done..].
    apply list_elem_of_lookup. exists i. apply list_lookup_insert_eq. by eapply lookup_lt_Some.
  - exists q. split_and!; [|done..]. apply list_elem_of_lookup. exists j. by rewrite list_lookup_insert_ne.
Qed.

Lemma handle_stun_response_keeps data s : ice_inv s -> advances s (handle_stun_response hmac_sha1 rng data s).
Proof.
  intros H. unfold handle_stun_response. destruct (parse_binding_response data) as [r|]; [|done].
  destruct (_ && _).
  - split; [|done]. unfold on_keepalive_response. destruct H. split; simpl; try done. lia.
  - destruct (list_find _ _) as [[i p]|] eqn:Hf; [|done].
    apply list_find_Some in Hf as (Hp & _ & _).
    pose proof (succeed_keeps i p s H Hp) as H1. destruct (_ && _); [|by split].
    apply (nominate_keeps i (set_p_state Succeeded p)) in H1; [exact H1| |done].
    simpl. apply list_lookup_insert_eq. by eapply lookup_lt_Some.
Qed.

Lemma handle_stun_request_keeps from data s :
  ice_inv s -> advances s (handle_stun_request hmac_sha1 rng from data s).
Proof.
  intros H. unfold handle_stun_request.
  destruct (parse_binding_request _ _ _) as [[req|]|]; [|done|split; [by apply inv_emit|done]].
  set (s1 := send_to _ _ s). assert (ice_inv s1) as H1 by by apply inv_send_to.
  apply (advances_from _ s1); [|done]. destruct (_ && _ && _); [|done].
  destruct (list_find _ _) as [[i p]|] eqn:Hf.
  - apply list_find_Some in Hf as (Hp & _ & _).
    eapply advances_from; [apply (nominate_keeps i (set_p_state Succeeded p)); [by apply succeed_keeps| |done]|done].
    simpl. apply list_lookup_insert_eq. by eapply lookup_lt_Some.
  - set (p := reflexive_pair _ _ _). eapply advances_from; [apply (nominate_keeps _ p); [| |done]|done].
    + destruct H1. split; try done. intros Hn. destruct (ci_remote0 Hn) as (q & Hq & ?).
      exists q. split; [|done]. apply elem_of_app. by left.
    + simpl. rewrite length_app. simpl. rewrite Nat.add_sub. by apply list_lookup_middle.
Qed.

Lemma handle_stun_packet_keeps from data s :
  ice_inv s -> advances s (handle_stun_packet hmac_sha1 rng from data s).
Proof.
  intros H. unfold handle_stun_packet. case_bool_decide; [done|].
  destruct (_ =? _); [by apply handle_stun_response_keeps|].
  destruct (_ =? _); [by apply handle_stun_request_keeps|done].
Qed.

Lemma on_recv_keeps from data s : ice_inv s -> advances s (on_recv hmac_sha1 rng from data s).
Proof.
  intros H. unfold on_recv. destruct (feed_client _ _) as [[] c]; [by apply after_client_keeps|].
  destruct (is_stun_packet data); [by apply handle_stun_packet_keeps|].
  destruct (i_nominated s) eqn:Hn; [|done]. destruct (bool_decide _); [|done].
  split; [by apply inv_emit|done].
Qed.

Lemma timeout_timer_keeps s : ice_inv s -> advances s (on_timeout_timer s).
Proof.
  intros H. unfold on_timeout_timer. simpl i_state. case_bool_decide as Hst; simpl.
  - rewrite (not_nominated s H) by (rewrite Hst; simpl; lia). simpl.
    split; [|rewrite Hst; simpl; lia]. apply inv_emit; try done. destruct H. split; simpl; try done.
    revert ci_gathered0. case_bool_decide; lia.
  - split; [|done]. destruct H. by split.
Qed.

(** Nothing opens a closed session again. *)
Lemma send_next_check_closed s : i_closed (send_next_check hmac_sha1 rng s) = i_closed s.
Proof.
  unfold send_next_check. destruct (_ || _); [done|]. destruct (find_waiting _ _) as [[[i p]|] idx]; simpl;
    repeat match goal with |- context [if ?b then _ else _] => destruct b end; done.
Qed.

Lemma on_srflx_result_closed addr s : i_closed (on_srflx_result hmac_sha1 rng addr s) = i_closed s.
Proof.
  unfold on_srflx_result, gathering_complete.
  set (s1 := match addr with Some _ => _ | None => s end).
  assert (i_closed s1 = i_closed s) as <- by (unfold s1; by destruct addr).
  destruct (negb _); [done|]. case_bool_decide; [done|].
  change (i_closed (begin_checks hmac_sha1 rng s1) = i_closed s1). unfold begin_checks.
  by rewrite send_next_check_closed.
Qed.

Lemma try_servers_closed fuel s : i_closed (try_servers hmac_sha1 rng fuel s) = i_closed s.
Proof.
  revert s. induction fuel as [|fuel IH]; intros s; simpl; case_bool_decide;
    try apply on_srflx_result_closed; [done|].
  destruct (drop _ _) as [|[? [a|]] ?]; [done|by rewrite on_srflx_result_closed|by rewrite IH].
Qed.

Lemma after_client_closed c s : i_closed (after_client hmac_sha1 rng c s) = i_closed s.
Proof.
  unfold after_client, try_next_stun_server.
  destruct (drop _ _) as [|[? [a|]] ?]; [done|by rewrite on_srflx_result_closed|by rewrite try_servers_closed].
Qed.

Lemma ice_close_keeps s : ice_inv s -> advances s (ice_close hmac_sha1 rng s).
Proof.
  intros H. unfold ice_close. destruct (i_closed s); [done|].
  set (s1 := set_i_closed true s). assert (ice_inv s1) as H1 by (destruct H; by split).
  destruct (after_client_keeps (cancel (i_stun_client s1)) s1 H1) as [H2 Hr]. split; [|exact Hr].
  pose proof (after_client_closed (cancel (i_stun_client s1)) s1) as Hc. change (i_closed s1) with true in Hc.
  clear H H1. set (s2 := after_client _ _ _ _) in *.
  destruct H2. split; simpl; try done; intros _; by rewrite Hc.
Qed.

Lemma run_ice_op_keeps s op : ice_inv s -> advances s (run_ice_op hmac_sha1 rng s op).
Proof.
  intros H. destruct op; cbn [run_ice_op].
  - by apply gather_keeps.
  - by apply set_remote_keeps.
  - by apply start_checks_keeps.
  - by apply on_recv_keeps.
  - by destruct aborted.
  - unfold on_check_timer. through send_next_check_keeps.
  - by apply timeout_timer_keeps.
  - by apply keepalive_timer_keeps.
  - unfold on_stun_timer, next_draw. through after_client_keeps.
  - unfold ice_send. destruct (_ || _ || _); [done|]. split; [by apply inv_send_to|done].
  - by apply ice_close_keeps.
Qed.

Lemma run_ice_keeps ops s : ice_inv s -> advances s (run_ice hmac_sha1 rng ops s).
Proof.
  revert s. induction ops as [|op ops IH]; intros s H; [done|].
  destruct (run_ice_op_keeps s op H) as [H1 Hr1]. destruct (IH _ H1) as [H2 Hr2].
  split; [exact H2|]. unfold run_ice in *. simpl. lia.
Qed.
End invariant.

(** ** Theorems *)

(** C35: In every run of a session, whatever the network, the peer and the timers do: a session
    is connected only with a nominated pair that succeeded, the connected callback is
    invoked exactly once and only by nomination, data is delivered only after it, the
    gathered callback at most once, missed consents stay within the limit, and the
    session never goes back to an earlier phase. *)
Theorem ice_session_safe hmac_sha1 rng peer ctl cfg creds tie ops1 ops2 :
  0 < consent_max_failures cfg ->
  let s1 := run_ice hmac_sha1 rng ops1 (ice_init peer ctl cfg creds tie) in
  let s := run_ice hmac_sha1 rng ops2 s1 in
  (i_state s = Connected -> i_nominated s = true) /\
  (i_nominated s = true -> rank (i_state s) = 4%nat /\
     exists p, p ∈ i_check_list s /\ p_state p = Succeeded /\ c_endpoint (p_remote p) = i_remote_ep s) /\
  count is_connected_ev (i_out s) = (if i_nominated s then 1 else 0)%nat /\
  (i_nominated s = false -> count is_data_ev (i_out s) = 0%nat) /\
  (count is_gathered_ev (i_out s) <= 1)%nat /\
  0 <= i_consent_missed s <= consent_max_failures (i_config s) /\
  (rank (i_state s1) <= rank (i_state s))%nat.
Proof.
  intros Hcfg s1 s.
  destruct (run_ice_keeps hmac_sha1 rng ops1 _ (inv_init peer ctl cfg creds tie Hcfg)) as [H1 _].
  destruct (run_ice_keeps hmac_sha1 rng ops2 _ H1) as [H2 Hr]. fold s1 s in H2, Hr.
  destruct H2. split_and!; try done; try lia.
  - intros Hn. split; auto.
  - revert ci_gathered0. case_bool_decide; lia.
Qed.

(** ** Gathering ends *)

Section liveness.
Context (hmac_sha1 : bytes -> bytes -> bytes) (rng : nat -> draw).

Definition servers_left (s : IceSession) : nat := length (stun_servers (i_config s)) - i_stun_try_idx s.

(** A STUN exchange is under way and its callback belongs to the session. *)
Definition exchange_pending (c : StunClient) : Prop :=
  sc_active c = true /\ sc_cb c <> None /\ 0 <= sc_retries c < MAX_RETRIES.

Definition gather_inv (s : IceSession) : Prop :=
  match i_state s with
  | New => sc_active (i_stun_client s) = false
  | Gathering => exchange_pending (i_stun_client s) /\ (0 < servers_left s)%nat
  | _ => True
  end.

(** An operation that leaves gathering alone, or ends it. *)
Definition aside (s s' : IceSession) : Prop :=
  (2 <= rank (i_state s'))%nat \/
  i_state s' = i_state s /\ i_stun_client s' = i_stun_client s /\ i_stun_try_idx s' = i_stun_try_idx s /\
  i_config s' = i_config s.

Lemma gather_inv_aside s s' : gather_inv s -> aside s s' -> gather_inv s'.
Proof.
  unfold gather_inv, servers_left. intros H [Hr|(-> & -> & -> & ->)]; [|done].
  destruct (i_state s'); simpl in Hr; lia || done.
Qed.

Lemma gathering_complete_leaves s :
  ice_inv s -> i_state s = Gathering -> (2 <= rank (i_state (gathering_complete hmac_sha1 rng s)))%nat.
Proof.
  intros H Hs. unfold gathering_complete. rewrite Hs. cbn [negb bool_decide]. simpl.
  case_bool_decide; [simpl; lia|].
  destruct (begin_checks_keeps hmac_sha1 rng s H) as (_ & Hr & _); [rewrite Hs; simpl; lia|]. simpl. lia.
Qed.

Lemma on_srflx_result_leaves addr s :
  ice_inv s -> i_state s = Gathering -> (2 <= rank (i_state (on_srflx_result hmac_sha1 rng addr s)))%nat.
Proof.
  intros H Hs. unfold on_srflx_result. destruct addr; by apply gathering_complete_leaves.
Qed.

(** The servers tried in turn: gathering ends, or the exchange with one of them is pending. *)
Lemma try_servers_spec fuel s :
  ice_inv s -> i_state s = Gathering -> sc_active (i_stun_client s) = false ->
  (servers_left s <= fuel)%nat ->
  let s' := try_servers hmac_sha1 rng fuel s in
  (2 <= rank (i_state s'))%nat \/
  i_state s' = Gathering /\ exchange_pending (i_stun_client s') /\ sc_retries (i_stun_client s') = 0 /\
  (0 < servers_left s' <= servers_left s)%nat.
Proof.
  revert s. induction fuel as [|fuel IH]; intros s H Hs Hc Hf; simpl; case_bool_decide as Hlen;
    try (left; by apply on_srflx_result_leaves).
  - unfold servers_left in Hf. lia.
  - unfold resolve. rewrite Hc. set (c := i_stun_client s) in *. unfold send_request, send_binding, finish.
    set (d := rng (i_drawn s)).
    destruct (d_found d); simpl; [destruct (d_send_ok d && i_socket_open s); simpl|].
    + rewrite drop_all. right. unfold exchange_pending, servers_left, MAX_RETRIES. simpl. split_and!; lia || done.
    + rewrite drop_app_length. match goal with |- context [try_servers _ _ _ ?x] => specialize (IH x) end.
      unfold servers_left in *. destruct IH as [?|(? & ? & ? & ?)];
        [exact H|exact Hs|done|simpl; lia|by left|right; simpl in *; split_and!; done || lia].
    + rewrite drop_app_length. match goal with |- context [try_servers _ _ _ ?x] => specialize (IH x) end.
      unfold servers_left in *. destruct IH as [?|(? & ? & ? & ?)];
        [exact H|exact Hs|done|simpl; lia|by left|right; simpl in *; split_and!; done || lia].
Qed.

Lemma aside_refl s : aside s s.
Proof. by right. Qed.

Lemma aside_from s s0 s' :
  aside s0 s' ->
  (i_state s0, i_stun_client s0, i_stun_try_idx s0, i_config s0) =
  (i_state s, i_stun_client s, i_stun_try_idx s, i_config s) -> aside s s'.
Proof. unfold aside. intros H [= <- <- <- <-]. exact H. Qed.

Lemma send_keepalive_aside s : aside s (send_keepalive hmac_sha1 rng s).
Proof. unfold send_keepalive, next_draw. destruct (_ || _ || _); by right. Qed.

Lemma nominate_aside i s : aside s (nominate hmac_sha1 rng i s).
Proof.
  unfold nominate. destruct (i_nominated s); [by right|]. destruct (_ !! _); [|by right]. left.
  unfold start_keepalive, send_keepalive, next_draw. destruct (_ || _ || _); simpl; lia.
Qed.

Lemma on_recv_aside from data s :
  (feed_client data (i_stun_client s)).1 = false -> aside s (on_recv hmac_sha1 rng from data s).
Proof.
  unfold on_recv. destruct (feed_client _ _) as [[] c]; [done|]. intros _.
  destruct (is_stun_packet data); [|destruct (_ && _); by right].
  unfold handle_stun_packet. case_bool_decide; [by right|]. destruct (_ =? _); [|destruct (_ =? _); [|by right]].
  - unfold handle_stun_response. destruct (parse_binding_response data); [|by right].
    destruct (_ && _); [by right|]. destruct (list_find _ _) as [[i p]|]; [|by right].
    destruct (_ && _); [|by right]. eapply aside_from; [apply nominate_aside|done].
  - unfold handle_stun_request. destruct (parse_binding_request _ _ _) as [[req|]|]; [|by right..].
    destruct (_ && _ && _); [|by right].
    destruct (list_find _ _) as [[i p]|]; (eapply aside_from; [apply nominate_aside|done]).
Qed.

(** The client's callback runs: a result ends gathering, a failure moves on to the servers
    that are left. *)
Lemma after_client_spec c s k res :
  ice_inv s -> i_state s = Gathering -> sc_active c = false ->
  sc_log c = sc_log (i_stun_client s) ++ [(k, res)] ->
  let s' := after_client hmac_sha1 rng c s in
  (2 <= rank (i_state s'))%nat \/
  i_state s' = Gathering /\ exchange_pending (i_stun_client s') /\ sc_retries (i_stun_client s') = 0 /\
  (0 < servers_left s' < servers_left s)%nat.
Proof.
  intros H Hs Hc Hlog. unfold after_client. rewrite Hlog, drop_app_length.
  destruct res as [a|]; [left; by apply (on_srflx_result_leaves (Some a) (set_i_stun_client c s))|].
  unfold try_next_stun_server. set (s1 := set_i_stun_try_idx _ _).
  destruct (try_servers_spec (servers_left s1) s1 H Hs Hc ltac:(lia)) as [?|(? & ? & ? & ?)]; [by left|].
  right. split_and!; try done; unfold s1, servers_left in *; simpl in *; lia.
Qed.

(** A pending exchange that ends logs its callback. *)
Lemma finish_log r c : sc_cb c <> None -> exists k, sc_log (finish r c) = sc_log c ++ [(k, r)].
Proof. unfold finish. destruct (sc_cb c) as [k|]; [intros _|done]. by exists k. Qed.

(** One expiry of the client's timer while gathering. *)
Lemma stun_timer_spec s :
  ice_inv s -> i_state s = Gathering -> gather_inv s ->
  let s' := on_stun_timer hmac_sha1 rng s in
  (2 <= rank (i_state s'))%nat \/
  i_state s' = Gathering /\ gather_inv s' /\
  3 * Z.of_nat (servers_left s') - sc_retries (i_stun_client s') <
  3 * Z.of_nat (servers_left s) - sc_retries (i_stun_client s).
Proof.
  intros H Hs Hg. unfold gather_inv in Hg. rewrite Hs in Hg. destruct Hg as ((Ha & Hcb & Hr) & Hl).
  unfold on_stun_timer, next_draw. set (s0 := set_i_drawn _ s).
  change (i_stun_client s0) with (i_stun_client s). unfold retry_timer. rewrite Ha. cbn [negb].
  set (c1 := mk_client _ _ _ (sc_retries (i_stun_client s) + 1) _ _).
  destruct (Z.leb_spec MAX_RETRIES (sc_retries (i_stun_client s) + 1)) as [Hm|Hm].
  - destruct (finish_log None c1 Hcb) as [k Hk].
    destruct (after_client_spec (finish None c1) s0 k None) as [?|(Hs' & Hp & H0 & Hlt)]; [done..|by left|].
    right. set (s' := after_client _ _ _ _) in *.
    split_and!; [done|unfold gather_inv; rewrite Hs'; split; [done|lia]|].
    change (servers_left s0) with (servers_left s) in Hlt. unfold MAX_RETRIES in *. lia.
  - unfold after_client, send_binding. simpl. rewrite drop_all. right.
    split_and!; [done| |unfold servers_left; simpl; lia].
    unfold gather_inv. simpl. rewrite Hs. split; [|done]. unfold exchange_pending. simpl. unfold MAX_RETRIES in *.
    split_and!; try done; lia.
Qed.

Lemma gather_inv_past s : (2 <= rank (i_state s))%nat -> gather_inv s.
Proof. intros Hr. unfold gather_inv. destruct (i_state s); simpl in Hr; lia || done. Qed.

(** A step of a session that is past gathering. *)
Lemma gather_inv_advanced s s' : advances s s' -> (2 <= rank (i_state s))%nat -> gather_inv s'.
Proof. intros [_ Hr] H2. apply gather_inv_past. lia. Qed.

Lemma feed_taken data c :
  (feed_client data c).1 = true ->
  sc_active c = true /\ exists a, (feed_client data c).2 = finish (Some a) c.
Proof.
  unfold feed_client. destruct (sc_active c); cbn [negb]; [|done]. destruct (is_stun_packet data); [|done].
  cbn [negb]. destruct (parse_binding_response data); [|done]. case_bool_decide; [|done]. simpl. eauto.
Qed.

(** A client step that ends the pending exchange while the session gathers. *)
Lemma after_finish_gather r c s :
  ice_inv s -> i_state s = Gathering -> sc_cb c <> None -> sc_log c = sc_log (i_stun_client s) ->
  gather_inv (after_client hmac_sha1 rng (finish r c) s).
Proof.
  intros H Hs Hcb Hlog. destruct (finish_log r c Hcb) as [k Hk]. rewrite Hlog in Hk.
  destruct (after_client_spec (finish r c) s k r) as [?|(Hs' & Hp & _ & Hlt)]; [done..|by apply gather_inv_past|].
  unfold gather_inv. rewrite Hs'. split; [done|lia].
Qed.

Lemma gather_gather probe port s :
  ice_inv s -> gather_inv s -> i_state s = New -> gather_inv (gather hmac_sha1 rng probe port s).
Proof.
  intros H Hg Hs. unfold gather. rewrite Hs. cbn [negb bool_decide]. simpl.
  unfold gather_srflx, try_next_stun_server. set (s1 := start_recv_loop _).
  unfold gather_inv in Hg. rewrite Hs in Hg.
  assert (ice_inv s1 /\ i_state s1 = Gathering /\ sc_active (i_stun_client s1) = false) as (H1 & Hs1 & Hc1).
  { unfold s1, start_recv_loop. destruct (_ || _); (split_and!; [|done|exact Hg]);
      pose proof (not_nominated s H ltac:(rewrite Hs; simpl; lia)) as Hn;
      unfold ice_inv in *; simpl; rewrite Hn, Hs in *; destruct H; by split. }
  fold (servers_left s1).
  destruct (try_servers_spec (servers_left s1) s1 H1 Hs1 Hc1 ltac:(lia)) as [?|(Hs' & Hp & _ & Hl)];
    [by apply gather_inv_past|]. unfold gather_inv. rewrite Hs'. split; [exact Hp|lia].
Qed.

Lemma close_gather s :
  ice_inv s -> gather_inv s -> i_state s = New \/ i_state s = Gathering ->
  gather_inv (ice_close hmac_sha1 rng s).
Proof.
  intros H Hg Hs. unfold ice_close. destruct (i_closed s); [done|].
  set (s1 := set_i_closed true s). assert (ice_inv s1) as H1 by (destruct H; by split).
  assert (gather_inv (after_client hmac_sha1 rng (cancel (i_stun_client s1)) s1)) as Hac; [|exact Hac].
  unfold cancel. change (i_stun_client s1) with (i_stun_client s). unfold gather_inv in Hg.
  destruct Hs as [Hs|Hs]; rewrite Hs in Hg.
  - rewrite Hg. unfold after_client. change (i_stun_client s1) with (i_stun_client s). rewrite drop_all.
    unfold gather_inv. simpl. by rewrite Hs.
  - destruct Hg as [(-> & Hcb & _) _]. by apply after_finish_gather.
Qed.

Lemma recv_gather from data s :
  ice_inv s -> gather_inv s -> i_state s = New \/ i_state s = Gathering ->
  gather_inv (on_recv hmac_sha1 rng from data s).
Proof.
  intros H Hg Hs. destruct ((feed_client data (i_stun_client s)).1) eqn:Hf.
  - pose proof (feed_taken _ _ Hf) as [Ha [a Hfin]]. unfold on_recv.
    destruct (feed_client _ _) as [taken c]. simpl in *. subst.
    unfold gather_inv in Hg. destruct Hs as [Hs|Hs]; rewrite Hs in Hg; [congruence|].
    apply after_finish_gather; try done. apply Hg.
  - eapply gather_inv_aside; [exact Hg|]. by apply on_recv_aside.
Qed.

Lemma stun_timer_gather s :
  ice_inv s -> gather_inv s -> i_state s = New \/ i_state s = Gathering ->
  gather_inv (on_stun_timer hmac_sha1 rng s).
Proof.
  intros H Hg [Hs|Hs].
  - unfold on_stun_timer, next_draw. unfold gather_inv in Hg. rewrite Hs in Hg. unfold retry_timer.
    simpl. rewrite Hg. cbn [negb]. unfold after_client. simpl. rewrite drop_all.
    unfold gather_inv. simpl. by rewrite Hs.
  - destruct (stun_timer_spec s H Hs Hg) as [?|(_ & ? & _)]; [by apply gather_inv_past|done].
Qed.

Lemma run_ice_op_gather s op : ice_inv s -> gather_inv s -> gather_inv (run_ice_op hmac_sha1 rng s op).
Proof.
  intros H Hg. pose proof (run_ice_op_keeps hmac_sha1 rng s op H) as Hadv.
  destruct (decide (2 <= rank (i_state s))%nat) as [H2|H2]; [by eapply gather_inv_advanced|].
  assert (i_state s = New \/ i_state s = Gathering) as Hs by (destruct (i_state s); simpl in H2; auto; lia).
  assert (forall st, (2 <= rank st)%nat -> i_state s <> st) as Hne by (intros st Hst <-; done).
  clear Hadv. destruct op; cbn [run_ice_op];
    try (eapply gather_inv_aside; [exact Hg|]; unfold set_remote, start_checks, on_check_timer,
      send_next_check, on_timeout_timer, on_recv_error, ice_send; simpl;
      rewrite ?bool_decide_false by (apply Hne; simpl; lia); by repeat case_match; right).
  - destruct Hs as [Hs|Hs]; [by apply gather_gather|]. unfold gather. rewrite bool_decide_false by congruence. done.
  - by apply recv_gather.
  - eapply gather_inv_aside; [exact Hg|]. unfold on_keepalive_timer. destruct (_ <=? _); [left; simpl; lia|].
    eapply aside_from; [apply send_keepalive_aside|done].
  - by apply stun_timer_gather.
  - by apply close_gather.
Qed.

Lemma run_ice_inv ops s : ice_inv s -> gather_inv s ->
  ice_inv (run_ice hmac_sha1 rng ops s) /\ gather_inv (run_ice hmac_sha1 rng ops s).
Proof.
  revert s. induction ops as [|op ops IH]; intros s H Hg; [done|]. apply IH; [|by apply run_ice_op_gather].
  by apply run_ice_op_keeps.
Qed.

(** Expiries of the STUN timer until gathering is over. *)
Lemma gather_ends n s :
  ice_inv s -> gather_inv s -> i_state s = Gathering ->
  3 * Z.of_nat (servers_left s) - sc_retries (i_stun_client s) <= Z.of_nat n ->
  exists m, (m <= n)%nat /\ (2 <= rank (i_state (run_ice hmac_sha1 rng (replicate m OpStunTimer) s)))%nat.
Proof.
  revert s. induction n as [|n IH]; intros s H Hg Hs Hn.
  - unfold gather_inv in Hg. rewrite Hs in Hg. destruct Hg as [(_ & _ & ?) ?]. unfold MAX_RETRIES in *. lia.
  - destruct (stun_timer_spec s H Hs Hg) as [Hr|(Hs' & Hg' & Hlt)].
    + exists 1%nat. split; [lia|exact Hr].
    + destruct (IH (on_stun_timer hmac_sha1 rng s)) as (m & Hm & Hr); [|done..|lia|].
      * apply (run_ice_op_keeps hmac_sha1 rng s OpStunTimer H).
      * exists (S m). split; [lia|exact Hr].
Qed.
End liveness.

Definition is_failed_ev (e : ice_event) : bool := match e with EvFailed => true | _ => false end.

Section expiry.
Context (hmac_sha1 : bytes -> bytes -> bytes) (rng : nat -> draw).

(** Unanswered keepalives: one more is missed at each expiry until the limit. *)
Lemma consent_expires n s :
  i_state s = Connected -> i_nominated s = true -> i_closed s = false ->
  Z.of_nat n = consent_max_failures (i_config s) - i_consent_missed s ->
  let s' := run_ice hmac_sha1 rng (replicate (S n) OpKeepaliveTimer) s in
  i_state s' = Failed /\ count is_failed_ev (i_out s') = S (count is_failed_ev (i_out s)).
Proof.
  revert s. induction n as [|n IH]; intros s Hs Hn Hc Hm.
  - change (run_ice _ _ _ s) with (on_keepalive_timer hmac_sha1 rng s). unfold on_keepalive_timer.
    simpl i_config. simpl i_consent_missed. rewrite (proj2 (Z.leb_le _ _)) by lia.
    split; [done|]. simpl. rewrite count_app, Nat.add_comm. done.
  - change (run_ice _ _ _ s) with
      (run_ice hmac_sha1 rng (replicate (S n) OpKeepaliveTimer) (on_keepalive_timer hmac_sha1 rng s)).
    set (s1 := on_keepalive_timer hmac_sha1 rng s).
    assert (i_state s1 = Connected /\ i_nominated s1 = true /\ i_closed s1 = false /\
      i_config s1 = i_config s /\ i_consent_missed s1 = i_consent_missed s + 1 /\
      count is_failed_ev (i_out s1) = count is_failed_ev (i_out s)) as (Hs1 & Hn1 & Hc1 & Hcf & Hm1 & <-).
    { unfold s1, on_keepalive_timer. simpl i_config. simpl i_consent_missed.
      rewrite (proj2 (Z.leb_gt _ _)) by lia. unfold send_keepalive, next_draw, send_to, emit_ice.
      simpl i_nominated. simpl i_closed. simpl i_state. rewrite Hn, Hc, bool_decide_true by done.
      cbn [negb orb]. simpl. rewrite count_app. split_and!; try done.
      by destruct (build_check_request _ _ _ _ _ _ _ _); rewrite Nat.add_0_r. }
    apply IH; try done. rewrite Hcf, Hm1. lia.
Qed.
End expiry.

(** C36: A session always settles.  In every reachable state: a session that gathers is done
    after at most three expiries of the STUN timer per server that is left, whatever the
    servers do; a session that checks has its timeout pending, and when it expires the
    session has failed and said so; a connected session has its keepalive pending, and once
    the limit of unanswered ones is reached it has failed and said so once. *)
Theorem ice_session_settles hmac_sha1 rng peer ctl cfg creds tie ops :
  0 < consent_max_failures cfg ->
  let s := run_ice hmac_sha1 rng ops (ice_init peer ctl cfg creds tie) in
  (i_state s = Gathering ->
     exists m, (m <= 3 * servers_left s)%nat /\
       (2 <= rank (i_state (run_ice hmac_sha1 rng (replicate m OpStunTimer) s)))%nat) /\
  (i_state s = Checking -> i_closed s = false ->
     i_timeout_timer s = true /\
     let s' := run_ice hmac_sha1 rng [OpTimeoutTimer] s in
     i_state s' = Failed /\ i_out s' = i_out s ++ [EvFailed]) /\
  (i_state s = Connected -> i_closed s = false ->
     i_keepalive_timer s = true /\
     let n := Z.to_nat (consent_max_failures (i_config s) - i_consent_missed s + 1) in
     let s' := run_ice hmac_sha1 rng (replicate n OpKeepaliveTimer) s in
     i_state s' = Failed /\ count is_failed_ev (i_out s') = S (count is_failed_ev (i_out s))).
Proof.
  intros Hcfg s.
  destruct (run_ice_inv hmac_sha1 rng ops (ice_init peer ctl cfg creds tie)) as [H Hg];
    [by apply inv_init|done|]. fold s in H, Hg. split_and!.
  - intros Hs. apply gather_ends; try done.
    unfold gather_inv in Hg. rewrite Hs in Hg. destruct Hg as [(_ & _ & Hr) _]. lia.
  - intros Hs Hc. split; [by apply (ci_timeout _ _ _ _ _ _ _ _ _ _ H)|].
    unfold run_ice. cbn [fold_left run_ice_op]. unfold on_timeout_timer. simpl i_state. rewrite Hs.
    change (i_nominated (set_i_timeout_timer false s)) with (i_nominated s).
    rewrite (not_nominated s H) by (rewrite Hs; simpl; lia). by rewrite bool_decide_true.
  - intros Hs Hc. split; [by apply (ci_keepalive _ _ _ _ _ _ _ _ _ _ H)|].
    pose proof (ci_consent _ _ _ _ _ _ _ _ _ _ H) as [_ Hm].
    intros n. replace n with (S (Z.to_nat (consent_max_failures (i_config s) - i_consent_missed s))) by lia.
    apply consent_expires; try done; [by apply (ci_nominated _ _ _ _ _ _ _ _ _ _ H)|lia].
Qed.
