(* ===== verification/IceExchange.v ===== *)
(** * ICE sessions at work: the check list, checks between two sessions, and what a stranger can do

    [IceSession] says that a session is safe and settles; here two sessions meet.  A check
    list holds exactly the pairs of one address family, best first.  One request and its
    response connect a controlling and a controlled session that exchanged credentials.
    The last theorems show what the code lets happen: a datagram without credentials that
    connects a controlled session, a failed session that connects afterwards, and a closed
    session that goes on gathering. *)

From Stdlib Require Import ZArith Strings.Byte String Lia.
From stdpp Require Import base list strings numbers sorting.
From S2P Require Import Prelude Codec Wire Stun Candidate IceSession.

Local Open Scope Z_scope.

(** ** The check list *)

#[local] Instance by_priority_trans : Transitive by_priority.
Proof. unfold by_priority. intros ? ? ?. lia. Qed.

#[local] Instance by_priority_total : Total by_priority.
Proof. unfold by_priority. intros ? ?. lia. Qed.

Lemma elem_of_all_pairs ctl ls rs q :
  q ∈ all_pairs ctl ls rs <->
  exists l r, l ∈ ls /\ r ∈ rs /\ same_family l r = true /\ q = make_pair ctl l r.
Proof.
  unfold all_pairs. rewrite list_elem_of_In, in_concat. split.
  - intros (x & Hx & Hq). apply in_map_iff in Hx as (l & <- & Hl). apply in_map_iff in Hq as (r & <- & Hr).
    apply list_elem_of_In, list_elem_of_filter in Hr as [Hf Hr]. exists l, r. rewrite list_elem_of_In.
    by apply Is_true_true in Hf.
  - intros (l & r & Hl & Hr & Hf & ->). eexists. split; [by apply in_map, list_elem_of_In|].
    apply in_map, list_elem_of_In, list_elem_of_filter. split; [by apply Is_true_true|done].
Qed.

(** The check list holds exactly the pairs of a local and a remote candidate of one address
    family, all waiting, sorted by descending priority, and checking starts at its head. *)
Theorem check_list_formed s :
  let s' := form_check_list s in
  (forall q, q ∈ i_check_list s' <->
     exists l r, l ∈ i_local_candidates s /\ r ∈ i_remote_candidates s /\ same_family l r = true /\
       q = make_pair (i_controlling s) l r) /\
  StronglySorted (fun a b => p_priority b <= p_priority a) (i_check_list s') /\
  Forall (fun q => p_state q = Waiting) (i_check_list s') /\ i_next_check_idx s' = 0%nat.
Proof.
  intros s'. set (l := all_pairs (i_controlling s) (i_local_candidates s) (i_remote_candidates s)).
  assert (forall q, q ∈ i_check_list s' <-> q ∈ l) as Hin.
  { intros q. simpl. fold l. by rewrite merge_sort_Permutation. }
  split_and!.
  - intros q. rewrite Hin. apply elem_of_all_pairs.
  - simpl. apply (StronglySorted_merge_sort by_priority).
  - apply Forall_forall. intros q Hq%Hin. apply elem_of_all_pairs in Hq as (? & ? & _ & _ & _ & ->). done.
  - done.
Qed.

(** ** What a parsed packet looks like *)

Lemma check_header_Some type data stop :
  check_header type data = Some stop ->
  (20 <= length data)%nat /\ read_u16 0 data = type /\ read_u32 4 data = STUN_MAGIC_COOKIE.
Proof.
  unfold check_header. unfold STUN_HEADER_SIZE at 1. case_bool_decide; [done|].
  destruct (Z.eqb_spec (read_u16 0 data) type); [|done]. cbn [negb].
  destruct (Z.eqb_spec (read_u32 4 data) STUN_MAGIC_COOKIE); [|done]. intros _. split_and!; done || lia.
Qed.

Lemma request_packet hmac data password r :
  parse_binding_request hmac data password = Some (Some r) ->
  is_stun_packet data = true /\ read_u16 0 data = STUN_BINDING_REQUEST /\ (20 <= length data)%nat /\
  parse_binding_response data = None.
Proof.
  unfold parse_binding_request. destruct (check_header _ data) as [stop|] eqn:E; [|done]. intros _.
  apply check_header_Some in E as (Hl & Ht & Hc).
  assert (parse_binding_response data = None) as ->.
  { unfold parse_binding_response, check_header. rewrite Ht. by destruct (bool_decide _). }
  split_and!; try done. unfold is_stun_packet.
  destruct data as [|b0 [|b1 d]]; [simpl in Hl; lia..|]. rewrite bool_decide_false by (unfold STUN_HEADER_SIZE; lia).
  assert (b2z b0 = 0) as ->.
  { unfold read_u16, slice, be_dec in Ht. simpl in Ht. pose proof (b2z_range b0). pose proof (b2z_range b1).
    unfold STUN_BINDING_REQUEST in Ht. lia. }
  simpl. rewrite Hc. done.
Qed.

Lemma response_packet data r :
  parse_binding_response data = Some r ->
  read_u16 0 data = STUN_BINDING_RESPONSE /\ (20 <= length data)%nat.
Proof.
  unfold parse_binding_response. destruct (check_header _ data) as [stop|] eqn:E; [|done]. intros _.
  apply check_header_Some in E as (Hl & Ht & Hc). done.
Qed.

Section exchange.
Context (hmac_sha1 : bytes -> bytes -> bytes).

(** ** Nomination *)

Lemma nominate_connects rng i p s :
  i_nominated s = false -> i_check_list s !! i = Some p ->
  let s' := nominate hmac_sha1 rng i s in
  i_state s' = Connected /\ i_nominated s' = true /\ i_remote_ep s' = c_endpoint (p_remote p) /\
  i_closed s' = i_closed s /\ exists evs, i_out s' = i_out s ++ evs.
Proof.
  intros Hn Hp. unfold nominate. rewrite Hn, Hp. unfold start_keepalive, send_keepalive, next_draw.
  destruct (_ || _ || _); simpl; split_and!; try done; eexists; by rewrite <-?app_assoc.
Qed.

(** A packet of the peer never reaches the STUN client unless it answers it. *)
Lemma feed_request data c :
  parse_binding_response data = None -> feed_client data c = (false, c).
Proof. intros H. unfold feed_client. rewrite H. by destruct (sc_active c), (is_stun_packet data). Qed.

(** A controlled session that receives a request with USE-CANDIDATE answers it and connects
    to where it came from. *)
Lemma recv_request rng from data s req resp :
  parse_binding_request hmac_sha1 data (pwd (i_local_creds s)) = Some (Some req) ->
  rq_use_candidate req = true -> i_controlling s = false -> i_nominated s = false ->
  build_check_response hmac_sha1 (rq_txn_id req) from (pwd (i_local_creds s)) = Some resp ->
  let s' := on_recv hmac_sha1 rng from data s in
  i_state s' = Connected /\ i_nominated s' = true /\ i_remote_ep s' = from /\ i_closed s' = i_closed s /\
  exists evs, i_out s' = i_out s ++ EvSend from resp :: evs.
Proof.
  intros Hp Hu Hc Hn Hr. destruct (request_packet _ _ _ _ Hp) as (Hst & Ht & Hlen & Hnr).
  unfold on_recv. rewrite feed_request, Hst by done. unfold handle_stun_packet.
  rewrite bool_decide_false by (unfold STUN_HEADER_SIZE; lia). rewrite Ht. simpl Z.eqb. cbv iota.
  unfold handle_stun_request. rewrite Hp, Hr, Hu. set (s1 := send_to from (Some resp) s).
  change (i_controlling s1) with (i_controlling s). change (i_nominated s1) with (i_nominated s).
  rewrite Hc, Hn. cbn [negb andb].
  assert (forall evs, i_out s1 ++ evs = i_out s ++ EvSend from resp :: evs) as Ho
    by (intros; unfold s1; simpl; by rewrite <-app_assoc).
  destruct (list_find _ _) as [[i p]|] eqn:Hf.
  - apply list_find_Some in Hf as (Hi & He & _). set (s2 := set_i_check_list _ s1).
    destruct (nominate_connects rng i (set_p_state Succeeded p) s2) as (? & ? & ? & ? & evs & Hev); [done| |].
    { apply list_lookup_insert_eq. by eapply lookup_lt_Some. }
    split_and!; try done; [by etrans|]. exists evs. rewrite Hev. apply Ho.
  - set (s2 := set_i_check_list _ s1).
    destruct (nominate_connects rng (length (i_check_list s2) - 1) (reflexive_pair from (rq_priority req) s1) s2)
      as (? & ? & ? & ? & evs & Hev); [done| |].
    { unfold s2. simpl. rewrite length_app. simpl. rewrite Nat.add_sub. by apply list_lookup_middle. }
    split_and!; try done. exists evs. rewrite Hev. apply Ho.
Qed.

(** A controlling session that receives the answer to a check in progress connects. *)
Lemma recv_response rng addr data s r i p :
  parse_binding_response data = Some r -> is_stun_packet data = true ->
  (sc_active (i_stun_client s) = true -> sr_txn_id r <> sc_txn (i_stun_client s)) ->
  i_controlling s = true -> i_nominated s = false ->
  i_check_list s !! i = Some p -> p_state p = InProgress -> p_check_txn p = sr_txn_id r ->
  (forall j q, i_check_list s !! j = Some q -> p_state q = InProgress -> p_check_txn q = sr_txn_id r -> j = i) ->
  let s' := on_recv hmac_sha1 rng addr data s in
  i_state s' = Connected /\ i_nominated s' = true /\ i_remote_ep s' = c_endpoint (p_remote p).
Proof.
  intros Hp Hst Hcl Hc Hn Hi Hps Ht Huniq. destruct (response_packet _ _ Hp) as (Hty & Hlen).
  assert (feed_client data (i_stun_client s) = (false, i_stun_client s)) as Hfeed.
  { unfold feed_client. rewrite Hst, Hp. destruct (sc_active _); [|done]. cbn [negb].
    rewrite bool_decide_false; [done|]. auto. }
  unfold on_recv. rewrite Hfeed, Hst. unfold handle_stun_packet.
  rewrite bool_decide_false by (unfold STUN_HEADER_SIZE; lia). rewrite Hty, Z.eqb_refl.
  unfold handle_stun_response. rewrite Hp, Hn. cbn [andb].
  destruct (list_find _ _) as [[j q]|] eqn:Hf.
  - apply list_find_Some in Hf as (Hj & [Hqs Hqt] & _).
    pose proof (Huniq j q Hj Hqs Hqt) as ->. assert (q = p) as -> by congruence.
    set (s2 := set_i_check_list _ s). change (i_controlling s2) with (i_controlling s).
    change (i_nominated s2) with (i_nominated s). rewrite Hc, Hn. cbn [negb andb].
    destruct (nominate_connects rng i (set_p_state Succeeded p) s2) as (? & ? & ? & _); [done| |done].
    apply list_lookup_insert_eq. by eapply lookup_lt_Some.
  - exfalso. apply list_find_None in Hf. rewrite Forall_lookup in Hf. by apply (Hf i p Hi).
Qed.
End exchange.

(** C34: One connectivity check connects two sessions that exchanged credentials.  A
    controlling session sends the check for a waiting pair; a controlled session whose
    credentials it holds answers it and is connected to the address the check came from;
    the answer connects the controlling session to the candidate of the pair. *)
Theorem ice_check_connects hmac_sha1 (hmac_length : forall k d, length (hmac_sha1 k d) = 20%nat)
    rngA rngB a b i p from addr :
  i_controlling a = true -> i_nominated a = false -> i_check_list a !! i = Some p ->
  i_controlling b = false -> i_nominated b = false -> i_local_creds b = i_remote_creds a ->
  length (d_txn (rngA (i_drawn a))) = 12%nat -> Z.of_nat (length (username a)) + 63 < 2 ^ 16 ->
  fits 32 (c_priority (p_local p)) -> addr_ok from ->
  (sc_active (i_stun_client a) = true -> d_txn (rngA (i_drawn a)) <> sc_txn (i_stun_client a)) ->
  (forall j q, i_check_list a !! j = Some q -> p_state q = InProgress ->
     p_check_txn q <> d_txn (rngA (i_drawn a))) ->
  let a1 := check_pair hmac_sha1 rngA i p a in
  exists req resp,
    i_out a1 = i_out a ++ [EvSend (c_endpoint (p_remote p)) req] /\
    (let b' := on_recv hmac_sha1 rngB from req b in
     i_state b' = Connected /\ i_remote_ep b' = from /\
     exists evs, i_out b' = i_out b ++ EvSend from resp :: evs) /\
    (let a' := on_recv hmac_sha1 rngA addr resp a1 in
     i_state a' = Connected /\ i_remote_ep a' = c_endpoint (p_remote p)).
Proof.
  intros Hca Hna Hp Hcb Hnb Hcr Htxn Hu Hprio Hfrom Hcl Hfresh a1.
  set (txn := d_txn (rngA (i_drawn a))) in *.
  destruct (check_request_parses hmac_sha1 hmac_length txn (username a) (pwd (i_remote_creds a))
    (c_priority (p_local p)) (i_controlling a) (i_controlling a) (i_tie_breaker a))
    as (req & signed & Hreq & Hparse); [done..|].
  destruct (check_response_parses hmac_sha1 hmac_length txn from (pwd (i_local_creds b)))
    as (resp & Hresp & Hst & Hpr & _); [done..|].
  exists req, resp. split_and!.
  - unfold a1, check_pair, next_draw, send_to. fold txn. simpl.
    change (username _) with (username a). rewrite Hreq. done.
  - specialize (Hparse (pwd (i_local_creds b))). rewrite Hcr, bool_decide_true in Hparse by (by right).
    rewrite <-Hcr in Hparse.
    edestruct (recv_request hmac_sha1 rngB from req b) as (? & ? & ? & ? & ?); try done.
  - assert (i_check_list a1 = <[i := set_p_check_txn txn (set_p_state InProgress p)]> (i_check_list a)) as Hl by done.
    edestruct (recv_response hmac_sha1 rngA addr resp a1 (mk_result from txn) i
      (set_p_check_txn txn (set_p_state InProgress p))) as (? & ? & ?); try done.
    + rewrite Hl. apply list_lookup_insert_eq. by eapply lookup_lt_Some.
    + intros j q Hq Hqs Hqt. destruct (decide (j = i)) as [|Hne]; [done|].
      rewrite Hl, list_lookup_insert_ne in Hq by done. by destruct (Hfresh j q Hq Hqs).
Qed.

(** ** What a stranger can do *)

(** A Binding request with USE-CANDIDATE and nothing else. *)
Definition bare_request (txn : bytes) : bytes :=
  stun_message STUN_BINDING_REQUEST txn [(STUN_ATTR_USE_CANDIDATE, [])].

Lemma bare_request_parses hmac txn password :
  length txn = 12%nat ->
  parse_binding_request hmac (bare_request txn) password = Some (Some (mk_request txn 0 true [])).
Proof.
  intros Htxn. unfold parse_binding_request, bare_request.
  rewrite check_header_message by (done || const_fits || (vm_compute; done)).
  rewrite message_txn by (done || const_fits || (vm_compute; done)).
  rewrite <-(Nat.add_1_r (20 + _)), parse_message; [reflexivity| |done].
  constructor; [|constructor]. split; [const_fits|done].
Qed.

(** A 24-byte datagram that carries no credentials connects a controlled session to whoever
    sent it, in any state before nomination: while it gathers, waits or checks, and after it
    has failed; what the session then sends goes to that address. *)
Theorem ice_stranger_nominates hmac_sha1 (hmac_length : forall k d, length (hmac_sha1 k d) = 20%nat)
    rng s from txn :
  i_controlling s = false -> i_nominated s = false -> addr_ok from -> length txn = 12%nat ->
  let s' := on_recv hmac_sha1 rng from (bare_request txn) s in
  length (bare_request txn) = 24%nat /\ i_state s' = Connected /\ i_remote_ep s' = from /\
  forall data, i_closed s = false ->
    i_out (ice_send data s') = i_out s' ++ [EvSend from data].
Proof.
  intros Hc Hn Ha Htxn s'.
  destruct (check_response_parses hmac_sha1 hmac_length txn from (pwd (i_local_creds s))) as (resp & Hr & _); [done..|].
  pose proof (bare_request_parses hmac_sha1 txn (pwd (i_local_creds s)) Htxn) as Hp.
  destruct (recv_request hmac_sha1 rng from (bare_request txn) s _ resp Hp) as (Hs & Hn' & He & Hc' & _); [done..|].
  fold s' in Hs, Hn', He, Hc'. split_and!; try done.
  - unfold bare_request, stun_message. rewrite length_app, length_stun_header by done. done.
  - intros data Hcl. unfold ice_send. rewrite Hn', Hs, Hc', Hcl, bool_decide_true by done.
    cbn [negb orb]. unfold send_to, emit_ice. by rewrite He.
Qed.

(** ** Concrete sessions *)

Definition toy_creds (b : byte) : IceCredentials := mk_creds (replicate 16 b) (replicate 24 b).
Definition toy_config : IceConfig := mk_ice_config [] 10 20 3.
Definition toy_rng (n : nat) : draw := mk_draw (replicate 11 x00 ++ [z2b (Z.of_nat n + 1)]) true true.
Definition toy_addr (b : byte) (port : Z) : StunAddress := mk_addr (V4 [x0a; x00; x00; b]) port.
Definition toy_wire (b : byte) : IceCandidateWire := mk_cwire 0 4 4000 7 ([x0a; x00; x00; b] ++ replicate 12 x00).

(** A controlling session that has checked the first of two pairs. *)
Definition toy_a : IceSession :=
  run_ice toy_hmac toy_rng
    [OpGather (fun _ => None) 4000;
     OpSetRemote (mk_signal (replicate 16 x62) (replicate 24 x62) 2 0) [toy_wire x02; toy_wire x03]]
    (ice_init [] true toy_config (toy_creds x61) 1).

(** A controlled session that still waits for the peer's candidates. *)
Definition toy_b : IceSession :=
  run_ice toy_hmac toy_rng [OpGather (fun _ => None) 4001] (ice_init [] false toy_config (toy_creds x62) 2).

Lemma ice_session_safe_witness :
  i_state toy_a = Checking /\
  (rank (i_state (ice_init [] true toy_config (toy_creds x61) 1)) <= rank (i_state toy_a))%nat.
Proof.
  split; [vm_compute; reflexivity|].
  apply (ice_session_safe toy_hmac toy_rng [] true toy_config (toy_creds x61) 1 []
    [OpGather (fun _ => None) 4000;
     OpSetRemote (mk_signal (replicate 16 x62) (replicate 24 x62) 2 0) [toy_wire x02; toy_wire x03]]).
  reflexivity.
Defined.

Lemma ice_session_settles_witness :
  i_state toy_a = Checking /\ i_closed toy_a = false /\ i_timeout_timer toy_a = true.
Proof.
  split_and!; [vm_compute; reflexivity..|].
  apply (ice_session_settles toy_hmac toy_rng [] true toy_config (toy_creds x61) 1
    [OpGather (fun _ => None) 4000;
     OpSetRemote (mk_signal (replicate 16 x62) (replicate 24 x62) 2 0) [toy_wire x02; toy_wire x03]]);
    vm_compute; reflexivity.
Defined.

(** The second pair of [toy_a], still waiting. *)
Definition toy_pair : CandidatePair :=
  nth 1 (i_check_list toy_a) (reflexive_pair (toy_addr x00 0) 0 toy_a).

Lemma ice_check_connects_witness :
  exists req resp,
    i_out (check_pair toy_hmac toy_rng 1 toy_pair toy_a) =
      i_out toy_a ++ [EvSend (c_endpoint (p_remote toy_pair)) req] /\
    i_state (on_recv toy_hmac toy_rng (toy_addr x01 4000) req toy_b) = Connected /\
    i_state (on_recv toy_hmac toy_rng (toy_addr x03 4000) resp (check_pair toy_hmac toy_rng 1 toy_pair toy_a))
      = Connected.
Proof.
  destruct (ice_check_connects toy_hmac (fun _ _ => eq_refl) toy_rng toy_rng toy_a toy_b 1 toy_pair
    (toy_addr x01 4000) (toy_addr x03 4000)) as (req & resp & H1 & (H2 & _) & (H3 & _)).
  1-7: vm_compute; reflexivity.
  - vm_compute. reflexivity.
  - vm_compute. split; [discriminate|reflexivity].
  - split; [vm_compute; split; [discriminate|reflexivity]|reflexivity].
  - intros H. vm_compute in H. discriminate H.
  - intros [|[|j]] q Hq Hs; vm_compute in Hq; try discriminate Hq; injection Hq as <-; vm_compute in Hs;
      [|discriminate Hs]. vm_compute. discriminate.
  - exists req, resp. split_and!; [exact H1|exact H2|exact H3].
Defined.

Lemma ice_stranger_nominates_witness :
  i_state toy_b = WaitingRemote /\
  i_state (on_recv toy_hmac toy_rng (toy_addr x09 5000) (bare_request (replicate 12 x00)) toy_b) = Connected.
Proof.
  split; [vm_compute; reflexivity|].
  apply (ice_stranger_nominates toy_hmac (fun _ _ => eq_refl) toy_rng toy_b (toy_addr x09 5000) (replicate 12 x00));
    [vm_compute; reflexivity..| |reflexivity].
  split; [const_fits|reflexivity].
Defined.

(** A session closed while it gathers asks the next STUN server and, when that fails, invokes
    the gathered callback all the same. *)
Lemma closed_session_gathers :
  let cfg := mk_ice_config [mk_server [] 1; mk_server [] 2] 10 20 3 in
  let s0 := run_ice toy_hmac toy_rng [OpGather (fun _ => None) 4000] (ice_init [] true cfg (toy_creds x61) 1) in
  let s1 := run_ice toy_hmac toy_rng [OpIceClose] s0 in
  let s2 := run_ice toy_hmac toy_rng [OpStunTimer; OpStunTimer; OpStunTimer] s1 in
  (i_closed s1 = true /\ length (sc_sent (i_stun_client s1)) = S (length (sc_sent (i_stun_client s0)))) /\
  i_out s1 = [] /\ i_out s2 = [EvGathered].
Proof. vm_compute. split_and!; reflexivity. Qed.

(** A session that timed out connects when the answer comes late. *)
Lemma failed_session_connects :
  let resp := build_check_response toy_hmac (replicate 11 x00 ++ [x01]) (toy_addr x01 4000) (replicate 24 x62) in
  let s1 := run_ice toy_hmac toy_rng [OpTimeoutTimer] toy_a in
  let s2 := run_ice toy_hmac toy_rng [OpRecv (toy_addr x02 4000) (default [] resp)] s1 in
  i_state s1 = Failed /\ i_state s2 = Connected.
Proof. vm_compute. split; reflexivity. Qed.
