(* ===== verification/IceConnector.v ===== *)
(** * ICE connector ([plugins/connectors/ice/ice.cpp])

    The plugin around the sessions: its settings, the table of sessions by peer key, the
    signals it exchanges through the core, and what sessions report to the core.  Sessions
    are shared objects that outlive their entry in the table, so the model keeps a heap of
    them and the table holds indices.  The core's answers ([find_conn_by_pubkey],
    [add_transport], [on_connect]) are inputs; what the connector asks of the core is its list
    of outputs.  The tasks posted to the [io_context] run one at a time. *)

From Stdlib Require Import ZArith Strings.Byte String Lia.
From stdpp Require Import base gmap list strings numbers countable.
From S2P Require Import Prelude Codec Wire Stun Candidate IceSession.

Local Open Scope Z_scope.

(** ** Settings *)

(** [std::atoi]: white space, a sign, digits; beyond the range of [int] C leaves the result
    undefined, here it is the number written. *)
Fixpoint digits_value (acc : Z) (s : bytes) : Z :=
  match s with
  | [] => acc
  | b :: s => if (48 <=? b2z b) && (b2z b <=? 57) then digits_value (10 * acc + (b2z b - 48)) s else acc
  end.

Fixpoint skip_space (s : bytes) : bytes :=
  match s with
  | b :: s' => if (b2z b =? 32) || ((9 <=? b2z b) && (b2z b <=? 13)) then skip_space s' else s
  | [] => []
  end.

Definition atoi (s : bytes) : Z :=
  match skip_space s with
  | x2d :: s => - digits_value 0 s
  | x2b :: s => digits_value 0 s
  | s => digits_value 0 s
  end.

Fixpoint trim_front (s : bytes) : bytes :=
  match s with x20 :: s => trim_front s | _ => s end.
Definition trim_back (s : bytes) : bytes := rev (trim_front (rev s)).
Definition trim (s : bytes) : bytes := trim_back (trim_front s).

(** The pieces between commas. *)
Fixpoint csv (acc : bytes) (s : bytes) : list bytes :=
  match s with
  | [] => [rev acc]
  | x2c :: s => rev acc :: csv [] s
  | b :: s => csv (b :: acc) s
  end.

Definition DEFAULT_STUN_PORT : Z := 19302.

Definition valid_port (p : Z) : bool := (0 <? p) && (p <=? 65535).

Definition parse_stun_entry (entry : bytes) : StunServer :=
  match str_rfind x3a entry with
  | Some colon =>
      let p := atoi (drop (S colon) entry) in
      mk_server (take colon entry) (if valid_port p then p else DEFAULT_STUN_PORT)
  | None => mk_server entry DEFAULT_STUN_PORT
  end.

Definition parse_stun_servers (val : bytes) : list StunServer :=
  map parse_stun_entry (base.filter (fun e => e <> []) (map trim (csv [] val))).

Definition default_config : IceConfig :=
  mk_ice_config
    [mk_server (str_bytes "stun.l.google.com") 19302; mk_server (str_bytes "stun1.l.google.com") 19302;
     mk_server (str_bytes "stun2.l.google.com") 19302] 10 20 3.

(** A positive setting replaces the default. *)
Definition int_setting (v : bytes) (dflt : Z) : Z :=
  if bool_decide (v = []) then dflt else if 0 <? atoi v then atoi v else dflt.

(** The part of [on_init] that reads settings: [config_get] and [std::getenv] are inputs. *)
Definition read_config (config_get : string -> bytes) (getenv : string -> option bytes) : IceConfig :=
  let v := config_get "ice.stun_servers" in
  let servers :=
    if bool_decide (v = []) then
      match getenv "GOODNET_STUN_SERVER" with
      | Some host =>
          let port := match getenv "GOODNET_STUN_PORT" with
                      | Some p => if valid_port (atoi p) then atoi p else DEFAULT_STUN_PORT
                      | None => DEFAULT_STUN_PORT
                      end in
          [mk_server host port]
      | None => stun_servers default_config
      end
    else parse_stun_servers v in
  mk_ice_config servers
    (int_setting (config_get "ice.session_timeout") (session_timeout default_config))
    (int_setting (config_get "ice.keepalive_interval") (keepalive_interval default_config))
    (int_setting (config_get "ice.consent_failures") (consent_max_failures default_config)).

(** ** State *)

Inductive IceSignalKind := OFFER | ANSWER.

(** What the connector asks of the core.  Registrations and data carry the session object [k]
    they are made for, registrations the connection id the core answered. *)
Inductive core_req :=
  | ReqSendResponse (conn : Z) (type : Z) (payload : bytes)
  | ReqSendUri (uri : bytes) (type : Z) (payload : bytes)
  | ReqAddTransport (k : nat) (peer : bytes) (answer : Z)
  | ReqConnect (k : nat) (peer : bytes) (answer : Z)
  | ReqDisconnect (id : Z) (error : Z)
  | ReqData (k : nat) (id : Z) (data : bytes).

(** The core's answers during one task. *)
Record core_env := mk_env {
  find_conn : bytes -> Z;
  add_transport_path : bytes -> Z;
  notify_connect : bytes -> Z;
}.

Record IceConnector := mk_connector {
  ic_config : IceConfig;
  ic_sessions : gmap bytes nat;
  ic_heap : list IceSession;
  ic_reqs : list core_req;
}.

Definition EIO : Z := 5.

Definition connector_init (cfg : IceConfig) : IceConnector := mk_connector cfg ∅ [] [].

Definition set_sessions (m : gmap bytes nat) (c : IceConnector) : IceConnector :=
  mk_connector (ic_config c) m (ic_heap c) (ic_reqs c).
Definition set_heap (h : list IceSession) (c : IceConnector) : IceConnector :=
  mk_connector (ic_config c) (ic_sessions c) h (ic_reqs c).
Definition request (r : core_req) (c : IceConnector) : IceConnector :=
  mk_connector (ic_config c) (ic_sessions c) (ic_heap c) (ic_reqs c ++ [r]).

(** ** Signals *)

Definition kind_byte (k : IceSignalKind) : Z := match k with OFFER => 0 | ANSWER => 1 end.

(** The packet [send_signal] builds. *)
Definition signal_packet (kind : IceSignalKind) (signal_data : bytes) : bytes :=
  let data_len := u32 (Z.of_nat (length signal_data)) in
  cenc IceSignalPayload_codec (mk_IceSignalPayload (kind_byte kind) (replicate 3 x00) data_len)
  ++ take (Z.to_nat data_len) signal_data.

Definition send_signal (env : core_env) (peer_hex : bytes) (kind : IceSignalKind) (signal_data : bytes)
    (c : IceConnector) : IceConnector :=
  let pkt := signal_packet kind signal_data in
  let sig_conn := find_conn env peer_hex in
  if negb (sig_conn =? CONN_ID_INVALID) then request (ReqSendResponse sig_conn MSG_TYPE_ICE_SIGNAL pkt) c
  else request (ReqSendUri (str_bytes "ice://" ++ peer_hex) MSG_TYPE_ICE_SIGNAL pkt) c.

(** The checks of [on_ice_signal] and of the task it posts: whether it is an offer, the
    credentials and the candidates. *)
Definition parse_signal (pl : bytes) : option (bool * IceSignalData * list IceCandidateWire) :=
  if bool_decide (length pl < csize IceSignalPayload_codec)%nat then None
  else
    let h := cdec IceSignalPayload_codec pl in
    if Z.of_nat (length pl) <? Z.of_nat (csize IceSignalPayload_codec) + isp_sdp_len h then None
    else if isp_sdp_len h <? Z.of_nat (csize IceSignalData_codec) then None
    else
      let signal_buf := slice (csize IceSignalPayload_codec) (Z.to_nat (isp_sdp_len h)) pl in
      let sd := cdec IceSignalData_codec signal_buf in
      let expected := Z.of_nat (csize IceSignalData_codec)
                      + sd_candidate_count sd * Z.of_nat (csize IceCandidateWire_codec) in
      if Z.of_nat (length signal_buf) <? expected then None
      else Some (isp_kind h =? 0, sd,
                 dec_n IceCandidateWire_codec (Z.to_nat (sd_candidate_count sd))
                   (drop (csize IceSignalData_codec) signal_buf)).

(** ** Session callbacks *)

Definition on_session_gathered (env : core_env) (s : IceSession) (c : IceConnector) : IceConnector :=
  send_signal env (i_peer_hex s) (if i_controlling s then OFFER else ANSWER) (serialize_signal s) c.

Definition on_session_connected (env : core_env) (k : nat) (s : IceSession) (c : IceConnector) : IceConnector :=
  let '(cid, c) :=
    if negb (find_conn env (i_peer_hex s) =? CONN_ID_INVALID)
    then let id := add_transport_path env (i_peer_hex s) in (id, request (ReqAddTransport k (i_peer_hex s) id) c)
    else let id := notify_connect env (i_peer_hex s) in (id, request (ReqConnect k (i_peer_hex s) id) c) in
  if cid =? CONN_ID_INVALID then c
  else set_heap (<[k := set_i_conn_id cid s]> (ic_heap c)) c.

Definition on_session_failed (s : IceSession) (c : IceConnector) : IceConnector :=
  let c := if negb (i_conn_id s =? CONN_ID_INVALID) then request (ReqDisconnect (i_conn_id s) EIO) c else c in
  set_sessions (delete (i_peer_hex s) (ic_sessions c)) c.

Definition on_session_data (k : nat) (s : IceSession) (data : bytes) (c : IceConnector) : IceConnector :=
  if i_conn_id s =? CONN_ID_INVALID then c else request (ReqData k (i_conn_id s) data) c.

Definition on_session_event (env : core_env) (k : nat) (c : IceConnector) (e : ice_event) : IceConnector :=
  match ic_heap c !! k with
  | None => c
  | Some s =>
      match e with
      | EvGathered => on_session_gathered env s c
      | EvConnected => on_session_connected env k s c
      | EvFailed => on_session_failed s c
      | EvData data => on_session_data k s data c
      | EvSend _ _ | EvUB => c
      end
  end.

(** ** Operations *)

(** What a new session draws: credentials, tie-breaker, local address and port. *)
Record birth := mk_birth {
  b_creds : IceCredentials;
  b_tie : Z;
  b_probe : StunServer -> option ip_address;
  b_port : Z;
}.

Section connector.
Context (hmac_sha1 : bytes -> bytes -> bytes) (rng : nat -> nat -> draw).

(** An operation of session object [k], and then the callbacks it invoked. *)
Definition session_step (env : core_env) (k : nat) (op : ice_op) (c : IceConnector) : IceConnector :=
  match ic_heap c !! k with
  | None => c
  | Some s =>
      let s' := run_ice_op hmac_sha1 (rng k) s op in
      fold_left (on_session_event env k) (drop (length (i_out s)) (i_out s'))
        (set_heap (<[k := s']> (ic_heap c)) c)
  end.

Definition create_session (env : core_env) (b : birth) (peer : bytes) (controlling : bool) (c : IceConnector)
    : option nat * IceConnector :=
  if bool_decide (is_Some (ic_sessions c !! peer)) then (None, c)
  else
    let k := length (ic_heap c) in
    let s := ice_init peer controlling (ic_config c) (b_creds b) (b_tie b) in
    let c := set_sessions (<[peer := k]> (ic_sessions c)) (set_heap (ic_heap c ++ [s]) c) in
    (Some k, session_step env k (OpGather (b_probe b) (b_port b)) c).

(** The result of the call, and the task it posts. *)
Definition do_connect (env : core_env) (b : birth) (uri : bytes) (c : IceConnector) : Z * IceConnector :=
  let target := match str_find (str_bytes "://") uri with Some p => drop (p + 3) uri | None => uri end in
  if negb (bool_decide (length target = 64%nat)) then (-1, c)
  else (0, snd (create_session env b target true c)).

Definition by_peer (h : bytes) (c : IceConnector) : option nat := ic_sessions c !! h.

(** The first session in the table with that connection id, its key and object. *)
Definition by_conn (id : Z) (c : IceConnector) : option (bytes * nat) :=
  snd <$> list_find (fun '(_, k) => i_conn_id <$> ic_heap c !! k = Some id) (map_to_list (ic_sessions c)).

Definition do_send (env : core_env) (id : Z) (data : bytes) (c : IceConnector) : IceConnector :=
  match by_conn id c with
  | Some (_, k) =>
      match ic_heap c !! k with
      | Some s => if bool_decide (i_state s = Connected) then session_step env k (OpIceSend data) c else c
      | None => c
      end
  | None => c
  end.

Definition do_close (env : core_env) (id : Z) (c : IceConnector) : IceConnector :=
  match by_conn id c with
  | Some (peer, k) =>
      let c := request (ReqDisconnect id 0) (session_step env k OpIceClose c) in
      set_sessions (delete peer (ic_sessions c)) c
  | None => c
  end.

(** [pubkey] is that of the connection the signal came over. *)
Definition on_ice_signal (env : core_env) (b : birth) (pubkey pl : bytes) (c : IceConnector) : IceConnector :=
  match parse_signal pl with
  | None => c
  | Some (offer, sd, candidates) =>
      let peer := str_bytes (bytes_to_hex (take 32 pubkey)) in
      if offer : bool then
        match create_session env b peer false c with
        | (None, c) => c
        | (Some k, c) => session_step env k (OpSetRemote sd candidates) c
        end
      else
        match by_peer peer c with
        | None => c
        | Some k => session_step env k (OpSetRemote sd candidates) c
        end
  end.

Definition on_shutdown (env : core_env) (c : IceConnector) : IceConnector :=
  let c := fold_left (fun c '(_, k) => session_step env k OpIceClose c) (map_to_list (ic_sessions c)) c in
  set_sessions ∅ c.

Inductive connector_op :=
  | CoConnect (b : birth) (uri : bytes)
  | CoSignal (b : birth) (pubkey pl : bytes)
  | CoSend (id : Z) (data : bytes)
  | CoClose (id : Z)
  | CoSession (k : nat) (op : ice_op)
  | CoShutdown.

(** A task, with the core's answers to it. *)
Definition run_connector_op (c : IceConnector) (eop : core_env * connector_op) : IceConnector :=
  let '(env, op) := eop in
  match op with
  | CoConnect b uri => snd (do_connect env b uri c)
  | CoSignal b pubkey pl => on_ice_signal env b pubkey pl c
  | CoSend id data => do_send env id data c
  | CoClose id => do_close env id c
  | CoSession k op => session_step env k op c
  | CoShutdown => on_shutdown env c
  end.

Definition run_connector (ops : list (core_env * connector_op)) (c : IceConnector) : IceConnector :=
  fold_left run_connector_op ops c.
End connector.

(** ** What an operation of a session may change *)

(** The output only grows; the peer and the connection id stay. *)
Definition grows (s s' : IceSession) : Prop :=
  i_out s `prefix_of` i_out s' /\ i_peer_hex s' = i_peer_hex s /\ i_conn_id s' = i_conn_id s.

#[local] Instance grows_preorder : PreOrder grows.
Proof.
  split; [by intros s; split|]. intros s1 s2 s3 (H1 & Hp1 & Hc1) (H2 & Hp2 & Hc2).
  split_and!; [by etrans|congruence..].
Qed.

Section grows.
Context (hmac_sha1 : bytes -> bytes -> bytes) (rng : nat -> draw).

Lemma emit_grows e s s' : grows s s' -> grows s (emit_ice e s').
Proof.
  intros (H & Hp & Hc). split_and!; [|done..]. simpl. by apply prefix_app_r.
Qed.

(** Through an argument that differs from the start in other fields only. *)
Ltac via L := etrans; [|apply L]; done.

Lemma send_keepalive_grows s : grows s (send_keepalive hmac_sha1 rng s).
Proof. unfold send_keepalive, next_draw, send_to. destruct (_ || _ || _); [done|]. simpl. by apply (emit_grows _ s). Qed.

Lemma nominate_grows i s : grows s (nominate hmac_sha1 rng i s).
Proof.
  unfold nominate. destruct (i_nominated s); [done|]. destruct (_ !! _); [|done]. apply emit_grows.
  unfold start_keepalive. via send_keepalive_grows.
Qed.

Lemma send_next_check_grows s : grows s (send_next_check hmac_sha1 rng s).
Proof.
  unfold send_next_check. destruct (_ || _); [done|]. destruct (find_waiting _ _) as [[[i p]|] idx].
  - assert (grows s (check_pair hmac_sha1 rng i p s)) as H by (unfold check_pair; by apply (emit_grows _ s)).
    destruct (_ && _ && _); [by apply (emit_grows _ s)|]. by destruct (any_state _ _).
  - destruct (_ && _ && _); [by apply (emit_grows _ s)|]. by destruct (any_state _ _).
Qed.

Lemma on_srflx_result_grows addr s : grows s (on_srflx_result hmac_sha1 rng addr s).
Proof.
  unfold on_srflx_result. set (s1 := match addr with Some _ => _ | None => s end).
  assert (grows s s1) as H1 by (unfold s1; by destruct addr).
  unfold gathering_complete. destruct (negb _); [done|]. apply emit_grows.
  destruct (bool_decide _); [done|]. etrans; [exact H1|]. unfold begin_checks.
  via send_next_check_grows.
Qed.

Lemma try_servers_grows fuel s : grows s (try_servers hmac_sha1 rng fuel s).
Proof.
  revert s. induction fuel as [|fuel IH]; intros s; simpl; case_bool_decide;
    try apply on_srflx_result_grows; [done|].
  destruct (drop _ _) as [|[? [a|]] ?]; [done| |].
  - via on_srflx_result_grows.
  - via IH.
Qed.

Lemma after_client_grows c s : grows s (after_client hmac_sha1 rng c s).
Proof.
  unfold after_client, try_next_stun_server.
  destruct (drop _ _) as [|[? [a|]] ?]; [done|via on_srflx_result_grows|via try_servers_grows].
Qed.

Lemma on_recv_grows from data s : grows s (on_recv hmac_sha1 rng from data s).
Proof.
  unfold on_recv. destruct (feed_client _ _) as [[] c]; [apply after_client_grows|].
  destruct (is_stun_packet data); [|destruct (_ && _); [by apply emit_grows|done]].
  unfold handle_stun_packet. destruct (bool_decide _); [done|]. destruct (_ =? _); [|destruct (_ =? _); [|done]].
  - unfold handle_stun_response. destruct (parse_binding_response data); [|done]. destruct (_ && _); [done|].
    destruct (list_find _ _) as [[i p]|]; [|done]. destruct (_ && _); [via nominate_grows|done].
  - unfold handle_stun_request. destruct (parse_binding_request _ _ _) as [[req|]|]; [|done|by apply emit_grows].
    set (s1 := send_to _ _ s). assert (grows s s1) as H1 by by apply emit_grows.
    destruct (_ && _ && _); [|done].
    destruct (list_find _ _) as [[i p]|]; (etrans; [exact H1|via nominate_grows]).
Qed.

Lemma run_ice_op_grows s op : grows s (run_ice_op hmac_sha1 rng s op).
Proof.
  destruct op; cbn [run_ice_op].
  - unfold gather. destruct (negb _); [done|]. unfold gather_srflx, start_recv_loop.
    destruct (_ || _); via try_servers_grows.
  - unfold set_remote. destruct (bool_decide _); [|done]. unfold begin_checks. via send_next_check_grows.
  - unfold start_checks. destruct (_ && _); [|done]. unfold begin_checks. via send_next_check_grows.
  - apply on_recv_grows.
  - unfold on_recv_error. by destruct aborted.
  - unfold on_check_timer. via send_next_check_grows.
  - unfold on_timeout_timer. destruct (_ && _); [by apply (emit_grows _ s)|done].
  - unfold on_keepalive_timer. destruct (_ <=? _); [by apply (emit_grows _ s)|]. via send_keepalive_grows.
  - unfold on_stun_timer, next_draw. via after_client_grows.
  - unfold ice_send. destruct (_ || _ || _); [done|]. by apply emit_grows.
  - unfold ice_close. destruct (i_closed s); [done|].
    etrans; [|apply (after_client_grows (cancel (i_stun_client s)) (set_i_closed true s))]. done.
Qed.
End grows.

(** ** The connector's invariant *)

(** The session, the peer and the answer of a registration. *)
Definition registration (r : core_req) : option (nat * bytes * Z) :=
  match r with ReqAddTransport k peer id | ReqConnect k peer id => Some (k, peer, id) | _ => None end.

Definition registers (k : nat) (r : core_req) : bool :=
  match registration r with Some (j, _, _) => bool_decide (j = k) | None => false end.

(** How often a session was registered. *)
Definition registrations (k : nat) (c : IceConnector) : nat := length (List.filter (registers k) (ic_reqs c)).

(** Every piece of data comes after a registration of its session that was answered with its
    connection id. *)
Definition data_registered (reqs : list core_req) : Prop :=
  forall before k id d after, reqs = before ++ ReqData k id d :: after ->
    id <> CONN_ID_INVALID /\ exists r peer, r ∈ before /\ registration r = Some (k, peer, id).

(** [owed]: connected callbacks of session [k] that are still to be processed. *)
Record conn_inv (k owed : nat) (c : IceConnector) : Prop := {
  ki_config : 0 < consent_max_failures (ic_config c);
  ki_table peer j : ic_sessions c !! peer = Some j -> exists s, ic_heap c !! j = Some s /\ i_peer_hex s = peer;
  ki_heap j s : ic_heap c !! j = Some s ->
    ice_inv s /\ (i_conn_id s <> CONN_ID_INVALID -> i_nominated s = true);
  ki_id j s : ic_heap c !! j = Some s -> i_conn_id s <> CONN_ID_INVALID ->
    exists r, r ∈ ic_reqs c /\ registration r = Some (j, i_peer_hex s, i_conn_id s);
  ki_regs r j peer id : r ∈ ic_reqs c -> registration r = Some (j, peer, id) ->
    exists s, ic_heap c !! j = Some s /\ i_peer_hex s = peer;
  ki_count j s : ic_heap c !! j = Some s ->
    (registrations j c + (if decide (j = k) then owed else 0) = Nat.b2n (i_nominated s))%nat;
  ki_data : data_registered (ic_reqs c);
}.

Lemma conn_inv_init cfg k : 0 < consent_max_failures cfg -> conn_inv k 0 (connector_init cfg).
Proof.
  intros H. split; simpl; try done; [intros ? ? ? ? H'%elem_of_nil; done|]. intros before j id d after Hr. by destruct before.
Qed.

(** When nothing is owed it does not matter to whom. *)
Lemma conn_inv_any k j c : conn_inv k 0 c -> conn_inv j 0 c.
Proof.
  intros []. split; try done. intros i s Hs. specialize (ki_count0 i s Hs). by destruct (decide (i = k)), (decide (i = j)).
Qed.

Lemma data_registered_snoc reqs x :
  data_registered reqs ->
  (forall k id d, x = ReqData k id d -> id <> CONN_ID_INVALID /\ exists r peer, r ∈ reqs /\ registration r = Some (k, peer, id)) ->
  data_registered (reqs ++ [x]).
Proof.
  intros H Hx before k id d after Heq. destruct after as [|y after _] using rev_ind.
  - apply app_inj_tail in Heq as [<- ->]. by apply (Hx k id d).
  - rewrite app_comm_cons, app_assoc in Heq. apply app_inj_tail in Heq as [-> _]. by apply (H before k id d after).
Qed.

(** A request that is not a registration. *)
Lemma request_keeps x k n c :
  conn_inv k n c -> registration x = None ->
  (forall j id d, x = ReqData j id d -> exists s, ic_heap c !! j = Some s /\ i_conn_id s = id /\ id <> CONN_ID_INVALID) ->
  conn_inv k n (request x c).
Proof.
  intros [] Hx Hd. split; simpl; try done.
  - intros j s Hs Hne. destruct (ki_id0 j s Hs Hne) as (r & Hr & He). exists r. split; [|done]. apply elem_of_app. by left.
  - intros r j peer id [?|Hr%list_elem_of_singleton]%elem_of_app; [eauto|congruence].
  - intros j s Hs. unfold registrations, registers in *. simpl. rewrite List.filter_app, length_app. simpl. rewrite Hx. simpl.
    specialize (ki_count0 j s Hs). lia.
  - apply data_registered_snoc; [done|]. intros j id d ->. destruct (Hd j id d eq_refl) as (s & Hs & <- & Hne).
    split; [done|]. destruct (ki_id0 j s Hs Hne) as (r & Hr & He). by exists r, (i_peer_hex s).
Qed.

(** The registration of a session that owes one. *)
Lemma registration_keeps x k n c s id :
  conn_inv k (S n) c -> ic_heap c !! k = Some s -> registration x = Some (k, i_peer_hex s, id) -> conn_inv k n (request x c).
Proof.
  intros [] Hs Hx. split; simpl; try done.
  - intros j s' Hs' Hne. destruct (ki_id0 j s' Hs' Hne) as (r & Hr & He). exists r. split; [|done]. apply elem_of_app. by left.
  - intros r j peer id' [?|Hr%list_elem_of_singleton]%elem_of_app; [eauto|]. rewrite Hr, Hx. intros [= <- <- _]. by exists s.
  - intros j s' Hs'. specialize (ki_count0 j s' Hs'). unfold registrations in *. simpl. rewrite List.filter_app, length_app. simpl.
    unfold registers at 2. rewrite Hx. destruct (decide (j = k)) as [->|Hne]; [rewrite bool_decide_true by done|rewrite bool_decide_false by congruence]; simpl; lia.
  - apply data_registered_snoc; [done|]. by intros j id' d ->.
Qed.

Lemma delete_keeps p k n c : conn_inv k n c -> conn_inv k n (set_sessions (delete p (ic_sessions c)) c).
Proof.
  intros []. split; simpl; try done. intros peer j [_ H]%lookup_delete_Some. eauto.
Qed.

(** Replacing session [k] by a later state of it. *)
Lemma replace_keeps k s s' n c :
  conn_inv k n c -> ic_heap c !! k = Some s -> i_peer_hex s' = i_peer_hex s -> ice_inv s' ->
  (i_conn_id s' <> CONN_ID_INVALID ->
     i_nominated s' = true /\ exists r, r ∈ ic_reqs c /\ registration r = Some (k, i_peer_hex s, i_conn_id s')) ->
  (i_nominated s = true -> i_nominated s' = true) ->
  conn_inv k (n + if i_nominated s' then (if i_nominated s then 0 else 1) else 0)
    (set_heap (<[k := s']> (ic_heap c)) c).
Proof.
  intros [] Hs Hp Hi Hid Hn. pose proof (lookup_lt_Some _ _ _ Hs) as Hlt. split; simpl; try done.
  - intros peer j Hj. destruct (ki_table0 peer j Hj) as (x & Hx & Hxp). destruct (decide (j = k)) as [->|Hne].
    + exists s'. rewrite list_lookup_insert_eq by done. split; [done|]. congruence.
    + exists x. by rewrite list_lookup_insert_ne.
  - intros j x. destruct (decide (j = k)) as [->|Hne].
    + rewrite list_lookup_insert_eq by done. intros [= <-]. split; [done|]. intros H. by apply Hid.
    + rewrite list_lookup_insert_ne by done. eauto.
  - intros j x. destruct (decide (j = k)) as [->|Hne].
    + rewrite list_lookup_insert_eq by done. intros [= <-] H. rewrite Hp. by apply Hid.
    + rewrite list_lookup_insert_ne by done. eauto.
  - intros r j peer id Hr He. destruct (ki_regs0 r j peer id Hr He) as (x & Hx & Hxp). destruct (decide (j = k)) as [->|Hne].
    + exists s'. rewrite list_lookup_insert_eq by done. split; [done|]. congruence.
    + exists x. by rewrite list_lookup_insert_ne.
  - intros j x. destruct (decide (j = k)) as [->|Hne].
    + rewrite list_lookup_insert_eq by done. intros [= <-]. specialize (ki_count0 k s Hs). rewrite decide_True in ki_count0 by done.
      unfold registrations in *. simpl. destruct (i_nominated s'), (i_nominated s); simpl in *; try lia; by specialize (Hn eq_refl).
    + rewrite list_lookup_insert_ne by done. intros Hx. specialize (ki_count0 j x Hx). by rewrite decide_False in ki_count0.
Qed.

(** The connected callback of session [k]: the registration, and its answer. *)
Lemma connected_keeps env k n c s :
  conn_inv k (S n) c -> ic_heap c !! k = Some s -> i_nominated s = true ->
  conn_inv k n (on_session_connected env k s c) /\
  exists s', ic_heap (on_session_connected env k s c) !! k = Some s' /\ i_nominated s' = i_nominated s.
Proof.
  intros H Hs Hn. unfold on_session_connected.
  assert (forall r id, registration r = Some (k, i_peer_hex s, id) ->
    let c' := if id =? CONN_ID_INVALID then request r c
              else set_heap (<[k:=set_i_conn_id id s]> (ic_heap (request r c))) (request r c) in
    conn_inv k n c' /\ exists s', ic_heap c' !! k = Some s' /\ i_nominated s' = i_nominated s) as Hreg.
  { intros r id Hr c'. pose proof (registration_keeps r k n c s id H Hs Hr) as H1. unfold c'.
    destruct (id =? CONN_ID_INVALID); [split; [done|by exists s]|]. split.
    - pose proof (replace_keeps k s (set_i_conn_id id s) n _ H1 Hs) as H2. simpl in H2. rewrite Hn, Nat.add_0_r in H2.
      apply H2; try done; [by apply (ki_heap _ _ _ H k s)|]. intros _. split; [done|]. exists r.
      split; [|done]. apply elem_of_app. right. by apply list_elem_of_singleton.
    - exists (set_i_conn_id id s). split; [|done]. simpl. apply list_lookup_insert_eq. by eapply lookup_lt_Some. }
  destruct (negb _); by apply Hreg.
Qed.

Lemma event_keeps env k e n c s :
  conn_inv k (n + if is_connected_ev e then 1 else 0) c -> ic_heap c !! k = Some s ->
  (is_connected_ev e = true -> i_nominated s = true) ->
  conn_inv k n (on_session_event env k c e) /\
  exists s', ic_heap (on_session_event env k c e) !! k = Some s' /\ i_nominated s' = i_nominated s.
Proof.
  intros H Hs Hc. unfold on_session_event. rewrite Hs.
  destruct e; cbn [is_connected_ev] in *; rewrite ?Nat.add_0_r in H; try (split; [done|by exists s]).
  - unfold on_session_gathered, send_signal. destruct (negb _); (split; [by apply request_keeps|by exists s]).
  - rewrite Nat.add_1_r in H. by apply connected_keeps; [..|apply Hc].
  - unfold on_session_failed. destruct (negb _); (split; [|by exists s]); apply delete_keeps; try done.
    by apply request_keeps.
  - unfold on_session_data. destruct (Z.eqb_spec (i_conn_id s) CONN_ID_INVALID); (split; [|by exists s]); try done.
    apply request_keeps; [done..|]. intros ? ? ? [= <- <- _]. by exists s.
Qed.

Lemma events_keep env k evs n c s :
  conn_inv k (n + count is_connected_ev evs) c -> ic_heap c !! k = Some s ->
  ((0 < count is_connected_ev evs)%nat -> i_nominated s = true) ->
  conn_inv k n (fold_left (on_session_event env k) evs c).
Proof.
  revert c s. induction evs as [|e evs IH]; intros c s H Hs Hc; simpl.
  - unfold count in H. simpl in H. by rewrite Nat.add_0_r in H.
  - assert (count is_connected_ev (e :: evs) = (if is_connected_ev e then 1 else 0) + count is_connected_ev evs)%nat as He.
    { unfold count. simpl. by destruct (is_connected_ev e). }
    rewrite He in H, Hc.
    destruct (event_keeps env k e (n + count is_connected_ev evs) c s) as [H1 (s' & Hs' & Hn')].
    { by replace (n + count is_connected_ev evs + (if is_connected_ev e then 1 else 0))%nat
        with (n + ((if is_connected_ev e then 1 else 0) + count is_connected_ev evs))%nat by lia. }
    { done. }
    { intros Hce. apply Hc. rewrite Hce. lia. }
    apply (IH _ s'); [done..|]. rewrite Hn'. intros Hpos. apply Hc. lia.
Qed.

Section connector_inv.
Context (hmac_sha1 : bytes -> bytes -> bytes) (rng : nat -> nat -> draw).

Lemma count_prefix f l k :
  l `prefix_of` k -> count f k = (count f l + count f (drop (length l) k))%nat.
Proof. intros [x ->]. by rewrite drop_app_length, count_app. Qed.

Lemma session_step_keeps env k op c : conn_inv 0 0 c -> conn_inv 0 0 (session_step hmac_sha1 rng env k op c).
Proof.
  intros H%(conn_inv_any 0 k). apply (conn_inv_any k). unfold session_step. destruct (ic_heap c !! k) as [s|] eqn:Hs; [|done].
  destruct (ki_heap _ _ _ H k s Hs) as [Hi Hid].
  destruct (run_ice_op_keeps hmac_sha1 (rng k) s op Hi) as [Hi' _].
  destruct (run_ice_op_grows hmac_sha1 (rng k) s op) as (Hpre & Hp & Hc).
  set (s' := run_ice_op _ _ s op) in *.
  pose proof (ci_once _ _ _ _ _ _ _ _ _ _ Hi) as Ho. pose proof (ci_once _ _ _ _ _ _ _ _ _ _ Hi') as Ho'.
  rewrite (count_prefix _ _ _ Hpre), Ho in Ho'.
  assert (i_nominated s = true -> i_nominated s' = true) as Hn.
  { intros Hn. rewrite Hn in Ho'. destruct (i_nominated s'); [done|simpl in Ho'; lia]. }
  apply (events_keep env k _ 0 _ s').
  - pose proof (replace_keeps k s s' 0 c H Hs Hp Hi') as H2. rewrite Hc in H2. simpl in *.
    match goal with |- conn_inv _ ?m _ => replace m with (if i_nominated s' then if i_nominated s then 0 else 1 else 0)%nat end.
    + apply H2; [|done]. intros Hne. split; [by auto|by apply (ki_id _ _ _ H)].
    + destruct (i_nominated s'), (i_nominated s); lia.
  - simpl. apply list_lookup_insert_eq. by eapply lookup_lt_Some.
  - intros Hpos. destruct (i_nominated s'); [done|]. destruct (i_nominated s); lia.
Qed.

(** A new session has not been registered. *)
Lemma no_registration k n c : conn_inv k n c -> registrations (length (ic_heap c)) c = 0%nat.
Proof.
  intros H. unfold registrations. destruct (List.filter _ _) as [|x l] eqn:Hf; [done|].
  assert (In x (List.filter (registers (length (ic_heap c))) (ic_reqs c))) as [Hx Hr]%filter_In by (rewrite Hf; by left).
  unfold registers in Hr. destruct (registration x) as [[[j peer] id]|] eqn:He; [|done].
  apply bool_decide_eq_true in Hr as ->. apply list_elem_of_In in Hx.
  destruct (ki_regs _ _ _ H x _ _ _ Hx He) as (s & Hs & _). apply lookup_lt_Some in Hs. lia.
Qed.

Lemma create_session_keeps env b peer ctl c :
  conn_inv 0 0 c -> conn_inv 0 0 (create_session hmac_sha1 rng env b peer ctl c).2.
Proof.
  intros H. unfold create_session. case_bool_decide; [done|]. simpl. apply session_step_keeps.
  pose proof (no_registration _ _ _ H) as Hnew. destruct H. set (s0 := ice_init _ _ _ _ _).
  assert (forall j x, (ic_heap c ++ [s0]) !! j = Some x -> ic_heap c !! j = Some x \/ j = length (ic_heap c) /\ x = s0) as Hlook.
  { intros j x [Hj|[Hge Hj]]%lookup_app_Some; [by left|]. apply list_lookup_singleton_Some in Hj as [Hj <-]. right. split; [lia|done]. }
  split; simpl; try done.
  - intros p k [[<- <-]|[Hne Hk]]%lookup_insert_Some.
    + exists s0. by rewrite lookup_app_r, Nat.sub_diag.
    + destruct (ki_table0 p k Hk) as (x & Hx & Hxp). exists x. by rewrite lookup_app_l_Some with (x := x).
  - intros k s [Hk|[_ ->]]%Hlook; [by apply (ki_heap0 k)|]. split; [by apply inv_init|done].
  - intros k s [Hk|[_ ->]]%Hlook; [by apply ki_id0|done].
  - intros r j p id Hr He. destruct (ki_regs0 r j p id Hr He) as (x & Hx & Hxp). exists x. by rewrite lookup_app_l_Some with (x := x).
  - intros k s [Hk|[-> ->]]%Hlook; [by apply ki_count0|]. unfold registrations in *. simpl. rewrite Hnew. by destruct (decide _).
Qed.

Lemma sessions_sub (c : IceConnector) : conn_inv 0 0 c -> conn_inv 0 0 (set_sessions ∅ c).
Proof. intros []. split; simpl; try done. Qed.

Lemma run_connector_op_keeps c eop : conn_inv 0 0 c -> conn_inv 0 0 (run_connector_op hmac_sha1 rng c eop).
Proof.
  intros H. destruct eop as [env []]; cbn [run_connector_op].
  - unfold do_connect. destruct (negb _); [done|]. by apply create_session_keeps.
  - unfold on_ice_signal. destruct (parse_signal pl) as [[[[] sd] cs]|]; [|by destruct (by_peer _ _); [apply session_step_keeps|]|done].
    pose proof (create_session_keeps env b (str_bytes (bytes_to_hex (take 32 pubkey))) false c H) as H1.
    destruct (create_session _ _ _ _ _ _ _) as [[k|] c']; [|done]. by apply session_step_keeps.
  - unfold do_send. destruct (by_conn id c) as [[p k]|]; [|done]. destruct (ic_heap c !! k); [|done].
    case_bool_decide; [|done]. by apply session_step_keeps.
  - unfold do_close. destruct (by_conn id c) as [[p k]|]; [|done].
    by apply delete_keeps, request_keeps; [apply session_step_keeps|..].
  - by apply session_step_keeps.
  - unfold on_shutdown. apply sessions_sub. clear -H. generalize (map_to_list (ic_sessions c)). intros l.
    revert c H. induction l as [|[p k] l IH]; intros c H; [done|]. by apply IH, session_step_keeps.
Qed.

Lemma run_connector_keeps ops c : conn_inv 0 0 c -> conn_inv 0 0 (run_connector hmac_sha1 rng ops c).
Proof. revert c. induction ops as [|op ops IH]; intros c H; [done|]. by apply IH, run_connector_op_keeps. Qed.
End connector_inv.

Lemma int_setting_positive v d : 0 < d -> 0 < int_setting v d.
Proof. intros Hd. unfold int_setting. case_bool_decide; [done|]. by destruct (Z.ltb_spec 0 (atoi v)). Qed.


(** ** Signals *)

(** Credentials and candidates a session sends. *)
Definition signal_ok (s : IceSession) : Prop :=
  (length (ufrag (i_local_creds s)) <= 16)%nat /\ (length (pwd (i_local_creds s)) <= 24)%nat /\
  (x00 ∉ ufrag (i_local_creds s)) /\ (x00 ∉ pwd (i_local_creds s)) /\
  Forall cand_ok (i_local_candidates s) /\ Z.of_nat (length (i_local_candidates s)) < 2 ^ 16.

Lemma until_nul_fixed n v : (length v <= n)%nat -> x00 ∉ v -> until_nul (fixed_chars n v) = v.
Proof.
  intros Hl Hv. unfold fixed_chars. rewrite take_ge by done.
  destruct (n - length v)%nat; simpl; [by rewrite app_nil_r, until_nul_id|by apply until_nul_app_nul].
Qed.

Lemma length_fixed n v : length (fixed_chars n v) = n.
Proof. unfold fixed_chars. rewrite length_app, length_take, length_replicate. lia. Qed.

Lemma dec_candidates l :
  Forall cand_ok l ->
  map wire_to_candidate (dec_n IceCandidateWire_codec (length l)
    (concat (map (fun c => cenc IceCandidateWire_codec (candidate_to_wire c)) l))) = l /\
  length (concat (map (fun c => cenc IceCandidateWire_codec (candidate_to_wire c)) l)) = (24 * length l)%nat.
Proof.
  induction 1 as [|c l Hc Hl [IH1 IH2]]; [done|].
  pose proof (candidate_wire_wf c Hc) as Hwf.
  pose proof (cenc_length (c := IceCandidateWire_codec) _ Hwf) as Hlen.
  cbn [map concat length dec_n]. rewrite cdec_enc by done. rewrite drop_app_length' by done.
  rewrite wire_candidate_roundtrip, IH1, length_app, IH2, Hlen by done. split; [done|].
  change (csize IceCandidateWire_codec) with 24%nat. lia.
Qed.

Lemma begin_checks_remote hmac rng s :
  i_remote_creds (begin_checks hmac rng s) = i_remote_creds s /\
  i_remote_candidates (begin_checks hmac rng s) = i_remote_candidates s.
Proof.
  unfold begin_checks, send_next_check. destruct (_ || _); [done|].
  destruct (find_waiting _ _) as [[[i p]|] idx]; simpl;
    repeat match goal with |- context [if ?b then _ else _] => destruct b end; done.
Qed.

Lemma serialize_signal_parses s kind :
  signal_ok s ->
  exists sd cands,
    parse_signal (signal_packet kind (serialize_signal s)) =
      Some (match kind with OFFER => true | ANSWER => false end, sd, cands) /\
    mk_creds (until_nul (sd_ufrag sd)) (until_nul (sd_pwd sd)) = i_local_creds s /\
    map wire_to_candidate cands = i_local_candidates s.
Proof.
  intros (Hu & Hp & Hun & Hpn & Hc & Hn). set (n := length (i_local_candidates s)) in *.
  destruct (dec_candidates _ Hc) as [Hdec Hlen]. fold n in Hdec, Hlen.
  unfold serialize_signal. set (cbytes := concat _) in *. fold n.
  set (sd := mk_signal _ _ _ 0).
  assert (cwf IceSignalData_codec sd) as Hsd.
  { cbn. rewrite !length_fixed. split_and!; [done..|apply wrap_fits; lia|unfold fits; lia]. }
  pose proof (cenc_length (c := IceSignalData_codec) sd Hsd) as Hsl. change (csize _) with 44%nat in Hsl.
  assert (length (cenc IceSignalData_codec sd ++ cbytes) = 44 + 24 * n)%nat as Htot by (rewrite length_app; lia).
  unfold signal_packet. rewrite Htot. rewrite (wrap_small 32) by (unfold fits; lia).
  rewrite take_ge by lia. set (h := mk_IceSignalPayload _ _ _).
  assert (cwf IceSignalPayload_codec h) as Hh.
  { cbn. split_and!; [destruct kind; unfold fits; simpl; lia|done|unfold fits; lia]. }
  pose proof (cenc_length (c := IceSignalPayload_codec) h Hh) as Hhl. change (csize _) with 8%nat in Hhl.
  exists sd, (dec_n IceCandidateWire_codec n cbytes). split_and!.
  - unfold parse_signal. change (csize IceSignalPayload_codec) with 8%nat. change (csize IceSignalData_codec) with 44%nat.
    rewrite length_app, Htot, Hhl. rewrite bool_decide_false by lia. rewrite cdec_enc by done.
    change (isp_sdp_len h) with (Z.of_nat (44 + 24 * n)).
    rewrite (proj2 (Z.ltb_ge _ _)) by lia. rewrite (proj2 (Z.ltb_ge _ _)) by lia.
    rewrite Nat2Z.id, (slice_app_skip 8 _ _ _ 8) by done. rewrite Nat.sub_diag, slice_exact by done.
    rewrite cdec_enc by done. change (csize IceCandidateWire_codec) with 24%nat.
    assert (sd_candidate_count sd = Z.of_nat n) as -> by (apply (wrap_small 16); unfold fits; lia).
    rewrite Htot. rewrite (proj2 (Z.ltb_ge _ _)) by lia. rewrite Nat2Z.id, drop_app_length' by done.
    by destruct kind.
  - unfold sd. simpl. rewrite !until_nul_fixed by done. by destruct (i_local_creds s).
  - exact Hdec.
Qed.

(** C38: The signal a session sends when it has gathered is accepted by the peer's connector
    as an offer or an answer, and gives the peer's session exactly the credentials and the
    candidates of the sender, in order. *)
Theorem ice_signal_roundtrip hmac rng s kind r :
  signal_ok s ->
  exists sd cands,
    parse_signal (signal_packet kind (serialize_signal s)) =
      Some (match kind with OFFER => true | ANSWER => false end, sd, cands) /\
    i_remote_creds (set_remote hmac rng sd cands r) = i_local_creds s /\
    i_remote_candidates (set_remote hmac rng sd cands r) = i_local_candidates s.
Proof.
  intros (sd & cands & Hp & Hcr & Hca)%(serialize_signal_parses s kind). exists sd, cands.
  split; [done|]. unfold set_remote. rewrite Hcr, Hca.
  case_bool_decide; [|done]. apply begin_checks_remote.
Qed.

(** Random credentials may be sent. *)
Lemma generated_creds rnd1 rnd2 :
  let c := generate_credentials rnd1 rnd2 in
  (length (ufrag c) <= 16)%nat /\ (length (pwd c) <= 24)%nat /\ (x00 ∉ ufrag c) /\ (x00 ∉ pwd c).
Proof.
  assert (forall n rnd, (length (random_alphanumeric n rnd) <= n)%nat /\ (x00 ∉ random_alphanumeric n rnd)) as H.
  { intros n rnd. unfold random_alphanumeric. split; [rewrite length_map, length_take; lia|].
    rewrite list_elem_of_In, in_map_iff. intros (b & Hb & _).
    pose proof (Z.mod_pos_bound (b2z b) (Z.of_nat (length alnum)) ltac:(vm_compute; done)) as Hm.
    assert (In (nth (Z.to_nat (b2z b mod Z.of_nat (length alnum))) alnum x00) alnum) as Hin by (apply nth_In; lia).
    rewrite Hb in Hin. vm_compute in Hin. repeat (destruct Hin as [Hin|Hin]; [discriminate Hin|]). done. }
  cbv zeta. unfold generate_credentials. cbn [ufrag pwd]. pose proof (H 16%nat rnd1). pose proof (H 24%nat rnd2). tauto.
Qed.

(** ** Witness *)

Definition toy_sender : IceSession :=
  set_i_local_candidates [mk_cand Host (mk_addr (V4 [x0a; x00; x00; x01]) 4000) 7 1]
    (ice_init [] true default_config (generate_credentials (replicate 64 x00) (replicate 64 x07)) 1).

Lemma ice_signal_roundtrip_witness :
  exists sd cands,
    parse_signal (signal_packet OFFER (serialize_signal toy_sender)) = Some (true, sd, cands) /\
    i_remote_candidates (set_remote toy_hmac (fun _ => mk_draw [] true true) sd cands toy_sender) =
      i_local_candidates toy_sender.
Proof.
  destruct (ice_signal_roundtrip toy_hmac (fun _ => mk_draw [] true true) toy_sender OFFER toy_sender)
    as (sd & cands & H1 & _ & H2).
  - destruct (generated_creds (replicate 64 x00) (replicate 64 x07)) as (? & ? & ? & ?).
    split_and!; try done. constructor; [|constructor]. split_and!; try (unfold fits; simpl; lia); done.
  - exists sd, cands. split; [exact H1|exact H2].
Defined.

(** The servers of a configured list. *)
Example parse_stun_servers_ex :
  parse_stun_servers (str_bytes " a.example:3478, b.example ,,[::1]:70000") =
  [mk_server (str_bytes "a.example") 3478; mk_server (str_bytes "b.example") 19302;
   mk_server (str_bytes "[::1]") 19302].
Proof. vm_compute. reflexivity. Qed.
