(* ===== verification/Config.v ===== *)
(** * Configuration ([include/config.hpp], [src/config.cpp])

    The typed settings, their JSON form and the flat key access that plugins use.  The JSON
    library is a parameter ([parse], [dump]) on a syntax tree of JSON values; an object is a
    [std::map], so its members are in key order.  Files are a map from paths to contents.
    The last part follows a setting from the configuration into the ICE connector. *)

From Stdlib Require Import ZArith Strings.Byte String Ascii Lia.
From stdpp Require Import base gmap list strings numbers pretty.
From S2P Require Import Prelude Codec Wire Stun Candidate IceSession IceConnector.

Local Open Scope Z_scope.
Local Open Scope string_scope.

(** ** Sections *)

Record CoreCfg := mk_core_cfg {
  co_listen_address : string;
  co_listen_port : Z;
  co_io_threads : Z;
  co_max_connections : Z;
}.

Record LogCfg := mk_log_cfg {
  lo_level : string;
  lo_file : string;
  lo_max_size : Z;
  lo_max_files : Z;
}.

Record SecurityCfg := mk_security_cfg {
  se_key_exchange_timeout : Z;
  se_max_auth_attempts : Z;
  se_session_timeout : Z;
}.

Record CompressionCfg := mk_compression_cfg {
  cz_enabled : bool;
  cz_threshold : Z;
  cz_level : Z;
}.

Record PluginsCfg := mk_plugins_cfg {
  pl_base_dir : string;
  pl_auto_load : bool;
  pl_scan_interval : Z;
  pl_extra_dirs : string;
}.

Record IdentityCfg := mk_identity_cfg {
  id_dir : string;
  id_ssh_key_path : string;
  id_use_machine_id : bool;
  id_skip_ssh_fallback : bool;
}.

Record IceCfg := mk_ice_cfg {
  ic_stun_servers : string;
  ic_session_timeout : Z;
  ic_keepalive_interval : Z;
  ic_consent_max_failures : Z;
}.

Record Config := mk_config {
  cfg_core : CoreCfg;
  cfg_logging : LogCfg;
  cfg_security : SecurityCfg;
  cfg_compression : CompressionCfg;
  cfg_plugins : PluginsCfg;
  cfg_identity : IdentityCfg;
  cfg_ice : IceCfg;
  cfg_last_file : string;
}.

(** The member initialisers. *)
Definition config_defaults : Config :=
  mk_config
    (mk_core_cfg "0.0.0.0" 25565 0 1000)
    (mk_log_cfg "info" "" 10485760 5)
    (mk_security_cfg 30 3 3600)
    (mk_compression_cfg true 512 1)
    (mk_plugins_cfg "" true 300 "")
    (mk_identity_cfg "~/.goodnet" "" true false)
    (mk_ice_cfg "stun.l.google.com:19302,stun1.l.google.com:19302,stun2.l.google.com:19302"
       10 20 3)
    "".

(** ** JSON *)

Inductive json :=
  | JNull
  | JBool (b : bool)
  | JInt (v : Z)
  | JFloat (repr : string)
  | JString (s : string)
  | JArray (items : list json)
  | JObject (members : list (string * json)).

(** [contains] and [operator\[\]]; [contains] is false on a value that is no object. *)
Fixpoint assoc (k : string) (l : list (string * json)) : option json :=
  match l with
  | [] => None
  | (k', v) :: l => if String.eqb k' k then Some v else assoc k l
  end.

Definition member (j : json) (k : string) : option json :=
  match j with JObject l => assoc k l | _ => None end.

(** [if (c.contains(k) && c\[k\].is_T()) field = c\[k\];] for the three field types.  An
    integer is converted to [int] by [static_cast]. *)
Definition read_string (c : json) (k : string) (old : string) : string :=
  match member c k with Some (JString s) => s | _ => old end.
Definition read_int (c : json) (k : string) (old : Z) : Z :=
  match member c k with Some (JInt v) => i32 v | _ => old end.
Definition read_bool (c : json) (k : string) (old : bool) : bool :=
  match member c k with Some (JBool b) => b | _ => old end.

(** A section that is absent leaves its settings alone. *)
Definition read_section {A} (j : json) (k : string) (f : json -> A -> A) (old : A) : A :=
  match member j k with Some c => f c old | None => old end.

Definition read_core (c : json) (x : CoreCfg) : CoreCfg :=
  mk_core_cfg
    (read_string c "listen_address" (co_listen_address x))
    (read_int c "listen_port" (co_listen_port x))
    (read_int c "io_threads" (co_io_threads x))
    (read_int c "max_connections" (co_max_connections x)).

Definition read_logging (c : json) (x : LogCfg) : LogCfg :=
  mk_log_cfg
    (read_string c "level" (lo_level x))
    (read_string c "file" (lo_file x))
    (read_int c "max_size" (lo_max_size x))
    (read_int c "max_files" (lo_max_files x)).

Definition read_security (c : json) (x : SecurityCfg) : SecurityCfg :=
  mk_security_cfg
    (read_int c "key_exchange_timeout" (se_key_exchange_timeout x))
    (read_int c "max_auth_attempts" (se_max_auth_attempts x))
    (read_int c "session_timeout" (se_session_timeout x)).

Definition read_compression (c : json) (x : CompressionCfg) : CompressionCfg :=
  mk_compression_cfg
    (read_bool c "enabled" (cz_enabled x))
    (read_int c "threshold" (cz_threshold x))
    (read_int c "level" (cz_level x)).

Definition read_plugins (c : json) (x : PluginsCfg) : PluginsCfg :=
  mk_plugins_cfg
    (read_string c "base_dir" (pl_base_dir x))
    (read_bool c "auto_load" (pl_auto_load x))
    (read_int c "scan_interval" (pl_scan_interval x))
    (read_string c "extra_dirs" (pl_extra_dirs x)).

Definition read_identity (c : json) (x : IdentityCfg) : IdentityCfg :=
  mk_identity_cfg
    (read_string c "dir" (id_dir x))
    (read_string c "ssh_key_path" (id_ssh_key_path x))
    (read_bool c "use_machine_id" (id_use_machine_id x))
    (read_bool c "skip_ssh_fallback" (id_skip_ssh_fallback x)).

Definition read_ice (c : json) (x : IceCfg) : IceCfg :=
  mk_ice_cfg
    (read_string c "stun_servers" (ic_stun_servers x))
    (read_int c "session_timeout" (ic_session_timeout x))
    (read_int c "keepalive_interval" (ic_keepalive_interval x))
    (read_int c "consent_max_failures" (ic_consent_max_failures x)).

Definition apply_json (j : json) (x : Config) : Config :=
  mk_config
    (read_section j "core" read_core (cfg_core x))
    (read_section j "logging" read_logging (cfg_logging x))
    (read_section j "security" read_security (cfg_security x))
    (read_section j "compression" read_compression (cfg_compression x))
    (read_section j "plugins" read_plugins (cfg_plugins x))
    (read_section j "identity" read_identity (cfg_identity x))
    (read_section j "ice" read_ice (cfg_ice x))
    (cfg_last_file x).

(** The document [to_json] builds. *)
Definition json_core (x : CoreCfg) : json :=
  JObject
    [("io_threads", JInt (co_io_threads x));
     ("listen_address", JString (co_listen_address x));
     ("listen_port", JInt (co_listen_port x));
     ("max_connections", JInt (co_max_connections x))].

Definition json_logging (x : LogCfg) : json :=
  JObject
    [("file", JString (lo_file x));
     ("level", JString (lo_level x));
     ("max_files", JInt (lo_max_files x));
     ("max_size", JInt (lo_max_size x))].

Definition json_security (x : SecurityCfg) : json :=
  JObject
    [("key_exchange_timeout", JInt (se_key_exchange_timeout x));
     ("max_auth_attempts", JInt (se_max_auth_attempts x));
     ("session_timeout", JInt (se_session_timeout x))].

Definition json_compression (x : CompressionCfg) : json :=
  JObject
    [("enabled", JBool (cz_enabled x));
     ("level", JInt (cz_level x));
     ("threshold", JInt (cz_threshold x))].

Definition json_plugins (x : PluginsCfg) : json :=
  JObject
    [("auto_load", JBool (pl_auto_load x));
     ("base_dir", JString (pl_base_dir x));
     ("extra_dirs", JString (pl_extra_dirs x));
     ("scan_interval", JInt (pl_scan_interval x))].

Definition json_identity (x : IdentityCfg) : json :=
  JObject
    [("dir", JString (id_dir x));
     ("skip_ssh_fallback", JBool (id_skip_ssh_fallback x));
     ("ssh_key_path", JString (id_ssh_key_path x));
     ("use_machine_id", JBool (id_use_machine_id x))].

Definition json_ice (x : IceCfg) : json :=
  JObject
    [("consent_max_failures", JInt (ic_consent_max_failures x));
     ("keepalive_interval", JInt (ic_keepalive_interval x));
     ("session_timeout", JInt (ic_session_timeout x));
     ("stun_servers", JString (ic_stun_servers x))].

Definition config_json (x : Config) : json :=
  JObject
    [("compression", json_compression (cfg_compression x));
     ("core", json_core (cfg_core x));
     ("ice", json_ice (cfg_ice x));
     ("identity", json_identity (cfg_identity x));
     ("logging", json_logging (cfg_logging x));
     ("plugins", json_plugins (cfg_plugins x));
     ("security", json_security (cfg_security x))].

(** ** Flat keys *)

(** [std::to_string(int)] and the two spellings of a [bool]. *)
Definition int_string (v : Z) : string := pretty v.
Definition bool_string (b : bool) : string := if b then "true" else "false".

(** The first server of the list: host and port. *)
Definition extract_first_stun (csv : string) : string * string :=
  let s := str_bytes csv in
  let first := match str_find [x2c] s with Some comma => take comma s | None => s end in
  let first := trim first in
  match str_rfind x3a first with
  | Some colon => (bytes_str (take colon first), bytes_str (drop (S colon) first))
  | None => (bytes_str first, "19302")
  end.

(** The comparisons of [get_raw], in order. *)
Definition raw_keys (x : Config) : list (string * string) :=
  [("core.listen_address", co_listen_address (cfg_core x));
   ("core.listen_port", int_string (co_listen_port (cfg_core x)));
   ("core.io_threads", int_string (co_io_threads (cfg_core x)));
   ("core.max_connections", int_string (co_max_connections (cfg_core x)));
   ("logging.level", lo_level (cfg_logging x));
   ("logging.file", lo_file (cfg_logging x));
   ("logging.max_size", int_string (lo_max_size (cfg_logging x)));
   ("logging.max_files", int_string (lo_max_files (cfg_logging x)));
   ("security.key_exchange_timeout", int_string (se_key_exchange_timeout (cfg_security x)));
   ("security.max_auth_attempts", int_string (se_max_auth_attempts (cfg_security x)));
   ("security.session_timeout", int_string (se_session_timeout (cfg_security x)));
   ("compression.enabled", bool_string (cz_enabled (cfg_compression x)));
   ("compression.threshold", int_string (cz_threshold (cfg_compression x)));
   ("compression.level", int_string (cz_level (cfg_compression x)));
   ("plugins.base_dir", pl_base_dir (cfg_plugins x));
   ("plugins.auto_load", bool_string (pl_auto_load (cfg_plugins x)));
   ("plugins.scan_interval", int_string (pl_scan_interval (cfg_plugins x)));
   ("plugins.extra_dirs", pl_extra_dirs (cfg_plugins x));
   ("identity.dir", id_dir (cfg_identity x));
   ("identity.ssh_key_path", id_ssh_key_path (cfg_identity x));
   ("identity.use_machine_id", bool_string (id_use_machine_id (cfg_identity x)));
   ("identity.skip_ssh_fallback", bool_string (id_skip_ssh_fallback (cfg_identity x)));
   ("ice.stun_servers", ic_stun_servers (cfg_ice x));
   ("ice.session_timeout", int_string (ic_session_timeout (cfg_ice x)));
   ("ice.keepalive_interval", int_string (ic_keepalive_interval (cfg_ice x)));
   ("ice.consent_max_failures", int_string (ic_consent_max_failures (cfg_ice x)));
   ("ice.consent_failures", int_string (ic_consent_max_failures (cfg_ice x)));
   ("ice.stun_server", (extract_first_stun (ic_stun_servers (cfg_ice x))).1);
   ("ice.stun_port", (extract_first_stun (ic_stun_servers (cfg_ice x))).2)].

Definition get_raw (x : Config) (key : string) : option string :=
  snd <$> (snd <$> list_find (fun kv => kv.1 = key) (raw_keys x)).

(** [s_config_get] on a manager with a configuration: the return code and the buffer of [sz]
    bytes it fills, [None] when the buffer is left alone. *)
Definition s_config_get (config : option Config) (key : string) (sz : nat) : Z * option bytes :=
  match config with
  | None => (-1, None)
  | Some x =>
      match get_raw x key with
      | None => (-1, None)
      | Some v => (i32 (Z.of_nat (String.length v)), Some (strncpy v (sz - 1) ++ [x00])%list)
      end
  end.

(** [IConnector::config_get]: a zeroed buffer of 256 bytes, read as a C string. *)
Definition config_get (config : option Config) (key : string) : bytes :=
  until_nul (default (replicate 256 x00) (s_config_get config key 256).2).

(** ** Persistence *)

Section persistence.
Context (parse : string -> option json) (dump : json -> option string).

(** [None] is an exception of the library: [parse] of a malformed text, [dump] of a string
    that is not UTF-8. *)
Definition parse_json (text : string) (x : Config) : bool * Config :=
  match parse text with
  | Some j => (true, apply_json j x)
  | None => (false, x)
  end.

Definition to_json (x : Config) : option string := dump (config_json x).

Definition load_from_string (text : string) (x : Config) : bool * Config := parse_json text x.
Definition save_to_string (x : Config) : option string := to_json x.

(** [files]: the contents of the files that exist and can be opened. *)
Definition load_from_file (files : gmap string string) (path : string) (x : Config) : bool * Config :=
  match files !! path with
  | None => (false, x)
  | Some text =>
      let '(ok, y) := parse_json text x in
      if ok : bool then
        (true, mk_config (cfg_core y) (cfg_logging y) (cfg_security y) (cfg_compression y) (cfg_plugins y)
                 (cfg_identity y) (cfg_ice y) path)
      else (false, y)
  end.

Definition config_new (files : gmap string string) (cwd : string) (defaults_only : bool) : Config :=
  if defaults_only then config_defaults else (load_from_file files (cwd +:+ "/config.json") config_defaults).2.

Definition reload (files : gmap string string) (x : Config) : bool * Config :=
  if bool_decide (cfg_last_file x = "") then (false, x) else load_from_file files (cfg_last_file x) x.

(** [writable]: the directory could be made and the file opened, which empties it. *)
Definition save_to_file (writable : bool) (path : string) (x : Config) (files : gmap string string)
    : bool * gmap string string :=
  if writable then
    match to_json x with
    | Some text => (true, <[path := text]> files)
    | None => (false, <[path := ""]> files)
    end
  else (false, files).
End persistence.

(** ** Round trip *)

Definition int_ok (v : Z) : Prop := - 2 ^ 31 <= v < 2 ^ 31.

#[export] Instance int_ok_dec v : Decision (int_ok v).
Proof. unfold int_ok. apply _. Defined.

(** The [int] fields hold [int] values. *)
Definition config_ok (x : Config) : Prop :=
  Forall int_ok
    [co_listen_port (cfg_core x); co_io_threads (cfg_core x); co_max_connections (cfg_core x);
     lo_max_size (cfg_logging x); lo_max_files (cfg_logging x);
     se_key_exchange_timeout (cfg_security x); se_max_auth_attempts (cfg_security x);
     se_session_timeout (cfg_security x); cz_threshold (cfg_compression x); cz_level (cfg_compression x);
     pl_scan_interval (cfg_plugins x); ic_session_timeout (cfg_ice x); ic_keepalive_interval (cfg_ice x);
     ic_consent_max_failures (cfg_ice x)].

Definition with_last_file (path : string) (x : Config) : Config :=
  mk_config (cfg_core x) (cfg_logging x) (cfg_security x) (cfg_compression x) (cfg_plugins x)
    (cfg_identity x) (cfg_ice x) path.

Lemma i32_id v : int_ok v -> i32 v = v.
Proof. intros H. by apply signed_id. Qed.

#[local] Arguments signed : simpl never.

(** Every field is read back from the document written for it. *)
Lemma apply_config_json x y : config_ok x -> apply_json (config_json x) y = with_last_file (cfg_last_file y) x.
Proof.
  intros Hx. unfold config_ok in Hx. rewrite !Forall_cons_iff in Hx. destruct_and! Hx.
  destruct x as [[] [] [] [] [] [] [] f]. unfold apply_json, with_last_file. simpl in *.
  unfold read_section, config_json. simpl.
  unfold read_core, read_logging, read_security, read_compression, read_plugins, read_identity, read_ice,
    read_string, read_int, read_bool, json_core, json_logging, json_security, json_compression, json_plugins,
    json_identity, json_ice. simpl. by rewrite !i32_id.
Qed.

(** A configuration that was saved is loaded back exactly, into whatever configuration, by
    path and by a later reload, provided the JSON library reads back the document it wrote;
    a text the library rejects changes nothing. *)
Theorem config_roundtrip parse dump x y files path text :
  config_ok x -> dump (config_json x) = Some text -> parse text = Some (config_json x) -> path <> "" ->
  let files' := (save_to_file dump true path x files).2 in
  save_to_file dump true path x files = (true, files') /\
  load_from_file parse files' path y = (true, with_last_file path x) /\
  (forall z, cfg_last_file z = path -> reload parse files' z = (true, with_last_file path x)) /\
  (forall bad, parse bad = None -> load_from_string parse bad y = (false, y)).
Proof.
  intros Hx Hd Hp Hpath files'. unfold files', save_to_file, to_json. rewrite Hd. split; [done|].
  assert (forall z, load_from_file parse (<[path:=text]> files) path z = (true, with_last_file path x)) as Hload.
  { intros z. unfold load_from_file, parse_json. rewrite lookup_insert_eq, Hp. by rewrite apply_config_json. }
  split_and!; [apply Hload| |].
  - intros z Hz. unfold reload. rewrite Hz, bool_decide_false by done. apply Hload.
  - intros bad Hb. unfold load_from_string, parse_json. by rewrite Hb.
Qed.

(** A library that knows one document. *)
Definition toy_dump (j : json) : option string := Some "{}".
Definition toy_parse (x : Config) (s : string) : option json :=
  if bool_decide (s = "{}") then Some (config_json x) else None.

Lemma config_roundtrip_witness :
  let x := config_defaults in
  load_from_file (toy_parse x) (save_to_file toy_dump true "conf/config.json" x ∅).2 "conf/config.json" x =
    (true, with_last_file "conf/config.json" x) /\
  load_from_string (toy_parse x) "{" x = (false, x).
Proof.
  intros x. destruct (config_roundtrip (toy_parse x) toy_dump x x ∅ "conf/config.json" "{}") as (_ & Hl & _ & Hb).
  - apply (bool_decide_unpack (Forall _ _)); vm_compute; exact I.
  - reflexivity.
  - reflexivity.
  - discriminate.
  - split; [exact Hl|]. apply Hb. reflexivity.
Defined.

(** An integer outside [int] is cut to 32 bits: port 4294967376 is port 80. *)
Lemma config_int_wraps x :
  co_listen_port (cfg_core (apply_json (JObject [("core", JObject [("listen_port", JInt 4294967376)])]) x)) = 80.
Proof. reflexivity. Qed.

(** ** From the configuration to the ICE connector *)

Definition is_digit (b : byte) : Prop := 48 <= b2z b <= 57.

Lemma str_bytes_cons a s : str_bytes (String a s) = byte_of_ascii a :: str_bytes s.
Proof. done. Qed.

Lemma digit_char n : (n < 10)%N -> b2z (byte_of_ascii (pretty_N_char n)) = 48 + Z.of_N n.
Proof.
  intros Hn. assert (n ∈ ([0; 1; 2; 3; 4; 5; 6; 7; 8; 9] : list N)%N) as Hin.
  { rewrite !elem_of_cons. lia. }
  repeat (apply elem_of_cons in Hin as [->|Hin]; [reflexivity|]). by apply elem_of_nil in Hin.
Qed.

(** The digits of a number, before those of [s]. *)
Lemma digits_of n s :
  Forall is_digit (str_bytes s) ->
  Forall is_digit (str_bytes (pretty_N_go n s)) /\
  digits_value 0 (str_bytes (pretty_N_go n s)) = digits_value (Z.of_N n) (str_bytes s) /\
  (forall k, (n < 10 ^ k)%N -> (length (str_bytes (pretty_N_go n s)) <= N.to_nat k + length (str_bytes s))%nat).
Proof.
  revert s. induction (N.lt_wf_0 n) as [n _ IH]. intros s Hs.
  destruct (decide (n = 0%N)) as [->|Hn].
  { rewrite pretty_N_go_0. split_and!; [done..|lia]. }
  rewrite pretty_N_go_step by lia. pose proof (N.mod_lt n 10 ltac:(lia)) as Hm.
  assert (n / 10 < n)%N as Hlt by (apply N.div_lt; lia).
  pose proof (digit_char _ Hm) as Hc. pose proof (N.div_mod n 10 ltac:(lia)) as Hdm.
  set (d := (n mod 10)%N) in *. clearbody d. set (q := (n / 10)%N) in *.
  destruct (IH q Hlt (String (pretty_N_char d) s)) as (Hd & Hv & Hl).
  { rewrite str_bytes_cons. constructor; [|done]. unfold is_digit. rewrite Hc. lia. }
  split_and!; [done| |].
  - rewrite Hv, str_bytes_cons. simpl. rewrite Hc.
    rewrite (proj2 (Z.leb_le 48 _)), (proj2 (Z.leb_le _ 57)) by lia. simpl. f_equal. lia.
  - intros k Hk. destruct (decide (k = 0%N)) as [->|Hk0]; [simpl in Hk; lia|].
    specialize (Hl (k - 1)%N). rewrite str_bytes_cons in Hl. simpl in Hl.
    assert (q < 10 ^ (k - 1))%N as H10.
    { apply N.Div0.div_lt_upper_bound. rewrite <-N.pow_succ_r'. by replace (N.succ (k - 1)) with k by lia. }
    specialize (Hl H10). lia.
Qed.

Lemma int_string_digits v :
  0 < v < 2 ^ 31 ->
  let s := str_bytes (int_string v) in
  atoi s = v /\ s <> [] /\ (x00 ∉ s) /\ (length s <= 255)%nat.
Proof.
  intros Hv. destruct v as [|p|p]; [lia| |lia]. cbv zeta.
  change (int_string (Z.pos p)) with (pretty_N_go (N.pos p) "").
  destruct (digits_of (N.pos p) "" ltac:(constructor)) as (Hd & Hval & Hlen).
  specialize (Hlen 10%N ltac:(lia)). set (s := str_bytes (pretty_N_go (N.pos p) "")) in *. simpl in Hval, Hlen.
  assert (s <> []) as Hne by (intros Hs; rewrite Hs in Hval; simpl in Hval; lia).
  split_and!; [|done| |lia].
  - rewrite <-Hval. clear Hval Hlen. clearbody s. unfold atoi. destruct s as [|b s']; [done|]. apply Forall_cons_iff in Hd as [Hb _].
    unfold is_digit in Hb. simpl skip_space.
    rewrite (proj2 (Z.eqb_neq _ 32)) by lia. rewrite (proj2 (Z.leb_gt (b2z b) 13)) by lia.
    rewrite andb_false_r. simpl orb. cbn [orb].
    destruct b; try done; exfalso; revert Hb; vm_compute; intuition congruence.
  - intros H0. rewrite Forall_forall in Hd. specialize (Hd x00 H0). unfold is_digit in Hd.
    change (b2z x00) with 0 in Hd. lia.
Qed.

(** A value of at most 255 characters passes unchanged; of a longer one the first 255 do. *)
Lemma config_get_value x key v :
  get_raw x key = Some v -> x00 ∉ str_bytes v -> config_get (Some x) key = take 255 (str_bytes v).
Proof.
  intros Hv H0. unfold config_get, s_config_get. rewrite Hv. simpl default. unfold strncpy.
  rewrite (until_nul_id (str_bytes v)) by done.
  assert (x00 ∉ take 255 (str_bytes v)) as Ht.
  { intros Hin. apply H0. rewrite <-(take_drop 255 (str_bytes v)). apply elem_of_app. by left. }
  change (256 - 1)%nat with 255%nat. rewrite <-app_assoc.
  by destruct (255 - length (take 255 (str_bytes v)))%nat; apply until_nul_app_nul.
Qed.

(** The ICE settings of the configuration are the ones the ICE connector uses: the timeouts
    pass through their decimal form and the flat key access unchanged, and the servers are
    those of the list, as long as the list has at most 255 characters; of a longer one only
    the servers of its first 255 characters are used. *)
Theorem config_reaches_ice x getenv :
  let ic := cfg_ice x in
  0 < ic_session_timeout ic < 2 ^ 31 -> 0 < ic_keepalive_interval ic < 2 ^ 31 ->
  0 < ic_consent_max_failures ic < 2 ^ 31 ->
  ic_stun_servers ic <> "" -> x00 ∉ str_bytes (ic_stun_servers ic) ->
  read_config (config_get (Some x)) getenv =
    mk_ice_config (parse_stun_servers (take 255 (str_bytes (ic_stun_servers ic))))
      (ic_session_timeout ic) (ic_keepalive_interval ic) (ic_consent_max_failures ic).
Proof.
  intros ic Ht Hk Hc Hne H0. unfold read_config.
  assert (forall key v dflt, 0 < v < 2 ^ 31 -> get_raw x key = Some (int_string v) ->
    int_setting (config_get (Some x) key) dflt = v) as Hint.
  { intros key v dflt Hv Hraw. destruct (int_string_digits v Hv) as (Ha & Hn & H00 & Hl).
    rewrite (config_get_value x key (int_string v)), take_ge by done. unfold int_setting.
    rewrite bool_decide_false, Ha by done. by rewrite (proj2 (Z.ltb_lt _ _)) by lia. }
  rewrite (config_get_value x "ice.stun_servers" (ic_stun_servers ic)) by done.
  rewrite bool_decide_false.
  2: { destruct (ic_stun_servers ic); [done|]. by rewrite str_bytes_cons. }
  by rewrite (Hint "ice.session_timeout" (ic_session_timeout ic)),
    (Hint "ice.keepalive_interval" (ic_keepalive_interval ic)),
    (Hint "ice.consent_failures" (ic_consent_max_failures ic)).
Qed.

Lemma config_reaches_ice_witness :
  read_config (config_get (Some config_defaults)) (fun _ => None) = default_config.
Proof.
  etrans; [apply (config_reaches_ice config_defaults (fun _ => None))|vm_compute; reflexivity].
  - vm_compute. done.
  - vm_compute. done.
  - vm_compute. done.
  - discriminate.
  - apply (bool_decide_unpack (x00 ∉ _)); vm_compute; exact I.
Defined.
