(* ===== verification/PluginManager.v ===== *)
(** * Plugin manager ([core/pm/core.cpp], [core/pm/query.cpp])

    Which plugins are loaded, under which names, and what happens to each of them: the trace
    records every initialisation, shutdown and unloading.  A plugin file is described by what
    the file system, the manifest and the dynamic loader say about it; SHA-256 is part of
    that description. *)

From Stdlib Require Import ZArith Strings.Byte String Lia.
From stdpp Require Import base gmap list strings numbers.
From S2P Require Import Prelude.

Local Open Scope Z_scope.
Local Open Scope string_scope.

(** ** Plugins as the loader sees them *)

(** The manifest next to a plugin: absent, unreadable, or with the hash it promises. *)
Inductive manifest := NoManifest | BadManifest | Manifest (hash : string).

(** What [handler_init] and [connector_init] hand out; empty strings stand for null or
    missing names. *)
Record handler_desc := mk_hdesc { hd_name : string; hd_shutdown : bool }.
Record connector_desc := mk_cdesc { cd_scheme : string; cd_name : string; cd_shutdown : bool }.

(** Exported entry points: [None] no symbol, [Some None] an initialisation that fails. *)
Record exports := mk_exports {
  ex_handler : option (option handler_desc);
  ex_connector : option (option connector_desc);
}.

Record plugin_file := mk_plugin {
  pf_path : string;
  pf_stem : string;
  pf_exists : bool;
  pf_manifest : manifest;
  pf_sha256 : string;
  pf_exports : option exports;     (* [None]: [dlopen] fails *)
}.

(** ** State *)

Record HandlerInfo := mk_hinfo {
  hi_plugin : string; hi_dynamic : bool; hi_handler : handler_desc; hi_name : string; hi_enabled : bool }.
Record ConnectorInfo := mk_cinfo {
  ci_plugin : string; ci_dynamic : bool; ci_ops : connector_desc; ci_name : string; ci_scheme : string;
  ci_enabled : bool }.

Inductive pm_event := PmInit (plugin : string) | PmShutdown (plugin : string) | PmClose (plugin : string).

Record PluginManager := mk_pm {
  pm_handlers : gmap string HandlerInfo;
  pm_connectors : gmap string ConnectorInfo;
  pm_trace : list pm_event;
}.

Definition pm_init : PluginManager := mk_pm ∅ ∅ [].

Definition note (evs : list pm_event) (p : PluginManager) : PluginManager :=
  mk_pm (pm_handlers p) (pm_connectors p) (pm_trace p ++ evs).

Inductive load_error :=
  | NotFound | ManifestMissing | ManifestInvalid | HashMismatch | OpenFailed | InitFailed | AlreadyLoaded
  | EmptyScheme | NoEntryPoint.

(** ** Loading *)

Definition verify_metadata (f : plugin_file) : option load_error :=
  match pf_manifest f with
  | NoManifest => Some ManifestMissing
  | BadManifest => Some ManifestInvalid
  | Manifest expected => if String.eqb expected (pf_sha256 f) then None else Some HashMismatch
  end.

(** The library of an [info] that is dropped is closed; its plugin is not shut down, since
    [info->handler] and [info->ops] are set last. *)
Definition dropped (dynamic : bool) (plugin : string) : list pm_event := if dynamic then [PmClose plugin] else [].

(** Shared by [load_plugin] and [load_static_plugins]: [fallback] is the name used when the
    plugin gives none. *)
Definition load_handler (dynamic : bool) (plugin fallback : string) (init : option handler_desc) (p : PluginManager)
    : option load_error * PluginManager :=
  match init with
  | None => (Some InitFailed, note (dropped dynamic plugin) p)
  | Some h =>
      let p := note [PmInit plugin] p in
      let name := if String.eqb (hd_name h) "" then fallback else hd_name h in
      match pm_handlers p !! name with
      | Some _ => (Some AlreadyLoaded, note (dropped dynamic plugin) p)
      | None => (None, mk_pm (<[name := mk_hinfo plugin dynamic h name true]> (pm_handlers p)) (pm_connectors p) (pm_trace p))
      end
  end.

Definition load_connector (dynamic : bool) (plugin fallback : string) (init : option connector_desc)
    (p : PluginManager) : option load_error * PluginManager :=
  match init with
  | None => (Some InitFailed, note (dropped dynamic plugin) p)
  | Some ops =>
      let p := note [PmInit plugin] p in
      if String.eqb (cd_scheme ops) "" then (Some EmptyScheme, note (dropped dynamic plugin) p)
      else
        let name := if String.eqb (cd_name ops) "" then fallback else cd_name ops in
        match pm_connectors p !! cd_scheme ops with
        | Some _ => (Some AlreadyLoaded, note (dropped dynamic plugin) p)
        | None =>
            (None, mk_pm (pm_handlers p)
                     (<[cd_scheme ops := mk_cinfo plugin dynamic ops name (cd_scheme ops) true]> (pm_connectors p))
                     (pm_trace p))
        end
  end.

Definition load_plugin (f : plugin_file) (p : PluginManager) : option load_error * PluginManager :=
  if negb (pf_exists f) then (Some NotFound, p)
  else
    match verify_metadata f with
    | Some e => (Some e, p)
    | None =>
        match pf_exports f with
        | None => (Some OpenFailed, p)
        | Some ex =>
            match ex_handler ex, ex_connector ex with
            | Some init, _ => load_handler true (pf_path f) (pf_stem f) init p
            | None, Some init => load_connector true (pf_path f) (pf_stem f) init p
            | None, None => (Some NoEntryPoint, note [PmClose (pf_path f)] p)
            end
        end
    end.

(** The files of the directory tree, with whether each is a regular file and has the
    extension of a library, for a directory that can be read; errors are only logged. *)
Definition load_all_plugins (base_dir : string) (entries : list (bool * bool * plugin_file)) (p : PluginManager)
    : PluginManager :=
  if String.eqb base_dir "" then p
  else
    fold_left (fun p '(regular, library, f) => if regular && library then (load_plugin f p).2 else p) entries p.

(** An entry of the static registry. *)
Record StaticPluginEntry := mk_static {
  sp_name : string;
  sp_handler_init : option (option handler_desc);
  sp_connector_init : option (option connector_desc);
}.

Definition load_static (p : PluginManager) (e : StaticPluginEntry) : PluginManager :=
  match sp_handler_init e, sp_connector_init e with
  | Some init, _ => (load_handler false (sp_name e) (sp_name e) init p).2
  | None, Some init => (load_connector false (sp_name e) (sp_name e) init p).2
  | None, None => p
  end.

Definition load_static_plugins (registry : list StaticPluginEntry) (p : PluginManager) : PluginManager :=
  fold_left load_static registry p.

(** ** Unloading: the destructors shut the plugin down, then close its library *)

Definition destroy_handler (i : HandlerInfo) : list pm_event :=
  (if hd_shutdown (hi_handler i) then [PmShutdown (hi_plugin i)] else []) ++ dropped (hi_dynamic i) (hi_plugin i).

Definition destroy_connector (i : ConnectorInfo) : list pm_event :=
  (if cd_shutdown (ci_ops i) then [PmShutdown (ci_plugin i)] else []) ++ dropped (ci_dynamic i) (ci_plugin i).

Definition unload_handler (name : string) (p : PluginManager) : bool * PluginManager :=
  match pm_handlers p !! name with
  | Some i => (true, note (destroy_handler i) (mk_pm (delete name (pm_handlers p)) (pm_connectors p) (pm_trace p)))
  | None => (false, p)
  end.

Definition unload_connector (scheme : string) (p : PluginManager) : bool * PluginManager :=
  match pm_connectors p !! scheme with
  | Some i => (true, note (destroy_connector i) (mk_pm (pm_handlers p) (delete scheme (pm_connectors p)) (pm_trace p)))
  | None => (false, p)
  end.

Definition unload_all (p : PluginManager) : PluginManager :=
  mk_pm ∅ ∅
    (pm_trace p ++ concat (map (fun kv => destroy_handler kv.2) (map_to_list (pm_handlers p)))
       ++ concat (map (fun kv => destroy_connector kv.2) (map_to_list (pm_connectors p)))).

(** ** Enabling and queries *)

Definition set_enabled (b : bool) (i : HandlerInfo) : HandlerInfo :=
  mk_hinfo (hi_plugin i) (hi_dynamic i) (hi_handler i) (hi_name i) b.

Definition switch_handler (b : bool) (name : string) (p : PluginManager) : bool * PluginManager :=
  match pm_handlers p !! name with
  | Some i => (true, mk_pm (<[name := set_enabled b i]> (pm_handlers p)) (pm_connectors p) (pm_trace p))
  | None => (false, p)
  end.

Definition enable_handler := switch_handler true.
Definition disable_handler := switch_handler false.

Definition find_handler_by_name (name : string) (p : PluginManager) : option handler_desc :=
  match pm_handlers p !! name with
  | Some i => if hi_enabled i then Some (hi_handler i) else None
  | None => None
  end.

Definition find_connector_by_scheme (scheme : string) (p : PluginManager) : option connector_desc :=
  match pm_connectors p !! scheme with
  | Some i => if ci_enabled i then Some (ci_ops i) else None
  | None => None
  end.

Definition get_enabled_handler_names (p : PluginManager) : list string :=
  map fst (List.filter (fun kv => hi_enabled kv.2) (map_to_list (pm_handlers p))).

Definition get_active_handlers (p : PluginManager) : list handler_desc :=
  map (fun kv => hi_handler kv.2) (List.filter (fun kv => hi_enabled kv.2) (map_to_list (pm_handlers p))).

Definition get_active_connectors (p : PluginManager) : list connector_desc :=
  map (fun kv => ci_ops kv.2) (List.filter (fun kv => ci_enabled kv.2) (map_to_list (pm_connectors p))).

Definition get_enabled_handler_count (p : PluginManager) : nat :=
  length (List.filter (fun kv => hi_enabled kv.2) (map_to_list (pm_handlers p))).

Definition get_enabled_connector_count (p : PluginManager) : nat :=
  length (List.filter (fun kv => ci_enabled kv.2) (map_to_list (pm_connectors p))).

(** ** Runs *)

Inductive pm_op :=
  | OpLoad (f : plugin_file)
  | OpLoadAll (base_dir : string) (entries : list (bool * bool * plugin_file))
  | OpLoadStatic (registry : list StaticPluginEntry)
  | OpUnloadHandler (name : string)
  | OpUnloadConnector (scheme : string)
  | OpEnable (name : string)
  | OpDisable (name : string)
  | OpUnloadAll.

Definition run_pm_op (p : PluginManager) (op : pm_op) : PluginManager :=
  match op with
  | OpLoad f => (load_plugin f p).2
  | OpLoadAll dir entries => load_all_plugins dir entries p
  | OpLoadStatic registry => load_static_plugins registry p
  | OpUnloadHandler name => (unload_handler name p).2
  | OpUnloadConnector scheme => (unload_connector scheme p).2
  | OpEnable name => (enable_handler name p).2
  | OpDisable name => (disable_handler name p).2
  | OpUnloadAll => unload_all p
  end.

Definition run_pm (ops : list pm_op) (p : PluginManager) : PluginManager := fold_left run_pm_op ops p.

(** ** What may run *)

(** The manifest of the file promises the hash of its contents. *)
Definition verified (f : plugin_file) : Prop := pf_exists f = true /\ pf_manifest f = Manifest (pf_sha256 f).

Definition op_files (op : pm_op) : list plugin_file :=
  match op with OpLoad f => [f] | OpLoadAll _ entries => map snd entries | _ => [] end.

Definition op_statics (op : pm_op) : list string :=
  match op with OpLoadStatic registry => map sp_name registry | _ => [] end.

Section origin.
Context (files : list plugin_file) (statics : list string).

(** Where a plugin comes from: a verified file, or the program itself. *)
Definition origin (dynamic : bool) (plugin : string) : Prop :=
  if dynamic then exists f, f ∈ files /\ verified f /\ pf_path f = plugin else plugin ∈ statics.

Record pm_inv (p : PluginManager) : Prop := {
  pv_handlers name i : pm_handlers p !! name = Some i -> hi_name i = name /\ origin (hi_dynamic i) (hi_plugin i);
  pv_connectors scheme i :
    pm_connectors p !! scheme = Some i ->
    ci_scheme i = scheme /\ scheme <> "" /\ origin (ci_dynamic i) (ci_plugin i);
  pv_init q : PmInit q ∈ pm_trace p -> exists dynamic, origin dynamic q;
}.

(** Events that start no plugin. *)
Definition quiet_events (evs : list pm_event) : Prop := forall q, PmInit q ∉ evs.

Lemma note_keeps evs p : pm_inv p -> quiet_events evs -> pm_inv (note evs p).
Proof. intros [] Hq. split; simpl; try done. intros q [?|?]%elem_of_app; [auto|by destruct (Hq q)]. Qed.

Lemma note_init_keeps dynamic q p : pm_inv p -> origin dynamic q -> pm_inv (note [PmInit q] p).
Proof.
  intros [] Ho. split; simpl; try done. intros q' [?|Hq]%elem_of_app; [auto|].
  apply list_elem_of_singleton in Hq as [= ->]. eauto.
Qed.

Lemma dropped_quiet dynamic q : quiet_events (dropped dynamic q).
Proof. intros q'. destruct dynamic; simpl; rewrite ?list_elem_of_singleton; [done|]. apply not_elem_of_nil. Qed.

Lemma destroy_quiet (sd : bool) dynamic q :
  quiet_events ((if sd then [PmShutdown q] else []) ++ dropped dynamic q).
Proof.
  intros q'. rewrite not_elem_of_app. split; [|apply dropped_quiet].
  destruct sd; rewrite ?list_elem_of_singleton; [done|apply not_elem_of_nil].
Qed.

#[local] Hint Resolve note_keeps note_init_keeps dropped_quiet destroy_quiet : core.

Lemma load_handler_keeps dynamic q fb init p :
  pm_inv p -> origin dynamic q -> pm_inv (load_handler dynamic q fb init p).2.
Proof.
  intros H Ho. unfold load_handler. destruct init as [h|]; simpl; [|eauto].
  destruct (pm_handlers p !! _) eqn:Hl; simpl; [eauto|].
  destruct (note_init_keeps dynamic q p H Ho) as [Hh Hc Hi]. split; simpl; try done.
  intros name i [[<- <-]|[_ ?]]%lookup_insert_Some; [done|auto].
Qed.

Lemma load_connector_keeps dynamic q fb init p :
  pm_inv p -> origin dynamic q -> pm_inv (load_connector dynamic q fb init p).2.
Proof.
  intros H Ho. unfold load_connector. destruct init as [ops|]; simpl; [|eauto].
  destruct (String.eqb_spec (cd_scheme ops) "") as [|Hne]; simpl; [eauto|].
  destruct (pm_connectors p !! _) eqn:Hl; simpl; [eauto|].
  destruct (note_init_keeps dynamic q p H Ho) as [Hh Hc Hi]. split; simpl; try done.
  intros name i [[<- <-]|[_ ?]]%lookup_insert_Some; [done|auto].
Qed.

Lemma load_plugin_keeps f p : pm_inv p -> f ∈ files -> pm_inv (load_plugin f p).2.
Proof.
  intros H Hf. unfold load_plugin. destruct (pf_exists f) eqn:He; [|done]. cbn [negb].
  unfold verify_metadata. destruct (pf_manifest f) as [| |hash] eqn:Hm; try done.
  destruct (String.eqb_spec hash (pf_sha256 f)) as [->|]; [|done].
  assert (origin true (pf_path f)) as Ho by (exists f; by repeat split).
  destruct (pf_exports f) as [[[h|] [c|]]|]; simpl; try done;
    eauto using load_handler_keeps, load_connector_keeps.
  apply note_keeps; [done|]. apply (dropped_quiet true).
Qed.

Lemma load_all_keeps dir entries p :
  pm_inv p -> (forall e, e ∈ entries -> e.2 ∈ files) -> pm_inv (load_all_plugins dir entries p).
Proof.
  intros H. unfold load_all_plugins. destruct (String.eqb dir ""); [done|].
  revert p H. induction entries as [|[[r l] f] entries IH]; intros p H Hin; [done|]. simpl. apply IH.
  - destruct (r && l); [|done]. apply load_plugin_keeps; [done|]. apply (Hin (r, l, f)). left.
  - intros e He. apply Hin. by right.
Qed.

Lemma load_static_keeps registry p :
  pm_inv p -> (forall e, e ∈ registry -> sp_name e ∈ statics) -> pm_inv (load_static_plugins registry p).
Proof.
  revert p. induction registry as [|e registry IH]; intros p H Hin; [done|]. simpl. apply IH.
  - assert (origin false (sp_name e)) as Ho by (apply Hin; left). unfold load_static.
    destruct (sp_handler_init e), (sp_connector_init e); eauto using load_handler_keeps, load_connector_keeps.
  - intros e' He. apply Hin. by right.
Qed.

Lemma unload_handler_keeps name p : pm_inv p -> pm_inv (unload_handler name p).2.
Proof.
  intros [Hh Hc Hi]. unfold unload_handler. destruct (pm_handlers p !! name) as [i|] eqn:E; [|by split].
  apply note_keeps; [|apply destroy_quiet]. split; simpl; try done.
  intros n j [_ ?]%lookup_delete_Some. auto.
Qed.

Lemma unload_connector_keeps scheme p : pm_inv p -> pm_inv (unload_connector scheme p).2.
Proof.
  intros [Hh Hc Hi]. unfold unload_connector. destruct (pm_connectors p !! scheme) as [i|] eqn:E; [|by split].
  apply note_keeps; [|apply destroy_quiet]. split; simpl; try done.
  intros n j [_ ?]%lookup_delete_Some. auto.
Qed.

Lemma switch_keeps b name p : pm_inv p -> pm_inv (switch_handler b name p).2.
Proof.
  intros [Hh Hc Hi]. unfold switch_handler. destruct (pm_handlers p !! name) as [i|] eqn:E; [|by split].
  split; simpl; try done. intros n j [[<- <-]|[_ ?]]%lookup_insert_Some; [|auto]. by apply (Hh name i E).
Qed.

Lemma concat_quiet {A} (f : A -> list pm_event) l : (forall x, quiet_events (f x)) -> quiet_events (concat (map f l)).
Proof.
  intros Hf q. induction l as [|x l IH]; simpl; [apply not_elem_of_nil|].
  rewrite not_elem_of_app. split; [apply Hf|done].
Qed.

Lemma unload_all_keeps p : pm_inv p -> pm_inv (unload_all p).
Proof.
  intros [Hh Hc Hi]. split; simpl; try done.
  intros q [?|[Hq|Hq]%elem_of_app]%elem_of_app; [auto|..]; exfalso; revert Hq; apply concat_quiet; intros kv;
    apply destroy_quiet.
Qed.

Lemma run_pm_op_keeps op p :
  pm_inv p -> op_files op ⊆ files -> op_statics op ⊆ statics -> pm_inv (run_pm_op p op).
Proof.
  intros H Hf Hs. destruct op as [f|dir entries|registry|name|scheme|name|name|]; simpl in *.
  - apply load_plugin_keeps; [done|]. apply Hf. left.
  - apply load_all_keeps; [done|]. intros e He. apply Hf, list_elem_of_In, in_map, list_elem_of_In, He.
  - apply load_static_keeps; [done|]. intros e He. apply Hs, list_elem_of_In, in_map, list_elem_of_In, He.
  - by apply unload_handler_keeps.
  - by apply unload_connector_keeps.
  - by apply switch_keeps.
  - by apply switch_keeps.
  - by apply unload_all_keeps.
Qed.
End origin.

(** C31: Only verified plugins run.  In every run of the plugin manager, a plugin that was
    initialised, and every loaded one, is either compiled into the program or comes from a
    file whose manifest carries the SHA-256 of its contents; plugins are listed under their
    own name or scheme, and no connector has an empty scheme. *)
Theorem pm_verified ops :
  let p := run_pm ops pm_init in
  let files := concat (map op_files ops) in
  let statics := concat (map op_statics ops) in
  (forall q, PmInit q ∈ pm_trace p -> exists dynamic, origin files statics dynamic q) /\
  (forall name i, pm_handlers p !! name = Some i ->
     hi_name i = name /\ origin files statics (hi_dynamic i) (hi_plugin i)) /\
  (forall scheme i, pm_connectors p !! scheme = Some i ->
     ci_scheme i = scheme /\ scheme <> "" /\ origin files statics (ci_dynamic i) (ci_plugin i)).
Proof.
  intros p files statics.
  assert (forall done_ops p0, pm_inv files statics p0 ->
    (forall op, op ∈ done_ops -> op ∈ ops) -> pm_inv files statics (run_pm done_ops p0)) as Hrun.
  { induction done_ops as [|op rest IH]; intros p0 H Hin; [done|]. simpl. apply IH.
    - apply run_pm_op_keeps; [done|..]; intros x Hx; apply list_elem_of_In, in_concat; eexists;
        (split; [apply in_map, list_elem_of_In, Hin; left|by apply list_elem_of_In]).
    - intros o Ho. apply Hin. by right. }
  destruct (Hrun ops pm_init) as [Hh Hc Hi]; [|done|done].
  split; simpl; try done. intros q Hq. by apply elem_of_nil in Hq.
Qed.

(** A connector whose scheme is taken is initialised, which starts its threads, and then
    unloaded without being shut down. *)
Theorem rejected_connector_not_shut_down f ops i p :
  verified f -> pf_exports f = Some (mk_exports None (Some (Some ops))) -> cd_scheme ops <> "" ->
  pm_connectors p !! cd_scheme ops = Some i ->
  load_plugin f p = (Some AlreadyLoaded, note [PmInit (pf_path f); PmClose (pf_path f)] p).
Proof.
  intros [He Hm] Hex Hne Hi. unfold load_plugin, verify_metadata. rewrite He, Hm, String.eqb_refl, Hex. simpl.
  rewrite (proj2 (String.eqb_neq _ _) Hne), Hi. unfold note. simpl. by rewrite <-app_assoc.
Qed.

Definition toy_tcp_file : plugin_file :=
  mk_plugin "a/tcp.so" "tcp" true (Manifest "00ff") "00ff"
    (Some (mk_exports None (Some (Some (mk_cdesc "tcp" "TCP" true))))).

Lemma rejected_connector_not_shut_down_witness :
  let p := run_pm [OpLoad toy_tcp_file] pm_init in
  pm_trace (load_plugin toy_tcp_file p).2 = [PmInit "a/tcp.so"; PmInit "a/tcp.so"; PmClose "a/tcp.so"].
Proof.
  intros p.
  rewrite (rejected_connector_not_shut_down toy_tcp_file (mk_cdesc "tcp" "TCP" true)
    (mk_cinfo "a/tcp.so" true (mk_cdesc "tcp" "TCP" true) "TCP" "tcp" true) p).
  - reflexivity.
  - split; reflexivity.
  - reflexivity.
  - discriminate.
  - reflexivity.
Defined.
