(* ===== verification/PluginFile.v ===== *)
(** * Plugin files ([core/pm/query.cpp])

    How the plugin manager checks a file against its manifest: the digest is computed in
    blocks of 64 KiB through a stream with the state of [std::ifstream], the manifest is a
    JSON document that is read member by member.  The digest is that of the whole file
    ([sha256_of_file]), so a plugin that passes the check has exactly the promised digest
    ([verified_digest]).

    SHA-256 and the JSON parser are parameters. *)

From Stdlib Require Import ZArith Strings.Byte String Lia.
From stdpp Require Import base gmap list strings numbers.
From S2P Require Import Prelude Config PluginManager.

Local Open Scope Z_scope.
Local Open Scope string_scope.

(** The streaming interface of libsodium. *)
Class Sha256Ops := {
  sha_state : Type;
  sha_init : sha_state;
  sha_update : sha_state -> bytes -> sha_state;
  sha_final : sha_state -> bytes;
  sha256 : bytes -> bytes;
}.

(** The digest of a message does not depend on how it is cut into updates. *)
Class Sha256Laws (SO : Sha256Ops) := {
  sha_stream chunks : sha_final (fold_left sha_update chunks sha_init) = sha256 (concat chunks);
}.

(** ** [std::ifstream] *)

Record ifstream := mk_stream { is_rest : bytes; is_eof : bool; is_fail : bool }.

(** [read]: the bytes stored in the buffer, of which there are [gcount]. *)
Definition stream_read (n : nat) (s : ifstream) : bytes * ifstream :=
  if is_eof s || is_fail s then ([], mk_stream (is_rest s) (is_eof s) true)
  else
    let short := bool_decide (length (is_rest s) < n)%nat in
    (take n (is_rest s), mk_stream (drop n (is_rest s)) short short).

(** ** [calculate_sha256] *)

Definition SHA_CHUNK : nat := Z.to_nat 65536.

Section digest.
Context `{SO : !Sha256Ops}.

(** The read loop, [None] when the fuel does not suffice. *)
Fixpoint sha_loop (fuel : nat) (st : sha_state) (s : ifstream) : option sha_state :=
  match fuel with
  | O => None
  | S fuel =>
      let '(got, s) := stream_read SHA_CHUNK s in
      if negb (is_fail s) || bool_decide (0 < length got)%nat then
        let st := sha_update st got in
        if is_eof s then Some st else sha_loop fuel st s
      else Some st
  end.

(** A file that cannot be opened is [None]. *)
Definition calculate_sha256 (file : option bytes) : option string :=
  match file with
  | None => Some ""
  | Some data => st ← sha_loop (S (S (length data))) sha_init (mk_stream data false false); Some (bytes_to_hex (sha_final st))
  end.

(** ** [verify_metadata] *)

Inductive manifest_error := MissingFile | ParseError | Mismatch.

Definition json_string (j : json) : option string := match j with JString s => Some s | _ => None end.

(** The document as read by the code; [logged] says that the debug message, which needs two
    more members, is compiled in. *)
Definition manifest_hash (logged : bool) (doc : json) : option string :=
  meta ← member doc "meta";
  _ ← (if logged then
         name ← member meta "name"; _ ← json_string name;
         version ← member meta "version"; json_string version
       else Some "");
  integrity ← member doc "integrity"; hash ← member integrity "hash"; json_string hash.

(** [doc]: no file, or what the parser makes of it. *)
Definition verify_file (logged : bool) (doc : option (option json)) (file : option bytes) : option manifest_error :=
  match doc with
  | None => Some MissingFile
  | Some None => Some ParseError
  | Some (Some doc) =>
      match manifest_hash logged doc, calculate_sha256 file with
      | Some expected, Some actual => if String.eqb expected actual then None else Some Mismatch
      | _, _ => Some ParseError
      end
  end.

(** The view of such a file the plugin manager's model works with. *)
Definition read_manifest (logged : bool) (doc : option (option json)) : manifest :=
  match doc with
  | None => NoManifest
  | Some None => BadManifest
  | Some (Some doc) => from_option Manifest BadManifest (manifest_hash logged doc)
  end.

Definition file_of (path stem : string) (logged : bool) (doc : option (option json)) (file : option bytes)
    (ex : option exports) : plugin_file :=
  mk_plugin path stem true (read_manifest logged doc) (default "" (calculate_sha256 file)) ex.

(** ** The loop reads the whole file *)

Context {SL : Sha256Laws SO}.

Lemma sha_loop_chunks fuel st data :
  (length data < fuel)%nat ->
  exists chunks, sha_loop fuel st (mk_stream data false false) = Some (fold_left sha_update chunks st) /\ concat chunks = data.
Proof.
  revert st data. induction fuel as [|fuel IH]; intros st data Hf; [lia|]. cbn [sha_loop stream_read is_eof is_fail is_rest orb].
  case_bool_decide as Hs; cbn [negb orb is_fail is_eof].
  - rewrite take_ge by lia. case_bool_decide as Hd.
    + exists [data]. cbn [fold_left concat]. by rewrite app_nil_r.
    + exists []. split; [done|]. destruct data; [done|simpl in Hd; lia].
  - assert (0 < SHA_CHUNK)%nat as Hpos by (unfold SHA_CHUNK; lia).
    destruct (IH (sha_update st (take SHA_CHUNK data)) (drop SHA_CHUNK data)) as (chunks & -> & Hc);
      [rewrite length_drop; lia|].
    exists (take SHA_CHUNK data :: chunks). split; [done|]. cbn [concat]. by rewrite Hc, take_drop.
Qed.

Lemma sha256_of_file file :
  calculate_sha256 file = Some (match file with Some data => bytes_to_hex (sha256 data) | None => "" end).
Proof.
  destruct file as [data|]; [|done]. unfold calculate_sha256.
  destruct (sha_loop_chunks (S (S (length data))) sha_init data) as (chunks & -> & <-); [lia|].
  cbn [mbind option_bind]. by rewrite sha_stream.
Qed.

Lemma manifest_error_iff logged doc file :
  verify_file logged doc file = None <->
  exists d hash, doc = Some (Some d) /\ manifest_hash logged d = Some hash /\ calculate_sha256 file = Some hash.
Proof.
  unfold verify_file. rewrite sha256_of_file. destruct doc as [[d|]|]; [|naive_solver..].
  destruct (manifest_hash logged d) as [h|] eqn:Hm; [|naive_solver].
  destruct (String.eqb_spec h (match file with Some data => bytes_to_hex (sha256 data) | None => "" end)) as [->|Hne];
    [|naive_solver]. split; [|done]. intros _. by eexists d, _.
Qed.

(** The plugin manager's view of the file agrees with the code on the file itself. *)
Lemma verify_file_view path stem logged doc file ex :
  verify_metadata (file_of path stem logged doc file ex) =
  match verify_file logged doc file with
  | None => None
  | Some MissingFile => Some ManifestMissing
  | Some ParseError => Some ManifestInvalid
  | Some Mismatch => Some HashMismatch
  end.
Proof.
  unfold verify_metadata, verify_file, file_of, read_manifest. cbn [pf_manifest pf_sha256].
  rewrite sha256_of_file. cbn [default from_option]. destruct doc as [[d|]|]; try done.
  destruct (manifest_hash logged d); [|done]. cbn [from_option]. by destruct (String.eqb _ _).
Qed.

(** C32: Digest of the file: computed in blocks of 64 KiB, it is the digest of the whole file for
    every length, and a readable plugin passes the check of its manifest exactly when the
    manifest can be read and promises that digest. *)
Theorem verified_digest path stem logged doc data ex :
  let f := file_of path stem logged doc (Some data) ex in
  pf_sha256 f = bytes_to_hex (sha256 data) /\
  (verify_metadata f = None <->
   exists d, doc = Some (Some d) /\ manifest_hash logged d = Some (bytes_to_hex (sha256 data))).
Proof.
  intros f. split; [unfold f, file_of; cbn [pf_sha256]; by rewrite sha256_of_file|].
  unfold f. rewrite verify_file_view. transitivity (verify_file logged doc (Some data) = None).
  { by destruct (verify_file logged doc (Some data)) as [[]|]. }
  rewrite manifest_error_iff, sha256_of_file. naive_solver.
Qed.

(** A plugin that cannot be opened has the empty digest, and a manifest that promises the empty
    string accepts it. *)
Lemma unreadable_accepted logged d :
  manifest_hash logged d = Some "" -> verify_file logged (Some (Some d)) None = None.
Proof. intros H. apply manifest_error_iff. by exists d, "". Qed.
End digest.

(** A manifest without a name and a version is accepted when debug messages are compiled out
    and refused when they are compiled in. *)
Definition nameless (hash : string) : json :=
  JObject [("meta", JObject []); ("integrity", JObject [("hash", JString hash)])].

Lemma manifest_depends_on_build hash :
  manifest_hash false (nameless hash) = Some hash /\ manifest_hash true (nameless hash) = None.
Proof. done. Qed.

(** ** An instance *)

(** A digest that keeps the message: enough to run the definitions. *)
Definition toy_sha : Sha256Ops := {|
  sha_state := bytes; sha_init := []; sha_update := app; sha_final := fun st => st; sha256 := fun m => m |}.

Lemma toy_sha_laws : Sha256Laws toy_sha.
Proof.
  split. intros chunks. cbn.
  enough (forall acc : bytes, fold_left app chunks acc = (acc ++ concat chunks)%list) as H by by rewrite H.
  induction chunks as [|x chunks IH]; intros acc; cbn [fold_left concat]; [by rewrite app_nil_r|].
  by rewrite IH, app_assoc.
Qed.

Lemma verified_digest_witness :
  let f := file_of (SO := toy_sha) "p.so" "p" false (Some (Some (nameless "6162"))) (Some [x61; x62]) None in
  pf_sha256 f = "6162" /\ verify_metadata f = None.
Proof.
  destruct (verified_digest (SO := toy_sha) (SL := toy_sha_laws) "p.so" "p" false (Some (Some (nameless "6162"))) [x61; x62] None)
    as [H1 H2]. split; [exact H1|]. apply H2. exists (nameless "6162"). split; reflexivity.
Defined.
