(* ===== verification/StoreBackend.v ===== *)
(** * Store backend ([apps/store/backend.hpp], [sqlite_backend.cpp])

    [IStore] is the interface the store service is written against: a class of operations
    on the backend's state, with the laws its clients rely on.  [Sqlite] is the
    implementation in the repository.  The SQLite library is a parameter ([SqlEngine]): one
    operation per prepared statement, with the documented meaning of the statement as laws
    on the rows of the table ([SqlLaws]).  A [std::string_view] or [std::span] is a [view],
    [None] for one whose data pointer is null, which SQLite binds as [NULL].  The wall clock
    is an argument. *)

From Stdlib Require Import ZArith Strings.Byte Sorted Lia.
From stdpp Require Import base gmap list strings numbers sorting.
From S2P Require Import Prelude.

Local Open Scope Z_scope.

Abbreviation view := (option bytes).

(** ** Entries *)

Record Entry := mk_kv {
  e_key : bytes;
  e_value : bytes;
  e_timestamp_us : Z;
  e_ttl_s : Z;
  e_flags : Z;
}.

#[export] Instance Entry_eq_dec : EqDecision Entry.
Proof. solve_decision. Defined.

(** [expires_at], in seconds, as the column holds it. *)
Definition expires_at (ts ttl_s : Z) : Z := if 0 <? ttl_s then i64 (u64 (ts / 1000000 + ttl_s)) else 0.

(** The condition [expires_at = 0 OR expires_at > now] of the queries. *)
Definition unexpired (now_s exp : Z) : bool := (exp =? 0) || (now_s <? exp).

Definition live (now_us : Z) (e : Entry) : bool :=
  unexpired (i64 (now_us / 1000000)) (expires_at (e_timestamp_us e) (e_ttl_s e)).

(** ** Byte order of keys ([memcmp], the BINARY collation) *)

Fixpoint key_leb (a b : bytes) : bool :=
  match a, b with
  | [], _ => true
  | _ :: _, [] => false
  | x :: a, y :: b => (b2z x <? b2z y) || (b2z x =? b2z y) && key_leb a b
  end.

Definition key_ltb (a b : bytes) : bool := negb (key_leb b a).

Definition by_key (a b : Entry) : Prop := key_leb (e_key a) (e_key b) = true.
Definition by_time (a b : Entry) : Prop := e_timestamp_us a <= e_timestamp_us b.

(** [std::string_view::starts_with]. *)
Definition starts_with (key prefix : bytes) : bool := bool_decide (take (length prefix) key = prefix).

(** ** The interface *)

Class IStore (S : Type) := {
  put : Z -> view -> view -> Z -> Z -> S -> bool * S;
  get : Z -> view -> S -> option Entry;
  get_prefix : Z -> view -> Z -> S -> list Entry;
  del : view -> S -> bool * S;
  get_since : Z -> Z -> Z -> S -> list Entry;
  cleanup_expired : Z -> S -> Z * S;
}.

(** Keys SQLite compares in the documented way. *)
Definition key_ok (k : bytes) : Prop := x00 ∉ k.

(** An entry as a client may write it; the clock counts microseconds in an [int64_t]. *)
Definition entry_ok (e : Entry) : Prop :=
  key_ok (e_key e) /\ fits 63 (e_timestamp_us e) /\ fits 64 (e_ttl_s e) /\ fits 8 (e_flags e).

(** The first [n] results, 0 standing for [dflt]. *)
Definition limited {A} (dflt n : Z) (l : list A) : list A := take (Z.to_nat (if n =? 0 then dflt else n)) l.

(** What the service relies on: the backend is a finite map from keys to entries. *)
Class IStoreLaws (S : Type) `{!IStore S} := {
  contents : S -> gmap bytes Entry;
  store_ok : S -> Prop;
  contents_ok s k e : store_ok s -> contents s !! k = Some e -> e_key e = k /\ entry_ok e;
  put_law now k v ttl flags s b s' :
    store_ok s -> entry_ok (mk_kv k v now ttl flags) ->
    put now (Some k) (Some v) ttl flags s = (b, s') ->
    store_ok s' /\
    contents s' = if b then <[k := mk_kv k v now ttl flags]> (contents s) else contents s;
  put_null now ttl flags s s' b :
    store_ok s -> put now None None ttl flags s = (b, s') ->
    b = false /\ store_ok s' /\ contents s' = contents s;
  get_law now k s :
    store_ok s -> key_ok k ->
    get now (Some k) s = match contents s !! k with
                         | Some e => if live now e then Some e else None
                         | None => None
                         end;
  get_null now s : get now None s = None;
  get_prefix_law now p c n s :
    store_ok s -> key_ok (p ++ [c]) -> c <> xff -> 0 <= n < 2 ^ 31 ->
    exists l, get_prefix now (Some (p ++ [c])) n s = limited 32 n l /\
      StronglySorted by_key l /\ NoDup l /\
      (forall e, e ∈ l <-> contents s !! e_key e = Some e /\ live now e = true /\
                           starts_with (e_key e) (p ++ [c]) = true);
  get_prefix_null now n s : get_prefix now None n s = [];
  del_law k s b s' :
    store_ok s -> key_ok k -> del (Some k) s = (b, s') ->
    store_ok s' /\ b = bool_decide (is_Some (contents s !! k)) /\ contents s' = delete k (contents s);
  del_null s b s' :
    store_ok s -> del None s = (b, s') -> store_ok s' /\ b = false /\ contents s' = contents s;
  get_since_law now since n s :
    store_ok s -> 0 <= since < 2 ^ 63 -> 0 <= n < 2 ^ 31 ->
    exists l, get_since now since n s = limited 256 n l /\
      StronglySorted by_time l /\ NoDup l /\
      (forall e, e ∈ l <-> contents s !! e_key e = Some e /\ live now e = true /\
                           since < e_timestamp_us e);
  cleanup_law now s n s' :
    store_ok s -> cleanup_expired now s = (n, s') ->
    store_ok s' /\
    (forall k e, contents s' !! k = Some e <->
       contents s !! k = Some e /\
       (live now e = true \/ expires_at (e_timestamp_us e) (e_ttl_s e) <= 0)) /\
    (Z.of_nat (size (contents s)) < 2 ^ 31 ->
       n = Z.of_nat (size (contents s)) - Z.of_nat (size (contents s')));
}.

(** ** SQLite

    A row of the table [store]; integer columns hold 64-bit signed values. *)
Record row := mk_row {
  w_value : bytes;
  w_timestamp_us : Z;
  w_ttl_s : Z;
  w_expires_at : Z;
  w_flags : Z;
}.

(** The prepared statements, with their bound arguments: [step_put] and the deletions
    return the result code or [sqlite3_changes], the queries the rows in the order
    [sqlite3_step] delivers them. *)
Class SqlEngine (D : Type) := {
  step_put : view -> view -> Z -> Z -> Z -> Z -> D -> Z * D;
  step_get : view -> Z -> D -> option (bytes * row);
  step_prefix : view -> view -> Z -> Z -> D -> list (bytes * row);
  step_del : view -> D -> Z * D;
  step_since : Z -> Z -> Z -> D -> list (bytes * row);
  step_cleanup : Z -> D -> Z * D;
}.

Definition SQLITE_DONE : Z := 101.

(** [LIMIT n]: a negative limit is none. *)
Definition sql_limit {A} (n : Z) (l : list A) : list A := if n <? 0 then l else take (Z.to_nat n) l.

(** The rows of a query: those that satisfy [P], each once, ordered by [R], up to the limit. *)
Definition query (t : gmap bytes row) (P : bytes -> row -> bool) (R : relation (bytes * row)) (limit : Z)
    (res : list (bytes * row)) : Prop :=
  exists l, res = sql_limit limit l /\ StronglySorted R l /\ NoDup l /\
    forall k w, (k, w) ∈ l <-> t !! k = Some w /\ P k w = true.

(** What the SQLite documentation says of the six statements, for text without embedded
    NULs; a comparison with [NULL] is not true, a [NULL] value violates [NOT NULL], and a
    failed [INSERT] leaves the table as it was. *)
Class SqlLaws (D : Type) `{!SqlEngine D} := {
  table : D -> gmap bytes row;
  sql_put k v ts ttl exp flags d rc d' :
    key_ok k -> step_put (Some k) (Some v) ts ttl exp flags d = (rc, d') ->
    table d' = if rc =? SQLITE_DONE then <[k := mk_row v ts ttl exp flags]> (table d) else table d;
  sql_put_null k ts ttl exp flags d rc d' :
    step_put k None ts ttl exp flags d = (rc, d') -> rc <> SQLITE_DONE /\ table d' = table d;
  sql_get k now d :
    key_ok k ->
    step_get (Some k) now d = match table d !! k with
                              | Some w => if unexpired now (w_expires_at w) then Some (k, w) else None
                              | None => None
                              end;
  sql_get_null now d : step_get None now d = None;
  sql_prefix lo hi now limit d :
    key_ok lo -> key_ok hi ->
    query (table d) (fun k w => key_leb lo k && key_ltb k hi && unexpired now (w_expires_at w))
      (fun a b => key_leb a.1 b.1 = true) limit (step_prefix (Some lo) (Some hi) now limit d);
  sql_prefix_null hi now limit d : step_prefix None hi now limit d = [];
  sql_del k d n d' :
    key_ok k -> step_del (Some k) d = (n, d') ->
    n = (if bool_decide (is_Some (table d !! k)) then 1 else 0) /\ table d' = delete k (table d);
  sql_del_null d n d' : step_del None d = (n, d') -> n = 0 /\ table d' = table d;
  sql_since since now limit d :
    query (table d) (fun _ w => (since <? w_timestamp_us w) && unexpired now (w_expires_at w))
      (fun a b => w_timestamp_us a.2 <= w_timestamp_us b.2) limit (step_since since now limit d);
  sql_cleanup now d n d' :
    step_cleanup now d = (n, d') ->
    table d' = base.filter (fun kw => ~ (0 < w_expires_at kw.2 <= now)) (table d) /\
    (Z.of_nat (size (table d)) < 2 ^ 31 -> n = Z.of_nat (size (table d)) - Z.of_nat (size (table d')));
}.

(** ** The operations of [Sqlite] *)

Section sqlite.
Context {D : Type} `{!SqlEngine D}.

(** The key is read as a C string. *)
Definition row_to_entry (kw : bytes * row) : Entry :=
  mk_kv (until_nul kw.1) (w_value kw.2) (u64 (w_timestamp_us kw.2)) (u64 (w_ttl_s kw.2)) (u8 (w_flags kw.2)).

Definition sqlite_put (now : Z) (key value : view) (ttl_s flags : Z) (d : D) : bool * D :=
  let expires := if 0 <? ttl_s then u64 (now / 1000000 + ttl_s) else 0 in
  let '(rc, d) := step_put key value (i64 now) (i64 ttl_s) (i64 expires) flags d in
  (rc =? SQLITE_DONE, d).

Definition sqlite_get (now : Z) (key : view) (d : D) : option Entry :=
  row_to_entry <$> step_get key (i64 (now / 1000000)) d.

(** [end_key]: the last [char] plus one. *)
Definition prefix_end (prefix : bytes) : bytes :=
  match last prefix with
  | Some c => take (length prefix - 1) prefix ++ [z2b (b2z c + 1)]
  | None => [xff]
  end.

Definition sqlite_get_prefix (now : Z) (prefix : view) (max_results : Z) (d : D) : list Entry :=
  let max_results := if max_results =? 0 then 32 else max_results in
  let end_key := prefix_end (default [] prefix) in
  map row_to_entry (step_prefix prefix (Some end_key) (i64 (now / 1000000)) (i32 max_results) d).

Definition sqlite_del (key : view) (d : D) : bool * D :=
  let '(changes, d) := step_del key d in (0 <? changes, d).

Definition sqlite_get_since (now since max_results : Z) (d : D) : list Entry :=
  let max_results := if max_results =? 0 then 256 else max_results in
  map row_to_entry (step_since (i64 since) (i64 (now / 1000000)) (i32 max_results) d).

Definition sqlite_cleanup_expired (now : Z) (d : D) : Z * D :=
  let '(changes, d) := step_cleanup (i64 (now / 1000000)) d in (u64 changes, d).

#[export] Instance Sqlite : IStore D := {
  put := sqlite_put;
  get := sqlite_get;
  get_prefix := sqlite_get_prefix;
  del := sqlite_del;
  get_since := sqlite_get_since;
  cleanup_expired := sqlite_cleanup_expired;
}.
End sqlite.

(** ** The order of keys *)

Lemma key_leb_refl a : key_leb a a = true.
Proof. induction a as [|x a IH]; simpl; [done|]. by rewrite Z.eqb_refl, IH, orb_true_r. Qed.

Lemma key_leb_trans a b c : key_leb a b = true -> key_leb b c = true -> key_leb a c = true.
Proof.
  revert b c. induction a as [|x a IH]; intros [|y b] [|z c]; simpl; try done.
  rewrite !orb_true_iff, !andb_true_iff, !Z.ltb_lt, !Z.eqb_eq.
  intros [?|[? ?]] [?|[? ?]]; [left; lia..|]. right. split; [lia|]. by apply (IH b).
Qed.

Lemma key_leb_total a b : key_leb a b = true \/ key_leb b a = true.
Proof.
  revert b. induction a as [|x a IH]; intros [|y b]; simpl; auto.
  rewrite !orb_true_iff, !andb_true_iff, !Z.ltb_lt, !Z.eqb_eq. destruct (Z.lt_trichotomy (b2z x) (b2z y)) as [|[|]], (IH b); auto 6.
Qed.

Lemma starts_with_cons x k y p : starts_with (x :: k) (y :: p) = bool_decide (x = y) && starts_with k p.
Proof. unfold starts_with. rewrite <-bool_decide_and. apply bool_decide_ext. cbn [length take]. split; [by intros [= -> ->]|by intros [-> ->]]. Qed.

Lemma starts_with_nil k : starts_with k [] = true.
Proof. by apply bool_decide_true. Qed.

(** Up to the successor of the last byte, the range of a prefix is the keys that have it. *)
Lemma prefix_range p c k :
  c <> xff ->
  key_leb (p ++ [c]) k && key_ltb k (p ++ [z2b (b2z c + 1)]) = starts_with k (p ++ [c]).
Proof.
  intros Hc. assert (b2z c + 1 < 256) as Hlt.
  { pose proof (b2z_range c). destruct (decide (b2z c = 255)) as [He|]; [|lia].
    destruct Hc. by apply b2z_inj. }
  pose proof (b2z_range c) as Hr. unfold key_ltb.
  revert k. induction p as [|y p IH]; intros [|x k]; try done.
  - simpl app. rewrite starts_with_cons, starts_with_nil. simpl. rewrite b2z_z2b_small by lia.
    rewrite andb_true_r.
    case_bool_decide as Hx; [subst; destruct k; simpl|].
    + rewrite Z.ltb_irrefl, Z.eqb_refl. simpl. destruct (Z.ltb_spec (b2z c + 1) (b2z c)), (Z.eqb_spec (b2z c + 1) (b2z c)); lia || done.
    + rewrite Z.ltb_irrefl, Z.eqb_refl. simpl. destruct (Z.ltb_spec (b2z c + 1) (b2z c)), (Z.eqb_spec (b2z c + 1) (b2z c)); lia || done.
    + assert (b2z x <> b2z c) by (intros ?%b2z_inj; done).
      destruct (Z.ltb_spec (b2z c) (b2z x)), (Z.eqb_spec (b2z c) (b2z x)), (Z.ltb_spec (b2z c + 1) (b2z x)),
        (Z.eqb_spec (b2z c + 1) (b2z x)); simpl; lia || done.
  - simpl app. rewrite starts_with_cons. simpl. specialize (IH k). case_bool_decide as Hx.
    + subst. rewrite !Z.ltb_irrefl, !Z.eqb_refl. simpl. exact IH.
    + assert (b2z x <> b2z y) by (intros ?%b2z_inj; done).
      destruct (Z.ltb_spec (b2z y) (b2z x)), (Z.eqb_spec (b2z y) (b2z x)); simpl; lia || done.
Qed.

(** After 0xff the successor is 0: the range is empty. *)
Lemma prefix_range_ff p k :
  key_leb (p ++ [xff]) k && key_ltb k (p ++ [z2b (b2z xff + 1)]) = false.
Proof.
  change (z2b (b2z xff + 1)) with x00. unfold key_ltb.
  revert k. induction p as [|y p IH]; intros [|x k]; try done.
  - cbn [key_leb app]. change (b2z xff) with 255. change (b2z x00) with 0. pose proof (b2z_range x).
    destruct (Z.ltb_spec 255 (b2z x)), (Z.eqb_spec 255 (b2z x)), (Z.ltb_spec 0 (b2z x)); cbn; lia || done.
  - simpl. destruct (Z.lt_trichotomy (b2z x) (b2z y)) as [Hl|[->|Hl]].
    + rewrite (proj2 (Z.ltb_ge _ _)) by lia. rewrite (proj2 (Z.eqb_neq _ _)) by lia. done.
    + rewrite Z.ltb_irrefl, Z.eqb_refl. simpl. apply IH.
    + rewrite (proj2 (Z.ltb_lt _ _)) by lia. done.
Qed.

(** ** [Sqlite] implements the interface *)

Lemma StronglySorted_map {A B} (R : relation A) (Q : relation B) (f : A -> B) l :
  (forall a b, a ∈ l -> b ∈ l -> R a b -> Q (f a) (f b)) -> StronglySorted R l -> StronglySorted Q (map f l).
Proof.
  intros HRQ Hl. induction Hl as [|a l Hl IH Ha]; simpl; constructor.
  - apply IH. intros x y Hx Hy. apply HRQ; by right.
  - apply Forall_forall. intros y Hy. apply list_elem_of_In, in_map_iff in Hy as (b & <- & Hb).
    rewrite <-list_elem_of_In in Hb. rewrite Forall_forall in Ha. apply HRQ; [left|by right|auto].
Qed.

Section sqlite_laws.
Context {D : Type} `{!SqlEngine D, !SqlLaws D}.

(** A row as [put] writes it. *)
Definition row_ok (k : bytes) (w : row) : Prop :=
  key_ok k /\ fits 63 (w_timestamp_us w) /\ fits 8 (w_flags w) /\
  w_expires_at w = expires_at (w_timestamp_us w) (u64 (w_ttl_s w)).

Definition sqlite_ok (d : D) : Prop := map_Forall row_ok (table d).

Definition entries (d : D) : gmap bytes Entry := map_imap (fun k w => Some (row_to_entry (k, w))) (table d).

Lemma lookup_entries d k : entries d !! k = (fun w => row_to_entry (k, w)) <$> table d !! k.
Proof. unfold entries. rewrite map_lookup_imap. by destruct (table d !! k). Qed.

Lemma entries_key d k e : sqlite_ok d -> entries d !! k = Some e -> e_key e = k /\ entry_ok e.
Proof.
  intros Hd He. rewrite lookup_entries in He. apply fmap_Some in He as (w & Hw & ->).
  destruct (Hd k w Hw) as (Hk & Ht & Hf & _). unfold entry_ok. simpl.
  rewrite until_nul_id by done. rewrite (wrap_small 64 (w_timestamp_us w)) by (unfold fits in *; lia).
  rewrite (wrap_small 8 (w_flags w)) by done. split_and!; try done || apply wrap_fits; lia.
Qed.

Lemma row_live d k w now :
  sqlite_ok d -> table d !! k = Some w ->
  live now (row_to_entry (k, w)) = unexpired (i64 (now / 1000000)) (w_expires_at w).
Proof.
  intros Hd Hw. destruct (Hd k w Hw) as (_ & Ht & _ & ->). unfold live. simpl.
  by rewrite (wrap_small 64 (w_timestamp_us w)) by (unfold fits in *; lia).
Qed.

(** A query gives the entries of the rows it selects. *)
Lemma query_entries d P R Q n res dflt m :
  sqlite_ok d -> query (table d) P R n res -> 0 <= n ->
  n = (if m =? 0 then dflt else m) ->
  (forall a b, table d !! a.1 = Some a.2 -> table d !! b.1 = Some b.2 -> R a b ->
     Q (row_to_entry a) (row_to_entry b)) ->
  exists l, map row_to_entry res = limited dflt m l /\ StronglySorted Q l /\ NoDup l /\
    (forall e, e ∈ l <-> exists w, table d !! e_key e = Some w /\ e = row_to_entry (e_key e, w) /\
                                   P (e_key e) w = true).
Proof.
  intros Hd (l & -> & Hs & Hn & Hl) Hn0 Hm HR. exists (map row_to_entry l).
  assert (forall kw, kw ∈ l -> table d !! kw.1 = Some kw.2 /\ until_nul kw.1 = kw.1) as Hin.
  { intros [k w] Hkw%Hl. destruct Hkw as [Hkw _]. split; [done|]. apply until_nul_id, (Hd k w Hkw). }
  split_and!.
  - unfold sql_limit, limited. rewrite <-Hm. rewrite (proj2 (Z.ltb_ge n 0)) by lia. by rewrite firstn_map.
  - apply (StronglySorted_map R); [|done]. intros a b Ha%Hin Hb%Hin. apply HR; [apply Ha|apply Hb].
  - apply NoDup_fmap_2_strong; [|done]. intros a b Ha Hb Hab.
    apply Hin in Ha as [Ha1 Ha2], Hb as [Hb1 Hb2]. pose proof (f_equal e_key Hab) as Hk. simpl in Hk.
    rewrite Ha2, Hb2 in Hk. destruct a as [ka wa], b as [kb wb]. simpl in *. congruence.
  - intros e. rewrite list_elem_of_In, in_map_iff. split.
    + intros ([k w] & <- & Hkw). rewrite <-list_elem_of_In in Hkw. pose proof (Hin _ Hkw) as [Ht Hu].
      apply Hl in Hkw. exists w. simpl in *. rewrite Hu. destruct Hkw as [_ HP]. done.
    + intros (w & Hw & He & HP). exists (e_key e, w). split; [done|]. apply list_elem_of_In, Hl. done.
Qed.

Lemma put_row now k v ttl flags d :
  entry_ok (mk_kv k v now ttl flags) ->
  let w := mk_row v (i64 now) (i64 ttl) (i64 (if 0 <? ttl then u64 (now / 1000000 + ttl) else 0)) flags in
  row_ok k w /\ row_to_entry (k, w) = mk_kv k v now ttl flags /\
  (sqlite_ok d -> map_Forall row_ok (<[k := w]> (table d))) /\
  map_imap (fun k w => Some (row_to_entry (k, w))) (<[k := w]> (table d)) =
    <[k := mk_kv k v now ttl flags]> (entries d).
Proof.
  intros (Hk & Ht & Hl & Hf) w. simpl in Hk, Ht, Hl, Hf.
  assert (row_to_entry (k, w) = mk_kv k v now ttl flags) as Hw.
  { unfold row_to_entry. simpl. rewrite until_nul_id by done. rewrite !wrap_signed by (done || unfold fits in *; lia).
    by rewrite (wrap_small 8). }
  assert (row_ok k w) as Hok.
  { unfold row_ok. simpl. rewrite (signed_small 64 now) by (done || lia). split_and!; try done.
    rewrite wrap_signed by (done || lia). unfold expires_at. by destruct (0 <? ttl). }
  split_and!; try done.
  - intros Hd. by apply map_Forall_insert_2.
  - unfold entries. rewrite <-Hw. apply map_imap_insert_Some. done.
Qed.

Lemma sqlite_put_law now k v ttl flags d b d' :
  sqlite_ok d -> entry_ok (mk_kv k v now ttl flags) ->
  sqlite_put now (Some k) (Some v) ttl flags d = (b, d') ->
  sqlite_ok d' /\ entries d' = if b then <[k := mk_kv k v now ttl flags]> (entries d) else entries d.
Proof.
  intros Hd He. unfold sqlite_put.
  destruct (step_put _ _ _ _ _ _ _) as [rc d1] eqn:Hs. intros [= <- <-].
  apply sql_put in Hs; [|apply He].
  destruct (put_row now k v ttl flags d He) as (_ & _ & Hf & Hm).
  unfold sqlite_ok, entries. rewrite Hs. destruct (rc =? SQLITE_DONE); auto.
Qed.

Lemma sqlite_put_null now ttl flags d d' b :
  sqlite_ok d -> sqlite_put now None None ttl flags d = (b, d') ->
  b = false /\ sqlite_ok d' /\ entries d' = entries d.
Proof.
  intros Hd. unfold sqlite_put. destruct (step_put _ _ _ _ _ _ _) as [rc d1] eqn:Hs. intros [= <- <-].
  apply sql_put_null in Hs as [Hrc Ht]. unfold sqlite_ok, entries. rewrite Ht. by rewrite (proj2 (Z.eqb_neq _ _)).
Qed.

Lemma sqlite_get_law now k d :
  sqlite_ok d -> key_ok k ->
  sqlite_get now (Some k) d = match entries d !! k with
                              | Some e => if live now e then Some e else None
                              | None => None
                              end.
Proof.
  intros Hd Hk. unfold sqlite_get. rewrite sql_get by done. rewrite lookup_entries.
  destruct (table d !! k) as [w|] eqn:Hw; [|done]. simpl. rewrite (row_live d) by done.
  by destruct (unexpired _ _).
Qed.

Lemma prefix_end_app p c : prefix_end (p ++ [c]) = p ++ [z2b (b2z c + 1)].
Proof.
  unfold prefix_end. rewrite last_snoc. f_equal. rewrite length_app. simpl.
  rewrite Nat.add_sub. by rewrite take_app_length.
Qed.

Lemma next_byte_ok p c : key_ok (p ++ [c]) -> c <> xff -> key_ok (p ++ [z2b (b2z c + 1)]).
Proof.
  unfold key_ok. rewrite !not_elem_of_app, !list_elem_of_singleton. intros [Hp _] Hc. split; [done|].
  intros H%(f_equal b2z). rewrite b2z_z2b in H. change (b2z x00) with 0 in H. pose proof (b2z_range c).
  destruct (decide (b2z c = 255)) as [He|]; [by apply Hc, b2z_inj|]. rewrite Z.mod_small in H; lia.
Qed.

Lemma result_limit dflt n : 0 < dflt < 2 ^ 31 -> 0 <= n < 2 ^ 31 ->
  i32 (if n =? 0 then dflt else n) = (if n =? 0 then dflt else n) /\ 0 <= (if n =? 0 then dflt else n).
Proof. intros. destruct (n =? 0); (split; [apply signed_small; unfold fits; lia|lia]). Qed.

Lemma sqlite_get_prefix_law now p c n d :
  sqlite_ok d -> key_ok (p ++ [c]) -> c <> xff -> 0 <= n < 2 ^ 31 ->
  exists l, sqlite_get_prefix now (Some (p ++ [c])) n d = limited 32 n l /\
    StronglySorted by_key l /\ NoDup l /\
    (forall e, e ∈ l <-> entries d !! e_key e = Some e /\ live now e = true /\
                         starts_with (e_key e) (p ++ [c]) = true).
Proof.
  intros Hd Hk Hc Hn. unfold sqlite_get_prefix. simpl default. rewrite prefix_end_app.
  destruct (result_limit 32 n) as [-> H0]; [lia..|].
  destruct (query_entries d _ _ by_key _ _ 32 n Hd
    (sql_prefix (p ++ [c]) (p ++ [z2b (b2z c + 1)]) (i64 (now / 1000000)) _ d Hk (next_byte_ok p c Hk Hc)) H0 eq_refl)
    as (l & Hres & Hs & Hnd & Hl).
  { intros [ka wa] [kb wb] Ha Hb. simpl in *. unfold by_key. simpl.
    rewrite !until_nul_id; [done|apply (Hd kb wb Hb)|apply (Hd ka wa Ha)]. }
  exists l. split_and!; try done. intros e. rewrite Hl. split.
  - intros (w & Hw & He & [Hr Hu]%andb_true_iff). rewrite prefix_range in Hr by done.
    split_and!; [rewrite lookup_entries, Hw; simpl; congruence|rewrite He, (row_live d); done|done].
  - intros (He & Hlv & Hst). rewrite lookup_entries in He. apply fmap_Some in He as (w & Hw & He).
    exists w. rewrite prefix_range, Hst by done. simpl. rewrite He, (row_live d) in Hlv by done. done.
Qed.

Lemma sqlite_del_law k d b d' :
  sqlite_ok d -> key_ok k -> sqlite_del (Some k) d = (b, d') ->
  sqlite_ok d' /\ b = bool_decide (is_Some (entries d !! k)) /\ entries d' = delete k (entries d).
Proof.
  intros Hd Hk. unfold sqlite_del. destruct (step_del _ d) as [n d1] eqn:Hs. intros [= <- <-].
  apply sql_del in Hs as [-> Ht]; [|done]. split_and!.
  - unfold sqlite_ok. rewrite Ht. by apply map_Forall_delete.
  - rewrite lookup_entries, (bool_decide_ext (is_Some (_ <$> _)) _ (fmap_is_Some _ _)).
    by case_bool_decide.
  - unfold entries. rewrite Ht. apply map_imap_delete.
Qed.

Lemma sqlite_del_null d b d' :
  sqlite_ok d -> sqlite_del None d = (b, d') -> sqlite_ok d' /\ b = false /\ entries d' = entries d.
Proof.
  intros Hd. unfold sqlite_del. destruct (step_del _ d) as [n d1] eqn:Hs. intros [= <- <-].
  apply sql_del_null in Hs as [-> Ht]. unfold sqlite_ok, entries. by rewrite Ht.
Qed.

Lemma sqlite_get_since_law now since n d :
  sqlite_ok d -> 0 <= since < 2 ^ 63 -> 0 <= n < 2 ^ 31 ->
  exists l, sqlite_get_since now since n d = limited 256 n l /\
    StronglySorted by_time l /\ NoDup l /\
    (forall e, e ∈ l <-> entries d !! e_key e = Some e /\ live now e = true /\ since < e_timestamp_us e).
Proof.
  intros Hd Hsi Hn. unfold sqlite_get_since.
  destruct (result_limit 256 n) as [-> H0]; [lia..|].
  assert (forall k w, table d !! k = Some w -> u64 (w_timestamp_us w) = w_timestamp_us w) as Hts.
  { intros k w Hw. destruct (Hd k w Hw) as (_ & Ht & _). apply wrap_small. unfold fits in *. lia. }
  destruct (query_entries d _ _ by_time _ _ 256 n Hd
    (sql_since (i64 since) (i64 (now / 1000000)) _ d) H0 eq_refl) as (l & Hres & Hs & Hnd & Hl).
  { intros [ka wa] [kb wb] Ha Hb. simpl in *. unfold by_time. simpl. by rewrite (Hts ka wa), (Hts kb wb). }
  exists l. split_and!; try done. intros e. rewrite Hl. rewrite (signed_small 64 since) by (unfold fits; lia). split.
  - intros (w & Hw & He & [Hr%Z.ltb_lt Hu]%andb_true_iff).
    split_and!; [rewrite lookup_entries, Hw; simpl; congruence|rewrite He, (row_live d); done|].
    rewrite He. simpl. by rewrite (Hts (e_key e) w).
  - intros (He & Hlv & Hst). rewrite lookup_entries in He. apply fmap_Some in He as (w & Hw & He).
    exists w. rewrite He in Hst. simpl in Hst. rewrite (Hts (e_key e) w) in Hst by done.
    rewrite (proj2 (Z.ltb_lt _ _)) by done. simpl. rewrite He, (row_live d) in Hlv by done. done.
Qed.

Lemma size_entries d : size (entries d) = size (table d).
Proof.
  rewrite <-!size_dom. f_equal. apply set_eq. intros k. rewrite !elem_of_dom, lookup_entries.
  apply fmap_is_Some.
Qed.

Lemma sqlite_cleanup_law now d n d' :
  sqlite_ok d -> sqlite_cleanup_expired now d = (n, d') ->
  sqlite_ok d' /\
  (forall k e, entries d' !! k = Some e <->
     entries d !! k = Some e /\ (live now e = true \/ expires_at (e_timestamp_us e) (e_ttl_s e) <= 0)) /\
  (Z.of_nat (size (entries d)) < 2 ^ 31 ->
     n = Z.of_nat (size (entries d)) - Z.of_nat (size (entries d'))).
Proof.
  intros Hd. unfold sqlite_cleanup_expired. destruct (step_cleanup _ d) as [m d1] eqn:Hs. intros [= <- <-].
  apply sql_cleanup in Hs as [Ht Hm]. rewrite !size_entries. split_and!.
  - unfold sqlite_ok. rewrite Ht. intros k w [Hw _]%map_lookup_filter_Some. by apply Hd.
  - intros k e. rewrite !lookup_entries, Ht, !fmap_Some.
    split.
    + intros (w & [Hw Hx]%map_lookup_filter_Some & ->). split; [by exists w|].
      rewrite (row_live d) by done. destruct (Hd k w Hw) as (_ & Hts & _ & Hexp). simpl in *.
      rewrite (wrap_small 64 (w_timestamp_us w)) by (unfold fits in *; lia). rewrite <-Hexp.
      unfold unexpired. destruct (Z.eqb_spec (w_expires_at w) 0); [by left|].
      destruct (Z.ltb_spec (i64 (now / 1000000)) (w_expires_at w)); [by left|]. right. lia.
    + intros [(w & Hw & ->) Hx]. exists w. split; [|done]. apply map_lookup_filter_Some. split; [done|]. simpl.
      rewrite (row_live d) in Hx by done. destruct (Hd k w Hw) as (_ & Hts & _ & Hexp). simpl in *.
      rewrite (wrap_small 64 (w_timestamp_us w)) in Hx by (unfold fits in *; lia). rewrite <-Hexp in Hx.
      unfold unexpired in Hx. intros Hc. destruct Hx as [[?%Z.eqb_eq|?%Z.ltb_lt]%orb_true_iff|?]; lia.
  - intros Hsz. rewrite Hm by done. apply wrap_small. unfold fits.
    assert (size (table d1) <= size (table d))%nat; [|lia].
    rewrite Ht. apply map_size_filter.
Qed.

Lemma sqlite_get_null now d : sqlite_get now None d = None.
Proof. unfold sqlite_get. by rewrite sql_get_null. Qed.

Lemma sqlite_get_prefix_null now n d : sqlite_get_prefix now None n d = [].
Proof. unfold sqlite_get_prefix. by rewrite sql_prefix_null. Qed.

#[export] Instance sqlite_laws : IStoreLaws D := {
  contents := entries;
  store_ok := sqlite_ok;
  contents_ok := entries_key;
  put_law := sqlite_put_law;
  put_null := sqlite_put_null;
  get_law := sqlite_get_law;
  get_null := sqlite_get_null;
  get_prefix_law := sqlite_get_prefix_law;
  get_prefix_null := sqlite_get_prefix_null;
  del_law := sqlite_del_law;
  del_null := sqlite_del_null;
  get_since_law := sqlite_get_since_law;
  cleanup_law := sqlite_cleanup_law;
}.
End sqlite_laws.

(** ** An engine that satisfies the laws: the table itself *)

Section toy_engine.
Definition row_by_key (a b : bytes * row) : Prop := key_leb a.1 b.1 = true.
Definition row_by_time (a b : bytes * row) : Prop := w_timestamp_us a.2 <= w_timestamp_us b.2.

#[local] Instance row_by_key_dec : RelDecision row_by_key.
Proof. intros a b. unfold row_by_key. apply _. Defined.
#[local] Instance row_by_time_dec : RelDecision row_by_time.
Proof. intros a b. unfold row_by_time. apply _. Defined.
#[local] Instance row_by_key_trans : Transitive row_by_key.
Proof. intros a b c. apply key_leb_trans. Qed.
#[local] Instance row_by_time_trans : Transitive row_by_time.
Proof. intros a b c. unfold row_by_time. lia. Qed.
#[local] Instance row_by_key_total : Total row_by_key.
Proof. intros a b. apply key_leb_total. Qed.
#[local] Instance row_by_time_total : Total row_by_time.
Proof. intros a b. unfold row_by_time. lia. Qed.

Definition select (R : relation (bytes * row)) `{!RelDecision R} (P : bytes -> row -> bool) (limit : Z)
    (t : gmap bytes row) : list (bytes * row) :=
  sql_limit limit (merge_sort R (base.filter (fun kw => P kw.1 kw.2 = true) (map_to_list t))).

Lemma query_select R `{!RelDecision R, !Transitive R, !Total R} P limit t :
  query t P R limit (select R P limit t).
Proof.
  eexists. split_and!; [done|by apply StronglySorted_merge_sort| |].
  - rewrite merge_sort_Permutation. apply NoDup_filter, NoDup_map_to_list.
  - intros k w. rewrite merge_sort_Permutation, list_elem_of_filter, elem_of_map_to_list. tauto.
Qed.

#[export] Instance toy_sql : SqlEngine (gmap bytes row) := {
  step_put k v ts ttl exp flags t :=
    match k, v with
    | Some k, Some v => (SQLITE_DONE, <[k := mk_row v ts ttl exp flags]> t)
    | _, _ => (19, t)
    end;
  step_get k now t :=
    match k with
    | Some k => match t !! k with
                | Some w => if unexpired now (w_expires_at w) then Some (k, w) else None
                | None => None
                end
    | None => None
    end;
  step_prefix lo hi now limit t :=
    match lo, hi with
    | Some lo, Some hi =>
        select row_by_key (fun k w => key_leb lo k && key_ltb k hi && unexpired now (w_expires_at w)) limit t
    | _, _ => []
    end;
  step_del k t :=
    match k with
    | Some k => ((if bool_decide (is_Some (t !! k)) then 1 else 0), delete k t)
    | None => (0, t)
    end;
  step_since since now limit t :=
    select row_by_time (fun _ w => (since <? w_timestamp_us w) && unexpired now (w_expires_at w)) limit t;
  step_cleanup now t :=
    let t' := base.filter (fun kw => ~ (0 < w_expires_at kw.2 <= now)) t in
    (Z.of_nat (size t) - Z.of_nat (size t'), t');
}.

#[export] Instance toy_sql_laws : SqlLaws (gmap bytes row).
Proof.
  refine {| table := fun t : gmap bytes row => t |}.
  - by intros * _ [= <- <-].
  - intros [k|] *; simpl; by intros [= <- <-].
  - done.
  - done.
  - intros *. intros _ _. apply (query_select row_by_key).
  - by intros [].
  - by intros * _ [= <- <-].
  - by intros * [= <- <-].
  - intros *. apply (query_select row_by_time).
  - by intros * [= <- <-].
Defined.
End toy_engine.

(** ** Runs of a backend against a finite map *)

Inductive store_op :=
  | SPut (now : Z) (key value : bytes) (ttl_s flags : Z)
  | SDel (key : bytes)
  | SCleanup (now : Z).

Definition op_ok (op : store_op) : Prop :=
  match op with
  | SPut now k v ttl flags => entry_ok (mk_kv k v now ttl flags)
  | SDel k => key_ok k
  | SCleanup _ => True
  end.

Inductive op_result := RBool (b : bool) | RCount (n : Z).

Definition run_store_op {S} `{!IStore S} (op : store_op) (s : S) : op_result * S :=
  match op with
  | SPut now k v ttl flags => let '(b, s) := put now (Some k) (Some v) ttl flags s in (RBool b, s)
  | SDel k => let '(b, s) := del (Some k) s in (RBool b, s)
  | SCleanup now => let '(n, s) := cleanup_expired now s in (RCount n, s)
  end.

Fixpoint run_store {S} `{!IStore S} (ops : list store_op) (s : S) : list op_result * S :=
  match ops with
  | [] => ([], s)
  | op :: ops => let '(r, s) := run_store_op op s in let '(rs, s) := run_store ops s in (r :: rs, s)
  end.

(** Entries [cleanup_expired] keeps. *)
Definition kept (now : Z) (e : Entry) : Prop := live now e = true \/ expires_at (e_timestamp_us e) (e_ttl_s e) <= 0.

(** The specification: a write either takes effect and reports it, or does neither. *)
Inductive map_step : gmap bytes Entry -> store_op -> op_result -> gmap bytes Entry -> Prop :=
  | map_put now k v ttl flags m :
      map_step m (SPut now k v ttl flags) (RBool true) (<[k := mk_kv k v now ttl flags]> m)
  | map_put_fails now k v ttl flags m : map_step m (SPut now k v ttl flags) (RBool false) m
  | map_del k m : map_step m (SDel k) (RBool (bool_decide (is_Some (m !! k)))) (delete k m)
  | map_cleanup now n m m' :
      (forall k e, m' !! k = Some e <-> m !! k = Some e /\ kept now e) ->
      (Z.of_nat (size m) < 2 ^ 31 -> n = Z.of_nat (size m) - Z.of_nat (size m')) ->
      map_step m (SCleanup now) (RCount n) m'.

Inductive map_run : gmap bytes Entry -> list store_op -> list op_result -> gmap bytes Entry -> Prop :=
  | map_run_nil m : map_run m [] [] m
  | map_run_cons m op r m1 ops rs m2 :
      map_step m op r m1 -> map_run m1 ops rs m2 -> map_run m (op :: ops) (r :: rs) m2.

Lemma run_store_refines {S} `{!IStore S, !IStoreLaws S} ops (s : S) :
  store_ok s -> Forall op_ok ops ->
  store_ok (run_store ops s).2 /\
  map_run (contents s) ops (run_store ops s).1 (contents (run_store ops s).2).
Proof.
  intros Hs Hops. revert s Hs. induction Hops as [|op ops Hop Hops IH]; intros s Hs; simpl; [split; [done|constructor]|].
  destruct (run_store_op op s) as [r s1] eqn:Hop1.
  assert (store_ok s1 /\ map_step (contents s) op r (contents s1)) as [Hs1 Hstep].
  { destruct op as [now k v ttl flags|k|now]; simpl in Hop1, Hop.
    - destruct (put _ _ _ _ _ s) as [b s2] eqn:Hp. injection Hop1 as <- <-.
      apply put_law in Hp as [Hok ->]; [|done..]. split; [done|]. destruct b; constructor.
    - destruct (del _ s) as [b s2] eqn:Hp. injection Hop1 as <- <-.
      apply del_law in Hp as (Hok & -> & ->); [|done..]. split; [done|]. constructor.
    - destruct (cleanup_expired _ s) as [n s2] eqn:Hp. injection Hop1 as <- <-.
      apply cleanup_law in Hp as (Hok & Hl & Hn); [|done]. split; [done|]. by constructor. }
  destruct (IH s1 Hs1) as [H1 H2]. destruct (run_store ops s1) as [rs s2]. simpl in *.
  split; [done|]. by econstructor.
Qed.

(** C21: The SQLite backend is a finite map with expiry.  Whatever is written, deleted and
    cleaned up from an empty table on, the results and the contents are those of the
    specification [map_run]; a lookup then returns exactly the entry the map holds for the
    key unless it has expired, and a prefix query exactly the unexpired entries whose key
    has the prefix, in byte order of the keys, up to the limit. *)
Theorem sqlite_refines_map {D} `{!SqlEngine D, !SqlLaws D} (d : D) ops :
  table d = ∅ -> Forall op_ok ops ->
  let d' := (run_store ops d).2 in
  exists m, map_run ∅ ops (run_store ops d).1 m /\
    (forall now k, key_ok k ->
       get now (Some k) d' = match m !! k with
                             | Some e => if live now e then Some e else None
                             | None => None
                             end) /\
    (forall now p c n, key_ok (p ++ [c]) -> c <> xff -> 0 <= n < 2 ^ 31 ->
       exists l, get_prefix now (Some (p ++ [c])) n d' = limited 32 n l /\
         StronglySorted by_key l /\ NoDup l /\
         forall e, e ∈ l <-> m !! e_key e = Some e /\ live now e = true /\
                             starts_with (e_key e) (p ++ [c]) = true).
Proof.
  intros He Hops d'.
  destruct (run_store_refines ops d) as [Hok Hrun]; [|done|].
  { unfold store_ok. simpl. unfold sqlite_ok. rewrite He. apply map_Forall_empty. }
  exists (contents d'). split_and!.
  - assert (contents d = ∅) as Hd; [|by rewrite Hd in Hrun].
    simpl. unfold entries. rewrite He. apply map_imap_empty.
  - intros now k Hk. by apply get_law.
  - intros now p c n Hk Hc Hn. by apply get_prefix_law.
Qed.

(** Closed keys and entries are checked by evaluation. *)
Ltac concrete_key := apply (bool_decide_unpack (x00 ∉ _)); vm_compute; exact I.
Ltac concrete_entry := split_and!; [concrete_key|apply (bool_decide_unpack (fits _ _)); vm_compute; exact I..].

Definition toy_ops : list store_op :=
  [SPut 1000000 (str_bytes "peer/a") [x01] 0 0; SPut 2000000 (str_bytes "peer/b") [x02] 5 1;
   SDel (str_bytes "peer/c"); SCleanup 3000000].

Lemma sqlite_refines_map_witness :
  Forall op_ok toy_ops /\
  exists m, map_run ∅ toy_ops (run_store toy_ops (∅ : gmap bytes row)).1 m /\
    get 8000000 (Some (str_bytes "peer/b")) (run_store toy_ops (∅ : gmap bytes row)).2 = None /\
    get_prefix 4000000 (Some (str_bytes "peer/")) 0 (run_store toy_ops (∅ : gmap bytes row)).2 =
      [mk_kv (str_bytes "peer/a") [x01] 1000000 0 0; mk_kv (str_bytes "peer/b") [x02] 2000000 5 1].
Proof.
  assert (Forall op_ok toy_ops) as Hops.
  { by repeat (apply Forall_cons_2; [first [exact I|concrete_key|concrete_entry]|]). }
  split; [done|].
  destruct (sqlite_refines_map (∅ : gmap bytes row) toy_ops) as (m & Hm & _); [reflexivity|exact Hops|].
  exists m. split; [exact Hm|]. split; vm_compute; reflexivity.
Defined.

(** A time to live so long that its end does not fit a signed 64-bit second makes the
    entry vanish: the write reports success, no lookup ever finds the entry, and the
    clean-up never removes it. *)
Theorem ttl_overflow_hides {D} `{!SqlEngine D, !SqlLaws D} (d d' : D) now k v ttl flags :
  store_ok d -> entry_ok (mk_kv k v now ttl flags) ->
  2 ^ 63 <= now / 1000000 + ttl < 2 ^ 64 ->
  put now (Some k) (Some v) ttl flags d = (true, d') ->
  (forall later, 0 <= later < 2 ^ 63 -> get later (Some k) d' = None) /\
  (forall later n d'', cleanup_expired later d' = (n, d'') -> is_Some (contents d'' !! k)).
Proof.
  intros Hd He Hov Hput. apply put_law in Hput as [Hok Hc]; [|done..].
  set (e := mk_kv k v now ttl flags) in *.
  assert (expires_at now ttl < 0) as Hx.
  { destruct He as (_ & Ht & _). simpl in Ht. unfold fits in Ht.
    assert (now / 1000000 < 2 ^ 63) by (apply Z.div_lt_upper_bound; lia).
    unfold expires_at. rewrite (proj2 (Z.ltb_lt 0 ttl)) by lia. unfold signed.
    rewrite wrap_idem, wrap_small by (unfold fits; lia). cbv zeta.
    rewrite (proj2 (Z.ltb_ge _ _)) by lia. lia. }
  split.
  - intros later Hl. rewrite get_law by (done || apply He). rewrite Hc, lookup_insert_eq.
    unfold live, unexpired. simpl. rewrite (proj2 (Z.eqb_neq _ 0)) by lia.
    assert (later / 1000000 <= later) by (apply Z.div_le_upper_bound; lia).
    pose proof (Z.div_pos later 1000000).
    rewrite (signed_small 64) by (unfold fits; lia). by rewrite (proj2 (Z.ltb_ge _ _)) by lia.
  - intros later n d'' Hcl. apply cleanup_law in Hcl as (_ & Hl & _); [|done].
    exists e. apply Hl. rewrite Hc, lookup_insert_eq. split; [done|]. right. simpl. lia.
Qed.

Lemma ttl_overflow_hides_witness :
  let d := (∅ : gmap bytes row) in
  let d' := (put 1000000 (Some [x6b]) (Some [x01]) (2 ^ 63) 0 d).2 in
  put 1000000 (Some [x6b]) (Some [x01]) (2 ^ 63) 0 d = (true, d') /\ get 2000000 (Some [x6b]) d' = None.
Proof.
  intros d d'. split; [vm_compute; reflexivity|].
  apply (ttl_overflow_hides d d' 1000000 [x6b] [x01] (2 ^ 63) 0).
  - apply map_Forall_empty.
  - concrete_entry.
  - split; vm_compute; done.
  - vm_compute. reflexivity.
  - lia.
Defined.
