(* ===== verification/StoreHandler.v ===== *)
(** * Store service ([apps/store/handler.cpp], [store_app.cpp])

    The handler of the STORE messages: it decodes requests, calls the backend through the
    interface [IStore], answers the sender and notifies subscribers.  Messages handed to the
    core are the outputs [h_out]; the core's result of sending is ignored by the code.  The
    wall clock is constant within one request. *)

From Stdlib Require Import ZArith Strings.Byte String Sorted Lia.
From stdpp Require Import base gmap list strings numbers.
From S2P Require Import Prelude Codec Wire Signals StoreBackend.

Local Open Scope Z_scope.

Record Sub := mk_sub { sub_conn_id : Z; sub_key : bytes; sub_query_type : Z }.

(** A message for the core to send: connection, message type, payload. *)
Record out_msg := mk_out { o_conn : Z; o_type : Z; o_payload : bytes }.

Record StoreHandler (S : Type) := mk_handler {
  h_backend : S;
  h_subscriptions : list Sub;
  h_out : list out_msg;
}.
Arguments mk_handler {S}.
Arguments h_backend {S}.
Arguments h_subscriptions {S}.
Arguments h_out {S}.

(** ** Serialization *)

Definition serialize_entry (e : Entry) : bytes :=
  let key_len := u16 (Z.of_nat (length (e_key e))) in
  let value_len := u16 (Z.of_nat (length (e_value e))) in
  cenc StoreEntry_codec
    (mk_StoreEntry key_len value_len (e_timestamp_us e) (e_ttl_s e) (e_flags e) (replicate 3 x00))
  ++ take (Z.to_nat key_len) (e_key e) ++ take (Z.to_nat value_len) (e_value e).

(** [entry_count] and the entries that follow. *)
Definition shown (entries : list Entry) : nat := Nat.min (length entries) 255.

Definition serialize_entries (entries : list Entry) : bytes :=
  concat (map serialize_entry (take (shown entries) entries)).

Definition serialize_result (request_id : Z) (entries : list Entry) (status : Z) : bytes :=
  cenc StoreResultPayload_codec
    (mk_StoreResultPayload request_id (Z.of_nat (shown entries)) status (replicate 2 x00)
       (u32 (Z.of_nat (length entries))))
  ++ serialize_entries entries.

Definition serialize_notify (now : Z) (entry : Entry) (event : Z) : bytes :=
  let ts := if e_timestamp_us entry =? 0 then now else e_timestamp_us entry in
  cenc StoreNotifyPayload_codec (mk_StoreNotifyPayload event (replicate 3 x00) ts) ++ serialize_entry entry.

(** ** Parsing helpers *)

Definition extract_kv (payload : bytes) (header_sz : nat) (key_len value_len : Z) : view * view :=
  let kl := Z.to_nat key_len in
  let vl := Z.to_nat value_len in
  if bool_decide (length payload < header_sz + kl + vl)%nat then (None, None)
  else (Some (slice header_sz kl payload), Some (slice (header_sz + kl) vl payload)).

(** The key of GET, DELETE and SUBSCRIBE: a default [string_view] unless it is present. *)
Definition tail_key (raw : bytes) (header_sz : nat) (key_len : Z) : view :=
  let kl := Z.to_nat key_len in
  if (0 <? key_len) && bool_decide (header_sz + kl <= length raw)%nat then Some (slice header_sz kl raw)
  else None.

(** [string_view::empty] and its conversion to [std::string]. *)
Definition view_empty (v : view) : bool := match v with Some (_ :: _) => false | _ => true end.
Definition view_str (v : view) : bytes := default [] v.

(** ** Operations *)

Section handler.
Context {S : Type} `{!IStore S}.

Abbreviation handler := (StoreHandler S).

Definition send (conn type : Z) (payload : bytes) (h : handler) : handler :=
  mk_handler (h_backend h) (h_subscriptions h) (h_out h ++ [mk_out conn type payload]).

Definition set_backend (s : S) (h : handler) : handler := mk_handler s (h_subscriptions h) (h_out h).
Definition set_subscriptions (l : list Sub) (h : handler) : handler := mk_handler (h_backend h) l (h_out h).

Definition matches (entry : Entry) (sub : Sub) : bool :=
  if sub_query_type sub =? 0 then bool_decide (sub_key sub = e_key entry)
  else starts_with (e_key entry) (sub_key sub).

Definition notify_subscribers (now : Z) (entry : Entry) (event : Z) (h : handler) : handler :=
  fold_left (fun h sub =>
      if matches entry sub then
        send (sub_conn_id sub) MSG_TYPE_SYS_STORE_NOTIFY (serialize_notify now entry event) h
      else h)
    (h_subscriptions h) h.

Definition reply_result (conn request_id : Z) (entries : list Entry) (status : Z) (h : handler) : handler :=
  send conn MSG_TYPE_SYS_STORE_RESULT (serialize_result request_id entries status) h.

Definition on_put (now conn : Z) (raw : bytes) (h : handler) : propagation_t * handler :=
  if bool_decide (length raw < csize StorePutPayload_codec)%nat then (PROPAGATION_REJECT, h)
  else
    let p := cdec StorePutPayload_codec raw in
    if (STORE_KEY_MAX_LEN <? sp_key_len p) || (STORE_VALUE_MAX_LEN <? sp_value_len p) then (PROPAGATION_REJECT, h)
    else
      let '(key, value) := extract_kv raw (csize StorePutPayload_codec) (sp_key_len p) (sp_value_len p) in
      if view_empty key && (0 <? sp_key_len p) then (PROPAGATION_REJECT, h)
      else
        let '(ok, s) := put now key value (sp_ttl_s p) (sp_flags p) (h_backend h) in
        let h := set_backend s h in
        let h := reply_result conn (sp_request_id p) [] (if ok : bool then 0 else 2) h in
        let h := if ok then
                   notify_subscribers now
                     (mk_kv (view_str key) (view_str value) now (sp_ttl_s p) (sp_flags p)) 0 h
                 else h in
        (PROPAGATION_CONSUMED, h).

Definition on_get (now conn : Z) (raw : bytes) (h : handler) : propagation_t * handler :=
  if bool_decide (length raw < csize StoreGetPayload_codec)%nat then (PROPAGATION_REJECT, h)
  else
    let g := cdec StoreGetPayload_codec raw in
    if STORE_KEY_MAX_LEN <? sg_key_len g then (PROPAGATION_REJECT, h)
    else
      let key := tail_key raw (csize StoreGetPayload_codec) (sg_key_len g) in
      let max_results := if sg_max_results g =? 0 then 32 else sg_max_results g in
      let entries :=
        if sg_query_type g =? 0 then option_list (get now key (h_backend h))
        else if (sg_query_type g =? 1) || (sg_query_type g =? 2) then
          get_prefix now key max_results (h_backend h)
        else [] in
      let status := match entries with [] => 1 | _ => 0 end in
      (PROPAGATION_CONSUMED, reply_result conn (sg_request_id g) entries status h).

Definition on_delete (now conn : Z) (raw : bytes) (h : handler) : propagation_t * handler :=
  if bool_decide (length raw < csize StoreDeletePayload_codec)%nat then (PROPAGATION_REJECT, h)
  else
    let d := cdec StoreDeletePayload_codec raw in
    if STORE_KEY_MAX_LEN <? sd_key_len d then (PROPAGATION_REJECT, h)
    else
      let key := tail_key raw (csize StoreDeletePayload_codec) (sd_key_len d) in
      let '(existed, s) := del key (h_backend h) in
      let h := set_backend s h in
      let h := reply_result conn (sd_request_id d) [] (if existed : bool then 0 else 1) h in
      let h := if existed then notify_subscribers now (mk_kv (view_str key) [] now 0 0) 2 h else h in
      (PROPAGATION_CONSUMED, h).

Definition on_subscribe (conn : Z) (raw : bytes) (h : handler) : propagation_t * handler :=
  if bool_decide (length raw < csize StoreSubscribePayload_codec)%nat then (PROPAGATION_REJECT, h)
  else
    let b := cdec StoreSubscribePayload_codec raw in
    let key := view_str (tail_key raw (csize StoreSubscribePayload_codec) (ss_key_len b)) in
    let subs :=
      if ss_action b =? 0 then h_subscriptions h ++ [mk_sub conn key (ss_query_type b)]
      else base.filter (fun s => ~ (sub_conn_id s = conn /\ sub_key s = key)) (h_subscriptions h) in
    (PROPAGATION_CONSUMED, reply_result conn (ss_request_id b) [] 0 (set_subscriptions subs h)).

(** One round of the import loop: an entry newer than ours is written. *)
Definition import_entry (now : Z) (e : Entry) (s : S) : S :=
  let newer := match get now (Some (e_key e)) s with
               | None => true
               | Some existing => e_timestamp_us existing <? e_timestamp_us e
               end in
  if newer then (put now (Some (e_key e)) (Some (e_value e)) (e_ttl_s e) (e_flags e) s).2 else s.

Fixpoint import_entries (now : Z) (count : nat) (data : bytes) (s : S) : S :=
  match count with
  | O => s
  | Datatypes.S count =>
      if bool_decide (length data < csize StoreEntry_codec)%nat then s
      else
        let se := cdec StoreEntry_codec data in
        let data := drop (csize StoreEntry_codec) data in
        let kl := Z.to_nat (se_key_len se) in
        let vl := Z.to_nat (se_value_len se) in
        if bool_decide (length data < kl + vl)%nat then s
        else
          let e := mk_kv (take kl data) (slice kl vl data) (se_timestamp_us se) (se_ttl_s se) (se_flags se) in
          import_entries now count (drop (kl + vl) data) (import_entry now e s)
  end.

Definition sync_response (request_id : Z) (entries : list Entry) : bytes :=
  cenc StoreSyncPayload_codec
    (mk_StoreSyncPayload request_id 1 (Z.of_nat (shown entries)) (replicate 2 x00) 0)
  ++ serialize_entries entries.

Definition on_sync (now conn : Z) (raw : bytes) (h : handler) : propagation_t * handler :=
  if bool_decide (length raw < csize StoreSyncPayload_codec)%nat then (PROPAGATION_REJECT, h)
  else
    let y := cdec StoreSyncPayload_codec raw in
    if sy_sync_type y =? 0 then
      let entries := get_since now (sy_since_timestamp y) 256 (h_backend h) in
      (PROPAGATION_CONSUMED,
       send conn MSG_TYPE_SYS_STORE_SYNC (sync_response (sy_request_id y) entries) h)
    else if (sy_sync_type y =? 1) || (sy_sync_type y =? 2) then
      (PROPAGATION_CONSUMED,
       set_backend (import_entries now (Z.to_nat (sy_entry_count y))
                      (drop (csize StoreSyncPayload_codec) raw) (h_backend h)) h)
    else (PROPAGATION_CONSUMED, h).

Definition on_disconnect (id : Z) (h : handler) : handler :=
  set_subscriptions (base.filter (fun s => sub_conn_id s <> id) (h_subscriptions h)) h.

(** The message types [start] subscribes to, with their methods. *)
Definition methods : list (Z * (Z -> Z -> bytes -> handler -> propagation_t * handler)) :=
  [(MSG_TYPE_SYS_STORE_PUT, on_put); (MSG_TYPE_SYS_STORE_GET, on_get);
   (MSG_TYPE_SYS_STORE_DELETE, on_delete); (MSG_TYPE_SYS_STORE_SUBSCRIBE, fun _ => on_subscribe);
   (MSG_TYPE_SYS_STORE_SYNC, on_sync)].

(** [start] subscribes to the bus and remembers the ids; a callback's verdict is that of its
    method in the handler's current state [h]. *)
Definition start (now : Z) (h : handler) (b : SignalBus) : list Z * SignalBus :=
  fold_left (fun '(ids, b) '(type, method) =>
      let '(id, b) := subscribe type "store"
                        (fun _ ep data => (method now (ep_peer_id ep) data h).1) 128 b in
      (ids ++ [id], b))
    methods ([], b).

Definition stop (sub_ids : list Z) (b : SignalBus) : list Z * SignalBus :=
  ([], fold_left (fun b id => unsubscribe id b) sub_ids b).

(** A packet of type [type] from connection [conn]; other types reach no method. *)
Definition on_message (now conn type : Z) (raw : bytes) (h : handler) : propagation_t * handler :=
  match list_find (fun tm => tm.1 = type) methods with
  | Some (_, (_, method)) => method now conn raw h
  | None => (PROPAGATION_CONTINUE, h)
  end.

(** ** The application: packets, connection events, the clean-up thread *)

Inductive app_event :=
  | AMessage (conn type : Z) (raw : bytes)
  | AConnState (id : Z) (state : conn_state_t)
  | ACleanup.

Definition run_app_event (h : handler) (ev : Z * app_event) : handler :=
  let now := ev.1 in
  match ev.2 with
  | AMessage conn type raw => (on_message now conn type raw h).2
  | AConnState id state =>
      if bool_decide (state = STATE_CLOSED) || bool_decide (state = STATE_CLOSING) then on_disconnect id h else h
  | ACleanup => set_backend (cleanup_expired now (h_backend h)).2 h
  end.

Definition run_app (evs : list (Z * app_event)) (h : handler) : handler := fold_left run_app_event evs h.
End handler.
