(* ===== verification/StoreService.v ===== *)
(** * The store service as a replicated map

    What a client of the store sees, against any backend that keeps the laws of [IStore]:
    requests sent over the wire act on a finite map with expiry and on a list of
    subscriptions, and the messages sent back are the encoded replies of that specification
    ([store_service_refines]); packets that are not well formed are rejected without effect;
    the entries a node sends for a sync are merged by the node that receives them. *)

From Stdlib Require Import ZArith Strings.Byte String Sorted Lia.
From stdpp Require Import base gmap list strings numbers sorting.
From S2P Require Import Prelude Codec Wire StoreBackend StoreHandler.

Local Open Scope Z_scope.

(** ** Requests and replies *)

Inductive request :=
  | RPut (id ttl_s : Z) (key value : bytes) (flags : Z)
  | RGet (id : Z) (key : bytes) (query_type max_results : Z)
  | RDelete (id : Z) (key : bytes)
  | RSubscribe (id : Z) (key : bytes) (action query_type : Z).

Abbreviation len l := (Z.of_nat (length l)).

(** Message type and payload of a request ([core/data/messages.hpp]). *)
Definition encode (r : request) : Z * bytes :=
  match r with
  | RPut id ttl k v flags =>
      (MSG_TYPE_SYS_STORE_PUT,
       cenc StorePutPayload_codec (mk_StorePutPayload id ttl (len k) (len v) flags (replicate 3 x00)) ++ k ++ v)
  | RGet id k q n =>
      (MSG_TYPE_SYS_STORE_GET,
       cenc StoreGetPayload_codec (mk_StoreGetPayload id (len k) q (replicate 1 x00) n) ++ k)
  | RDelete id k =>
      (MSG_TYPE_SYS_STORE_DELETE,
       cenc StoreDeletePayload_codec (mk_StoreDeletePayload id (len k) (replicate 6 x00)) ++ k)
  | RSubscribe id k a q =>
      (MSG_TYPE_SYS_STORE_SUBSCRIBE,
       cenc StoreSubscribePayload_codec (mk_StoreSubscribePayload id (len k) a q (replicate 4 x00)) ++ k)
  end.

Definition store_key_ok (k : bytes) : Prop := key_ok k /\ len k <= STORE_KEY_MAX_LEN.

Definition request_ok (r : request) : Prop :=
  match r with
  | RPut id ttl k v flags =>
      fits 64 id /\ fits 64 ttl /\ store_key_ok k /\ len v <= STORE_VALUE_MAX_LEN /\ fits 8 flags
  | RGet id k q n =>
      fits 64 id /\ store_key_ok k /\ 0 <= n < 2 ^ 31 /\ (q = 0 \/ (q = 1 \/ q = 2) /\ last k <> Some xff)
  | RDelete id k => fits 64 id /\ store_key_ok k
  | RSubscribe id k a q => fits 64 id /\ store_key_ok k /\ fits 8 a /\ fits 8 q
  end.

Inductive reply :=
  | Result (conn id : Z) (entries : list Entry) (status : Z)
  | Notify (conn now : Z) (entry : Entry) (event : Z).

Definition encode_reply (r : reply) : out_msg :=
  match r with
  | Result conn id es st => mk_out conn MSG_TYPE_SYS_STORE_RESULT (serialize_result id es st)
  | Notify conn now e ev => mk_out conn MSG_TYPE_SYS_STORE_NOTIFY (serialize_notify now e ev)
  end.

(** ** The specification *)

Definition visible (now : Z) (m : gmap bytes Entry) (k : bytes) : option Entry :=
  e ← m !! k; if live now e then Some e else None.

(** The subscribers of an entry, in the order they subscribed. *)
Definition notices (now : Z) (e : Entry) (event : Z) (subs : list Sub) : list reply :=
  map (fun s => Notify (sub_conn_id s) now e event) (List.filter (matches e) subs).

(** All unexpired entries with a prefix, by key. *)
Definition prefix_entries (now : Z) (m : gmap bytes Entry) (p : bytes) (l : list Entry) : Prop :=
  StronglySorted by_key l /\ NoDup l /\
  forall e, e ∈ l <-> m !! e_key e = Some e /\ live now e = true /\ starts_with (e_key e) p = true.

Definition found (es : list Entry) : Z := match es with [] => 1 | _ => 0 end.

(** A request without a key finds nothing: the code passes SQL's [NULL] for it. *)
Inductive svc_step (now conn : Z) :
    gmap bytes Entry * list Sub -> request -> list reply -> gmap bytes Entry * list Sub -> Prop :=
  | svc_put m subs id ttl k v flags e :
      e = mk_kv k v now ttl flags ->
      svc_step now conn (m, subs) (RPut id ttl k v flags)
        (Result conn id [] 0 :: notices now e 0 subs) (<[k := e]> m, subs)
  | svc_put_fails m subs id ttl k v flags :
      svc_step now conn (m, subs) (RPut id ttl k v flags) [Result conn id [] 2] (m, subs)
  | svc_get_no_key m subs id q n :
      svc_step now conn (m, subs) (RGet id [] q n) [Result conn id [] 1] (m, subs)
  | svc_get m subs id k n es :
      k <> [] -> es = option_list (visible now m k) ->
      svc_step now conn (m, subs) (RGet id k 0 n) [Result conn id es (found es)] (m, subs)
  | svc_get_prefix m subs id k q n l es :
      k <> [] -> q <> 0 -> prefix_entries now m k l -> es = limited 32 n l ->
      svc_step now conn (m, subs) (RGet id k q n) [Result conn id es (found es)] (m, subs)
  | svc_delete m subs id k e :
      k <> [] -> m !! k = Some e ->
      svc_step now conn (m, subs) (RDelete id k)
        (Result conn id [] 0 :: notices now (mk_kv k [] now 0 0) 2 subs) (delete k m, subs)
  | svc_delete_absent m subs id k :
      k = [] \/ m !! k = None ->
      svc_step now conn (m, subs) (RDelete id k) [Result conn id [] 1] (m, subs)
  | svc_subscribe m subs id k q :
      svc_step now conn (m, subs) (RSubscribe id k 0 q) [Result conn id [] 0] (m, subs ++ [mk_sub conn k q])
  | svc_unsubscribe m subs id k a q :
      a <> 0 ->
      svc_step now conn (m, subs) (RSubscribe id k a q) [Result conn id [] 0]
        (m, base.filter (fun s => ~ (sub_conn_id s = conn /\ sub_key s = k)) subs).

Inductive svc_run : gmap bytes Entry * list Sub -> list (Z * Z * request) -> list reply ->
    gmap bytes Entry * list Sub -> Prop :=
  | svc_run_nil st : svc_run st [] [] st
  | svc_run_cons st now conn r out st1 rs outs st2 :
      svc_step now conn st r out st1 -> svc_run st1 rs outs st2 ->
      svc_run st ((now, conn, r) :: rs) (out ++ outs) st2.

(** ** Decoding what was encoded *)

Lemma payload_parts {A} (c : codec A) `{!CodecOk c} x rest :
  cwf c x ->
  bool_decide (length (cenc c x ++ rest) < csize c)%nat = false /\ cdec c (cenc c x ++ rest) = x /\
  drop (csize c) (cenc c x ++ rest) = rest.
Proof.
  intros Hx. split_and!.
  - apply bool_decide_false. rewrite length_app, cenc_length by done. lia.
  - by apply cdec_enc.
  - apply drop_app_length'. by rewrite cenc_length.
Qed.

Lemma slice_drop_take {A} off n (l : list A) : slice off n l = take n (drop off l).
Proof. done. Qed.

Lemma tail_key_encoded {A} (c : codec A) `{!CodecOk c} x k :
  cwf c x -> tail_key (cenc c x ++ k) (csize c) (len k) = if bool_decide (k = []) then None else Some k.
Proof.
  intros Hx. unfold tail_key. rewrite Nat2Z.id. rewrite (bool_decide_true (_ <= _)%nat)
    by (rewrite length_app, cenc_length by done; lia).
  rewrite slice_drop_take, drop_app_length' by (by rewrite cenc_length). rewrite firstn_all, andb_true_r.
  by destruct k.
Qed.

Lemma notify_subscribers_out {S} `{!IStore S} now e ev (h : StoreHandler S) :
  notify_subscribers now e ev h =
  mk_handler (h_backend h) (h_subscriptions h)
    (h_out h ++ map encode_reply (notices now e ev (h_subscriptions h))).
Proof.
  unfold notify_subscribers, notices.
  enough (forall subs (h : StoreHandler S),
    fold_left (fun h sub => if matches e sub
       then send (sub_conn_id sub) MSG_TYPE_SYS_STORE_NOTIFY (serialize_notify now e ev) h else h) subs h =
    mk_handler (h_backend h) (h_subscriptions h)
      (h_out h ++ map encode_reply (map (fun s => Notify (sub_conn_id s) now e ev) (List.filter (matches e) subs))))
    as Hf by apply Hf.
  intros subs. induction subs as [|sub subs IH]; intros [s l out]; simpl; [by rewrite app_nil_r|].
  rewrite IH. destruct (matches e sub); simpl; [|done]. by rewrite <-app_assoc.
Qed.

(** ** One request *)

Section requests.
Context {S : Type} `{!IStore S, !IStoreLaws S}.

Definition view_of (h : StoreHandler S) : gmap bytes Entry * list Sub :=
  (contents (h_backend h), h_subscriptions h).

(** Handling a request is a step of the specification, and its replies are sent. *)
Definition handled (now conn : Z) (r : request) (h : StoreHandler S) (res : propagation_t * StoreHandler S) : Prop :=
  res.1 = PROPAGATION_CONSUMED /\ store_ok (h_backend res.2) /\
  exists out, svc_step now conn (view_of h) r out (view_of res.2) /\
    h_out res.2 = h_out h ++ map encode_reply out.

Ltac wf := repeat split; simpl; try done; unfold fits, store_key_ok, STORE_KEY_MAX_LEN, STORE_VALUE_MAX_LEN in *;
           lia || done.

Lemma extract_kv_encoded {A} (c : codec A) `{!CodecOk c} x k v :
  cwf c x -> extract_kv (cenc c x ++ k ++ v) (csize c) (len k) (len v) = (Some k, Some v).
Proof.
  intros Hx. pose proof (cenc_length x Hx) as Hl. unfold extract_kv. rewrite !Nat2Z.id.
  rewrite bool_decide_false by (rewrite !length_app, Hl; lia).
  rewrite (slice_app_skip (csize c) (length k) _ _ (csize c)) by lia.
  rewrite (slice_app_skip (csize c + length k) (length v) _ _ (csize c)) by lia.
  rewrite (slice_app_skip (csize c + length k - csize c) (length v) k v (length k)) by lia.
  rewrite Nat.sub_diag, slice_app_take by done.
  replace (csize c + length k - csize c - length k)%nat with 0%nat by lia. by rewrite slice_exact.
Qed.

Lemma handle_put now conn id ttl k v flags h :
  store_ok (h_backend h) -> fits 63 now -> request_ok (RPut id ttl k v flags) ->
  handled now conn (RPut id ttl k v flags) h (on_put now conn (encode (RPut id ttl k v flags)).2 h).
Proof.
  intros Hs Hnow (Hid & Httl & [Hk Hkl] & Hv & Hfl). cbn [encode snd].
  set (p := mk_StorePutPayload _ _ _ _ _ _).
  assert (cwf StorePutPayload_codec p) as Hwf by wf.
  destruct (payload_parts StorePutPayload_codec p (k ++ v) Hwf) as (Hlen & Hdec & _).
  unfold on_put. rewrite Hlen, Hdec. 
  change (sp_key_len p) with (len k). change (sp_value_len p) with (len v).
  rewrite !(proj2 (Z.ltb_ge _ _)) by wf. cbn [orb]. rewrite (extract_kv_encoded StorePutPayload_codec p k v Hwf).
  assert (view_empty (Some k) && (0 <? len k) = false) as -> by (by destruct k).
  destruct (put _ _ _ _ _ _) as [ok s] eqn:Hput.
  apply put_law in Hput as [Hok Hc]; [|done|split_and!; done].
  destruct ok; unfold handled; cbn [fst snd].
  - rewrite notify_subscribers_out. cbn [reply_result send set_backend h_backend h_subscriptions h_out view_str default].
    split_and!; [done..|].
    exists (Result conn id [] 0 :: notices now (mk_kv k v now ttl flags) 0 (h_subscriptions h)).
    split; [|by rewrite <-app_assoc]. unfold view_of. cbn [h_backend h_subscriptions]. rewrite Hc. by apply svc_put.
  - split_and!; [done..|]. exists [Result conn id [] 2]. split; [|done]. unfold view_of. cbn. rewrite Hc. apply svc_put_fails.
Qed.

Lemma handle_get now conn id k q n h :
  store_ok (h_backend h) -> request_ok (RGet id k q n) ->
  handled now conn (RGet id k q n) h (on_get now conn (encode (RGet id k q n)).2 h).
Proof.
  intros Hs (Hid & [Hk Hkl] & Hn & Hq). cbn [encode snd].
  set (p := mk_StoreGetPayload _ _ _ _ _).
  assert (cwf StoreGetPayload_codec p) as Hwf by (destruct Hq as [->|[[->| ->] _]]; wf).
  destruct (payload_parts StoreGetPayload_codec p k Hwf) as (Hlen & Hdec & _).
  unfold on_get. rewrite Hlen, Hdec. 
  change (sg_key_len p) with (len k). change (sg_query_type p) with q. change (sg_max_results p) with n.
  rewrite (proj2 (Z.ltb_ge _ _)) by wf. rewrite (tail_key_encoded StoreGetPayload_codec p k Hwf).
  split_and!; [done..|].
  match goal with |- context [reply_result conn _ ?es _ h] => exists [Result conn id es (found es)] end.
  split; [|done]. unfold view_of. cbn [fst snd reply_result send h_backend h_subscriptions].
  destruct (decide (k = [])) as [->|Hk0].
  { cbn [bool_decide]. destruct Hq as [->|[[->| ->] _]]; simpl (_ =? _); cbn [orb];
      rewrite ?bool_decide_true, ?get_null, ?get_prefix_null by done; apply svc_get_no_key. }
  rewrite bool_decide_false by done. destruct Hq as [->|[Hq Hff]]; simpl (_ =? _).
  - apply svc_get; [done|]. rewrite get_law by done. unfold visible. by destruct (contents (h_backend h) !! k).
  - assert ((q =? 0) = false) as -> by (apply Z.eqb_neq; lia).
    assert ((q =? 1) || (q =? 2) = true) as -> by (destruct Hq as [->| ->]; done).
    destruct (last k) as [c|] eqn:Hlast; [|by apply last_None in Hlast].
    apply last_Some in Hlast as [p' ->].
    destruct (get_prefix_law now p' c (if n =? 0 then 32 else n) (h_backend h)) as (l & Hl & Hsd & Hnd & Hin);
      [done|done|by intros ->|destruct (n =? 0); lia|].
    apply (svc_get_prefix _ _ _ _ _ _ _ _ l); [done|lia|by split_and!|].
    rewrite Hl. unfold limited. destruct (Z.eqb_spec n 0) as [->|Hne]; [done|]. by rewrite (proj2 (Z.eqb_neq n 0) Hne).
Qed.

Lemma handle_delete now conn id k h :
  store_ok (h_backend h) -> request_ok (RDelete id k) ->
  handled now conn (RDelete id k) h (on_delete now conn (encode (RDelete id k)).2 h).
Proof.
  intros Hs (Hid & [Hk Hkl]). cbn [encode snd].
  set (p := mk_StoreDeletePayload _ _ _).
  assert (cwf StoreDeletePayload_codec p) as Hwf by wf.
  destruct (payload_parts StoreDeletePayload_codec p k Hwf) as (Hlen & Hdec & _).
  unfold on_delete. rewrite Hlen, Hdec. clear Hlen Hdec. change (sd_key_len p) with (len k).
  rewrite (proj2 (Z.ltb_ge _ _)) by wf. rewrite (tail_key_encoded StoreDeletePayload_codec p k Hwf).
  destruct (del _ _) as [existed s] eqn:Hdel.
  assert (store_ok s /\
    (existed = true /\ k <> [] /\ is_Some (contents (h_backend h) !! k) /\
       contents s = delete k (contents (h_backend h)) \/
     existed = false /\ (k = [] \/ contents (h_backend h) !! k = None) /\
       contents s = contents (h_backend h))) as [Hok Hcase].
  { case_bool_decide as Hk0.
    - apply del_null in Hdel as (? & -> & ?); [|done]. split; [done|]. right. auto.
    - apply del_law in Hdel as (? & -> & Hc); [|done..]. split; [done|].
      case_bool_decide as Hsome; [by left|]. right. apply eq_None_not_Some in Hsome.
      rewrite Hc, delete_id by done. auto. }
  destruct Hcase as [(-> & Hk0 & [e He] & Hc)|(-> & Hk0 & Hc)]; unfold handled; cbn [fst snd].
  - rewrite notify_subscribers_out, bool_decide_false by done.
    cbn [reply_result send set_backend h_backend h_subscriptions h_out view_str default].
    split_and!; [done..|].
    exists (Result conn id [] 0 :: notices now (mk_kv k [] now 0 0) 2 (h_subscriptions h)).
    split; [|by rewrite <-app_assoc]. unfold view_of. cbn [h_backend h_subscriptions]. rewrite Hc.
    by apply (svc_delete _ _ _ _ _ _ e).
  - split_and!; [done..|]. exists [Result conn id [] 1]. split; [|done]. unfold view_of. cbn. rewrite Hc.
    by apply svc_delete_absent.
Qed.

Lemma handle_subscribe now conn id k a q h :
  store_ok (h_backend h) -> request_ok (RSubscribe id k a q) ->
  handled now conn (RSubscribe id k a q) h (on_subscribe conn (encode (RSubscribe id k a q)).2 h).
Proof.
  intros Hs (Hid & [Hk Hkl] & Ha & Hq). cbn [encode snd].
  set (p := mk_StoreSubscribePayload _ _ _ _ _).
  assert (cwf StoreSubscribePayload_codec p) as Hwf by wf.
  destruct (payload_parts StoreSubscribePayload_codec p k Hwf) as (Hlen & Hdec & _).
  unfold on_subscribe. rewrite Hlen, Hdec. change (ss_key_len p) with (len k).
  change (ss_action p) with a. change (ss_query_type p) with q.
  rewrite (tail_key_encoded StoreSubscribePayload_codec p k Hwf).
  assert (view_str (if bool_decide (k = []) then None else Some k) = k) as -> by (by destruct k).
  split_and!; [done..|]. exists [Result conn id [] 0]. split; [|done]. unfold view_of. cbn.
  destruct (Z.eqb_spec a 0) as [->|]; [apply svc_subscribe|by apply svc_unsubscribe].
Qed.

Lemma handle_request now conn r h :
  store_ok (h_backend h) -> fits 63 now -> request_ok r ->
  handled now conn r h (on_message now conn (encode r).1 (encode r).2 h).
Proof.
  intros Hs Hnow Hr. destruct r; cbn [encode fst];
    [apply handle_put|apply handle_get|apply handle_delete|apply handle_subscribe]; done.
Qed.

Definition request_event (r : Z * Z * request) : Z * app_event :=
  (r.1.1, AMessage r.1.2 (encode r.2).1 (encode r.2).2).

Definition timed_ok (r : Z * Z * request) : Prop := fits 63 r.1.1 /\ request_ok r.2.
End requests.

(** C20: The store service implements its specification on every backend that keeps the laws of
    [IStore].  Any sequence of well-formed requests, sent over the wire by any connections,
    acts on the backend's contents and on the subscriptions as [svc_run] says, and the
    messages sent are exactly the encoded replies: one result per request to its sender,
    and after a write or a deletion one notification per matching subscription, in order. *)
Theorem store_service_refines {S} `{!IStore S, !IStoreLaws S} (h : StoreHandler S) reqs :
  store_ok (h_backend h) -> Forall timed_ok reqs ->
  let h' := run_app (map request_event reqs) h in
  exists out,
    svc_run (contents (h_backend h), h_subscriptions h) reqs out (contents (h_backend h'), h_subscriptions h') /\
    h_out h' = h_out h ++ map encode_reply out.
Proof.
  intros Hs Hreqs. revert h Hs. induction Hreqs as [|[[now conn] r] reqs [Hnow Hr] Hreqs IH]; intros h Hs.
  { exists []. split; [constructor|by rewrite app_nil_r]. }
  destruct (handle_request now conn r h Hs Hnow Hr) as (_ & Hok & out & Hstep & Hout).
  set (h1 := (on_message now conn (encode r).1 (encode r).2 h).2) in *.
  destruct (IH h1 Hok) as (outs & Hrun & Houts). exists (out ++ outs). split.
  - by apply (svc_run_cons _ _ _ _ _ (view_of h1)).
  - simpl map. unfold run_app in *. cbn [fold_left request_event run_app_event fst snd]. fold h1.
    by rewrite Houts, Hout, map_app, app_assoc.
Qed.

(** ** Malformed requests *)

Definition put_malformed (raw : bytes) : Prop :=
  let p := cdec StorePutPayload_codec raw in
  (length raw < csize StorePutPayload_codec)%nat \/ STORE_KEY_MAX_LEN < sp_key_len p \/
  STORE_VALUE_MAX_LEN < sp_value_len p \/
  0 < sp_key_len p /\ Z.of_nat (length raw) < 24 + sp_key_len p + sp_value_len p.

Lemma put_lens raw :
  (csize StorePutPayload_codec <= length raw)%nat ->
  0 <= sp_key_len (cdec StorePutPayload_codec raw) /\ 0 <= sp_value_len (cdec StorePutPayload_codec raw).
Proof.
  intros H%(cdec_wf (c:=StorePutPayload_codec)). destruct H as (_ & _ & [? _] & [? _] & _). done.
Qed.

(** A key that was cut off is the only empty one with a length. *)
Lemma extract_empty raw p :
  p = cdec StorePutPayload_codec raw -> (csize StorePutPayload_codec <= length raw)%nat ->
  view_empty (extract_kv raw (csize StorePutPayload_codec) (sp_key_len p) (sp_value_len p)).1
    && (0 <? sp_key_len p) = true <->
  0 < sp_key_len p /\ Z.of_nat (length raw) < 24 + sp_key_len p + sp_value_len p.
Proof.
  intros -> Hlen. destruct (put_lens raw Hlen) as [Hk Hv]. set (p := cdec StorePutPayload_codec raw) in *.
  rewrite andb_true_iff, Z.ltb_lt. unfold extract_kv. change (csize StorePutPayload_codec) with 24%nat in *.
  case_bool_decide as Hl; cbn [fst view_empty]; [split; intros; split; done || lia|].
  split; [|intros [? ?]; exfalso; lia]. intros [He Hp]. exfalso.
  assert (length (slice 24 (Z.to_nat (sp_key_len p)) raw) = Z.to_nat (sp_key_len p)) as Hs by (apply length_slice; lia).
  destruct (slice _ _ _); [cbn [length] in Hs; lia|done].
Qed.

Section malformed.
Context {S : Type} `{!IStore S, !IStoreLaws S} (now conn : Z) (h : StoreHandler S).

Lemma put_verdict raw :
  (on_put now conn raw h).1 = PROPAGATION_REJECT /\ put_malformed raw /\ (on_put now conn raw h).2 = h \/
  (on_put now conn raw h).1 = PROPAGATION_CONSUMED /\ ~ put_malformed raw.
Proof.
  unfold on_put, put_malformed. set (p := cdec StorePutPayload_codec raw).
  case_bool_decide as Hlen; [by left; auto|].
  destruct ((_ <? _) || _) eqn:Hlim.
  { left. apply orb_true_iff in Hlim as [?%Z.ltb_lt|?%Z.ltb_lt]; split_and!; try done; [right; by left|right; right; by left]. }
  apply orb_false_iff in Hlim as [Hk%Z.ltb_ge Hv%Z.ltb_ge].
  pose proof (extract_empty raw p eq_refl) as He. destruct (extract_kv _ _ _ _) as [key value]. cbn [fst] in He.
  destruct (view_empty key && _) eqn:Hcut.
  - left. split_and!; [done| |done]. right; right; right. apply He; [lia|done].
  - right. destruct (put _ _ _ _ _ _) as [ok s]. split; [done|]. intros [?|[?|[?|Hc]]]; [lia..|].
    apply He in Hc; [congruence|lia].
Qed.

Lemma put_no_value raw :
  store_ok (h_backend h) -> ~ put_malformed raw ->
  Z.of_nat (length raw) < 24 + sp_value_len (cdec StorePutPayload_codec raw) ->
  let h' := (on_put now conn raw h).2 in
  contents (h_backend h') = contents (h_backend h) /\
  h_out h' = h_out h ++ [encode_reply (Result conn (sp_request_id (cdec StorePutPayload_codec raw)) [] 2)].
Proof.
  intros Hs Hm Hv.
  assert (csize StorePutPayload_codec <= length raw)%nat as Hlen
    by (destruct (decide (length raw < csize StorePutPayload_codec)%nat); [destruct Hm; by left|lia]).
  destruct (put_lens raw Hlen) as [Hk _]. unfold put_malformed in Hm. cbv zeta in Hm. unfold on_put.
  set (p := cdec StorePutPayload_codec raw) in *. rewrite bool_decide_false by lia.
  assert (sp_key_len p = 0) as Hk0 by lia. rewrite Hk0.
  rewrite (proj2 (Z.ltb_ge _ 0)) by done. rewrite (proj2 (Z.ltb_ge _ (sp_value_len p))) by lia. cbn [orb].
  unfold extract_kv. rewrite bool_decide_true by (change (csize StorePutPayload_codec) with 24%nat; lia).
  destruct (put _ _ _ _ _ _) as [ok s] eqn:Hput'. by apply put_null in Hput' as (-> & _ & Hc).
Qed.

Lemma rejected_inert type raw :
  (on_message now conn type raw h).1 = PROPAGATION_REJECT -> (on_message now conn type raw h).2 = h.
Proof.
  unfold on_message. destruct (list_find _ _) as [[i [t m]]|] eqn:Hf; [|done].
  apply list_find_Some in Hf as (Hm & _ & _).
  destruct i as [|[|[|[|[|i]]]]]; simpl in Hm; simplify_eq.
  - intros Hr. destruct (put_verdict raw) as [(_ & _ & ->)|[Hc _]]; [done|congruence].
  - unfold on_get. case_bool_decide; [done|]. by destruct (_ <? _).
  - unfold on_delete. case_bool_decide; [done|]. destruct (_ <? _); [done|]. by destruct (del _ _).
  - unfold on_subscribe. by case_bool_decide.
  - unfold on_sync. case_bool_decide; [done|]. destruct (_ =? 0); [done|]. by destruct (_ || _).
Qed.
End malformed.

(** A packet the service rejects has no effect: nothing is written, no subscription changes
    and nothing is sent.  A PUT is rejected exactly when its header is cut off, a length is
    over the limit, or its key is cut off; a PUT that announces no key but lacks its value is
    answered with an error instead. *)
Theorem store_rejects {S} `{!IStore S, !IStoreLaws S} now conn (h : StoreHandler S) :
  (forall type raw, (on_message now conn type raw h).1 = PROPAGATION_REJECT ->
     (on_message now conn type raw h).2 = h) /\
  (forall raw, (on_put now conn raw h).1 = PROPAGATION_REJECT <-> put_malformed raw) /\
  (forall raw, store_ok (h_backend h) -> ~ put_malformed raw ->
     Z.of_nat (length raw) < 24 + sp_value_len (cdec StorePutPayload_codec raw) ->
     let h' := (on_put now conn raw h).2 in
     contents (h_backend h') = contents (h_backend h) /\
     h_out h' = h_out h ++ [encode_reply (Result conn (sp_request_id (cdec StorePutPayload_codec raw)) [] 2)]).
Proof.
  split_and!.
  - apply rejected_inert.
  - intros raw. destruct (put_verdict now conn h raw) as [(-> & ? & _)|[-> ?]]; done.
  - apply put_no_value.
Qed.

(** ** Synchronisation *)

(** An entry whose lengths fit the wire struct. *)
Definition sendable (e : Entry) : Prop := len (e_key e) < 2 ^ 16 /\ len (e_value e) < 2 ^ 16 /\ entry_ok e.

(** Whether an entry replaces what is visible under its key. *)
Definition newer (now : Z) (m : gmap bytes Entry) (e : Entry) : bool :=
  match visible now m (e_key e) with Some mine => e_timestamp_us mine <? e_timestamp_us e | None => true end.

(** What importing entries does, given which of the backend's writes succeed: an entry is
    written, stamped with the importer's clock, unless ours is at least as new. *)
Fixpoint merge (now : Z) (writes : list bool) (es : list Entry) (m : gmap bytes Entry) : gmap bytes Entry :=
  match es, writes with
  | e :: es, ok :: writes =>
      merge now writes es
        (if newer now m e && ok then <[e_key e := mk_kv (e_key e) (e_value e) now (e_ttl_s e) (e_flags e)]> m else m)
  | _, _ => m
  end.

Section sync.
Context {S : Type} `{!IStore S, !IStoreLaws S}.

(** The lengths of a sendable entry are not cut. *)
Lemma serialize_sendable e rest :
  sendable e ->
  let hdr := mk_StoreEntry (len (e_key e)) (len (e_value e)) (e_timestamp_us e) (e_ttl_s e) (e_flags e)
               (replicate 3 x00) in
  cwf StoreEntry_codec hdr /\
  serialize_entry e ++ rest = cenc StoreEntry_codec hdr ++ e_key e ++ e_value e ++ rest.
Proof.
  intros (Hk & Hv & _ & Ht & Hl & Hf). split.
  - repeat split; unfold fits in *; simpl; try lia; done.
  - unfold serialize_entry. rewrite !wrap_small by (unfold fits; lia).
    by rewrite !Nat2Z.id, !firstn_all, <-!app_assoc.
Qed.

(** The loop reads back what [serialize_entry] wrote. *)
Lemma import_serialized now es s :
  Forall sendable es ->
  import_entries now (length es) (concat (map serialize_entry es)) s =
  fold_left (fun s e => import_entry now e s) es s.
Proof.
  intros Hes. revert s. induction Hes as [|e es He Hes IH]; intros s; [done|].
  cbn [map concat length import_entries fold_left].
  destruct (serialize_sendable e (concat (map serialize_entry es)) He) as [Hwf ->].
  destruct (payload_parts StoreEntry_codec _ (e_key e ++ e_value e ++ concat (map serialize_entry es)) Hwf)
    as (-> & -> & ->).
  cbn [se_key_len se_value_len se_timestamp_us se_ttl_s se_flags]. rewrite !Nat2Z.id.
  rewrite bool_decide_false by (rewrite !length_app; lia).
  rewrite take_app_length.
  rewrite (slice_app_skip (length (e_key e)) (length (e_value e)) _ _ (length (e_key e))) by done.
  rewrite Nat.sub_diag, slice_app_take by done.
  rewrite app_assoc, drop_app_length' by (by rewrite length_app). rewrite IH. by destruct e.
Qed.

(** What the backend answers to the writes of an import. *)
Fixpoint import_writes (now : Z) (es : list Entry) (s : S) : list bool :=
  match es with
  | [] => []
  | e :: es =>
      (put now (Some (e_key e)) (Some (e_value e)) (e_ttl_s e) (e_flags e) s).1
      :: import_writes now es (import_entry now e s)
  end.

Lemma imports_merge now es s :
  store_ok s -> fits 63 now -> Forall sendable es ->
  let s' := fold_left (fun s e => import_entry now e s) es s in
  store_ok s' /\ contents s' = merge now (import_writes now es s) es (contents s).
Proof.
  intros Hs Hnow Hes. revert s Hs.
  induction Hes as [|e es (_ & _ & Hk & Ht & Hl & Hf) Hes IH]; intros s Hs; [done|]. cbn [fold_left import_writes merge].
  assert (newer now (contents s) e = match get now (Some (e_key e)) s with
    | None => true | Some mine => e_timestamp_us mine <? e_timestamp_us e end) as Hn.
  { unfold newer, visible. rewrite get_law by done. by destruct (contents s !! e_key e). }
  assert (store_ok (import_entry now e s) /\ contents (import_entry now e s) =
    if newer now (contents s) e && (put now (Some (e_key e)) (Some (e_value e)) (e_ttl_s e) (e_flags e) s).1
    then <[e_key e := mk_kv (e_key e) (e_value e) now (e_ttl_s e) (e_flags e)]> (contents s) else contents s) as [Hok Hc].
  { unfold import_entry. rewrite Hn. destruct (put _ _ _ _ _ s) as [b s1] eqn:Hput.
    apply put_law in Hput as [Hok Hc]; [|done|split_and!; done].
    by destruct (match get _ _ _ with Some _ => _ | None => _ end). }
  rewrite <-Hc. by apply IH.
Qed.

Definition sync_request (id since : Z) : bytes :=
  cenc StoreSyncPayload_codec (mk_StoreSyncPayload id 0 0 (replicate 2 x00) since).

Lemma answer_sync now conn id since (h : StoreHandler S) :
  fits 64 id -> 0 <= since < 2 ^ 63 ->
  (on_sync now conn (sync_request id since) h).2 =
  send conn MSG_TYPE_SYS_STORE_SYNC (sync_response id (get_since now since 256 (h_backend h))) h.
Proof.
  intros Hid Hsince.
  assert (cwf StoreSyncPayload_codec (mk_StoreSyncPayload id 0 0 (replicate 2 x00) since)) as Hwf
    by (repeat split; simpl; unfold fits in *; lia || done).
  destruct (payload_parts StoreSyncPayload_codec _ [] Hwf) as (Hlen & Hdec & _). rewrite app_nil_r in Hlen, Hdec.
  unfold on_sync, sync_request. by rewrite Hlen, Hdec.
Qed.

Lemma receive_sync now conn id es (h : StoreHandler S) :
  store_ok (h_backend h) -> fits 63 now -> fits 64 id -> Forall sendable (take (shown es) es) ->
  let h' := (on_sync now conn (sync_response id es) h).2 in
  contents (h_backend h') =
    merge now (import_writes now (take (shown es) es) (h_backend h)) (take (shown es) es) (contents (h_backend h)) /\
  h_out h' = h_out h.
Proof.
  intros Hs Hnow Hid Hes.
  assert (cwf StoreSyncPayload_codec (mk_StoreSyncPayload id 1 (Z.of_nat (shown es)) (replicate 2 x00) 0)) as Hwf
    by (unfold shown; repeat split; simpl; unfold fits in *; lia || done).
  destruct (payload_parts StoreSyncPayload_codec _ (serialize_entries es) Hwf) as (Hlen & Hdec & Hdrop).
  assert (length (take (shown es) es) = shown es) as Hshown by (unfold shown; rewrite length_take; lia).
  cbv zeta. unfold on_sync, sync_response. rewrite Hlen, Hdec, Hdrop.
  cbn [sy_sync_type sy_entry_count]. rewrite Nat2Z.id. cbn [Z.eqb Pos.eqb orb snd set_backend h_backend h_out].
  split; [|done]. unfold serialize_entries.
  pose proof (import_serialized now _ (h_backend h) Hes) as Himp. rewrite Hshown in Himp. rewrite Himp.
  by apply imports_merge.
Qed.
End sync.

(** C22: A node that asks another for what changed merges its answer: the node asked sends its
    unexpired entries newer than the given time, oldest first, at most 255 of them, and keeps
    its contents; the contents of the node that receives the packet are then exactly its old
    ones with these entries merged in, in order: each that is newer than what is visible under
    its key is written, with its value, lifetime and flags and the time of the import, unless
    the backend refuses that write, and every other leaves the contents as they are. *)
Theorem sync_transfers {S} `{!IStore S, !IStoreLaws S} (a b : StoreHandler S) nowA nowB connA connB id since :
  store_ok (h_backend a) -> store_ok (h_backend b) -> fits 63 nowB -> fits 64 id -> 0 <= since < 2 ^ 63 ->
  map_Forall (fun _ => sendable) (contents (h_backend a)) ->
  let a' := (on_sync nowA connB (sync_request id since) a).2 in
  exists payload l,
    h_out a' = h_out a ++ [mk_out connB MSG_TYPE_SYS_STORE_SYNC payload] /\ h_backend a' = h_backend a /\
    StronglySorted by_time l /\ NoDup l /\
    (forall e, e ∈ l <-> contents (h_backend a) !! e_key e = Some e /\ live nowA e = true /\
                         since < e_timestamp_us e) /\
    let b' := (on_sync nowB connA payload b).2 in
    contents (h_backend b') =
      merge nowB (import_writes nowB (take 255 l) (h_backend b)) (take 255 l) (contents (h_backend b)) /\
    h_out b' = h_out b.
Proof.
  intros Ha Hb Hnow Hid Hsince Hsmall a'.
  destruct (get_since_law nowA since 256 (h_backend a)) as (l & Hl & Hsd & Hnd & Hin); [done|done|lia|].
  change (limited 256 256 l) with (take 256 l) in Hl.
  assert (take (shown (take 256 l)) (take 256 l) = take 255 l) as Hes.
  { unfold shown. rewrite take_take, length_take.
    destruct (decide (255 <= length l)%nat); [f_equal; lia|]. by rewrite !take_ge by lia. }
  assert (Forall sendable (take 255 l)) as Hsend.
  { apply Forall_forall. intros e He. apply (Hsmall (e_key e)), Hin.
    rewrite <-(take_drop 255 l). apply elem_of_app. by left. }
  exists (sync_response id (take 256 l)), l.
  unfold a'. rewrite answer_sync by done. rewrite Hl.
  pose proof (receive_sync nowB connA id (take 256 l) b) as Hrecv. rewrite Hes in Hrecv.
  split_and!; by try apply Hrecv.
Qed.

(** An update is lost to a later import of an older one.  An entry imported by a sync is
    stamped with the time of the import, not with its own; a newer version of it that was
    written before that time is then taken for the older one and ignored. *)
Theorem sync_loses_update {S} `{!IStore S, !IStoreLaws S} (s s1 : S) now1 now2 old new :
  store_ok s -> fits 63 now1 -> entry_ok old -> get now1 (Some (e_key old)) s = None ->
  put now1 (Some (e_key old)) (Some (e_value old)) (e_ttl_s old) (e_flags old) s = (true, s1) ->
  e_key new = e_key old -> e_timestamp_us old < e_timestamp_us new <= now1 ->
  live now2 (mk_kv (e_key old) (e_value old) now1 (e_ttl_s old) (e_flags old)) = true ->
  import_entry now1 old s = s1 /\ import_entry now2 new s1 = s1.
Proof.
  intros Hs Hnow (Hk & _ & Hl & Hf) Hget Hput Hkey Hts Hlive.
  unfold import_entry at 1. rewrite Hget, Hput. split; [done|].
  apply put_law in Hput as [Hok Hc]; [|done|split_and!; done].
  unfold import_entry. rewrite Hkey, get_law by done. rewrite Hc, lookup_insert_eq, Hlive.
  cbn [e_timestamp_us]. by rewrite (proj2 (Z.ltb_ge _ _)) by lia.
Qed.

(** ** Concrete services *)

Definition toy_service : StoreHandler (gmap bytes row) := mk_handler ∅ [] [].

Definition toy_requests : list (Z * Z * request) :=
  [(1000000, 7, RSubscribe 1 (str_bytes "peer/") 0 1);
   (2000000, 8, RPut 2 60 (str_bytes "peer/a") [x01; x02] 0);
   (3000000, 8, RGet 3 (str_bytes "peer/a") 0 0);
   (4000000, 7, RGet 4 (str_bytes "peer/") 1 10);
   (5000000, 8, RDelete 5 (str_bytes "peer/a"))].

(** Closed requests are checked by evaluation. *)
Ltac concrete_request :=
  repeat match goal with
    | |- _ /\ _ => split
    | |- store_key_ok _ => split; [concrete_key|vm_compute; discriminate]
    | |- fits _ _ => apply (bool_decide_unpack (fits _ _)); vm_compute; exact I
    end.

Lemma toy_requests_ok : Forall timed_ok toy_requests.
Proof.
  unfold toy_requests, timed_ok. rewrite !Forall_cons_iff. cbn [fst snd request_ok].
  concrete_request; try lia; try (by left); try (vm_compute; discriminate).
  right. split; [by left|vm_compute; discriminate].
Qed.

Lemma store_service_refines_witness :
  Forall timed_ok toy_requests /\
  let h' := run_app (map request_event toy_requests) toy_service in
  exists out,
    svc_run (∅, []) toy_requests out (contents (h_backend h'), h_subscriptions h') /\
    h_out h' = map encode_reply out /\ length (h_out h') = 7%nat.
Proof.
  split; [exact toy_requests_ok|]. intros h'.
  destruct (store_service_refines toy_service toy_requests) as (out & Hrun & Hout).
  - apply map_Forall_empty.
  - exact toy_requests_ok.
  - exists out. split; [exact Hrun|]. split; [exact Hout|]. vm_compute. reflexivity.
Defined.

Lemma store_rejects_witness :
  (on_message 1 7 MSG_TYPE_SYS_STORE_PUT (replicate 10 x00) toy_service).2 = toy_service /\
  put_malformed (replicate 10 x00).
Proof.
  destruct (store_rejects 1 7 toy_service) as (Hinert & Hput & _). split.
  - apply Hinert. vm_compute. reflexivity.
  - apply Hput. vm_compute. reflexivity.
Defined.

(** A node with one entry and an empty one that asks it for everything. *)
Definition toy_full : StoreHandler (gmap bytes row) :=
  run_app (map request_event [(2000000, 8, RPut 2 0 (str_bytes "peer/a") [x01; x02] 0)]) toy_service.

Definition toy_row : row := mk_row [x01; x02] 2000000 0 0 0.
Definition toy_kv : Entry := mk_kv (str_bytes "peer/a") [x01; x02] 2000000 0 0.

Lemma toy_full_backend : h_backend toy_full = {[str_bytes "peer/a" := toy_row]}.
Proof. vm_compute. reflexivity. Qed.

Lemma toy_full_contents : contents (h_backend toy_full) = {[str_bytes "peer/a" := toy_kv]}.
Proof. vm_compute. reflexivity. Qed.

Lemma toy_full_ok : store_ok (h_backend toy_full).
Proof.
  rewrite toy_full_backend. apply map_Forall_insert_2; [|apply map_Forall_empty].
  split_and!; [concrete_key|apply (bool_decide_unpack (fits _ _)); vm_compute; exact I..|reflexivity].
Qed.

Lemma sync_transfers_witness :
  exists payload l,
    h_out (on_sync 3000000 9 (sync_request 1 0) toy_full).2 =
      h_out toy_full ++ [mk_out 9 MSG_TYPE_SYS_STORE_SYNC payload] /\
    contents (h_backend (on_sync 4000000 5 payload toy_service).2) =
      merge 4000000 (import_writes 4000000 (take 255 l) (h_backend toy_service)) (take 255 l) ∅ /\
    toy_kv ∈ l.
Proof.
  destruct (sync_transfers toy_full toy_service 3000000 4000000 5 9 1 0)
    as (payload & l & Hout & _ & _ & _ & Hl & Hm & _).
  - exact toy_full_ok.
  - apply map_Forall_empty.
  - apply (bool_decide_unpack (fits _ _)); vm_compute; exact I.
  - apply (bool_decide_unpack (fits _ _)); vm_compute; exact I.
  - lia.
  - rewrite toy_full_contents. apply map_Forall_insert_2; [|apply map_Forall_empty].
    split_and!; [vm_compute; reflexivity..|concrete_entry].
  - exists payload, l. split; [exact Hout|]. split; [exact Hm|].
    apply Hl. rewrite toy_full_contents. split_and!; reflexivity.
Defined.

(** The entry is written: the import of the answer is not empty. *)
Example toy_sync_writes :
  merge 4000000 (import_writes 4000000 [toy_kv] (h_backend toy_service)) [toy_kv] ∅ =
  {[str_bytes "peer/a" := mk_kv (str_bytes "peer/a") [x01; x02] 4000000 0 0]}.
Proof. vm_compute. reflexivity. Qed.

Lemma sync_loses_update_witness :
  let old := mk_kv [x6b] [x01] 100 0 0 in
  let new := mk_kv [x6b] [x02] 200 0 0 in
  let s1 := import_entry 1000 old (∅ : gmap bytes row) in
  import_entry 2000 new s1 = s1 /\ get 2000 (Some [x6b]) s1 = Some (mk_kv [x6b] [x01] 1000 0 0).
Proof.
  intros old new s1. split; [|vm_compute; reflexivity].
  apply (sync_loses_update (∅ : gmap bytes row) s1 1000 2000 old new).
  - apply map_Forall_empty.
  - apply (bool_decide_unpack (fits _ _)); vm_compute; exact I.
  - concrete_entry.
  - vm_compute. reflexivity.
  - vm_compute. reflexivity.
  - reflexivity.
  - vm_compute. split; done.
  - vm_compute. reflexivity.
Defined.
