(* ===== verification/Tcp.v ===== *)
(** * TCP connector ([plugins/connectors/tcp/tcp.cpp])

    The connector turns sockets into connections of the core: it cuts the incoming stream
    into frames, queues outgoing frames and keeps at most one write in flight.  Its tasks
    run on several threads: [tc_tasks] are the tasks posted to the [io_context], which any
    thread may pick up in any order, and a step of the model is one task or one completion
    handler up to the end of its locked section, so that a run is an interleaving of the
    threads.  A connection is a shared object that outlives its table entry: it lives in
    [tc_heap], and the table holds its index.  What the connector tells the core is
    [tc_out]; the id the core gives a new connection is an input, and so is what the
    sockets do. *)

From Stdlib Require Import ZArith Strings.Byte String Lia.
From stdpp Require Import base gmap list strings numbers.
From S2P Require Import Prelude Codec Wire.

Local Open Scope Z_scope.

Definition MAX_PAYLOAD : Z := 64 * 1024 * 1024.
Definition WRITE_BATCH_SIZE : nat := 64.

(** ** Reading: [start_read_header], [start_read_body] *)

(** The pending [async_read] and the bytes of [frame_buf] it has filled; none before the
    connection is registered and after reading has ended. *)
Inductive read_state :=
  | RIdle
  | RHeader (buf : bytes)
  | RBody (buf : bytes) (total : nat)
  | RStopped.

Definition read_init : read_state := RHeader [].

Inductive read_result := RdNone | RdFrame (frame : bytes) | RdProtocolError.

(** The completion handler of the header read. *)
Definition on_header (buf : bytes) : read_state * read_result :=
  let hdr := view_header buf in
  if negb (hdr_magic hdr =? GNET_MAGIC) then (RStopped, RdProtocolError)
  else if negb (hdr_proto_ver hdr =? GNET_PROTO_VER) then (RStopped, RdProtocolError)
  else
    let plen := hdr_payload_len hdr in
    if plen =? 0 then (read_init, RdFrame buf)
    else if MAX_PAYLOAD <? plen then (RStopped, RdProtocolError)
    else (RBody buf (HDR_SIZE + Z.to_nat plen), RdNone).

(** One byte of the stream; a read completes when its buffer is full. *)
Definition read_byte (b : byte) (st : read_state) : read_state * read_result :=
  match st with
  | RHeader buf =>
      let buf := buf ++ [b] in
      if bool_decide (length buf = HDR_SIZE) then on_header buf else (RHeader buf, RdNone)
  | RBody buf total =>
      let buf := buf ++ [b] in
      if bool_decide (length buf = total) then (read_init, RdFrame buf) else (RBody buf total, RdNone)
  | RIdle | RStopped => (st, RdNone)
  end.

(** ** A connection *)

Record TcpConnection := mk_tcp {
  t_id : Z;
  t_read : read_state;
  t_write_queue : list bytes;
  t_writing : bool;
  t_starts : nat;                   (* threads about to run [start_write] *)
  t_inflight : list (list bytes);   (* batches handed to [async_write] *)
  t_wire : bytes;                   (* what the socket has sent *)
  t_log : list bytes;               (* every frame that was queued *)
  t_failed : bool;                  (* a write ended early *)
}.

Definition tcp_init (id : Z) : TcpConnection := mk_tcp id RIdle [] false 0 [] [] [] false.

Definition set_t_read (st : read_state) (c : TcpConnection) : TcpConnection :=
  mk_tcp (t_id c) st (t_write_queue c) (t_writing c) (t_starts c) (t_inflight c) (t_wire c) (t_log c) (t_failed c).

(** The locked section of [do_send] and [do_send_gather]. *)
Definition enqueue (frames : list bytes) (c : TcpConnection) : TcpConnection :=
  mk_tcp (t_id c) (t_read c) (t_write_queue c ++ frames) true
    (if t_writing c then t_starts c else S (t_starts c))
    (t_inflight c) (t_wire c) (t_log c ++ frames) (t_failed c).

Definition start_write (c : TcpConnection) : TcpConnection :=
  match t_starts c with
  | O => c
  | S starts =>
      match t_write_queue c with
      | [] => mk_tcp (t_id c) (t_read c) [] false starts (t_inflight c) (t_wire c) (t_log c) (t_failed c)
      | queue =>
          mk_tcp (t_id c) (t_read c) (drop WRITE_BATCH_SIZE queue) (t_writing c) starts
            (t_inflight c ++ [take WRITE_BATCH_SIZE queue]) (t_wire c) (t_log c) (t_failed c)
      end
  end.

(** How an [async_write] ends; a failed one may have sent some bytes. *)
Inductive write_result := WrDone | WrAborted (sent : nat) | WrError (sent : nat).

Definition on_written (r : write_result) (c : TcpConnection) : TcpConnection :=
  match t_inflight c with
  | [] => c
  | batch :: inflight =>
      let data := concat batch in
      let wire := t_wire c ++ match r with WrDone => data | WrAborted n | WrError n => take n data end in
      match r with
      | WrError _ => mk_tcp (t_id c) (t_read c) [] false (t_starts c) inflight wire (t_log c) true
      | _ =>
          let more := negb (bool_decide (t_write_queue c = [])) in
          mk_tcp (t_id c) (t_read c) (t_write_queue c) (if more then t_writing c else false)
            (if more then S (t_starts c) else t_starts c) inflight wire (t_log c)
            (match r with WrDone => t_failed c | _ => true end)
      end
  end.

(** ** The connector *)

Inductive tcp_task :=
  | TaskConnect (host port : bytes)
  | TaskSend (id : Z) (frames : list bytes)
  | TaskClose (id : Z)
  | TaskShutdown.

Inductive tcp_out :=
  | NotifyConnect (ep : endpoint_t)
  | NotifyData (id : Z) (data : bytes)
  | NotifyDisconnect (id err : Z).

Record TcpConnector := mk_tcpc {
  tc_connections : gmap Z nat;
  tc_heap : list TcpConnection;
  tc_tasks : list tcp_task;
  tc_out : list tcp_out;
  tc_stopped : bool;
}.

Definition tcpc_init : TcpConnector := mk_tcpc ∅ [] [] [] false.

Definition post (t : tcp_task) (c : TcpConnector) : TcpConnector :=
  mk_tcpc (tc_connections c) (tc_heap c) (tc_tasks c ++ [t]) (tc_out c) (tc_stopped c).

Definition tell (o : tcp_out) (c : TcpConnector) : TcpConnector :=
  mk_tcpc (tc_connections c) (tc_heap c) (tc_tasks c) (tc_out c ++ [o]) (tc_stopped c).

Definition set_connections (m : gmap Z nat) (c : TcpConnector) : TcpConnector :=
  mk_tcpc m (tc_heap c) (tc_tasks c) (tc_out c) (tc_stopped c).

Definition upd_conn (k : nat) (f : TcpConnection -> TcpConnection) (c : TcpConnector) : TcpConnector :=
  mk_tcpc (tc_connections c) (alter f k (tc_heap c)) (tc_tasks c) (tc_out c) (tc_stopped c).

(** [do_connect]: host and port of the URI; the lookup and the connection end in
    [register_socket] and are in [TcpListen]. *)
Definition tcp_target (uri : bytes) : option (bytes * bytes) :=
  let target := match str_find (str_bytes "://") uri with Some p => drop (p + 3) uri | None => uri end in
  match str_rfind x3a target with
  | Some colon => Some (take colon target, drop (S colon) target)
  | None => None
  end.

Definition tcp_do_connect (uri : bytes) (c : TcpConnector) : Z * TcpConnector :=
  match tcp_target uri with
  | None => (-1, c)
  | Some (host, port) => (0, post (TaskConnect host port) c)
  end.

Definition tcp_do_send (id : Z) (data : bytes) (c : TcpConnector) : Z * TcpConnector :=
  (0, post (TaskSend id [data]) c).

Definition tcp_do_send_gather (id : Z) (iov : list bytes) (c : TcpConnector) : Z * TcpConnector :=
  (0, post (TaskSend id iov) c).

Definition tcp_do_close (id : Z) (c : TcpConnector) : TcpConnector := post (TaskClose id) c.

(** A closed socket reads and sends nothing more; its pending operations end with an
    error, which is up to the environment. *)
Definition run_task (t : tcp_task) (c : TcpConnector) : TcpConnector :=
  match t with
  | TaskConnect _ _ => c
  | TaskSend id frames =>
      match tc_connections c !! id with
      | None => c
      | Some k => upd_conn k (enqueue frames) c
      end
  | TaskClose id => tell (NotifyDisconnect id 0) (set_connections (delete id (tc_connections c)) c)
  | TaskShutdown => set_connections ∅ c
  end.

(** The remote address of a socket, [None] when it has none any more. *)
Record peer_addr := mk_peer { pa_address : string; pa_port : Z; pa_loopback : bool }.

Definition endpoint_of (peer : option peer_addr) (outbound : bool) : endpoint_t :=
  match peer with
  | None => mk_endpoint "" 0 (replicate 32 x00) 0 0
  | Some p =>
      mk_endpoint (pa_address p) (pa_port p) (replicate 32 x00) 0
        (Z.lor (if pa_loopback p then EP_FLAG_TRUSTED else 0) (if outbound then EP_FLAG_OUTBOUND else 0))
  end.

(** [register_socket] up to the core's answer [id], and the rest of it. *)
Definition register_socket (peer : option peer_addr) (outbound : bool) (id : Z) (c : TcpConnector) : TcpConnector :=
  let c := tell (NotifyConnect (endpoint_of peer outbound)) c in
  if id =? CONN_ID_INVALID then c
  else mk_tcpc (tc_connections c) (tc_heap c ++ [tcp_init id]) (tc_tasks c) (tc_out c) (tc_stopped c).

Definition register_insert (k : nat) (c : TcpConnector) : TcpConnector :=
  match tc_heap c !! k with
  | Some conn =>
      match t_read conn with
      | RIdle => set_connections (<[t_id conn := k]> (tc_connections c)) (upd_conn k (set_t_read read_init) c)
      | _ => c
      end
  | None => c
  end.

Definition on_read_error (id : Z) (err : option Z) (c : TcpConnector) : TcpConnector :=
  let c := tell (NotifyDisconnect id (default 0 err)) c in
  set_connections (delete id (tc_connections c)) c.

Definition on_protocol_error (id : Z) (c : TcpConnector) : TcpConnector :=
  let c := tell (NotifyDisconnect id 1) c in
  set_connections (delete id (tc_connections c)) c.

Definition recv_byte (k : nat) (c : TcpConnector) (b : byte) : TcpConnector :=
  match tc_heap c !! k with
  | None => c
  | Some conn =>
      let '(st, r) := read_byte b (t_read conn) in
      let c := upd_conn k (set_t_read st) c in
      match r with
      | RdNone => c
      | RdFrame frame => tell (NotifyData (t_id conn) frame) c
      | RdProtocolError => on_protocol_error (t_id conn) c
      end
  end.

(** A read that failed: [err] is [None] for the end of the stream and for an aborted read. *)
Definition read_failed (k : nat) (err : option Z) (c : TcpConnector) : TcpConnector :=
  match tc_heap c !! k with
  | Some conn =>
      match t_read conn with
      | RIdle | RStopped => c
      | _ => on_read_error (t_id conn) err (upd_conn k (set_t_read RStopped) c)
      end
  | None => c
  end.

(** [on_shutdown] posts the task that closes everything and then stops the threads. *)
Inductive tcp_op :=
  | TDoConnect (uri : bytes)
  | TDoSend (id : Z) (data : bytes)
  | TDoSendGather (id : Z) (iov : list bytes)
  | TDoClose (id : Z) (hard : bool)
  | TRun (i : nat)
  | TRegister (peer : option peer_addr) (outbound : bool) (id : Z)
  | TInsert (k : nat)
  | TStartWrite (k : nat)
  | TWritten (k : nat) (r : write_result)
  | TRecv (k : nat) (data : bytes)
  | TReadFailed (k : nat) (err : option Z)
  | TShutdown
  | TStop.

Definition run_tcp_op (c : TcpConnector) (op : tcp_op) : TcpConnector :=
  match op with
  | TDoConnect uri => (tcp_do_connect uri c).2
  | TDoSend id data => (tcp_do_send id data c).2
  | TDoSendGather id iov => (tcp_do_send_gather id iov c).2
  | TDoClose id _ => tcp_do_close id c
  | TShutdown => post TaskShutdown c
  | TStop => mk_tcpc (tc_connections c) (tc_heap c) (tc_tasks c) (tc_out c) true
  | _ =>
      if tc_stopped c then c
      else
        match op with
        | TRun i =>
            match tc_tasks c !! i with
            | None => c
            | Some t =>
                run_task t (mk_tcpc (tc_connections c) (tc_heap c) (delete i (tc_tasks c)) (tc_out c) (tc_stopped c))
            end
        | TRegister peer outbound id => register_socket peer outbound id c
        | TInsert k => register_insert k c
        | TStartWrite k => upd_conn k start_write c
        | TWritten k r => upd_conn k (on_written r) c
        | TRecv k data => fold_left (recv_byte k) data c
        | TReadFailed k err => read_failed k err c
        | _ => c
        end
  end.

Definition run_tcp (ops : list tcp_op) (c : TcpConnector) : TcpConnector := fold_left run_tcp_op ops c.

(** ** The write pipeline *)

(** The writing flag says whether a thread is about to write or a write is in flight, there
    is only one such, and no frame waits without it; without failures, what the socket has
    sent, the batch in flight and the queue are the frames that were queued. *)
Record write_inv (c : TcpConnection) : Prop := {
  wi_token : (t_starts c + length (t_inflight c) = if t_writing c then 1 else 0)%nat;
  wi_queue : t_writing c = false -> t_write_queue c = [];
  wi_batch : Forall (fun b => (length b <= WRITE_BATCH_SIZE)%nat) (t_inflight c);
  wi_bytes : t_failed c = false ->
    concat (t_log c) = t_wire c ++ concat (concat (t_inflight c)) ++ concat (t_write_queue c);
}.

Lemma write_inv_init id : write_inv (tcp_init id).
Proof. by split. Qed.

Lemma write_inv_read st c : write_inv c -> write_inv (set_t_read st c).
Proof. by intros []. Qed.

Lemma enqueue_keeps frames c : write_inv c -> write_inv (enqueue frames c).
Proof.
  intros [Ht Hq Hb Hby]. split; simpl; try done.
  - destruct (t_writing c); lia.
  - intros Hf. by rewrite !concat_app, (Hby Hf), <-!app_assoc.
Qed.

Lemma start_write_keeps c : write_inv c -> write_inv (start_write c).
Proof.
  intros [Ht Hq Hb Hby]. unfold start_write. destruct (t_starts c) as [|n] eqn:Hn; [by split; rewrite ?Hn|].
  assert (t_writing c = true /\ n = 0%nat /\ t_inflight c = []) as (Hw & -> & Hi).
  { destruct (t_writing c), (t_inflight c); simpl in Ht; split_and!; done || lia. }
  destruct (t_write_queue c) as [|f q] eqn:Hqu; split;
    cbn [t_starts t_inflight t_writing t_write_queue t_failed t_log t_wire]; rewrite ?Hi; try done.
  - intros Hf. by rewrite (Hby Hf), Hi.
  - by rewrite Hw.
  - by rewrite Hw.
  - constructor; [|done]. rewrite length_take. lia.
  - intros Hf. rewrite (Hby Hf), Hi. cbn [concat app]. rewrite app_nil_r, <-concat_app.
    by rewrite take_drop.
Qed.

Lemma on_written_keeps r c : write_inv c -> write_inv (on_written r c).
Proof.
  intros [Ht Hq Hb Hby]. unfold on_written. destruct (t_inflight c) as [|batch rest] eqn:Hi; [by split; rewrite ?Hi|].
  assert (t_writing c = true /\ t_starts c = 0%nat /\ rest = []) as (Hw & Hs & ->).
  { destruct (t_writing c), rest; simpl in Ht; split_and!; done || lia. }
  assert (t_failed c = false -> concat (t_log c) = (t_wire c ++ concat batch) ++ concat (t_write_queue c)) as Hby'.
  { intros Hf. rewrite (Hby Hf). simpl. by rewrite app_nil_r, <-app_assoc. }
  destruct r as [|n|n]; [case_bool_decide as Hq0; split; simpl; rewrite ?Hw, ?Hs; auto..|by split; simpl; rewrite ?Hs].
  all: done.
Qed.

Lemma alter_Forall {A} (P : A -> Prop) f k (l : list A) :
  (forall x, P x -> P (f x)) -> Forall P l -> Forall P (alter f k l).
Proof.
  intros Hf Hl. apply Forall_lookup. intros i x Hx. destruct (decide (i = k)) as [->|Hne].
  - rewrite list_lookup_alter_eq in Hx. apply fmap_Some in Hx as (y & Hy & ->).
    apply Hf. by apply (Forall_lookup_1 _ _ _ _ Hl Hy).
  - rewrite list_lookup_alter_ne in Hx by done. by apply (Forall_lookup_1 _ _ _ _ Hl Hx).
Qed.

(** The table leads from an id to a connection with that id that reads. *)
Record tcp_inv (c : TcpConnector) : Prop := {
  ti_write : Forall write_inv (tc_heap c);
  ti_table id k : tc_connections c !! id = Some k -> exists conn, tc_heap c !! k = Some conn /\ t_id conn = id;
  ti_ids : Forall (fun conn => t_id conn <> CONN_ID_INVALID) (tc_heap c);
}.

Lemma tcp_inv_init : tcp_inv tcpc_init.
Proof. by split. Qed.

(** Operations that change neither connections nor the table. *)
Lemma tcp_inv_same c tasks out stopped :
  tcp_inv c -> tcp_inv (mk_tcpc (tc_connections c) (tc_heap c) tasks out stopped).
Proof. by intros []. Qed.

Lemma tcp_inv_delete m c :
  tcp_inv c -> (forall id k, m !! id = Some k -> tc_connections c !! id = Some k) -> tcp_inv (set_connections m c).
Proof. intros [] Hm. split; simpl; eauto. Qed.

Lemma tcp_inv_delete_id id c : tcp_inv c -> tcp_inv (set_connections (delete id (tc_connections c)) c).
Proof. intros H. apply tcp_inv_delete; [done|]. by intros i k [_ ?]%lookup_delete_Some. Qed.

Lemma tcp_inv_upd k f c :
  (forall x, write_inv x -> write_inv (f x)) -> (forall x, t_id (f x) = t_id x) ->
  tcp_inv c -> tcp_inv (upd_conn k f c).
Proof.
  intros Hf Hid [Hw Ht Hi]. split; simpl.
  - by apply alter_Forall.
  - intros id i Hk. destruct (Ht id i Hk) as (conn & Hc & Hcid).
    destruct (decide (i = k)) as [->|Hne].
    + exists (f conn). rewrite list_lookup_alter_eq, Hc, Hid. done.
    + exists conn. by rewrite list_lookup_alter_ne.
  - apply alter_Forall; [|done]. intros x. by rewrite Hid.
Qed.

Lemma tcp_inv_tell o c : tcp_inv c -> tcp_inv (tell o c).
Proof. apply tcp_inv_same. Qed.

Lemma enqueue_id frames c : t_id (enqueue frames c) = t_id c.
Proof. done. Qed.

Lemma start_write_id c : t_id (start_write c) = t_id c.
Proof. unfold start_write. destruct (t_starts c); [done|]. by destruct (t_write_queue c). Qed.

Lemma on_written_id r c : t_id (on_written r c) = t_id c.
Proof. unfold on_written. destruct (t_inflight c); [done|]. by destruct r. Qed.

Lemma run_task_keeps t c : tcp_inv c -> tcp_inv (run_task t c).
Proof.
  intros H. destruct t as [h p|id frames|id|]; simpl.
  - done.
  - destruct (tc_connections c !! id); [|done]. apply tcp_inv_upd; [apply enqueue_keeps|done..].
  - by apply tcp_inv_tell, tcp_inv_delete_id.
  - apply tcp_inv_delete; [done|]. intros id k. by rewrite lookup_empty.
Qed.

Lemma register_keeps peer outbound id c : tcp_inv c -> tcp_inv (register_socket peer outbound id c).
Proof.
  intros H. unfold register_socket. apply (tcp_inv_tell (NotifyConnect (endpoint_of peer outbound))) in H.
  destruct (Z.eqb_spec id CONN_ID_INVALID); [done|]. destruct H as [Hw Ht Hi]. split; simpl.
  - apply Forall_app. split; [done|]. by repeat constructor.
  - intros id' k Hk. destruct (Ht id' k Hk) as (conn & Hc & Hid). exists conn. split; [|done].
    by apply lookup_app_l_Some.
  - apply Forall_app. split; [done|]. by repeat constructor.
Qed.

Lemma insert_keeps k c : tcp_inv c -> tcp_inv (register_insert k c).
Proof.
  intros H. unfold register_insert. destruct (tc_heap c !! k) as [conn|] eqn:Hk; [|done].
  destruct (t_read conn); try done.
  assert (tcp_inv (upd_conn k (set_t_read read_init) c)) as [Hw Ht Hi].
  { apply tcp_inv_upd; [apply write_inv_read|done..]. }
  split; simpl; try done. intros id i [[<- <-]|[Hne Hk']]%lookup_insert_Some.
  - exists (set_t_read read_init conn). by rewrite list_lookup_alter_eq, Hk.
  - by apply Ht.
Qed.

Lemma recv_byte_keeps k c b : tcp_inv c -> tcp_inv (recv_byte k c b).
Proof.
  intros H. unfold recv_byte. destruct (tc_heap c !! k) as [conn|]; [|done].
  destruct (read_byte b (t_read conn)) as [st r].
  assert (tcp_inv (upd_conn k (set_t_read st) c)) as H1 by (apply tcp_inv_upd; [apply write_inv_read|done..]).
  destruct r; [done|by apply tcp_inv_tell|by apply tcp_inv_delete_id, tcp_inv_tell].
Qed.

Lemma run_tcp_op_keeps op c : tcp_inv c -> tcp_inv (run_tcp_op c op).
Proof.
  intros H. destruct op as [uri|id d|id iov|id hard|i|peer ob id|k|k|k r|k data|k err| |]; simpl;
    try (by apply tcp_inv_same).
  - unfold tcp_do_connect. destruct (tcp_target uri) as [[host port]|]; [by apply tcp_inv_same|done].
  - destruct (tc_stopped c); [done|]. destruct (tc_tasks c !! i); [|done].
    by apply run_task_keeps, tcp_inv_same.
  - destruct (tc_stopped c); [done|]. by apply register_keeps.
  - destruct (tc_stopped c); [done|]. by apply insert_keeps.
  - destruct (tc_stopped c); [done|]. apply tcp_inv_upd; [apply start_write_keeps|apply start_write_id|done].
  - destruct (tc_stopped c); [done|]. apply tcp_inv_upd; [apply on_written_keeps|apply on_written_id|done].
  - destruct (tc_stopped c); [done|]. revert c H. induction data as [|b data IH]; intros c H; [done|].
    by apply IH, recv_byte_keeps.
  - destruct (tc_stopped c); [done|]. unfold read_failed. destruct (tc_heap c !! k) as [conn|]; [|done].
    assert (tcp_inv (upd_conn k (set_t_read RStopped) c)) as H1 by (apply tcp_inv_upd; [apply write_inv_read|done..]).
    destruct (t_read conn); try done; by apply tcp_inv_delete_id, tcp_inv_tell.
Qed.

Lemma run_tcp_keeps ops c : tcp_inv c -> tcp_inv (run_tcp ops c).
Proof. revert c. induction ops as [|op ops IH]; intros c H; [done|]. by apply IH, run_tcp_op_keeps. Qed.

(** A connection that is not writing has sent everything. *)
Lemma quiet_wire conn :
  write_inv conn -> t_failed conn = false -> t_writing conn = false -> t_wire conn = concat (t_log conn).
Proof.
  intros [Ht Hq Hb Hby] Hf Hwr. rewrite (Hby Hf), (Hq Hwr). rewrite Hwr in Ht.
  destruct (t_inflight conn); [by rewrite app_nil_r|simpl in Ht; lia].
Qed.

(** C18: In every interleaving of the connector's threads, whatever the sockets do: a connection
    has at most one write in flight or about to start, exactly when its writing flag is set,
    and never a queued frame without it; and as long as no write has failed, what the socket
    has sent, the batch in flight and the queue are together exactly the frames that were
    queued, in that order and whole. *)
Theorem tcp_write_pipeline ops k conn :
  tc_heap (run_tcp ops tcpc_init) !! k = Some conn ->
  (t_starts conn + length (t_inflight conn) = if t_writing conn then 1 else 0)%nat /\
  (t_write_queue conn <> [] -> t_writing conn = true) /\
  Forall (fun batch => (length batch <= WRITE_BATCH_SIZE)%nat) (t_inflight conn) /\
  (t_failed conn = false ->
     concat (t_log conn) = t_wire conn ++ concat (concat (t_inflight conn)) ++ concat (t_write_queue conn)) /\
  (t_failed conn = false -> t_writing conn = false -> t_wire conn = concat (t_log conn)).
Proof.
  intros Hk. destruct (run_tcp_keeps ops _ tcp_inv_init) as [Hw _ _].
  pose proof (Forall_lookup_1 _ _ _ _ Hw Hk) as Hinv. pose proof Hinv as [Ht Hq Hb Hby].
  split_and!; try done; [|by apply quiet_wire].
  intros Hne. destruct (t_writing conn); [done|]. by destruct Hne; auto.
Qed.
