(* ===== verification/CmState.v ===== *)
(** * Connection manager: data model ([core/cm/impl.hpp], [core/types])

    The state of [ConnectionManager::Impl] as a record, with the per-peer
    [ConnectionRecord] and [TransportPath].  The RCU map of shared pointers is a finite map
    of records: every method re-reads the record from the map where the code goes through
    the shared pointer, so a mutation through one alias is seen through the others.

    Calls out of the manager are events of the [trace], oldest first: connector vtable
    calls, handler callbacks, and uses of memory outside an object ([EvUB]).  What a
    connector's write returns is an oracle of its vtable ([co_rc]) indexed by the number of
    I/O calls so far; the clocks are fields, constant during one call into the manager. *)

From Stdlib Require Import ZArith Strings.Byte String Lia.
From stdpp Require Import base gmap list strings numbers.
From S2P Require Import Prelude Codec Wire NonceWindow Queue Crypto Noise Session Signals.

Local Open Scope Z_scope.

Definition PENDING_TTL_NS : Z := 30 * 1000000000.
Definition PENDING_MAX_PER_URI : nat := 100.
Definition HEARTBEAT_INTERVAL_NS : Z := 30 * 1000000000.
Definition MAX_MISSED_HEARTBEATS : Z := 3.
Definition GLOBAL_MAX_IN_FLIGHT : Z := 512 * 1024 * 1024.
Definition CHUNK_SIZE : nat := Z.to_nat (1024 * 1024).
Definition MAX_RECV_BUF : Z := 16 * 1024 * 1024.
Definition RELAY_DEDUP_MAX : nat := Z.to_nat 8192.
Definition RELAY_TTL_NS : Z := 30 * 1000000000.

Record Compression := mk_compression {
  comp_enabled : bool;
  comp_threshold : Z;
  comp_level : Z;
}.

Record NodeIdentity := mk_identity {
  user_pubkey : bytes;
  user_seckey : bytes;
  device_pubkey : bytes;
  device_seckey : bytes;
}.

Record PendingMessage := mk_pending {
  pm_msg_type : Z;
  pm_payload : bytes;
  pm_queued_at : Z;
}.

(** A handler descriptor ([handler_t]): which callbacks it has, and the verdict its
    [on_message_result] gives after [handle_message] saw a packet. *)
Record handler_t := mk_handler {
  h_name : option string;
  h_handle_message : bool;
  h_on_message_result : option (header_t -> endpoint_t -> bytes -> propagation_t);
  h_handle_conn_state : bool;
  h_supported_types : list Z;
  h_info_priority : option Z;
}.

Inductive HandlerSource := SrcPlugin | SrcConnector | SrcInternal.

#[export] Instance handler_source_eq_dec : EqDecision HandlerSource.
Proof. solve_decision. Defined.

Record HandlerEntry := mk_handler_entry {
  he_name : string;
  he_handler : handler_t;
  he_priority : Z;
  he_subscribed_types : list Z;
  he_source : HandlerSource;
}.

(** A connector vtable ([connector_ops_t]): which optional entries it has, and the return
    code of its [n]-th write. *)
Record connector_ops := mk_ops {
  co_send_gather : bool;
  co_close : bool;
  co_close_now : bool;
  co_rc : nat -> Z;
}.

(** One transport to a peer. *)
Record TransportPath := mk_path {
  tp_transport_conn_id : Z;
  tp_scheme : string;
  tp_priority : Z;
  tp_remote : endpoint_t;
  tp_active : bool;
  tp_last_rtt_us : Z;
  tp_consecutive_errors : Z;
  tp_added_at : Z;
}.

Definition set_tp_scheme (v : string) (p : TransportPath) : TransportPath :=
  mk_path (tp_transport_conn_id p) v (tp_priority p) (tp_remote p) (tp_active p)
    (tp_last_rtt_us p) (tp_consecutive_errors p) (tp_added_at p).
Definition set_tp_priority (v : Z) (p : TransportPath) : TransportPath :=
  mk_path (tp_transport_conn_id p) (tp_scheme p) v (tp_remote p) (tp_active p) (tp_last_rtt_us p)
    (tp_consecutive_errors p) (tp_added_at p).
Definition set_tp_active (v : bool) (p : TransportPath) : TransportPath :=
  mk_path (tp_transport_conn_id p) (tp_scheme p) (tp_priority p) (tp_remote p) v
    (tp_last_rtt_us p) (tp_consecutive_errors p) (tp_added_at p).
Definition set_tp_last_rtt_us (v : Z) (p : TransportPath) : TransportPath :=
  mk_path (tp_transport_conn_id p) (tp_scheme p) (tp_priority p) (tp_remote p) (tp_active p) v
    (tp_consecutive_errors p) (tp_added_at p).
Definition set_tp_consecutive_errors (v : Z) (p : TransportPath) : TransportPath :=
  mk_path (tp_transport_conn_id p) (tp_scheme p) (tp_priority p) (tp_remote p) (tp_active p)
    (tp_last_rtt_us p) v (tp_added_at p).

Record PeerPathInfo := mk_peer_path {
  pi_scheme : string;
  pi_active : bool;
  pi_priority : Z;
  pi_rtt_compressed : Z;
}.

(** Full state of one peer connection. *)
Record ConnectionRecord := mk_record {
  r_id : Z;
  r_state : conn_state_t;
  r_remote : endpoint_t;
  r_local_scheme : string;
  r_peer_schemes : list string;
  r_negotiated_scheme : string;
  r_peer_user_pubkey : bytes;
  r_peer_device_pubkey : bytes;
  r_peer_authenticated : bool;
  r_is_localhost : bool;
  r_localhost_passthrough : bool;
  r_is_initiator : bool;
  r_peer_core_meta : CoreMeta;
  r_peer_transport_info : list PeerPathInfo;
  r_affinity_plugin : string;
  r_send_packet_id : Z;
  r_last_heartbeat_recv : Z;
  r_heartbeat_seq : Z;
  r_missed_heartbeats : Z;
  r_handshake : option HandshakeState;
  r_session : option NoiseSession;
  r_recv_buf : bytes;
  r_transport_paths : list TransportPath;
}.

Definition set_r_state (v : conn_state_t) (r : ConnectionRecord) : ConnectionRecord :=
  mk_record (r_id r) v (r_remote r) (r_local_scheme r) (r_peer_schemes r) (r_negotiated_scheme r)
    (r_peer_user_pubkey r) (r_peer_device_pubkey r) (r_peer_authenticated r) (r_is_localhost r)
    (r_localhost_passthrough r) (r_is_initiator r) (r_peer_core_meta r) (r_peer_transport_info r)
    (r_affinity_plugin r) (r_send_packet_id r) (r_last_heartbeat_recv r) (r_heartbeat_seq r)
    (r_missed_heartbeats r) (r_handshake r) (r_session r) (r_recv_buf r) (r_transport_paths r).
Definition set_r_peer_schemes (v : list string) (r : ConnectionRecord) : ConnectionRecord :=
  mk_record (r_id r) (r_state r) (r_remote r) (r_local_scheme r) v (r_negotiated_scheme r)
    (r_peer_user_pubkey r) (r_peer_device_pubkey r) (r_peer_authenticated r) (r_is_localhost r)
    (r_localhost_passthrough r) (r_is_initiator r) (r_peer_core_meta r) (r_peer_transport_info r)
    (r_affinity_plugin r) (r_send_packet_id r) (r_last_heartbeat_recv r) (r_heartbeat_seq r)
    (r_missed_heartbeats r) (r_handshake r) (r_session r) (r_recv_buf r) (r_transport_paths r).
Definition set_r_negotiated_scheme (v : string) (r : ConnectionRecord) : ConnectionRecord :=
  mk_record (r_id r) (r_state r) (r_remote r) (r_local_scheme r) (r_peer_schemes r) v
    (r_peer_user_pubkey r) (r_peer_device_pubkey r) (r_peer_authenticated r) (r_is_localhost r)
    (r_localhost_passthrough r) (r_is_initiator r) (r_peer_core_meta r) (r_peer_transport_info r)
    (r_affinity_plugin r) (r_send_packet_id r) (r_last_heartbeat_recv r) (r_heartbeat_seq r)
    (r_missed_heartbeats r) (r_handshake r) (r_session r) (r_recv_buf r) (r_transport_paths r).
Definition set_r_peer_user_pubkey (v : bytes) (r : ConnectionRecord) : ConnectionRecord :=
  mk_record (r_id r) (r_state r) (r_remote r) (r_local_scheme r) (r_peer_schemes r)
    (r_negotiated_scheme r) v (r_peer_device_pubkey r) (r_peer_authenticated r)
    (r_is_localhost r) (r_localhost_passthrough r) (r_is_initiator r) (r_peer_core_meta r)
    (r_peer_transport_info r) (r_affinity_plugin r) (r_send_packet_id r)
    (r_last_heartbeat_recv r) (r_heartbeat_seq r) (r_missed_heartbeats r) (r_handshake r)
    (r_session r) (r_recv_buf r) (r_transport_paths r).
Definition set_r_peer_device_pubkey (v : bytes) (r : ConnectionRecord) : ConnectionRecord :=
  mk_record (r_id r) (r_state r) (r_remote r) (r_local_scheme r) (r_peer_schemes r)
    (r_negotiated_scheme r) (r_peer_user_pubkey r) v (r_peer_authenticated r) (r_is_localhost r)
    (r_localhost_passthrough r) (r_is_initiator r) (r_peer_core_meta r) (r_peer_transport_info r)
    (r_affinity_plugin r) (r_send_packet_id r) (r_last_heartbeat_recv r) (r_heartbeat_seq r)
    (r_missed_heartbeats r) (r_handshake r) (r_session r) (r_recv_buf r) (r_transport_paths r).
Definition set_r_peer_authenticated (v : bool) (r : ConnectionRecord) : ConnectionRecord :=
  mk_record (r_id r) (r_state r) (r_remote r) (r_local_scheme r) (r_peer_schemes r)
    (r_negotiated_scheme r) (r_peer_user_pubkey r) (r_peer_device_pubkey r) v (r_is_localhost r)
    (r_localhost_passthrough r) (r_is_initiator r) (r_peer_core_meta r) (r_peer_transport_info r)
    (r_affinity_plugin r) (r_send_packet_id r) (r_last_heartbeat_recv r) (r_heartbeat_seq r)
    (r_missed_heartbeats r) (r_handshake r) (r_session r) (r_recv_buf r) (r_transport_paths r).
Definition set_r_localhost_passthrough (v : bool) (r : ConnectionRecord) : ConnectionRecord :=
  mk_record (r_id r) (r_state r) (r_remote r) (r_local_scheme r) (r_peer_schemes r)
    (r_negotiated_scheme r) (r_peer_user_pubkey r) (r_peer_device_pubkey r)
    (r_peer_authenticated r) (r_is_localhost r) v (r_is_initiator r) (r_peer_core_meta r)
    (r_peer_transport_info r) (r_affinity_plugin r) (r_send_packet_id r)
    (r_last_heartbeat_recv r) (r_heartbeat_seq r) (r_missed_heartbeats r) (r_handshake r)
    (r_session r) (r_recv_buf r) (r_transport_paths r).
Definition set_r_peer_core_meta (v : CoreMeta) (r : ConnectionRecord) : ConnectionRecord :=
  mk_record (r_id r) (r_state r) (r_remote r) (r_local_scheme r) (r_peer_schemes r)
    (r_negotiated_scheme r) (r_peer_user_pubkey r) (r_peer_device_pubkey r)
    (r_peer_authenticated r) (r_is_localhost r) (r_localhost_passthrough r) (r_is_initiator r) v
    (r_peer_transport_info r) (r_affinity_plugin r) (r_send_packet_id r)
    (r_last_heartbeat_recv r) (r_heartbeat_seq r) (r_missed_heartbeats r) (r_handshake r)
    (r_session r) (r_recv_buf r) (r_transport_paths r).
Definition set_r_peer_transport_info (v : list PeerPathInfo) (r : ConnectionRecord) : ConnectionRecord :=
  mk_record (r_id r) (r_state r) (r_remote r) (r_local_scheme r) (r_peer_schemes r)
    (r_negotiated_scheme r) (r_peer_user_pubkey r) (r_peer_device_pubkey r)
    (r_peer_authenticated r) (r_is_localhost r) (r_localhost_passthrough r) (r_is_initiator r)
    (r_peer_core_meta r) v (r_affinity_plugin r) (r_send_packet_id r) (r_last_heartbeat_recv r)
    (r_heartbeat_seq r) (r_missed_heartbeats r) (r_handshake r) (r_session r) (r_recv_buf r)
    (r_transport_paths r).
Definition set_r_affinity_plugin (v : string) (r : ConnectionRecord) : ConnectionRecord :=
  mk_record (r_id r) (r_state r) (r_remote r) (r_local_scheme r) (r_peer_schemes r)
    (r_negotiated_scheme r) (r_peer_user_pubkey r) (r_peer_device_pubkey r)
    (r_peer_authenticated r) (r_is_localhost r) (r_localhost_passthrough r) (r_is_initiator r)
    (r_peer_core_meta r) (r_peer_transport_info r) v (r_send_packet_id r)
    (r_last_heartbeat_recv r) (r_heartbeat_seq r) (r_missed_heartbeats r) (r_handshake r)
    (r_session r) (r_recv_buf r) (r_transport_paths r).
Definition set_r_send_packet_id (v : Z) (r : ConnectionRecord) : ConnectionRecord :=
  mk_record (r_id r) (r_state r) (r_remote r) (r_local_scheme r) (r_peer_schemes r)
    (r_negotiated_scheme r) (r_peer_user_pubkey r) (r_peer_device_pubkey r)
    (r_peer_authenticated r) (r_is_localhost r) (r_localhost_passthrough r) (r_is_initiator r)
    (r_peer_core_meta r) (r_peer_transport_info r) (r_affinity_plugin r) v
    (r_last_heartbeat_recv r) (r_heartbeat_seq r) (r_missed_heartbeats r) (r_handshake r)
    (r_session r) (r_recv_buf r) (r_transport_paths r).
Definition set_r_last_heartbeat_recv (v : Z) (r : ConnectionRecord) : ConnectionRecord :=
  mk_record (r_id r) (r_state r) (r_remote r) (r_local_scheme r) (r_peer_schemes r)
    (r_negotiated_scheme r) (r_peer_user_pubkey r) (r_peer_device_pubkey r)
    (r_peer_authenticated r) (r_is_localhost r) (r_localhost_passthrough r) (r_is_initiator r)
    (r_peer_core_meta r) (r_peer_transport_info r) (r_affinity_plugin r) (r_send_packet_id r) v
    (r_heartbeat_seq r) (r_missed_heartbeats r) (r_handshake r) (r_session r) (r_recv_buf r)
    (r_transport_paths r).
Definition set_r_heartbeat_seq (v : Z) (r : ConnectionRecord) : ConnectionRecord :=
  mk_record (r_id r) (r_state r) (r_remote r) (r_local_scheme r) (r_peer_schemes r)
    (r_negotiated_scheme r) (r_peer_user_pubkey r) (r_peer_device_pubkey r)
    (r_peer_authenticated r) (r_is_localhost r) (r_localhost_passthrough r) (r_is_initiator r)
    (r_peer_core_meta r) (r_peer_transport_info r) (r_affinity_plugin r) (r_send_packet_id r)
    (r_last_heartbeat_recv r) v (r_missed_heartbeats r) (r_handshake r) (r_session r)
    (r_recv_buf r) (r_transport_paths r).
Definition set_r_missed_heartbeats (v : Z) (r : ConnectionRecord) : ConnectionRecord :=
  mk_record (r_id r) (r_state r) (r_remote r) (r_local_scheme r) (r_peer_schemes r)
    (r_negotiated_scheme r) (r_peer_user_pubkey r) (r_peer_device_pubkey r)
    (r_peer_authenticated r) (r_is_localhost r) (r_localhost_passthrough r) (r_is_initiator r)
    (r_peer_core_meta r) (r_peer_transport_info r) (r_affinity_plugin r) (r_send_packet_id r)
    (r_last_heartbeat_recv r) (r_heartbeat_seq r) v (r_handshake r) (r_session r) (r_recv_buf r)
    (r_transport_paths r).
Definition set_r_handshake (v : option HandshakeState) (r : ConnectionRecord) : ConnectionRecord :=
  mk_record (r_id r) (r_state r) (r_remote r) (r_local_scheme r) (r_peer_schemes r)
    (r_negotiated_scheme r) (r_peer_user_pubkey r) (r_peer_device_pubkey r)
    (r_peer_authenticated r) (r_is_localhost r) (r_localhost_passthrough r) (r_is_initiator r)
    (r_peer_core_meta r) (r_peer_transport_info r) (r_affinity_plugin r) (r_send_packet_id r)
    (r_last_heartbeat_recv r) (r_heartbeat_seq r) (r_missed_heartbeats r) v (r_session r)
    (r_recv_buf r) (r_transport_paths r).
Definition set_r_session (v : option NoiseSession) (r : ConnectionRecord) : ConnectionRecord :=
  mk_record (r_id r) (r_state r) (r_remote r) (r_local_scheme r) (r_peer_schemes r)
    (r_negotiated_scheme r) (r_peer_user_pubkey r) (r_peer_device_pubkey r)
    (r_peer_authenticated r) (r_is_localhost r) (r_localhost_passthrough r) (r_is_initiator r)
    (r_peer_core_meta r) (r_peer_transport_info r) (r_affinity_plugin r) (r_send_packet_id r)
    (r_last_heartbeat_recv r) (r_heartbeat_seq r) (r_missed_heartbeats r) (r_handshake r) v
    (r_recv_buf r) (r_transport_paths r).
Definition set_r_recv_buf (v : bytes) (r : ConnectionRecord) : ConnectionRecord :=
  mk_record (r_id r) (r_state r) (r_remote r) (r_local_scheme r) (r_peer_schemes r)
    (r_negotiated_scheme r) (r_peer_user_pubkey r) (r_peer_device_pubkey r)
    (r_peer_authenticated r) (r_is_localhost r) (r_localhost_passthrough r) (r_is_initiator r)
    (r_peer_core_meta r) (r_peer_transport_info r) (r_affinity_plugin r) (r_send_packet_id r)
    (r_last_heartbeat_recv r) (r_heartbeat_seq r) (r_missed_heartbeats r) (r_handshake r)
    (r_session r) v (r_transport_paths r).
Definition set_r_transport_paths (v : list TransportPath) (r : ConnectionRecord) : ConnectionRecord :=
  mk_record (r_id r) (r_state r) (r_remote r) (r_local_scheme r) (r_peer_schemes r)
    (r_negotiated_scheme r) (r_peer_user_pubkey r) (r_peer_device_pubkey r)
    (r_peer_authenticated r) (r_is_localhost r) (r_localhost_passthrough r) (r_is_initiator r)
    (r_peer_core_meta r) (r_peer_transport_info r) (r_affinity_plugin r) (r_send_packet_id r)
    (r_last_heartbeat_recv r) (r_heartbeat_seq r) (r_missed_heartbeats r) (r_handshake r)
    (r_session r) (r_recv_buf r) v.

(** [ConnectionRecord::best_path]: the first active path of least priority number, with
    its index. *)
Fixpoint best_path_from (i : nat) (best : option (nat * TransportPath)) (ps : list TransportPath)
    : option (nat * TransportPath) :=
  match ps with
  | [] => best
  | p :: ps =>
      let better := match best with None => true | Some (_, b) => tp_priority p <? tp_priority b end in
      best_path_from (S i) (if tp_active p && better then Some (i, p) else best) ps
  end.

Definition best_path (r : ConnectionRecord) : option (nat * TransportPath) :=
  best_path_from 0 None (r_transport_paths r).

Definition find_path (scheme : string) (r : ConnectionRecord) : option (nat * TransportPath) :=
  list_find (fun p => tp_scheme p = scheme) (r_transport_paths r).

Definition find_path_by_transport_id (tcid : Z) (r : ConnectionRecord)
    : option (nat * TransportPath) :=
  list_find (fun p => tp_transport_conn_id p = tcid) (r_transport_paths r).

(** ** Events *)

Inductive event :=
  | EvSendTo (scheme : string) (tid : Z) (frame : bytes) (rc : Z)
  | EvSendGather (scheme : string) (tid : Z) (frames : list bytes) (rc : Z)
  | EvConnect (scheme : string) (uri : string)
  | EvClose (scheme : string) (tid : Z)
  | EvCloseNow (scheme : string) (tid : Z)
  | EvHandle (handler : string) (hdr : header_t) (ep : endpoint_t) (data : bytes)
  | EvHandlerState (handler : string) (uri : string) (st : conn_state_t)
  | EvUB (what : string).

(** ** [ConnectionManager::Impl] *)

(** The manager; the last five fields are its environment. *)
Record cm := mk_cm {
  c_records : gmap Z ConnectionRecord;
  c_send_queues : gmap Z PerConnQueue;
  c_relay_dedup_set : gmap (Z * Z) Z;
  c_bus : SignalBus;
  c_compression : option Compression;
  c_identity : NodeIdentity;
  c_shutting_down : bool;
  c_next_id : Z;
  c_in_flight_dispatches : Z;
  c_scheme_priority : list string;
  c_handler_entries : gmap string HandlerEntry;
  c_connectors : gmap string connector_ops;
  c_uri_index : gmap string Z;
  c_pk_index : gmap string Z;
  c_transport_index : gmap Z Z;
  c_pending_messages : gmap string (list PendingMessage);
  c_now_ns : Z;
  c_wall_us : Z;
  c_rng : nat;
  c_io : nat;
  c_trace : list event;
}.

Definition set_c_records (v : gmap Z ConnectionRecord) (c : cm) : cm :=
  mk_cm v (c_send_queues c) (c_relay_dedup_set c) (c_bus c) (c_compression c) (c_identity c)
    (c_shutting_down c) (c_next_id c) (c_in_flight_dispatches c) (c_scheme_priority c)
    (c_handler_entries c) (c_connectors c) (c_uri_index c) (c_pk_index c) (c_transport_index c)
    (c_pending_messages c) (c_now_ns c) (c_wall_us c) (c_rng c) (c_io c) (c_trace c).
Definition set_c_send_queues (v : gmap Z PerConnQueue) (c : cm) : cm :=
  mk_cm (c_records c) v (c_relay_dedup_set c) (c_bus c) (c_compression c) (c_identity c)
    (c_shutting_down c) (c_next_id c) (c_in_flight_dispatches c) (c_scheme_priority c)
    (c_handler_entries c) (c_connectors c) (c_uri_index c) (c_pk_index c) (c_transport_index c)
    (c_pending_messages c) (c_now_ns c) (c_wall_us c) (c_rng c) (c_io c) (c_trace c).
Definition set_c_relay_dedup_set (v : gmap (Z * Z) Z) (c : cm) : cm :=
  mk_cm (c_records c) (c_send_queues c) v (c_bus c) (c_compression c) (c_identity c)
    (c_shutting_down c) (c_next_id c) (c_in_flight_dispatches c) (c_scheme_priority c)
    (c_handler_entries c) (c_connectors c) (c_uri_index c) (c_pk_index c) (c_transport_index c)
    (c_pending_messages c) (c_now_ns c) (c_wall_us c) (c_rng c) (c_io c) (c_trace c).
Definition set_c_bus (v : SignalBus) (c : cm) : cm :=
  mk_cm (c_records c) (c_send_queues c) (c_relay_dedup_set c) v (c_compression c) (c_identity c)
    (c_shutting_down c) (c_next_id c) (c_in_flight_dispatches c) (c_scheme_priority c)
    (c_handler_entries c) (c_connectors c) (c_uri_index c) (c_pk_index c) (c_transport_index c)
    (c_pending_messages c) (c_now_ns c) (c_wall_us c) (c_rng c) (c_io c) (c_trace c).
Definition set_c_identity (v : NodeIdentity) (c : cm) : cm :=
  mk_cm (c_records c) (c_send_queues c) (c_relay_dedup_set c) (c_bus c) (c_compression c) v
    (c_shutting_down c) (c_next_id c) (c_in_flight_dispatches c) (c_scheme_priority c)
    (c_handler_entries c) (c_connectors c) (c_uri_index c) (c_pk_index c) (c_transport_index c)
    (c_pending_messages c) (c_now_ns c) (c_wall_us c) (c_rng c) (c_io c) (c_trace c).
Definition set_c_shutting_down (v : bool) (c : cm) : cm :=
  mk_cm (c_records c) (c_send_queues c) (c_relay_dedup_set c) (c_bus c) (c_compression c)
    (c_identity c) v (c_next_id c) (c_in_flight_dispatches c) (c_scheme_priority c)
    (c_handler_entries c) (c_connectors c) (c_uri_index c) (c_pk_index c) (c_transport_index c)
    (c_pending_messages c) (c_now_ns c) (c_wall_us c) (c_rng c) (c_io c) (c_trace c).
Definition set_c_next_id (v : Z) (c : cm) : cm :=
  mk_cm (c_records c) (c_send_queues c) (c_relay_dedup_set c) (c_bus c) (c_compression c)
    (c_identity c) (c_shutting_down c) v (c_in_flight_dispatches c) (c_scheme_priority c)
    (c_handler_entries c) (c_connectors c) (c_uri_index c) (c_pk_index c) (c_transport_index c)
    (c_pending_messages c) (c_now_ns c) (c_wall_us c) (c_rng c) (c_io c) (c_trace c).
Definition set_c_in_flight_dispatches (v : Z) (c : cm) : cm :=
  mk_cm (c_records c) (c_send_queues c) (c_relay_dedup_set c) (c_bus c) (c_compression c)
    (c_identity c) (c_shutting_down c) (c_next_id c) v (c_scheme_priority c)
    (c_handler_entries c) (c_connectors c) (c_uri_index c) (c_pk_index c) (c_transport_index c)
    (c_pending_messages c) (c_now_ns c) (c_wall_us c) (c_rng c) (c_io c) (c_trace c).
Definition set_c_scheme_priority (v : list string) (c : cm) : cm :=
  mk_cm (c_records c) (c_send_queues c) (c_relay_dedup_set c) (c_bus c) (c_compression c)
    (c_identity c) (c_shutting_down c) (c_next_id c) (c_in_flight_dispatches c) v
    (c_handler_entries c) (c_connectors c) (c_uri_index c) (c_pk_index c) (c_transport_index c)
    (c_pending_messages c) (c_now_ns c) (c_wall_us c) (c_rng c) (c_io c) (c_trace c).
Definition set_c_handler_entries (v : gmap string HandlerEntry) (c : cm) : cm :=
  mk_cm (c_records c) (c_send_queues c) (c_relay_dedup_set c) (c_bus c) (c_compression c)
    (c_identity c) (c_shutting_down c) (c_next_id c) (c_in_flight_dispatches c)
    (c_scheme_priority c) v (c_connectors c) (c_uri_index c) (c_pk_index c) (c_transport_index c)
    (c_pending_messages c) (c_now_ns c) (c_wall_us c) (c_rng c) (c_io c) (c_trace c).
Definition set_c_connectors (v : gmap string connector_ops) (c : cm) : cm :=
  mk_cm (c_records c) (c_send_queues c) (c_relay_dedup_set c) (c_bus c) (c_compression c)
    (c_identity c) (c_shutting_down c) (c_next_id c) (c_in_flight_dispatches c)
    (c_scheme_priority c) (c_handler_entries c) v (c_uri_index c) (c_pk_index c)
    (c_transport_index c) (c_pending_messages c) (c_now_ns c) (c_wall_us c) (c_rng c) (c_io c)
    (c_trace c).
Definition set_c_uri_index (v : gmap string Z) (c : cm) : cm :=
  mk_cm (c_records c) (c_send_queues c) (c_relay_dedup_set c) (c_bus c) (c_compression c)
    (c_identity c) (c_shutting_down c) (c_next_id c) (c_in_flight_dispatches c)
    (c_scheme_priority c) (c_handler_entries c) (c_connectors c) v (c_pk_index c)
    (c_transport_index c) (c_pending_messages c) (c_now_ns c) (c_wall_us c) (c_rng c) (c_io c)
    (c_trace c).
Definition set_c_pk_index (v : gmap string Z) (c : cm) : cm :=
  mk_cm (c_records c) (c_send_queues c) (c_relay_dedup_set c) (c_bus c) (c_compression c)
    (c_identity c) (c_shutting_down c) (c_next_id c) (c_in_flight_dispatches c)
    (c_scheme_priority c) (c_handler_entries c) (c_connectors c) (c_uri_index c) v
    (c_transport_index c) (c_pending_messages c) (c_now_ns c) (c_wall_us c) (c_rng c) (c_io c)
    (c_trace c).
Definition set_c_transport_index (v : gmap Z Z) (c : cm) : cm :=
  mk_cm (c_records c) (c_send_queues c) (c_relay_dedup_set c) (c_bus c) (c_compression c)
    (c_identity c) (c_shutting_down c) (c_next_id c) (c_in_flight_dispatches c)
    (c_scheme_priority c) (c_handler_entries c) (c_connectors c) (c_uri_index c) (c_pk_index c) v
    (c_pending_messages c) (c_now_ns c) (c_wall_us c) (c_rng c) (c_io c) (c_trace c).
Definition set_c_pending_messages (v : gmap string (list PendingMessage)) (c : cm) : cm :=
  mk_cm (c_records c) (c_send_queues c) (c_relay_dedup_set c) (c_bus c) (c_compression c)
    (c_identity c) (c_shutting_down c) (c_next_id c) (c_in_flight_dispatches c)
    (c_scheme_priority c) (c_handler_entries c) (c_connectors c) (c_uri_index c) (c_pk_index c)
    (c_transport_index c) v (c_now_ns c) (c_wall_us c) (c_rng c) (c_io c) (c_trace c).
Definition set_c_now_ns (v : Z) (c : cm) : cm :=
  mk_cm (c_records c) (c_send_queues c) (c_relay_dedup_set c) (c_bus c) (c_compression c)
    (c_identity c) (c_shutting_down c) (c_next_id c) (c_in_flight_dispatches c)
    (c_scheme_priority c) (c_handler_entries c) (c_connectors c) (c_uri_index c) (c_pk_index c)
    (c_transport_index c) (c_pending_messages c) v (c_wall_us c) (c_rng c) (c_io c) (c_trace c).
Definition set_c_wall_us (v : Z) (c : cm) : cm :=
  mk_cm (c_records c) (c_send_queues c) (c_relay_dedup_set c) (c_bus c) (c_compression c)
    (c_identity c) (c_shutting_down c) (c_next_id c) (c_in_flight_dispatches c)
    (c_scheme_priority c) (c_handler_entries c) (c_connectors c) (c_uri_index c) (c_pk_index c)
    (c_transport_index c) (c_pending_messages c) (c_now_ns c) v (c_rng c) (c_io c) (c_trace c).
Definition set_c_rng (v : nat) (c : cm) : cm :=
  mk_cm (c_records c) (c_send_queues c) (c_relay_dedup_set c) (c_bus c) (c_compression c)
    (c_identity c) (c_shutting_down c) (c_next_id c) (c_in_flight_dispatches c)
    (c_scheme_priority c) (c_handler_entries c) (c_connectors c) (c_uri_index c) (c_pk_index c)
    (c_transport_index c) (c_pending_messages c) (c_now_ns c) (c_wall_us c) v (c_io c)
    (c_trace c).
Definition set_c_io (v : nat) (c : cm) : cm :=
  mk_cm (c_records c) (c_send_queues c) (c_relay_dedup_set c) (c_bus c) (c_compression c)
    (c_identity c) (c_shutting_down c) (c_next_id c) (c_in_flight_dispatches c)
    (c_scheme_priority c) (c_handler_entries c) (c_connectors c) (c_uri_index c) (c_pk_index c)
    (c_transport_index c) (c_pending_messages c) (c_now_ns c) (c_wall_us c) (c_rng c) v
    (c_trace c).
Definition set_c_trace (v : list event) (c : cm) : cm :=
  mk_cm (c_records c) (c_send_queues c) (c_relay_dedup_set c) (c_bus c) (c_compression c)
    (c_identity c) (c_shutting_down c) (c_next_id c) (c_in_flight_dispatches c)
    (c_scheme_priority c) (c_handler_entries c) (c_connectors c) (c_uri_index c) (c_pk_index c)
    (c_transport_index c) (c_pending_messages c) (c_now_ns c) (c_wall_us c) (c_rng c) (c_io c) v.

(** ** A state monad over the manager *)

Definition CM (A : Type) : Type := cm -> A * cm.

#[export] Instance cm_ret : MRet CM := fun A a c => (a, c).
#[export] Instance cm_bind : MBind CM := fun A B k m c => let '(a, c') := m c in k a c'.

Definition gets {A} (f : cm -> A) : CM A := fun c => (f c, c).
Definition modify (f : cm -> cm) : CM unit := fun c => (tt, f c).
Definition emit_ev (e : event) : CM unit := modify (fun c => set_c_trace (c_trace c ++ [e]) c).
Definition on_bus (f : SignalBus -> SignalBus) : CM unit := modify (fun c => set_c_bus (f (c_bus c)) c).
Definition stat (k : StatsKind) (v id : Z) : CM unit := on_bus (emit_stat (mk_stat k v id BadMagic)).
Definition drop_pkt (id : Z) (why : DropReason) : CM unit := on_bus (emit_drop id why).

(** [rcu_find] and the updates made through the shared pointer or [rcu_update]. *)
Definition rcu_find (id : Z) : CM (option ConnectionRecord) := gets (fun c => c_records c !! id).
Definition upd_record (id : Z) (f : ConnectionRecord -> ConnectionRecord) : CM unit :=
  modify (fun c => set_c_records (alter f id (c_records c)) c).
Definition erase_record (id : Z) : CM unit :=
  modify (fun c => set_c_records (delete id (c_records c)) c).

Fixpoint for_each {A} (l : list A) (f : A -> CM unit) : CM unit :=
  match l with
  | [] => mret tt
  | a :: l => f a ;; for_each l f
  end.

(** The next 32-byte block of [randombytes_buf]. *)
Definition draw_random `{CO : !CryptoOps} : CM bytes := fun c =>
  (random_block (c_rng c), set_c_rng (S (c_rng c)) c).

(** [std::string(address) + ":" + std::to_string(port)]. *)
Definition addr_key (ep : endpoint_t) : string := ep_address ep +:+ ":" +:+ to_string (ep_port ep).

(** [Impl::Impl]: the clocks, the random stream and the I/O count are given. *)
Definition cm_init (b : SignalBus) (me : NodeIdentity) (cfg : option Compression)
    (now wall : Z) (rng0 io0 : nat) : cm :=
  mk_cm ∅ ∅ ∅ b cfg me false 1 0 ["tcp"; "ice"] ∅ ∅ ∅ ∅ ∅ ∅ now wall rng0 io0 [].
