(* ===== verification/CmTransport.v ===== *)
(** * Connection manager: framing, queues and sending ([core/cm/transport.cpp])

    [build_frame], [send_frame], [flush_queue] with failover over the transport paths,
    the two [send]s, [broadcast] and the messages kept for a connection that is not
    established yet.  [std::sort] of the paths is a stable insertion sort: the code leaves
    the order of equal priorities to the library. *)

From Stdlib Require Import ZArith Strings.Byte String Lia.
From stdpp Require Import base gmap list strings numbers.
From S2P Require Import Prelude Codec Wire NonceWindow Queue Crypto Noise Session Signals.
From S2P Require Import CmState.

Local Open Scope Z_scope.

(** ** Helpers *)

Definition is_localhost_address (a : string) : bool :=
  String.eqb a "127.0.0.1" || String.eqb a "::1" || String.eqb a "localhost"
  || String.prefix "127." a.

Definition find_connector (scheme : string) : CM (option (string * connector_ops)) :=
  let key := if String.eqb scheme "" then "tcp" else scheme in
  gets (fun c => (fun ops => (key, ops)) <$> (c_connectors c !! key)).

(** The part before and after the first ["://"]. *)
Definition split_uri (uri : string) : option (string * string) :=
  let b := str_bytes uri in
  match str_find (str_bytes "://") b with
  | Some sep => Some (bytes_str (take sep b), bytes_str (drop (sep + 3) b))
  | None => None
  end.

Definition uri_scheme (uri : string) : string := from_option fst "tcp" (split_uri uri).
Definition uri_key (uri : string) : string := from_option snd uri (split_uri uri).

Definition resolve_uri (uri : string) : CM (option Z) :=
  gets (fun c => c_uri_index c !! uri_key uri).

Definition local_schemes (c : cm) : list string := (map_to_list (c_connectors c)).*1.

Definition negotiate_scheme (c : cm) (rec : ConnectionRecord) : string :=
  let loc := local_schemes c in
  match list_find (fun prio => prio ∈ loc /\
           (r_peer_schemes rec = [] \/ prio ∈ r_peer_schemes rec)) (c_scheme_priority c) with
  | Some (_, prio) => prio
  | None => match loc with [] => "tcp" | s :: _ => s end
  end.

(** [scheme_priority_index]: the position as a [uint8_t], 255 if absent. *)
Definition scheme_priority_index (c : cm) (scheme : string) : Z :=
  match list_find (eq scheme) (c_scheme_priority c) with
  | Some (i, _) => u8 (Z.of_nat i)
  | None => 255
  end.

Definition is_handshake (msg_type : Z) : bool :=
  (msg_type =? MSG_TYPE_NOISE_INIT) || (msg_type =? MSG_TYPE_NOISE_RESP)
  || (msg_type =? MSG_TYPE_NOISE_FIN).

Definition get_or_create_queue (id : Z) : CM PerConnQueue :=
  found ← gets (fun c => c_send_queues c !! id);
  match found with
  | Some q => mret q
  | None => modify (fun c => set_c_send_queues (<[id := queue_init]> (c_send_queues c)) c) ;;
            mret queue_init
  end.

Definition put_queue (id : Z) (q : PerConnQueue) : CM unit :=
  modify (fun c => set_c_send_queues (<[id := q]> (c_send_queues c)) c).

(** [get_pending_bytes]: of one connection, or of all of them for [CONN_ID_INVALID]. *)
Definition get_pending_bytes (c : cm) (id : Z) : Z :=
  if id =? CONN_ID_INVALID then
    map_fold (fun _ q total => u64 (total + pending_bytes q)) 0 (c_send_queues c)
  else from_option pending_bytes 0 (c_send_queues c !! id).

Section transport.
Context `{CO : !CryptoOps}.

(** ** Frames *)

Definition mk_hdr (flags msg_type : Z) (payload : bytes) (pkt_id : Z) : header_t :=
  mk_header_t GNET_MAGIC GNET_PROTO_VER flags (u16 msg_type) (u32 (blen payload)) pkt_id.

Definition fetch_packet_id (id : Z) (rec : ConnectionRecord) : CM Z :=
  upd_record id (fun r => set_r_send_packet_id (u64 (r_send_packet_id r + 1)) r) ;;
  mret (r_send_packet_id rec).

(** [None] is the empty vector: no such connection. *)
Definition build_frame (id msg_type : Z) (payload : bytes) : CM (option bytes) :=
  found ← rcu_find id;
  match found with
  | None => mret None
  | Some rec =>
      if r_localhost_passthrough rec && negb (is_handshake msg_type) then
        pkt_id ← fetch_packet_id id rec;
        mret (Some (frame_bytes (mk_hdr GNET_FLAG_TRUSTED msg_type payload pkt_id) payload))
      else
        pkt_id ← fetch_packet_id id rec;
        cfg ← gets c_compression;
        let final_payload :=
          match r_session rec with
          | Some s =>
              if negb (is_handshake msg_type) && negb (r_is_localhost rec) then
                encrypt payload pkt_id (from_option comp_enabled true cfg)
                  (from_option comp_threshold 512 cfg) (from_option comp_level 1 cfg) s
              else payload
          | None => payload
          end in
        let flags := if r_is_localhost rec then GNET_FLAG_TRUSTED else 0 in
        mret (Some (frame_bytes (mk_hdr flags msg_type final_payload pkt_id) final_payload))
  end.

(** ** Writing to connectors *)

Definition next_rc (ops : connector_ops) : CM Z := fun c =>
  (co_rc ops (c_io c), set_c_io (S (c_io c)) c).

(** The [send_to] loop: [true] if every frame was written. *)
Fixpoint send_each (id : Z) (scheme : string) (ops : connector_ops) (all_ok : bool)
    (fs : list bytes) : CM bool :=
  match fs with
  | [] => mret all_ok
  | f :: fs =>
      rc ← next_rc ops;
      emit_ev (EvSendTo scheme id f rc) ;;
      if rc =? 0 then
        stat TxBytes (blen f) id ;; stat TxPacket 1 id ;; send_each id scheme ops all_ok fs
      else send_each id scheme ops false fs
  end.

Definition flush_frames_to_connector (id : Z) (scheme : string) (ops : connector_ops)
    (fs : list bytes) : CM bool :=
  match fs with
  | [] => mret true
  | _ =>
      if co_send_gather ops && bool_decide (1 < length fs)%nat then
        rc ← next_rc ops;
        emit_ev (EvSendGather scheme id fs rc) ;;
        if rc <? 0 then mret false
        else stat TxBytes (frames_size fs) id ;; stat TxPacket (Z.of_nat (length fs)) id ;;
             mret true
      else send_each id scheme ops true fs
  end.

Fixpoint insert_path (p : nat * TransportPath) (l : list (nat * TransportPath)) :=
  match l with
  | [] => [p]
  | q :: l => if tp_priority (snd p) <? tp_priority (snd q) then p :: q :: l
              else q :: insert_path p l
  end.

Definition sort_paths (l : list (nat * TransportPath)) : list (nat * TransportPath) :=
  fold_left (fun acc p => insert_path p acc) l [].

(** The active paths with their positions, least priority number first. *)
Definition active_paths (rec : ConnectionRecord) : list (nat * TransportPath) :=
  sort_paths (List.filter (fun p => tp_active (snd p)) (imap pair (r_transport_paths rec))).

Definition upd_path (id : Z) (i : nat) (f : TransportPath -> TransportPath) : CM unit :=
  upd_record id (fun r => set_r_transport_paths (alter f i (r_transport_paths r)) r).

(** One more consecutive error; three deactivate the path. *)
Definition path_error (p : TransportPath) : TransportPath :=
  let n := u32 (tp_consecutive_errors p + 1) in
  let p := set_tp_consecutive_errors n p in
  if 3 <=? n then set_tp_active false p else p.

(** Tries the paths in order: [true] once one of them took the whole batch. *)
Fixpoint try_paths (id : Z) (paths : list (nat * TransportPath)) (batch : list bytes)
    : CM bool :=
  match paths with
  | [] => mret false
  | (i, path) :: paths =>
      found ← find_connector (tp_scheme path);
      match found with
      | None => try_paths id paths batch
      | Some (scheme, ops) =>
          ok ← flush_frames_to_connector (tp_transport_conn_id path) scheme ops batch;
          if (ok : bool) then upd_path id i (set_tp_consecutive_errors 0) ;; mret true
          else upd_path id i path_error ;; try_paths id paths batch
      end
  end.

Definition record_scheme (rec : ConnectionRecord) : string :=
  if String.eqb (r_negotiated_scheme rec) "" then r_local_scheme rec
  else r_negotiated_scheme rec.

(** [flush_queue]: the queue is the one registered for [id]. *)
Definition flush_queue (id : Z) : CM unit :=
  stop ← gets c_shutting_down;
  if (stop : bool) then mret tt else
  found ← rcu_find id;
  match found with
  | None => mret tt
  | Some rec =>
      q ← gets (fun c => default queue_init (c_send_queues c !! id));
      let '(batch, q') := drain_batch 64 q in
      put_queue id q' ;;
      match batch with
      | [] => mret tt
      | _ =>
          let paths := active_paths rec in
          done ← try_paths id paths batch;
          if (done : bool) then mret tt else
          conn ← (match paths with
                  | [] => find_connector (record_scheme rec)
                  | _ => mret None
                  end : CM (option (string * connector_ops)));
          match conn with
          | Some (scheme, ops) => flush_frames_to_connector id scheme ops batch ;; mret tt
          | None => drop_pkt id ConnectorNotFound
          end
      end
  end.

Definition send_frame (id msg_type : Z) (payload : bytes) : CM unit :=
  stop ← gets c_shutting_down;
  if (stop : bool) then mret tt else
  frame ← build_frame id msg_type payload;
  match frame with
  | None => mret tt
  | Some f =>
      q ← get_or_create_queue id;
      let '(ok, q') := try_push f q in
      put_queue id q' ;;
      if (ok : bool) then flush_queue id else drop_pkt id PerConnLimitExceeded
  end.

(** ** Sending *)

(** [payload.subspan(offset, chunk)] until the end; [fuel] bounds the number of chunks. *)
Fixpoint chunks (fuel : nat) (payload : bytes) : list bytes :=
  match fuel, payload with
  | S fuel, _ :: _ => take CHUNK_SIZE payload :: chunks fuel (drop CHUNK_SIZE payload)
  | _, _ => []
  end.

Definition push_pending (key : string) (msg_type : Z) (payload : bytes) : CM bool :=
  queue ← gets (fun c => default [] (c_pending_messages c !! key));
  if bool_decide (PENDING_MAX_PER_URI <= length queue)%nat then mret false
  else
    now ← gets c_now_ns;
    modify (fun c => set_c_pending_messages
      (<[key := queue ++ [mk_pending msg_type payload now]]> (c_pending_messages c)) c) ;;
    mret true.

(** [ConnectionManager::Impl::send(uri, ...)]. *)
Definition send_uri (uri : string) (msg_type : Z) (payload : bytes) : CM bool :=
  stop ← gets c_shutting_down;
  if String.eqb uri "" || stop then mret false else
  conn ← resolve_uri uri;
  match conn with
  | None =>
      ok ← push_pending (uri_key uri) msg_type payload;
      if (ok : bool) then
        found ← find_connector (uri_scheme uri);
        match found with
        | Some (scheme, _) => emit_ev (EvConnect scheme uri) ;; mret true
        | None => mret true
        end
      else mret false
  | Some id =>
      found ← rcu_find id;
      match found with
      | None => mret false
      | Some rec =>
          if bool_decide (r_state rec <> STATE_ESTABLISHED) && negb (is_handshake msg_type)
          then push_pending (uri_key uri) msg_type payload
          else
            global_pending ← gets (fun c => get_pending_bytes c CONN_ID_INVALID);
            if GLOBAL_MAX_IN_FLIGHT <? u64 (global_pending + blen payload) then
              stat KBackpressure 1 id ;; mret false
            else
              (if 2 * Z.of_nat CHUNK_SIZE <? blen payload
               then for_each (chunks (length payload) payload) (send_frame id msg_type)
               else send_frame id msg_type payload) ;;
              mret true
      end
  end.

(** [ConnectionManager::Impl::send(conn_id, ...)]. *)
Definition send_id (id msg_type : Z) (payload : bytes) : CM bool :=
  found ← rcu_find id;
  match found with
  | None => mret false
  | Some _ => send_frame id msg_type payload ;; mret true
  end.

Definition broadcast (msg_type : Z) (payload : bytes) : CM unit :=
  rs ← gets (fun c => map_to_list (c_records c));
  for_each rs (fun '(id, rec) =>
    if bool_decide (r_state rec = STATE_ESTABLISHED) then send_frame id msg_type payload
    else mret tt).

(** ** Pending messages *)

Definition flush_pending_messages (uri : string) (id : Z) : CM unit :=
  found ← gets (fun c => c_pending_messages c !! uri);
  match found with
  | None | Some [] => mret tt
  | Some messages =>
      modify (fun c => set_c_pending_messages (delete uri (c_pending_messages c)) c) ;;
      for_each messages (fun m => send_frame id (pm_msg_type m) (pm_payload m))
  end.

Definition stale (now : Z) (m : PendingMessage) : bool := PENDING_TTL_NS <? now - pm_queued_at m.

(** A queue whose oldest message is stale loses its stale messages, and its entry when
    nothing is left. *)
Definition cleanup_queue (now : Z) (queue : list PendingMessage) : option (list PendingMessage) :=
  match queue with
  | [] => Some []
  | front :: _ =>
      if stale now front then
        match List.filter (fun m => negb (stale now m)) queue with
        | [] => None
        | q => Some q
        end
      else Some queue
  end.

Definition cleanup_stale_pending : CM unit :=
  modify (fun c => set_c_pending_messages
    (omap (cleanup_queue (c_now_ns c)) (c_pending_messages c)) c).
End transport.
