(* ===== verification/CmClose.v ===== *)
(** * Connection manager: closing ([core/cm/disconnect.cpp])

    [handle_disconnect] is what a connector reports, for a secondary transport or for the
    primary one; [disconnect] and [close_now] ask the connectors to close. *)

From Stdlib Require Import ZArith Strings.Byte String Lia.
From stdpp Require Import base gmap list strings numbers.
From S2P Require Import Prelude Codec Wire NonceWindow Queue Crypto Noise Session Signals.
From S2P Require Import CmState CmTransport.

Local Open Scope Z_scope.

(** The handlers with a [handle_conn_state] callback are told about a peer. *)
Definition notify_handlers (uri : string) (st : conn_state_t) : CM unit :=
  hs ← gets (fun c => map_to_list (c_handler_entries c));
  for_each hs (fun '(name, entry) =>
    if h_handle_conn_state (he_handler entry) then emit_ev (EvHandlerState name uri st)
    else mret tt).

Definition erase_uri (key : string) : CM unit :=
  modify (fun c => set_c_uri_index (delete key (c_uri_index c)) c).
Definition erase_queue (id : Z) : CM unit :=
  modify (fun c => set_c_send_queues (delete id (c_send_queues c)) c).
Definition erase_transport (tid : Z) : CM unit :=
  modify (fun c => set_c_transport_index (delete tid (c_transport_index c)) c).
Definition erase_pending (key : string) : CM unit :=
  modify (fun c => set_c_pending_messages (delete key (c_pending_messages c)) c).
Definition erase_pk (key : string) : CM unit :=
  modify (fun c => set_c_pk_index (delete key (c_pk_index c)) c).

(** A secondary transport went away: only its path is removed. *)
Definition disconnect_secondary (id peer_id : Z) : CM unit :=
  erase_transport id ;;
  found ← rcu_find peer_id;
  match found with
  | None => mret tt
  | Some rec =>
      let tp := find_path_by_transport_id id rec in
      match tp with
      | Some (_, p) => erase_uri (addr_key (tp_remote p))
      | None => mret tt
      end ;;
      upd_record peer_id (fun r => set_r_transport_paths
        (List.filter (fun p => negb (tp_transport_conn_id p =? id)) (r_transport_paths r)) r) ;;
      match tp with
      | Some (_, p) =>
          if String.eqb (tp_scheme p) "" then mret tt
          else on_bus (emit_transport_change peer_id (tp_scheme p) false)
      | None => mret tt
      end
  end.

(** The primary transport went away: everything about the peer is removed. *)
Definition disconnect_primary (id : Z) : CM unit :=
  found ← rcu_find id;
  match found with
  | None => mret tt
  | Some rec =>
      let key := addr_key (r_remote rec) in
      for_each (r_transport_paths rec) (fun tp =>
        if tp_transport_conn_id tp =? id then mret tt
        else erase_transport (tp_transport_conn_id tp)) ;;
      erase_record id ;;
      erase_queue id ;;
      stat Disconnect 1 id ;;
      erase_uri key ;;
      erase_pending key ;;
      (if r_peer_authenticated rec then erase_pk (bytes_to_hex (r_peer_user_pubkey rec))
       else mret tt) ;;
      notify_handlers key STATE_CLOSED
  end.

Definition handle_disconnect (id error : Z) : CM unit :=
  found ← gets (fun c => c_transport_index c !! id);
  match found with
  | Some peer_id =>
      if peer_id =? CONN_ID_INVALID then disconnect_primary id
      else disconnect_secondary id peer_id
  | None => disconnect_primary id
  end.

(** Graceful close: one [close] per active path, or on the connection itself. *)
Fixpoint close_paths (ps : list TransportPath) : CM bool :=
  match ps with
  | [] => mret false
  | tp :: ps =>
      if tp_active tp then
        found ← find_connector (tp_scheme tp);
        match found with
        | Some (scheme, ops) =>
            if co_close ops then
              emit_ev (EvClose scheme (tp_transport_conn_id tp)) ;;
              close_paths ps ;; mret true
            else close_paths ps
        | None => close_paths ps
        end
      else close_paths ps
  end.

Definition cm_disconnect (id : Z) : CM unit :=
  modify (fun c => set_c_send_queues (alter set_draining id (c_send_queues c)) c) ;;
  found ← rcu_find id;
  match found with
  | None => mret tt
  | Some rec =>
      closed_any ← close_paths (r_transport_paths rec);
      if (closed_any : bool) then mret tt else
      conn ← find_connector (record_scheme rec);
      match conn with
      | Some (scheme, ops) =>
          if co_close ops then emit_ev (EvClose scheme id) else mret tt
      | None => mret tt
      end
  end.

(** [ops->close_now] where it exists, else [ops->close]; whether either was called. *)
Definition hard_close (scheme : string) (ops : connector_ops) (tid : Z) : CM bool :=
  if co_close_now ops then emit_ev (EvCloseNow scheme tid) ;; mret true
  else if co_close ops then emit_ev (EvClose scheme tid) ;; mret true
  else mret false.

Fixpoint close_now_paths (ps : list TransportPath) : CM bool :=
  match ps with
  | [] => mret false
  | tp :: ps =>
      found ← find_connector (tp_scheme tp);
      match found with
      | Some (scheme, ops) =>
          a ← hard_close scheme ops (tp_transport_conn_id tp);
          b ← close_now_paths ps;
          mret (a || b)
      | None => close_now_paths ps
      end
  end.

Definition close_now (id : Z) : CM unit :=
  found ← rcu_find id;
  match found with
  | None => mret tt
  | Some rec =>
      closed_any ← close_now_paths (r_transport_paths rec);
      if (closed_any : bool) then mret tt else
      conn ← find_connector (record_scheme rec);
      match conn with
      | Some (scheme, ops) => hard_close scheme ops id ;; mret tt
      | None => mret tt
      end
  end.
