(* ===== verification/CmHandshake.v ===== *)
(** * Connection manager: Noise_XX handshake ([core/cm/handshake.cpp])

    The three handshake handlers over the engine of [Noise], the identity payload they
    exchange and its verification, the switch to the transport session, rekeying and the
    upgrade to a better transport. *)

From Stdlib Require Import ZArith Strings.Byte String Lia.
From stdpp Require Import base gmap list strings numbers.
From S2P Require Import Prelude Codec Wire NonceWindow Queue Crypto Noise Session Signals.
From S2P Require Import CmState CmTransport CmClose.

Local Open Scope Z_scope.

(** [GOODNET_VERSION_PACKED] of [include/version.hpp], version 0.1.0. *)
Definition GN_CORE_VERSION : Z := Z.lor (Z.shiftl 0 16) (Z.lor (Z.shiftl 1 8) 0).

Definition local_core_meta (c : cm) : CoreMeta :=
  let base := Z.lor (Z.lor CORE_CAP_ZSTD CORE_CAP_KEYROT) CORE_CAP_RELAY in
  mk_CoreMeta GN_CORE_VERSION
    (if bool_decide (is_Some (c_connectors c !! "ice")) then Z.lor base CORE_CAP_ICE else base).

Definition rotate_identity_keys (next : NodeIdentity) : CM unit := modify (set_c_identity next).

Section handshake.
Context `{CO : !CryptoOps}.

Definition rekeyed (s : NoiseSession) : NoiseSession :=
  mk_session (fst (hkdf2 (send_key s) [])) (fst (hkdf2 (recv_key s) [])) (handshake_hash s)
    (reset (recv_window s)).

Definition rekey_session (id : Z) : CM bool :=
  found ← rcu_find id;
  match found with
  | Some rec =>
      match r_session rec with
      | Some s =>
          if bool_decide (r_state rec = STATE_ESTABLISHED) then
            upd_record id (fun r =>
              set_r_send_packet_id 1 (set_r_session (Some (rekeyed s)) r)) ;;
            mret true
          else mret false
      | None => mret false
      end
  | None => mret false
  end.

(** Runs an engine call on the connection's handshake state; [None] is [return false],
    with the fields already written kept. *)
Definition noise_run {A} (id : Z) (m : SE HandshakeState A) : CM (option A) :=
  found ← rcu_find id;
  match found ≫= r_handshake with
  | Some hs =>
      let '(r, hs') := m hs in
      upd_record id (set_r_handshake (Some hs')) ;; mret r
  | None => mret None
  end.

Definition noise_read (id : Z) (msg : bytes) : CM (option bytes) := noise_run id (read_message msg).

(** Steps 0 and 1 draw a fresh ephemeral key. *)
Definition noise_write (id : Z) (payload : bytes) : CM (option bytes) :=
  found ← rcu_find id;
  match found ≫= r_handshake with
  | Some hs =>
      rnd ← (if step hs <? 2 then draw_random else mret []);
      noise_run id (write_message payload rnd)
  | None => mret None
  end.

Definition send_noise_init (id : Z) : CM unit :=
  found ← rcu_find id;
  match found ≫= r_handshake with
  | None => mret tt
  | Some _ =>
      out ← noise_write id [];
      match out with
      | None => close_now id
      | Some buf => send_frame id MSG_TYPE_NOISE_INIT buf
      end
  end.

(** The packed [HandshakePayload] of this node. *)
Definition handshake_payload_of (c : cm) : HandshakePayload :=
  let me := c_identity c in
  let to_sign := user_pubkey me ++ device_pubkey me in
  set_schemes (local_schemes c)
    (mk_HandshakePayload (user_pubkey me) (device_pubkey me)
       (sign_detached (user_seckey me) to_sign) 0
       (replicate HANDSHAKE_MAX_SCHEMES (zeros HANDSHAKE_SCHEME_LEN)) (local_core_meta c)).

Definition build_handshake_payload : CM bytes :=
  gets (fun c => cenc HandshakePayload_codec (handshake_payload_of c)).

(** What a verified payload writes into the record. *)
Definition accept_payload (c : cm) (hp : HandshakePayload) (schemes : list string)
    (r : ConnectionRecord) : ConnectionRecord :=
  let r := set_r_peer_user_pubkey (hp_user_pubkey hp) r in
  let r := set_r_peer_device_pubkey (hp_device_pubkey hp) r in
  let r := set_r_peer_authenticated true r in
  let r := set_r_peer_schemes schemes r in
  let r := set_r_peer_core_meta (hp_core_meta hp) r in
  let r := set_r_negotiated_scheme (negotiate_scheme c r) r in
  match r_transport_paths r with
  | [] => r
  | tp :: tps =>
      let scheme := if String.eqb (r_negotiated_scheme r) "" then "tcp"
                    else r_negotiated_scheme r in
      set_r_transport_paths
        (set_tp_priority (scheme_priority_index c scheme) (set_tp_scheme scheme tp) :: tps) r
  end.

(** The checks of [process_handshake_payload] that need no record: length and signature. *)
Definition signature_ok (hp : HandshakePayload) : bool :=
  verify_detached (hp_signature hp) (hp_user_pubkey hp ++ hp_device_pubkey hp) (hp_user_pubkey hp).

Definition process_handshake_payload (id : Z) (data : bytes) : CM bool :=
  if bool_decide (length data < csize HandshakePayload_codec)%nat then
    drop_pkt id AuthFail ;; mret false
  else
    let hp := cdec HandshakePayload_codec data in
    if negb (signature_ok hp) then drop_pkt id AuthFail ;; mret false
    else
      found ← rcu_find id;
      match found ≫= r_handshake with
      | None => mret false
      | Some hs =>
          match pk_to_curve25519 (hp_device_pubkey hp) with
          | None => drop_pkt id AuthFail ;; mret false
          | Some expected =>
              if bool_decide (expected = rs hs) then
                schemes ← (match get_schemes hp with
                           | Some l => mret l
                           | None => emit_ev (EvUB "HandshakePayload::get_schemes") ;; mret []
                           end : CM (list string));
                c ← gets (fun c => c);
                upd_record id (accept_payload c hp schemes) ;;
                mret true
              else drop_pkt id AuthFail ;; mret false
          end
      end.

(** ** Upgrade to a better transport *)

Definition peer_supports (rec : ConnectionRecord) (scheme : string) : bool :=
  if String.eqb scheme "ice" then
    negb (Z.land (cm_caps_mask (r_peer_core_meta rec)) CORE_CAP_ICE =? 0)
  else bool_decide (scheme ∈ r_peer_schemes rec).

Fixpoint try_upgrade (rec : ConnectionRecord) (best : TransportPath) (pk_hex : string)
    (schemes : list string) : CM unit :=
  match schemes with
  | [] => mret tt
  | scheme :: schemes =>
      if String.eqb (tp_scheme best) scheme then mret tt
      else
        found ← find_connector scheme;
        match found with
        | None => try_upgrade rec best pk_hex schemes
        | Some (key, _) =>
            if negb (peer_supports rec scheme) then try_upgrade rec best pk_hex schemes
            else if bool_decide (is_Some (find_path scheme rec)) then
              try_upgrade rec best pk_hex schemes
            else emit_ev (EvConnect key (scheme +:+ "://" +:+ pk_hex))
        end
  end.

Definition schedule_transport_upgrade (id : Z) : CM unit :=
  found ← rcu_find id;
  match found with
  | None => mret tt
  | Some rec =>
      if bool_decide (r_state rec = STATE_ESTABLISHED) then
        match best_path rec with
        | None => mret tt
        | Some (_, best) =>
            prio ← gets c_scheme_priority;
            try_upgrade rec best (bytes_to_hex (r_peer_user_pubkey rec)) prio
        end
      else mret tt
  end.

(** ** The end of the handshake *)

(** The record once the session exists. *)
Definition establish (hs : HandshakeState) (r : ConnectionRecord) : ConnectionRecord :=
  let '(c_send, c_recv) := hs_split hs in
  let r := set_r_session (Some (mk_session (key c_send) (key c_recv) (get_handshake_hash hs)
                                  window_init)) r in
  let r := set_r_handshake None r in
  let r := set_r_state STATE_ESTABLISHED r in
  if r_is_localhost r then set_r_localhost_passthrough true r else r.

Definition finalize_handshake (id : Z) : CM unit :=
  found ← rcu_find id;
  match found with
  | None => mret tt
  | Some rec =>
      match r_handshake rec with
      | None => mret tt
      | Some hs =>
          let pk_hex := bytes_to_hex (r_peer_user_pubkey rec) in
          dup ← gets (fun c => c_pk_index c !! pk_hex);
          if bool_decide (is_Some dup /\ dup <> Some id) then
            close_now id ;;
            erase_record id ;;
            erase_queue id ;;
            erase_uri (addr_key (r_remote rec))
          else
            upd_record id (establish hs) ;;
            modify (fun c => set_c_pk_index (<[pk_hex := id]> (c_pk_index c)) c) ;;
            flush_pending_messages (addr_key (r_remote rec)) id ;;
            notify_handlers pk_hex STATE_ESTABLISHED ;;
            stat AuthOk 1 id ;;
            on_bus (emit_conn_state id STATE_ESTABLISHED) ;;
            if r_is_initiator rec then schedule_transport_upgrade id else mret tt
      end
  end.

(** ** Handshake messages *)

(** The handshake state of a connection in the expected role. *)
Definition handshake_as (role : bool) (id : Z) : CM (option HandshakeState) :=
  found ← rcu_find id;
  mret (match found ≫= r_handshake with
        | Some hs => if bool_decide (initiator hs = role) then Some hs else None
        | None => None
        end).

Definition handle_noise_init (id : Z) (payload : bytes) : CM unit :=
  hs ← handshake_as false id;
  match hs with
  | None => mret tt
  | Some _ =>
      r ← noise_read id payload;
      match r with
      | None => drop_pkt id AuthFail ;; close_now id
      | Some p =>
          (* uint8_t payload_out[1] receives the payload of msg1 *)
          (if bool_decide (1 < length p)%nat
           then emit_ev (EvUB "handle_noise_init: payload_out[1]") else mret tt) ;;
          hp_bytes ← build_handshake_payload;
          w ← noise_write id hp_bytes;
          match w with
          | None => close_now id
          | Some msg2 => send_frame id MSG_TYPE_NOISE_RESP msg2
          end
      end
  end.

Definition handle_noise_resp (id : Z) (payload : bytes) : CM unit :=
  hs ← handshake_as true id;
  match hs with
  | None => mret tt
  | Some _ =>
      r ← noise_read id payload;
      match r with
      | None => drop_pkt id AuthFail ;; close_now id
      | Some p =>
          ok ← process_handshake_payload id p;
          if (ok : bool) then
            hp_bytes ← build_handshake_payload;
            w ← noise_write id hp_bytes;
            match w with
            | None => close_now id
            | Some msg3 =>
                send_frame id MSG_TYPE_NOISE_FIN msg3 ;;
                finalize_handshake id
            end
          else close_now id
      end
  end.

Definition handle_noise_fin (id : Z) (payload : bytes) : CM unit :=
  hs ← handshake_as false id;
  match hs with
  | None => mret tt
  | Some _ =>
      r ← noise_read id payload;
      match r with
      | None => drop_pkt id AuthFail ;; close_now id
      | Some p =>
          ok ← process_handshake_payload id p;
          if (ok : bool) then finalize_handshake id else close_now id
      end
  end.
End handshake.
