(* ===== verification/CmDispatch.v ===== *)
(** * Connection manager: reception ([core/cm/dispatch.cpp], [core/cm/relay.cpp])

    Stream reassembly, packet dispatch, gossip relay with deduplication, and heartbeats.
    [dispatch_packet] and [handle_relay] call each other when a relayed frame reaches its
    destination: the recursion is structural on a [fuel] argument, and running out of it is
    recorded as an [EvUB] event, so that a result without that event is the code's. *)

From Stdlib Require Import ZArith Strings.Byte String Lia.
From stdpp Require Import base gmap list strings numbers.
From S2P Require Import Prelude Codec Wire NonceWindow Queue Crypto Noise Session Signals.
From S2P Require Import CmState CmTransport CmClose CmHandshake.

Local Open Scope Z_scope.

Definition find_conn_by_pubkey (c : cm) (pubkey_hex : string) : Z :=
  default CONN_ID_INVALID (c_pk_index c !! pubkey_hex).

(** [std::hash<uint64_t>] of libstdc++ is the identity. *)
Definition hash_u64 (v : Z) : Z := v.

(** ** Relay deduplication *)

Definition relay_fingerprint (inner_hdr : header_t) : Z * Z :=
  let pid := hdr_packet_id inner_hdr in
  (Z.lxor (hash_u64 pid) (u64 (Z.shiftl (hdr_payload_type inner_hdr) 32)), pid).

Definition relay_seen (inner_hdr : header_t) : CM bool := fun c =>
  let now := c_now_ns c in
  let set := if bool_decide (RELAY_DEDUP_MAX < size (c_relay_dedup_set c))%nat
             then filter (fun e => now - RELAY_TTL_NS <= snd e) (c_relay_dedup_set c)
             else c_relay_dedup_set c in
  let fp := relay_fingerprint inner_hdr in
  match set !! fp with
  | Some _ => (true, set_c_relay_dedup_set set c)
  | None => (false, set_c_relay_dedup_set (<[fp := now]> set) c)
  end.

Section dispatch.
Context `{CO : !CryptoOps}.

(** ** Forwarding *)

Definition relay (exclude_conn ttl : Z) (dest_pubkey inner_frame : bytes) : CM unit :=
  let relay_payload :=
    cenc RelayPayload_codec (mk_RelayPayload ttl dest_pubkey) ++ inner_frame in
  direct ← gets (fun c => find_conn_by_pubkey c (bytes_to_hex dest_pubkey));
  if negb (direct =? CONN_ID_INVALID) && negb (direct =? exclude_conn) then
    send_frame direct MSG_TYPE_RELAY relay_payload
  else
    rs ← gets (fun c => map_to_list (c_records c));
    for_each rs (fun '(cid, rec) =>
      if (cid =? exclude_conn) || negb (bool_decide (r_state rec = STATE_ESTABLISHED))
      then mret tt
      else send_frame cid MSG_TYPE_RELAY relay_payload).

(** [deliver] is [dispatch_packet] for the inner frame. *)
Definition handle_relay (deliver : Z -> header_t -> bytes -> Z -> CM unit)
    (id : Z) (plaintext : bytes) : CM unit :=
  let RELAY_HDR := csize RelayPayload_codec in
  if bool_decide (length plaintext < RELAY_HDR + HDR_SIZE)%nat then drop_pkt id RelayDropped
  else
    let rp := cdec RelayPayload_codec plaintext in
    if rp_ttl rp =? 0 then drop_pkt id RelayDropped
    else
      let inner := drop RELAY_HDR plaintext in
      let inner_hdr := view_header inner in
      if blen inner <? Z.of_nat HDR_SIZE + hdr_payload_len inner_hdr then
        drop_pkt id RelayDropped
      else
        seen ← relay_seen inner_hdr;
        if (seen : bool) then mret tt
        else
          me ← gets (fun c => user_pubkey (c_identity c));
          if bool_decide (rp_dest_pubkey rp = me) then
            now ← gets c_now_ns;
            deliver id inner_hdr
              (slice HDR_SIZE (Z.to_nat (hdr_payload_len inner_hdr)) inner) now
          else relay id (u8 (rp_ttl rp - 1)) (rp_dest_pubkey rp) inner.

(** ** Heartbeat *)

Definition path_entry (tp : TransportPath) : HeartbeatPathEntry :=
  mk_HeartbeatPathEntry (strncpy (tp_scheme tp) 15 ++ [x00]) (if tp_active tp then 1 else 0)
    (tp_priority tp) (Z.min (tp_last_rtt_us tp / 10) 65535).

Definition heartbeat_bytes (ts seq flags : Z) : bytes :=
  cenc HeartbeatPayload_codec (mk_HeartbeatPayload ts seq flags (zeros 3)).

(** The PING: the payload, then the status of up to eight paths. *)
Definition ping_bytes (ts seq : Z) (tps : list TransportPath) : bytes :=
  let paths := take HEARTBEAT_MAX_PATHS tps in
  heartbeat_bytes ts seq 0
  ++ cenc HeartbeatTransportInfo_codec (mk_HeartbeatTransportInfo (Z.of_nat (length paths)))
  ++ concat (map (fun tp => cenc HeartbeatPathEntry_codec (path_entry tp)) paths).

Definition send_heartbeat (id : Z) : CM unit :=
  found ← rcu_find id;
  match found with
  | None => mret tt
  | Some rec =>
      if bool_decide (r_state rec = STATE_ESTABLISHED) then
        ts ← gets c_wall_us;
        upd_record id (fun r => set_r_heartbeat_seq (u32 (r_heartbeat_seq r + 1)) r) ;;
        send_frame id MSG_TYPE_HEARTBEAT
          (ping_bytes ts (r_heartbeat_seq rec) (r_transport_paths rec))
      else mret tt
  end.

(** [std::string(scheme, strnlen(scheme, 16))] and the flags of one entry. *)
Definition peer_path (e : HeartbeatPathEntry) : PeerPathInfo :=
  mk_peer_path (bytes_str (until_nul (hpe_scheme e))) (negb (hpe_active e =? 0))
    (hpe_priority e) (hpe_rtt_compressed e).

(** The path entries a heartbeat carries: as many as announced, as fit in the payload,
    and at most eight. *)
Definition parse_paths (payload : bytes) : list PeerPathInfo :=
  let ext := csize HeartbeatPayload_codec in
  let entries_off := (ext + csize HeartbeatTransportInfo_codec)%nat in
  if bool_decide (length payload <= entries_off)%nat then []
  else
    let info := cdec HeartbeatTransportInfo_codec (drop ext payload) in
    let available := (length payload - entries_off)%nat in
    let esz := csize HeartbeatPathEntry_codec in
    let count := Nat.min (Z.to_nat (hti_path_count info)) HEARTBEAT_MAX_PATHS in
    let parseable := Nat.min count (Nat.div available esz) in
    map (fun i => peer_path (cdec HeartbeatPathEntry_codec (drop (entries_off + i * esz) payload)))
      (seq 0 parseable).

Definition handle_heartbeat (id : Z) (payload : bytes) : CM unit :=
  if bool_decide (length payload < csize HeartbeatPayload_codec)%nat then mret tt
  else
    let hb := cdec HeartbeatPayload_codec payload in
    found ← rcu_find id;
    match found with
    | None => mret tt
    | Some _ =>
        (match parse_paths payload with
         | [] => mret tt
         | infos => upd_record id (set_r_peer_transport_info infos)
         end) ;;
        if hb_flags hb =? 0 then
          send_frame id MSG_TYPE_HEARTBEAT (heartbeat_bytes (hb_timestamp_us hb) (hb_seq hb) 1)
        else if hb_flags hb =? 1 then
          now ← gets c_now_ns;
          wall ← gets c_wall_us;
          upd_record id (fun r => set_r_missed_heartbeats 0 (set_r_last_heartbeat_recv now r)) ;;
          if hb_timestamp_us hb <? wall then
            rec ← rcu_find id;
            match rec ≫= best_path with
            | Some (i, _) => upd_path id i (set_tp_last_rtt_us (wall - hb_timestamp_us hb))
            | None => mret tt
            end
          else mret tt
        else mret tt
    end.

Definition check_heartbeat (cid : Z) : CM unit :=
  found ← rcu_find cid;
  match found with
  | None => mret tt
  | Some rec =>
      if bool_decide (r_state rec <> STATE_ESTABLISHED) then mret tt
      else
        now ← gets c_now_ns;
        if r_last_heartbeat_recv rec =? 0 then
          upd_record cid (set_r_last_heartbeat_recv now)
        else if HEARTBEAT_INTERVAL_NS <? now - r_last_heartbeat_recv rec then
          let missed := u32 (r_missed_heartbeats rec + 1) in
          upd_record cid (set_r_missed_heartbeats missed) ;;
          if MAX_MISSED_HEARTBEATS <=? missed then cm_disconnect cid
          else send_heartbeat cid
        else mret tt
  end.

Definition check_heartbeat_timeouts : CM unit :=
  ids ← gets (fun c => (map_to_list (c_records c)).*1);
  for_each ids check_heartbeat.

(** ** Packet dispatch *)

(** The handler chain for a decrypted payload, and what its verdict does. *)
Definition run_handlers (id : Z) (rec : ConnectionRecord) (hdr : header_t) (data : bytes)
    (recv_ts : Z) : CM unit :=
  let rem := r_remote rec in
  let remote := mk_endpoint (ep_address rem) (ep_port rem) (ep_pubkey rem) id (ep_flags rem) in
  b ← gets c_bus;
  let '(result, calls) := dispatch_packet b (hdr_payload_type hdr) hdr remote data in
  for_each calls (fun name => emit_ev (EvHandle name hdr remote data)) ;;
  now ← gets c_now_ns;
  on_bus (emit_latency id (u64 (now - recv_ts))) ;;
  match er_result result with
  | PROPAGATION_CONSUMED =>
      if String.eqb (r_affinity_plugin rec) "" then
        upd_record id (set_r_affinity_plugin (er_consumed_by result)) ;;
        stat Consumed 1 id
      else mret tt
  | PROPAGATION_REJECT => drop_pkt id RejectedByHandler ;; stat Rejected 1 id
  | PROPAGATION_CONTINUE => mret tt
  end.

(** A packet whose plaintext is known. *)
Definition deliver_plain (deliver : Z -> header_t -> bytes -> Z -> CM unit)
    (id : Z) (rec : ConnectionRecord) (hdr : header_t) (payload plaintext : bytes) (recv_ts : Z)
    : CM unit :=
  stat RxBytes (blen payload) id ;;
  stat RxPacket 1 id ;;
  if hdr_payload_type hdr =? MSG_TYPE_HEARTBEAT then handle_heartbeat id plaintext
  else if hdr_payload_type hdr =? MSG_TYPE_RELAY then handle_relay deliver id plaintext
  else run_handlers id rec hdr plaintext recv_ts.

(** Decryption of one packet by the connection's session. *)
Definition session_decrypt (id : Z) (s : NoiseSession) (payload : bytes) (pkt_id : Z) : CM bytes :=
  let '(plain, s') := decrypt payload pkt_id s in
  upd_record id (set_r_session (Some s')) ;; mret plain.

Definition dispatch_body (deliver : Z -> header_t -> bytes -> Z -> CM unit)
    (id : Z) (hdr : header_t) (payload : bytes) (recv_ts : Z) : CM unit :=
  if hdr_payload_type hdr =? MSG_TYPE_NOISE_INIT then handle_noise_init id payload
  else if hdr_payload_type hdr =? MSG_TYPE_NOISE_RESP then handle_noise_resp id payload
  else if hdr_payload_type hdr =? MSG_TYPE_NOISE_FIN then handle_noise_fin id payload
  else
    found ← rcu_find id;
    match found with
    | None => drop_pkt id ConnNotFound
    | Some rec =>
        if bool_decide (r_state rec <> STATE_ESTABLISHED) then drop_pkt id StateNotEstablished
        else if r_localhost_passthrough rec then
          deliver_plain deliver id rec hdr payload payload recv_ts
        else if negb (Z.land (hdr_flags hdr) GNET_FLAG_TRUSTED =? 0) then
          if r_is_localhost rec then deliver_plain deliver id rec hdr payload payload recv_ts
          else drop_pkt id TrustedFromRemote
        else
          match r_session rec with
          | Some s =>
              if r_is_localhost rec then deliver_plain deliver id rec hdr payload payload recv_ts
              else
                plaintext ← session_decrypt id s payload (hdr_packet_id hdr);
                match plaintext with
                | [] => drop_pkt id DecryptFail
                | _ => deliver_plain deliver id rec hdr payload plaintext recv_ts
                end
          | None => deliver_plain deliver id rec hdr payload payload recv_ts
          end
    end.

Definition add_in_flight (d : Z) : CM unit :=
  modify (fun c => set_c_in_flight_dispatches (u32 (c_in_flight_dispatches c + d)) c).

(** [ConnectionManager::Impl::dispatch_packet] with its in-flight guard. *)
Fixpoint cm_dispatch (fuel : nat) (id : Z) (hdr : header_t) (payload : bytes) (recv_ts : Z)
    : CM unit :=
  add_in_flight 1 ;;
  dispatch_body
    (match fuel with
     | O => fun _ _ _ _ => emit_ev (EvUB "dispatch_packet: recursion")
     | S fuel => cm_dispatch fuel
     end) id hdr payload recv_ts ;;
  add_in_flight (-1).

(** ** Stream reassembly *)

(** What the loop of [handle_data] finds at the front of the buffered bytes. *)
Inductive frame_view :=
  | FvMore
  | FvBad (why : DropReason)
  | FvFrame (hdr : header_t) (payload rest : bytes).

Definition next_frame (buf : bytes) : frame_view :=
  if bool_decide (length buf < HDR_SIZE)%nat then FvMore
  else
    let hdr := view_header buf in
    if negb (hdr_magic hdr =? GNET_MAGIC) then FvBad BadMagic
    else if negb (hdr_proto_ver hdr =? GNET_PROTO_VER) then FvBad BadProtoVer
    else if blen buf <? Z.of_nat HDR_SIZE + hdr_payload_len hdr then FvMore
    else
      let total := (HDR_SIZE + Z.to_nat (hdr_payload_len hdr))%nat in
      FvFrame hdr (slice HDR_SIZE (Z.to_nat (hdr_payload_len hdr)) buf) (drop total buf).

(** The loop over the receive buffer; [rounds] bounds the iterations by the buffered
    bytes, [consumed] is the loop's offset. *)
Fixpoint reassemble (rounds : nat) (dispatch : Z -> header_t -> bytes -> Z -> CM unit)
    (peer_id recv_ts : Z) (consumed : nat) : CM unit :=
  found ← rcu_find peer_id;
  match found with
  | None => mret tt
  | Some rec =>
      let stop := if bool_decide (0 < consumed)%nat
                  then upd_record peer_id (set_r_recv_buf (drop consumed (r_recv_buf rec)))
                  else mret tt in
      match rounds with
      | O => stop
      | S rounds =>
          match next_frame (drop consumed (r_recv_buf rec)) with
          | FvMore => stop
          | FvBad why => drop_pkt peer_id why ;; close_now peer_id
          | FvFrame hdr payload _ =>
              dispatch peer_id hdr payload recv_ts ;;
              reassemble rounds dispatch peer_id recv_ts
                (consumed + (HDR_SIZE + Z.to_nat (hdr_payload_len hdr)))
          end
      end
  end.

(** [handle_data] over a dispatcher. *)
Definition handle_data_with (dispatch : Z -> header_t -> bytes -> Z -> CM unit)
    (id : Z) (raw : bytes) : CM unit :=
  stop ← gets c_shutting_down;
  if (stop : bool) then mret tt else
  recv_ts ← gets c_now_ns;
  peer_id ← gets (fun c => default id (c_transport_index c !! id));
  found ← rcu_find peer_id;
  match found with
  | None => mret tt
  | Some rec =>
      let hdr := view_header raw in
      if bool_decide (r_recv_buf rec = []) && bool_decide (HDR_SIZE <= length raw)%nat
         && (blen raw =? Z.of_nat HDR_SIZE + hdr_payload_len hdr)
         && (hdr_magic hdr =? GNET_MAGIC) && (hdr_proto_ver hdr =? GNET_PROTO_VER)
      then dispatch peer_id hdr (drop HDR_SIZE raw) recv_ts
      else
        let buf := r_recv_buf rec ++ raw in
        upd_record peer_id (set_r_recv_buf buf) ;;
        if MAX_RECV_BUF <? blen buf then
          drop_pkt peer_id RecvBufOverflow ;; close_now peer_id
        else reassemble (S (length buf)) dispatch peer_id recv_ts 0
  end.

Definition handle_data (fuel : nat) (id : Z) (raw : bytes) : CM unit :=
  handle_data_with (cm_dispatch fuel) id raw.
End dispatch.
