(* ===== verification/CmLifecycle.v ===== *)
(** * Connection manager: lifecycle, registration and queries
      ([core/cm/lifecycle.cpp], [core/cm/registration.cpp], [core/cm/queries.cpp])

    Connection creation, additional transports, shutdown, handler and connector
    registration, the read-only getters, and the sum of everything a caller can do
    ([api_call]) with its effect ([run_call]). *)

From Stdlib Require Import ZArith Strings.Byte String Lia.
From stdpp Require Import base gmap list strings numbers.
From S2P Require Import Prelude Codec Wire NonceWindow Queue Crypto Noise Session Signals.
From S2P Require Import CmState CmTransport CmClose CmHandshake CmDispatch.

Local Open Scope Z_scope.

(** ** Registration *)

Definition register_connector (scheme : string) (ops : connector_ops) : CM unit :=
  modify (fun c => set_c_connectors (<[scheme := ops]> (c_connectors c)) c).

Definition set_scheme_priority (p : list string) : CM unit := modify (set_c_scheme_priority p).

Definition is_connector_blocked_type (msg_type : Z) : bool :=
  (msg_type <=? 9) || ((MSG_TYPE_SYS_BASE <=? msg_type) && (msg_type <=? MSG_TYPE_SYS_MAX)).

Definition handler_priority (h : handler_t) : Z :=
  match h_info_priority h with
  | Some p => if p =? 0 then 128 else p
  | None => 128
  end.

(** The callback registered with the bus: its verdict. *)
Definition make_cb (h : handler_t) : HandlerPacketFn :=
  fun hdr ep data =>
    match h_on_message_result h with
    | Some f => f hdr ep data
    | None => PROPAGATION_CONTINUE
    end.

(** The types a handler may subscribe to. *)
Definition allowed_types (source : HandlerSource) (ts : list Z) : list Z :=
  List.filter (fun t => negb (bool_decide (source = SrcConnector) && is_connector_blocked_type t)) ts.

Definition register_handler_internal (h : handler_t) (source : HandlerSource) : CM unit :=
  match h_name h with
  | None => mret tt
  | Some name =>
      let priority := handler_priority h in
      let add ts := modify (fun c => set_c_handler_entries
        (<[name := mk_handler_entry name h 128 ts source]> (c_handler_entries c)) c) in
      match h_supported_types h with
      | [] =>
          if bool_decide (source = SrcConnector) then mret tt
          else on_bus (subscribe_wildcard name (make_cb h) priority) ;; add []
      | ts =>
          let ok := allowed_types source ts in
          for_each ok (fun t => on_bus (fun b => snd (subscribe t name (make_cb h) priority b))) ;;
          match ok with [] => mret tt | _ => add ok end
      end
  end.

Definition register_handler (h : handler_t) : CM unit := register_handler_internal h SrcPlugin.
Definition register_handler_from_connector (h : handler_t) : CM unit :=
  register_handler_internal h SrcConnector.

Section lifecycle.
Context `{CO : !CryptoOps}.

(** ** Connections *)

Definition new_record (id : Z) (ep : endpoint_t) (hs : HandshakeState) (tcp_prio now : Z)
    : ConnectionRecord :=
  let is_local := negb (Z.land (ep_flags ep) EP_FLAG_TRUSTED =? 0) in
  let is_outbound := negb (Z.land (ep_flags ep) EP_FLAG_OUTBOUND =? 0) in
  mk_record id STATE_NOISE_HANDSHAKE ep "" [] "" (zeros 32) (zeros 32) false is_local false
    is_outbound (mk_CoreMeta 0 0) [] "" 0 0 0 0 (Some hs) None []
    [mk_path id "tcp" tcp_prio ep true 0 0 now].

Definition handle_connect (ep : endpoint_t) : CM Z :=
  stop ← gets c_shutting_down;
  if (stop : bool) then mret CONN_ID_INVALID else
  id ← gets c_next_id;
  modify (set_c_next_id (u64 (id + 1))) ;;
  me ← gets c_identity;
  pk ← (match pk_to_curve25519 (device_pubkey me) with
        | Some x => mret x
        | None => emit_ev (EvUB "handle_connect: x25519_pk unset") ;; mret (zeros DHLEN)
        end : CM bytes);
  let outbound := negb (Z.land (ep_flags ep) EP_FLAG_OUTBOUND =? 0) in
  let hs := hs_init outbound pk (sk_to_curve25519 (device_seckey me)) in
  c ← gets (fun c => c);
  let rec := new_record id ep hs (scheme_priority_index c "tcp") (c_now_ns c) in
  modify (fun c => set_c_records (<[id := rec]> (c_records c)) c) ;;
  modify (fun c => set_c_uri_index (<[addr_key ep := id]> (c_uri_index c)) c) ;;
  put_queue id queue_init ;;
  stat Connect 1 id ;;
  (if outbound then send_noise_init id else mret tt) ;;
  mret id.

(** [None] is a null argument. *)
Definition handle_add_transport (pubkey_hex : option string) (ep : option endpoint_t)
    (scheme : option string) : CM Z :=
  match pubkey_hex, ep, scheme with
  | Some hex, Some ep, Some scheme =>
      stop ← gets c_shutting_down;
      if (stop : bool) then mret CONN_ID_INVALID else
      peer_id ← gets (fun c => find_conn_by_pubkey c hex);
      if peer_id =? CONN_ID_INVALID then mret CONN_ID_INVALID else
      found ← rcu_find peer_id;
      match found with
      | None => mret CONN_ID_INVALID
      | Some rec =>
          if bool_decide (r_state rec <> STATE_ESTABLISHED)
             || bool_decide (is_Some (find_path scheme rec)) then mret CONN_ID_INVALID
          else
            transport_id ← gets c_next_id;
            modify (set_c_next_id (u64 (transport_id + 1))) ;;
            c ← gets (fun c => c);
            let tp := mk_path transport_id scheme (scheme_priority_index c scheme) ep true 0 0
                        (c_now_ns c) in
            upd_record peer_id (fun r =>
              set_r_transport_paths (r_transport_paths r ++ [tp]) r) ;;
            modify (fun c => set_c_transport_index
              (<[transport_id := peer_id]> (c_transport_index c)) c) ;;
            modify (fun c => set_c_uri_index (<[addr_key ep := peer_id]> (c_uri_index c)) c) ;;
            on_bus (emit_transport_change peer_id scheme true) ;;
            mret transport_id
      end
  | _, _, _ => mret CONN_ID_INVALID
  end.

Definition cm_connect (uri : string) : CM unit :=
  found ← find_connector (uri_scheme uri);
  match found with
  | Some (scheme, _) => emit_ev (EvConnect scheme uri)
  | None => mret tt
  end.

(** [None]: the wait for in-flight dispatches never ends (nobody else can lower the
    counter during a call). *)
Definition shutdown : CM (option unit) :=
  modify (set_c_shutting_down true) ;;
  busy ← gets c_in_flight_dispatches;
  if 0 <? busy then mret None
  else
    ids ← gets (fun c => (map_to_list (c_records c)).*1);
    for_each ids close_now ;;
    mret (Some tt).

(** ** Host API entries without a method of their own *)

Definition s_sign (c : cm) (data : bytes) : bytes :=
  sign_detached (device_seckey (c_identity c)) data.

Definition s_verify (data pk sig : bytes) : bool := verify_detached sig data pk.
End lifecycle.

(** ** Queries *)

Definition get_state (c : cm) (id : Z) : option conn_state_t := r_state <$> c_records c !! id.
Definition get_negotiated_scheme (c : cm) (id : Z) : option string :=
  r_negotiated_scheme <$> c_records c !! id.
Definition get_peer_pubkey (c : cm) (id : Z) : option bytes :=
  rec ← c_records c !! id;
  if r_peer_authenticated rec then Some (r_peer_user_pubkey rec) else None.
Definition get_peer_pubkey_hex (c : cm) (id : Z) : string :=
  from_option bytes_to_hex "" (get_peer_pubkey c id).
Definition get_peer_endpoint (c : cm) (id : Z) : option endpoint_t :=
  rec ← c_records c !! id;
  let rem := r_remote rec in
  Some (mk_endpoint (ep_address rem) (ep_port rem) (ep_pubkey rem) id (ep_flags rem)).
Definition connection_count (c : cm) : nat := size (c_records c).
Definition get_active_uris (c : cm) : list string := (map_to_list (c_uri_index c)).*1.
Definition get_active_conn_ids (c : cm) : list Z :=
  (List.filter (fun p => bool_decide (r_state (snd p) = STATE_ESTABLISHED))
     (map_to_list (c_records c))).*1.

(** ** Everything a caller can do *)

Inductive api_call :=
  | ApiConnect (uri : string)
  | ApiOnConnect (ep : endpoint_t)
  | ApiAddTransport (pk : option string) (ep : option endpoint_t) (scheme : option string)
  | ApiOnData (id : Z) (raw : bytes)
  | ApiOnDisconnect (id error : Z)
  | ApiSendUri (uri : string) (msg_type : Z) (payload : bytes)
  | ApiSendId (id msg_type : Z) (payload : bytes)
  | ApiBroadcast (msg_type : Z) (payload : bytes)
  | ApiDisconnect (id : Z)
  | ApiCloseNow (id : Z)
  | ApiShutdown
  | ApiRotate (next : NodeIdentity)
  | ApiRekey (id : Z)
  | ApiRelay (exclude ttl : Z) (dest inner : bytes)
  | ApiHeartbeats
  | ApiCleanup
  | ApiRegisterHandler (h : handler_t)
  | ApiRegisterFromConnector (h : handler_t)
  | ApiRegisterConnector (scheme : string) (ops : connector_ops)
  | ApiSetPriority (p : list string)
  | ApiTick (now wall : Z).

Definition run_call `{CO : !CryptoOps} (fuel : nat) (a : api_call) : CM unit :=
  match a with
  | ApiConnect uri => cm_connect uri
  | ApiOnConnect ep => handle_connect ep ;; mret tt
  | ApiAddTransport pk ep scheme => handle_add_transport pk ep scheme ;; mret tt
  | ApiOnData id raw => handle_data fuel id raw
  | ApiOnDisconnect id error => handle_disconnect id error
  | ApiSendUri uri t p => send_uri uri t p ;; mret tt
  | ApiSendId id t p => send_id id t p ;; mret tt
  | ApiBroadcast t p => broadcast t p
  | ApiDisconnect id => cm_disconnect id
  | ApiCloseNow id => close_now id
  | ApiShutdown => shutdown ;; mret tt
  | ApiRotate next => rotate_identity_keys next
  | ApiRekey id => rekey_session id ;; mret tt
  | ApiRelay exclude ttl dest inner => relay exclude ttl dest inner
  | ApiHeartbeats => check_heartbeat_timeouts
  | ApiCleanup => cleanup_stale_pending
  | ApiRegisterHandler h => register_handler h
  | ApiRegisterFromConnector h => register_handler_from_connector h
  | ApiRegisterConnector scheme ops => register_connector scheme ops
  | ApiSetPriority p => set_scheme_priority p
  | ApiTick now wall => modify (fun c => set_c_now_ns now (set_c_wall_us wall c))
  end.

Definition run_calls `{CO : !CryptoOps} (fuel : nat) (calls : list api_call) (c : cm) : cm :=
  fold_left (fun c a => snd (run_call fuel a c)) calls c.
