(* ===== verification/HostApi.v ===== *)
(** * Host API and diagnostics ([core/cm/lifecycle.cpp], [core/cm/queries.cpp], [sdk/plugin.h])

    The table of functions the manager hands to plugins, and the JSON document that describes
    the connections. *)

From Stdlib Require Import ZArith Strings.Byte String Lia.
From stdpp Require Import base gmap list strings numbers.
From S2P Require Import Prelude Codec Wire NonceWindow Queue Crypto Noise Session Signals Config.
From S2P Require Import CmState CmTransport CmClose CmHandshake CmDispatch CmLifecycle.

Local Open Scope Z_scope.
Local Open Scope string_scope.

(** ** The table *)

(** The entries a plugin calls; [log] only writes to the log. *)
Record host_api_t := mk_host_api {
  api_on_connect : endpoint_t -> CM Z;
  api_on_data : Z -> bytes -> CM unit;
  api_on_disconnect : Z -> Z -> CM unit;
  api_send : string -> Z -> bytes -> CM unit;
  api_send_response : Z -> Z -> bytes -> CM unit;
  api_broadcast : Z -> bytes -> CM unit;
  api_disconnect : Z -> CM unit;
  api_sign_with_device : bytes -> CM bytes;
  api_verify_signature : bytes -> bytes -> bytes -> bool;
  api_find_conn_by_pubkey : option string -> CM Z;
  api_get_peer_info : Z -> CM (Z * option endpoint_t);
  api_config_get : string -> nat -> Z * option bytes;
  api_register_handler : handler_t -> CM unit;
  api_add_transport : option string -> option endpoint_t -> option string -> CM Z;
}.

Section host_api.
Context `{CO : !CryptoOps}.

Definition s_find_conn_by_pk (hex : option string) : CM Z :=
  gets (fun c => match hex with Some h => find_conn_by_pubkey c h | None => CONN_ID_INVALID end).

(** The return code, and what is stored through the pointer. *)
Definition s_get_peer_info (id : Z) : CM (Z * option endpoint_t) :=
  gets (fun c => match get_peer_endpoint c id with Some ep => (0, Some ep) | None => (-1, None) end).

Definition fill_host_api (config : option Config) (fuel : nat) : host_api_t :=
  mk_host_api handle_connect (handle_data fuel) handle_disconnect
    (fun uri t p => send_uri uri t p ;; mret tt) (fun id t p => send_id id t p ;; mret tt) broadcast cm_disconnect
    (fun d => gets (fun c => s_sign c d)) s_verify s_find_conn_by_pk s_get_peer_info (s_config_get config)
    register_handler_from_connector handle_add_transport.

(** ** What plugins can do *)

Inductive host_request :=
  | ReqOnConnect (ep : endpoint_t)
  | ReqOnData (id : Z) (raw : bytes)
  | ReqOnDisconnect (id error : Z)
  | ReqSend (uri : string) (t : Z) (p : bytes)
  | ReqSendResponse (id t : Z) (p : bytes)
  | ReqBroadcast (t : Z) (p : bytes)
  | ReqDisconnect (id : Z)
  | ReqSign (data : bytes)
  | ReqFind (hex : option string)
  | ReqPeerInfo (id : Z)
  | ReqRegister (h : handler_t)
  | ReqAddTransport (pk : option string) (ep : option endpoint_t) (scheme : option string).

(** The state after a request through the table. *)
Definition serve (api : host_api_t) (r : host_request) (c : cm) : cm :=
  match r with
  | ReqOnConnect ep => (api_on_connect api ep c).2
  | ReqOnData id raw => (api_on_data api id raw c).2
  | ReqOnDisconnect id e => (api_on_disconnect api id e c).2
  | ReqSend uri t p => (api_send api uri t p c).2
  | ReqSendResponse id t p => (api_send_response api id t p c).2
  | ReqBroadcast t p => (api_broadcast api t p c).2
  | ReqDisconnect id => (api_disconnect api id c).2
  | ReqSign d => (api_sign_with_device api d c).2
  | ReqFind hex => (api_find_conn_by_pubkey api hex c).2
  | ReqPeerInfo id => (api_get_peer_info api id c).2
  | ReqRegister h => (api_register_handler api h c).2
  | ReqAddTransport pk ep s => (api_add_transport api pk ep s c).2
  end.

(** The calls of the manager's API a request stands for. *)
Definition as_calls (r : host_request) : list api_call :=
  match r with
  | ReqOnConnect ep => [ApiOnConnect ep]
  | ReqOnData id raw => [ApiOnData id raw]
  | ReqOnDisconnect id e => [ApiOnDisconnect id e]
  | ReqSend uri t p => [ApiSendUri uri t p]
  | ReqSendResponse id t p => [ApiSendId id t p]
  | ReqBroadcast t p => [ApiBroadcast t p]
  | ReqDisconnect id => [ApiDisconnect id]
  | ReqSign _ | ReqFind _ | ReqPeerInfo _ => []
  | ReqRegister h => [ApiRegisterFromConnector h]
  | ReqAddTransport pk ep s => [ApiAddTransport pk ep s]
  end.

(** A plugin can do no more through the table than a sequence of API calls, so that what
    holds in every reachable state holds with plugins as well. *)
Lemma host_api_is_calls config fuel reqs c :
  fold_left (fun c r => serve (fill_host_api config fuel) r c) reqs c =
  run_calls fuel (concat (map as_calls reqs)) c.
Proof.
  revert c. induction reqs as [|r reqs IH]; intros c; [done|]. simpl. rewrite IH. unfold run_calls.
  rewrite fold_left_app. f_equal. destruct r; simpl; try done; unfold mbind, cm_bind; by case_match.
Qed.
End host_api.

(** ** [dump_connections] *)

Definition state_code (s : conn_state_t) : Z :=
  match s with
  | STATE_CONNECTING => 0
  | STATE_NOISE_HANDSHAKE => 1
  | STATE_ESTABLISHED => 2
  | STATE_CLOSING => 3
  | STATE_CLOSED => 4
  end.

(** Objects are written with their members in key order. *)
Definition path_json (tp : TransportPath) : json :=
  JObject
    [("active", JBool (tp_active tp)); ("errors", JInt (tp_consecutive_errors tp)); ("priority", JInt (tp_priority tp));
     ("rtt_us", JInt (tp_last_rtt_us tp)); ("scheme", JString (tp_scheme tp));
     ("transport_id", JInt (tp_transport_conn_id tp))].

Definition connection_json (c : cm) (cid : Z) (rec : ConnectionRecord) : json :=
  JObject
    ([("address", JString (ep_address (r_remote rec))); ("authenticated", JBool (r_peer_authenticated rec));
      ("id", JInt cid); ("initiator", JBool (r_is_initiator rec)); ("localhost", JBool (r_is_localhost rec))]
     ++ (if r_peer_authenticated rec then [("peer_pubkey", JString (bytes_to_hex (r_peer_user_pubkey rec)))] else [])
     ++ [("pending_bytes", JInt (from_option pending_bytes 0 (c_send_queues c !! cid)));
         ("port", JInt (ep_port (r_remote rec)));
         ("scheme", JString (if String.eqb (r_negotiated_scheme rec) "" then r_local_scheme rec
                             else r_negotiated_scheme rec));
         ("state", JInt (state_code (r_state rec)));
         ("transport_paths", JArray (map path_json (r_transport_paths rec)))]).

Definition dump_document (c : cm) : json :=
  JArray (map (fun kv => connection_json c kv.1 kv.2) (map_to_list (c_records c))).

Definition dump_connections (dump : json -> option string) (c : cm) : option string := dump (dump_document c).

(** The document lists each connection once, with its id, its state and, exactly for an
    authenticated peer, the peer's key. *)
Lemma dump_entry c cid rec :
  c_records c !! cid = Some rec ->
  exists entry, dump_document c = JArray (map (fun kv => connection_json c kv.1 kv.2) (map_to_list (c_records c))) /\
    entry ∈ map (fun kv => connection_json c kv.1 kv.2) (map_to_list (c_records c)) /\
    member entry "id" = Some (JInt cid) /\ member entry "state" = Some (JInt (state_code (r_state rec))) /\
    member entry "peer_pubkey" =
      (if r_peer_authenticated rec then Some (JString (bytes_to_hex (r_peer_user_pubkey rec))) else None).
Proof.
  intros Hr. exists (connection_json c cid rec). split; [done|]. split.
  { apply list_elem_of_In, (in_map (fun kv => connection_json c kv.1 kv.2) _ (cid, rec)), list_elem_of_In.
    by apply elem_of_map_to_list. }
  unfold connection_json. by destruct (r_peer_authenticated rec).
Qed.
