(* ===== verification/CmFrame.v ===== *)
(** * Connection manager: what an operation leaves alone

    Most operations of the manager only send, count and notify: they change packet
    counters, path error counts, heartbeat fields and the receive window of a record and
    never its identity, state or keys.  [quiet] is that frame condition as a preorder on
    states, [Quiet m] says an operation respects it, and the lemmas below prove it for
    every such operation once, so that the invariants of [CmInvariant] only have to look
    at the operations that are not quiet. *)

From Stdlib Require Import ZArith Strings.Byte String Lia.
From stdpp Require Import base gmap list strings numbers.
From S2P Require Import Prelude Codec Wire NonceWindow Queue Crypto Noise Session Signals.
From S2P Require Import CmState CmTransport CmClose CmHandshake CmDispatch CmLifecycle.

Local Open Scope Z_scope.

(** The session of a record up to its receive window. *)
Definition session_keys (r : ConnectionRecord) : option (bytes * bytes * bytes) :=
  (fun s => (send_key s, recv_key s, handshake_hash s)) <$> r_session r.

(** The transport ids of a record. *)
Definition path_ids (r : ConnectionRecord) : list Z :=
  tp_transport_conn_id <$> r_transport_paths r.

(** Everything about a record that a quiet operation keeps. *)
Definition core_of (r : ConnectionRecord) :=
  (r_id r, r_state r, r_remote r, (r_peer_user_pubkey r, r_peer_device_pubkey r),
   (r_peer_authenticated r, r_is_localhost r, r_localhost_passthrough r, r_is_initiator r),
   r_handshake r, session_keys r, path_ids r, r_recv_buf r).

(** The counters of failed authentications and decryptions. *)
Definition failures (b : SignalBus) : Z * Z := (auth_fail (accum b), decrypt_fail (accum b)).

Record quiet (c c' : cm) : Prop := mk_quiet {
  q_records : forall id, core_of <$> (c_records c' !! id) = core_of <$> (c_records c !! id);
  q_identity : c_identity c' = c_identity c;
  q_shutting : c_shutting_down c' = c_shutting_down c;
  q_next : c_next_id c' = c_next_id c;
  q_in_flight : c_in_flight_dispatches c' = c_in_flight_dispatches c;
  q_prio : c_scheme_priority c' = c_scheme_priority c;
  q_handlers : c_handler_entries c' = c_handler_entries c;
  q_connectors : c_connectors c' = c_connectors c;
  q_uri : c_uri_index c' = c_uri_index c;
  q_pk : c_pk_index c' = c_pk_index c;
  q_transport : c_transport_index c' = c_transport_index c;
  q_pending : c_pending_messages c' = c_pending_messages c;
  q_channels : channels (c_bus c') = channels (c_bus c) /\ wildcards (c_bus c') = wildcards (c_bus c);
  q_failures : failures (c_bus c') = failures (c_bus c);
  q_trace : c_trace c `prefix_of` c_trace c';
}.

#[export] Instance quiet_preorder : PreOrder quiet.
Proof.
  split.
  - intros c. by split.
  - intros a b c [] []. split; try congruence; solve [intuition congruence | by etrans].
Qed.

Definition Quiet {A} (m : CM A) : Prop := forall c, quiet c (snd (m c)).

Lemma Quiet_ret {A} (a : A) : Quiet (mret a).
Proof. intros c. simpl. done. Qed.

Lemma Quiet_bind {A B} (m : CM A) (k : A -> CM B) :
  Quiet m -> (forall a, Quiet (k a)) -> Quiet (m ≫= k).
Proof.
  intros Hm Hk c. unfold mbind, cm_bind. specialize (Hm c).
  destruct (m c) as [a c']. simpl in Hm. etrans; [done|apply Hk].
Qed.

Lemma Quiet_gets {A} (f : cm -> A) : Quiet (gets f).
Proof. intros c. simpl. done. Qed.

Lemma Quiet_for_each {A} (l : list A) (f : A -> CM unit) :
  (forall a, Quiet (f a)) -> Quiet (for_each l f).
Proof. intros Hf. induction l; simpl; [apply Quiet_ret|]. by apply Quiet_bind. Qed.

Lemma Quiet_emit_ev e : Quiet (emit_ev e).
Proof. intros c. split; try done. simpl. by apply prefix_app_r. Qed.

(** A bus update that keeps the subscriptions and counts no failure. *)
Lemma Quiet_on_bus f :
  (forall b, channels (f b) = channels b /\ wildcards (f b) = wildcards b) ->
  (forall b, failures (f b) = failures b) -> Quiet (on_bus f).
Proof. intros Hf Hn c. split; try done; simpl; [apply Hf|apply Hn]. Qed.

Ltac solve_failures :=
  let b := fresh "b" in intros b; unfold failures; simpl; by destruct (accum b).

Lemma Quiet_upd_record id f : (forall r, core_of (f r) = core_of r) -> Quiet (upd_record id f).
Proof.
  intros Hf c. split; try done. intros i. simpl.
  destruct (decide (i = id)) as [->|Hne].
  - rewrite lookup_alter_eq. destruct (c_records c !! id); simpl; [by rewrite Hf|done].
  - by rewrite lookup_alter_ne.
Qed.

Create HintDb quiet.
#[export] Hint Resolve Quiet_ret Quiet_gets Quiet_for_each Quiet_emit_ev Quiet_bind : quiet.

(** Splits a computation into its commands; what is left are the calls with their own
    lemma and the record updates, whose [core_of] is unchanged by computation. *)
Ltac quiet_step :=
  match goal with
  | |- forall _, _ => intros ?
  | |- Quiet (mret _) => apply Quiet_ret
  | |- Quiet (_ ≫= _) => apply Quiet_bind
  | |- Quiet (gets _) => apply Quiet_gets
  | |- Quiet (rcu_find _) => apply Quiet_gets
  | |- Quiet (emit_ev _) => apply Quiet_emit_ev
  | |- Quiet (stat _ _ _) => apply Quiet_on_bus; [done|solve_failures]
  | |- Quiet (drop_pkt _ _) => apply Quiet_on_bus; [done|solve_failures]
  | |- Quiet (on_bus _) => apply Quiet_on_bus; [done|solve_failures]
  | |- Quiet (for_each _ _) => apply Quiet_for_each
  | |- Quiet (upd_record _ _) => by apply Quiet_upd_record
  | |- Quiet (match ?x with _ => _ end) => destruct x
  | |- Quiet _ => solve [auto with quiet nocore]
  end.
Ltac solve_quiet := repeat quiet_step.

Section frames.
Context `{CO : !CryptoOps}.

Lemma Quiet_find_connector s : Quiet (find_connector s).
Proof. apply Quiet_gets. Qed.
Hint Resolve Quiet_find_connector : quiet.

Lemma Quiet_resolve_uri uri : Quiet (resolve_uri uri).
Proof. apply Quiet_gets. Qed.

Lemma Quiet_next_rc ops : Quiet (next_rc ops).
Proof. intros c. by split. Qed.
Hint Resolve Quiet_next_rc : quiet.

Lemma Quiet_put_queue id q : Quiet (put_queue id q).
Proof. intros c. by split. Qed.
Hint Resolve Quiet_put_queue : quiet.

Lemma Quiet_get_or_create id : Quiet (get_or_create_queue id).
Proof. unfold get_or_create_queue. solve_quiet. intros c. by split. Qed.
Hint Resolve Quiet_get_or_create : quiet.

Lemma Quiet_build_frame id t p : Quiet (build_frame id t p).
Proof. unfold build_frame, fetch_packet_id. solve_quiet. Qed.
Hint Resolve Quiet_build_frame : quiet.

Lemma Quiet_send_each id s ops ok fs : Quiet (send_each id s ops ok fs).
Proof. revert ok. induction fs as [|f fs IH]; intros ok; simpl; solve_quiet. Qed.
Hint Resolve Quiet_send_each : quiet.

Lemma Quiet_flush_frames id s ops fs : Quiet (flush_frames_to_connector id s ops fs).
Proof. unfold flush_frames_to_connector. solve_quiet. Qed.
Hint Resolve Quiet_flush_frames : quiet.

(** A path update that keeps the transport id. *)
Lemma Quiet_upd_path id i f :
  (forall p, tp_transport_conn_id (f p) = tp_transport_conn_id p) -> Quiet (upd_path id i f).
Proof.
  intros Hf. apply Quiet_upd_record. intros r. unfold core_of, path_ids. simpl.
  do 2 f_equal. rewrite (list_fmap_alter _ f (fun x => x)) by (apply Forall_forall; auto).
  apply list_eq. intros j. rewrite list_lookup_alter.
  case_match; subst; [|done]. by destruct (_ !! j).
Qed.

Lemma path_error_id p : tp_transport_conn_id (path_error p) = tp_transport_conn_id p.
Proof. unfold path_error. by case_match. Qed.

Lemma Quiet_try_paths id ps b : Quiet (try_paths id ps b).
Proof.
  induction ps as [|[i p] ps IH]; simpl; solve_quiet;
    try (apply Quiet_upd_path; intros; apply path_error_id || done).
Qed.
Hint Resolve Quiet_try_paths : quiet.

Lemma Quiet_flush_queue id : Quiet (flush_queue id).
Proof. unfold flush_queue. solve_quiet. Qed.
Hint Resolve Quiet_flush_queue : quiet.

Lemma Quiet_send_frame id t p : Quiet (send_frame id t p).
Proof. unfold send_frame. solve_quiet. Qed.
Hint Resolve Quiet_send_frame : quiet.

Lemma Quiet_send_id id t p : Quiet (send_id id t p).
Proof. unfold send_id. solve_quiet. Qed.

Lemma Quiet_broadcast t p : Quiet (broadcast t p).
Proof. unfold broadcast. solve_quiet. Qed.

Lemma Quiet_notify uri st : Quiet (notify_handlers uri st).
Proof. unfold notify_handlers. solve_quiet. Qed.
Hint Resolve Quiet_notify : quiet.

Lemma Quiet_close_paths ps : Quiet (close_paths ps).
Proof. induction ps as [|p ps IH]; simpl; solve_quiet. Qed.
Hint Resolve Quiet_close_paths : quiet.

Lemma Quiet_disconnect id : Quiet (cm_disconnect id).
Proof. unfold cm_disconnect. solve_quiet. intros c. by split. Qed.
Hint Resolve Quiet_disconnect : quiet.

Lemma Quiet_hard_close s ops t : Quiet (hard_close s ops t).
Proof. unfold hard_close. solve_quiet. Qed.
Hint Resolve Quiet_hard_close : quiet.

Lemma Quiet_close_now_paths ps : Quiet (close_now_paths ps).
Proof. induction ps as [|p ps IH]; simpl; solve_quiet. Qed.
Hint Resolve Quiet_close_now_paths : quiet.

Lemma Quiet_close_now id : Quiet (close_now id).
Proof. unfold close_now. solve_quiet. Qed.
Hint Resolve Quiet_close_now : quiet.

Lemma Quiet_draw : Quiet draw_random.
Proof. intros c. by split. Qed.
Hint Resolve Quiet_draw : quiet.

Lemma Quiet_try_upgrade r b pk ss : Quiet (try_upgrade r b pk ss).
Proof. induction ss as [|s ss IH]; simpl; solve_quiet. Qed.
Hint Resolve Quiet_try_upgrade : quiet.

Lemma Quiet_upgrade id : Quiet (schedule_transport_upgrade id).
Proof. unfold schedule_transport_upgrade. solve_quiet. Qed.

Lemma Quiet_relay_seen hdr : Quiet (relay_seen hdr).
Proof. intros c. unfold relay_seen. case_match; by split. Qed.
Hint Resolve Quiet_relay_seen : quiet.

Lemma Quiet_relay e t d i : Quiet (relay e t d i).
Proof. unfold relay. solve_quiet. Qed.
Hint Resolve Quiet_relay : quiet.

Lemma Quiet_send_heartbeat id : Quiet (send_heartbeat id).
Proof. unfold send_heartbeat. solve_quiet. Qed.
Hint Resolve Quiet_send_heartbeat : quiet.

Lemma Quiet_heartbeat id p : Quiet (handle_heartbeat id p).
Proof. unfold handle_heartbeat. solve_quiet. by apply Quiet_upd_path. Qed.
Hint Resolve Quiet_heartbeat : quiet.

Lemma Quiet_check_heartbeat id : Quiet (check_heartbeat id).
Proof. unfold check_heartbeat. solve_quiet. Qed.
Hint Resolve Quiet_check_heartbeat : quiet.

Lemma Quiet_check_heartbeats : Quiet check_heartbeat_timeouts.
Proof. unfold check_heartbeat_timeouts. solve_quiet. Qed.

Lemma Quiet_run_handlers id r hdr d ts : Quiet (run_handlers id r hdr d ts).
Proof. unfold run_handlers. solve_quiet. Qed.
Hint Resolve Quiet_run_handlers : quiet.

Lemma Quiet_connect uri : Quiet (cm_connect uri).
Proof. unfold cm_connect. solve_quiet. Qed.
End frames.

#[export] Hint Resolve Quiet_find_connector Quiet_resolve_uri Quiet_next_rc Quiet_put_queue Quiet_get_or_create
  Quiet_build_frame Quiet_flush_frames Quiet_flush_queue Quiet_send_frame Quiet_send_id
  Quiet_broadcast Quiet_notify Quiet_disconnect Quiet_close_now Quiet_draw Quiet_upgrade
  Quiet_relay_seen Quiet_relay Quiet_send_heartbeat Quiet_heartbeat Quiet_check_heartbeats
  Quiet_run_handlers Quiet_connect : quiet.

(** ** Closing a connection *)

(** Removing the transports of a record from the index. *)
Definition erase_tids (id : Z) (ps : list TransportPath) (ti : gmap Z Z) : gmap Z Z :=
  fold_left (fun ti tp => if tp_transport_conn_id tp =? id then ti
                          else delete (tp_transport_conn_id tp) ti) ps ti.

Lemma erase_tids_lookup id ps ti tid :
  erase_tids id ps ti !! tid =
    if decide (tid <> id /\ tid ∈ tp_transport_conn_id <$> ps) then None else ti !! tid.
Proof.
  revert ti. unfold erase_tids.
  induction ps as [|tp ps IH]; intros ti; simpl; [case_decide; set_solver|].
  rewrite IH. destruct (Z.eqb_spec (tp_transport_conn_id tp) id) as [He|He];
    repeat case_decide; try done; try set_solver.
  - destruct (decide (tid = tp_transport_conn_id tp)) as [->|Hne];
      [by rewrite lookup_delete_eq|]. set_solver.
  - rewrite lookup_delete_ne; [done|]. set_solver.
Qed.

Lemma erase_paths_run id ps c :
  snd (for_each ps (fun tp => if tp_transport_conn_id tp =? id then mret tt
                              else erase_transport (tp_transport_conn_id tp)) c) =
  set_c_transport_index (erase_tids id ps (c_transport_index c)) c.
Proof.
  revert c. induction ps as [|tp ps IH]; intros c; simpl; [by destruct c|].
  unfold mbind, cm_bind. destruct (tp_transport_conn_id tp =? id); simpl; by rewrite IH.
Qed.

