(* ===== verification/CmInvariant.v ===== *)
(** * Connection manager: invariants

    Hoare triples over the manager's monad and the invariant [inv] that every operation
    keeps: a record is either in handshake or established with a session and an
    authenticated peer; the public-key index and the transport index point at the
    established records they describe; pending queues are bounded; the in-flight counter
    returns to its value.  [run_calls_inv] lifts it to every sequence of API calls. *)

From Stdlib Require Import ZArith Strings.Byte String Lia.
From stdpp Require Import base gmap list strings numbers.
From S2P Require Import Prelude Codec Wire NonceWindow Queue Crypto Noise Session Signals.
From S2P Require Import CmState CmTransport CmClose CmHandshake CmDispatch CmLifecycle CmFrame.

Local Open Scope Z_scope.

(** ** Triples *)

Definition triple {A} (P : cm -> Prop) (m : CM A) (Q : A -> cm -> Prop) : Prop :=
  forall c, P c -> Q (fst (m c)) (snd (m c)).

(** [m] keeps the assertion [P]. *)
Definition keeps_cm {A} (P : cm -> Prop) (m : CM A) : Prop := triple P m (fun _ => P).

Lemma triple_ret {A} (P : cm -> Prop) (Q : A -> cm -> Prop) a :
  (forall c, P c -> Q a c) -> triple P (mret a) Q.
Proof. intros H c Hc. by apply H. Qed.

Lemma triple_bind {A B} P (R : A -> cm -> Prop) (m : CM A) (k : A -> CM B) Q :
  triple P m R -> (forall a, triple (R a) (k a) Q) -> triple P (m ≫= k) Q.
Proof.
  intros Hm Hk c Hc. unfold mbind, cm_bind. specialize (Hm c Hc).
  destruct (m c) as [a c']. by apply Hk.
Qed.

Lemma triple_conseq {A} (P P' : cm -> Prop) (m : CM A) (Q Q' : A -> cm -> Prop) :
  triple P m Q -> (forall c, P' c -> P c) -> (forall a c, Q a c -> Q' a c) -> triple P' m Q'.
Proof. intros H HP HQ c Hc. by apply HQ, H, HP. Qed.

Lemma triple_pre {A} (P P' : cm -> Prop) (m : CM A) (Q : A -> cm -> Prop) :
  (forall c, P' c -> P c) -> triple P m Q -> triple P' m Q.
Proof. intros HP H c Hc. by apply H, HP. Qed.

(** A read: the rest runs knowing what was read. *)
Lemma triple_gets {A B} (P : cm -> Prop) (f : cm -> A) (k : A -> CM B) Q :
  (forall a, triple (fun c => P c /\ f c = a) (k a) Q) -> triple P (gets f ≫= k) Q.
Proof. intros Hk c Hc. by apply (Hk (f c)). Qed.

Lemma triple_modify {B} (P : cm -> Prop) (f : cm -> cm) (k : CM B) Q :
  triple (fun c => exists c0, P c0 /\ c = f c0) k Q -> triple P (modify f ;; k) Q.
Proof. intros Hk c Hc. apply Hk. eauto. Qed.

Lemma keeps_seq {A B} (P : cm -> Prop) (m : CM A) (k : A -> CM B) Q :
  keeps_cm P m -> (forall a, triple P (k a) Q) -> triple P (m ≫= k) Q.
Proof. intros. by eapply triple_bind. Qed.

Lemma keeps_for_each {A} P (l : list A) (f : A -> CM unit) :
  (forall a, keeps_cm P (f a)) -> keeps_cm P (for_each l f).
Proof.
  intros Hf. induction l as [|a l IH]; simpl; [by apply triple_ret|].
  by apply keeps_seq.
Qed.

(** ** The invariant *)

Section invariant.
Context `{CO : !CryptoOps}.

(** In handshake, or established with everything that goes with it. *)
Definition phase_ok (r : ConnectionRecord) : Prop :=
  (r_state r = STATE_NOISE_HANDSHAKE /\ is_Some (r_handshake r) /\ r_session r = None /\
   r_localhost_passthrough r = false) \/
  (r_state r = STATE_ESTABLISHED /\ r_handshake r = None /\ is_Some (r_session r) /\
   r_peer_authenticated r = true /\ r_localhost_passthrough r = r_is_localhost r).

(** An authenticated peer showed a signature of its user key over both its keys, and a
    device key that is a Noise static key. *)
Definition auth_ok (r : ConnectionRecord) : Prop :=
  r_peer_authenticated r = true ->
  (exists sig, verify_detached sig (r_peer_user_pubkey r ++ r_peer_device_pubkey r)
                 (r_peer_user_pubkey r) = true) /\
  is_Some (pk_to_curve25519 (r_peer_device_pubkey r)).

Definition rec_ok (ti : gmap Z Z) (n id : Z) (r : ConnectionRecord) : Prop :=
  r_id r = id /\ 0 < id < n /\ phase_ok r /\ auth_ok r /\
  (forall tid, tid ∈ path_ids r -> tid = id \/ ti !! tid = Some id).

Definition pk_ok (recs : gmap Z ConnectionRecord) (hex : string) (id : Z) : Prop :=
  exists r, recs !! id = Some r /\ r_state r = STATE_ESTABLISHED /\
    hex = bytes_to_hex (r_peer_user_pubkey r).

Definition ti_ok (recs : gmap Z ConnectionRecord) (n tid pid : Z) : Prop :=
  tid < n /\ recs !! tid = None /\
  exists r, recs !! pid = Some r /\ r_state r = STATE_ESTABLISHED /\ tid ∈ path_ids r.

(** [n] is the next id, [k] the in-flight count. *)
Record inv (n k : Z) (c : cm) : Prop := mk_inv {
  inv_next : c_next_id c = n /\ 0 < n;
  inv_flight : c_in_flight_dispatches c = k;
  inv_rec : forall id r, c_records c !! id = Some r -> rec_ok (c_transport_index c) n id r;
  inv_pk : forall hex id, c_pk_index c !! hex = Some id -> pk_ok (c_records c) hex id;
  inv_ti : forall tid pid, c_transport_index c !! tid = Some pid -> ti_ok (c_records c) n tid pid;
  inv_pend : forall key q, c_pending_messages c !! key = Some q ->
               (length q <= PENDING_MAX_PER_URI)%nat;
}.

(** ** Changes the invariant does not see *)

Record calm (c c' : cm) : Prop := mk_calm {
  cl_records : forall id, core_of <$> (c_records c' !! id) = core_of <$> (c_records c !! id);
  cl_next : c_next_id c' = c_next_id c;
  cl_flight : c_in_flight_dispatches c' = c_in_flight_dispatches c;
  cl_pk : c_pk_index c' = c_pk_index c;
  cl_ti : c_transport_index c' = c_transport_index c;
  cl_pend : (forall key q, c_pending_messages c !! key = Some q -> (length q <= PENDING_MAX_PER_URI)%nat) ->
            (forall key q, c_pending_messages c' !! key = Some q -> (length q <= PENDING_MAX_PER_URI)%nat);
}.

#[export] Instance calm_preorder : PreOrder calm.
Proof.
  split; [by intros c|]. intros a b c H1 H2. destruct H1 as [????? P1], H2 as [????? P2].
  split; try congruence. intros Hp. by apply P2, P1.
Qed.

Lemma quiet_calm c c' : quiet c c' -> calm c c'.
Proof. intros []. split; try done. intros H. by rewrite q_pending. Qed.

(** What the core of a record determines. *)
Lemma core_record c c' id r' :
  (forall id, core_of <$> (c_records c' !! id) = core_of <$> (c_records c !! id)) ->
  c_records c' !! id = Some r' ->
  exists r, c_records c !! id = Some r /\ core_of r' = core_of r.
Proof.
  intros H Hr. specialize (H id). rewrite Hr in H. simpl in H.
  destruct (c_records c !! id) as [r|]; [|done]. exists r. split; [done|]. by apply (inj Some).
Qed.

Lemma session_keys_None r : session_keys r = None <-> r_session r = None.
Proof. unfold session_keys. by destruct (r_session r). Qed.

Lemma session_keys_Some r : is_Some (session_keys r) <-> is_Some (r_session r).
Proof. unfold session_keys. apply fmap_is_Some. Qed.

Lemma phase_ok_core r r' : core_of r' = core_of r -> phase_ok r -> phase_ok r'.
Proof.
  intros [= H1 H2 H3 H4 H5 H6 H7 H8 H9 H10 H11 H12 H13]. unfold phase_ok.
  rewrite <-!session_keys_Some, <-!session_keys_None. congruence.
Qed.

Lemma rec_ok_core ti n id r r' : core_of r' = core_of r -> rec_ok ti n id r -> rec_ok ti n id r'.
Proof.
  intros Hc (H1 & H2 & H3 & H4 & H5). pose proof (phase_ok_core _ _ Hc H3).
  injection Hc as E1 E2 E3 E4 E5 E6 E7 E8 E9 E10 E11 E12 E13.
  split_and!; [congruence|lia|lia|done| |by rewrite E12].
  unfold auth_ok in *. by rewrite E4, E5, E6.
Qed.

Lemma inv_calm n k c c' : calm c c' -> inv n k c -> inv n k c'.
Proof.
  intros [Hr Hn Hf Hp Ht Hq] [I1 I2 I3 I4 I5 I6].
  split; [by rewrite Hn|by rewrite Hf| | | |by apply Hq].
  - intros id r' Hr'. destruct (core_record _ _ _ _ Hr Hr') as (r & Hx & Hcore).
    rewrite Ht. by eapply rec_ok_core, I3.
  - intros hex id. rewrite Hp. intros (r & Hx & Hst & ->)%I4. specialize (Hr id).
    rewrite Hx in Hr. destruct (c_records c' !! id) as [r'|] eqn:E; [|done].
    injection Hr as E1 E2 E3 E4 E5 E6 E7 E8 E9 E10 E11 E12 E13. exists r'. naive_solver congruence.
  - intros tid pid. rewrite Ht. intros (Hlt & Hno & r & Hx & Hst & Hin)%I5.
    split; [done|]. split.
    + specialize (Hr tid). rewrite Hno in Hr. by destruct (c_records c' !! tid).
    + specialize (Hr pid). rewrite Hx in Hr. destruct (c_records c' !! pid) as [r'|] eqn:E; [|done].
      injection Hr as E1 E2 E3 E4 E5 E6 E7 E8 E9 E10 E11 E12 E13.
      exists r'. split; [done|]. split; [congruence|]. by rewrite E12.
Qed.

Definition Calm {A} (m : CM A) : Prop := forall c, calm c (snd (m c)).

Lemma Quiet_Calm {A} (m : CM A) : Quiet m -> Calm m.
Proof. intros H c. apply quiet_calm, H. Qed.

Lemma Calm_keeps {A} n k (m : CM A) : Calm m -> keeps_cm (inv n k) m.
Proof. intros H c Hc. eapply inv_calm; [apply H|exact Hc]. Qed.

Lemma Quiet_keeps {A} n k (m : CM A) : Quiet m -> keeps_cm (inv n k) m.
Proof. intros. by apply Calm_keeps, Quiet_Calm. Qed.

(** A modification of fields the invariant does not read. *)
Lemma keeps_modify n k f : (forall c, calm c (f c)) -> keeps_cm (inv n k) (modify f).
Proof. intros. by apply Calm_keeps. Qed.

Lemma calm_refl_pending c c' :
  c_records c' = c_records c -> c_next_id c' = c_next_id c ->
  c_in_flight_dispatches c' = c_in_flight_dispatches c -> c_pk_index c' = c_pk_index c ->
  c_transport_index c' = c_transport_index c ->
  c_pending_messages c' = c_pending_messages c -> calm c c'.
Proof. intros H1 H2 H3 H4 H5 H6. split; try done; [by rewrite H1|by rewrite H6]. Qed.
End invariant.

Create HintDb keeps.

(** One command of a computation that keeps the invariant. *)
Ltac keeps_step :=
  match goal with
  | |- forall _, _ => intros ?
  | |- triple ?P ?m (fun _ => ?P) => change (keeps_cm P m)
  | |- triple _ (mret _) _ => by apply triple_ret
  | |- keeps_cm _ (mret _) => by apply triple_ret
  | |- triple _ (_ ≫= _) _ => apply keeps_seq
  | |- keeps_cm _ (_ ≫= _) => apply keeps_seq
  | |- keeps_cm _ (for_each _ _) => apply keeps_for_each
  | |- keeps_cm _ (match ?x with _ => _ end) => destruct x
  | |- triple _ (match ?x with _ => _ end) _ => destruct x
  | |- keeps_cm _ _ => solve [auto with keeps nocore | apply Quiet_keeps; solve_quiet]
  | |- triple _ _ _ => solve [auto with keeps nocore | apply Quiet_keeps; solve_quiet]
  end.
Ltac solve_keeps := repeat keeps_step.

Section operations.
Context `{CO : !CryptoOps}.
Implicit Types n k id : Z.

(** ** Pending messages *)

Lemma keeps_push_pending n k key t p : keeps_cm (inv n k) (push_pending key t p).
Proof.
  intros c Hc. unfold push_pending, mbind, cm_bind. simpl.
  case_bool_decide as Hlen; simpl; [done|].
  destruct Hc as [I1 I2 I3 I4 I5 I6]. split; try done. intros key' q. simpl.
  destruct (decide (key = key')) as [->|Hne].
  - rewrite lookup_insert_eq. intros [= <-]. rewrite length_app. simpl. lia.
  - rewrite lookup_insert_ne by done. apply I6.
Qed.
Hint Resolve keeps_push_pending : keeps.

(** Dropping pending queues. *)
Lemma calm_pending_subset c m :
  (forall key q, m !! key = Some q ->
     exists q', c_pending_messages c !! key = Some q' /\ (length q <= length q')%nat) ->
  calm c (set_c_pending_messages m c).
Proof.
  intros Hm. split; try done. simpl. intros H key q (q' & Hq' & ?)%Hm.
  apply H in Hq'. lia.
Qed.

Lemma keeps_erase_pending n k key : keeps_cm (inv n k) (erase_pending key).
Proof.
  apply keeps_modify. intros c. apply calm_pending_subset. intros key' q Hq.
  apply lookup_delete_Some in Hq as [_ Hq]. eauto.
Qed.
Hint Resolve keeps_erase_pending : keeps.

Lemma keeps_flush_pending n k uri id : keeps_cm (inv n k) (flush_pending_messages uri id).
Proof.
  unfold flush_pending_messages. solve_keeps. apply (keeps_erase_pending n k uri).
Qed.
Hint Resolve keeps_flush_pending : keeps.

Lemma keeps_cleanup n k : keeps_cm (inv n k) cleanup_stale_pending.
Proof.
  apply keeps_modify. intros c. apply calm_pending_subset. intros key q Hq.
  rewrite lookup_omap in Hq. destruct (c_pending_messages c !! key) as [q'|]; [|done].
  exists q'. split; [done|]. simpl in Hq. unfold cleanup_queue in Hq.
  destruct q' as [|m q']; [by injection Hq as <-|].
  destruct (stale _ m); [|by injection Hq as <-].
  pose proof (filter_length_le (fun m => negb (stale (c_now_ns c) m)) (m :: q')).
  destruct (List.filter _ _); naive_solver.
Qed.
Hint Resolve keeps_cleanup : keeps.

Lemma keeps_send_uri n k uri t p : keeps_cm (inv n k) (send_uri uri t p).
Proof. unfold send_uri. solve_keeps. Qed.
Hint Resolve keeps_send_uri : keeps.

(** ** Record updates *)

(** Something true of the record [id], if there is one. *)
Definition at_rec id (P : ConnectionRecord -> Prop) (c : cm) : Prop :=
  forall r, c_records c !! id = Some r -> P r.

(** An update that keeps the paths and the phase, and an established peer's key. *)
Definition update_ok (f : ConnectionRecord -> ConnectionRecord) (r : ConnectionRecord) : Prop :=
  path_ids (f r) = path_ids r /\ r_id (f r) = r_id r /\
  (phase_ok r -> phase_ok (f r)) /\ (auth_ok r -> auth_ok (f r)) /\
  (r_state r = STATE_ESTABLISHED -> r_state (f r) = STATE_ESTABLISHED /\
     r_peer_user_pubkey (f r) = r_peer_user_pubkey r).

Lemma upd_record_inv n k id f :
  triple (fun c => inv n k c /\ at_rec id (update_ok f) c) (upd_record id f)
    (fun _ => inv n k).
Proof.
  intros c [[I1 I2 I3 I4 I5 I6] Hf]. split; try done; simpl.
  - intros i r Hr. apply lookup_alter_Some in Hr as [(-> & r0 & Hr0 & ->)|[Hne Hr]]; [|by apply I3].
    destruct (I3 _ _ Hr0) as (H1 & H2 & H3 & H4 & H5).
    destruct (Hf r0 Hr0) as (F1 & F2 & F3 & F4 & _).
    split_and!; [congruence|lia|lia|by apply F3|by apply F4|by rewrite F1].
  - intros hex i (r & Hr & Hst & ->)%I4. unfold pk_ok.
    destruct (decide (i = id)) as [->|Hne]; [|rewrite lookup_alter_ne by done; eauto].
    rewrite lookup_alter_eq, Hr. destruct (Hf r Hr) as (_ & _ & _ & _ & F5).
    destruct (F5 Hst) as [F6 F7]. eexists. split; [done|]. by rewrite F7.
  - intros tid pid (Hlt & Hno & r & Hr & Hst & Hin)%I5. split; [done|].
    split; [by apply lookup_alter_None|].
    destruct (decide (pid = id)) as [->|Hne]; [|rewrite lookup_alter_ne by done; eauto].
    rewrite lookup_alter_eq, Hr. destruct (Hf r Hr) as (F1 & _ & _ & _ & F5).
    destruct (F5 Hst) as [F6 F7]. eexists. split; [done|]. by rewrite F1.
Qed.

(** A record with a handshake state is in the handshake phase. *)
Lemma handshaking r hs :
  phase_ok r -> r_handshake r = Some hs -> r_state r = STATE_NOISE_HANDSHAKE /\ r_session r = None
    /\ r_localhost_passthrough r = false.
Proof. unfold phase_ok. naive_solver. Qed.

Lemma phase_of n k c id r : inv n k c -> c_records c !! id = Some r -> phase_ok r.
Proof. intros Hc Hr. by destruct (inv_rec _ _ _ Hc _ _ Hr) as (_ & _ & ? & _). Qed.

Lemma inv_id_pos n k c id r : inv n k c -> c_records c !! id = Some r -> 0 < id < n.
Proof. intros Hc Hr. by destruct (inv_rec _ _ _ Hc _ _ Hr) as (_ & ? & _). Qed.

(** ** Handshake progress *)

Definition authed (r : ConnectionRecord) : Prop := r_peer_authenticated r = true.

Lemma noise_run_inv {A} n k id (m : SE HandshakeState A) (P : ConnectionRecord -> Prop) :
  (forall r h, P r -> P (set_r_handshake h r)) ->
  keeps_cm (fun c => inv n k c /\ at_rec id P c) (noise_run id m).
Proof.
  intros HP c [Hc Hat]. unfold noise_run, mbind, cm_bind, rcu_find. simpl.
  destruct (c_records c !! id) as [r|] eqn:Hr; [|by split]. simpl.
  destruct (r_handshake r) as [hs|] eqn:Hh; [|by split].
  destruct (m hs) as [o hs']. simpl. split.
  - apply (upd_record_inv n k id (set_r_handshake (Some hs')) c). split; [done|].
    intros r' Hr'. assert (r' = r) as -> by congruence.
    pose proof (phase_of _ _ _ _ _ Hc Hr) as Hph.
    destruct (handshaking _ _ Hph Hh) as (Hs1 & Hs2 & Hs3). unfold update_ok.
    split_and!; [done|done|intros _; left; by eauto|done|]. rewrite Hs1. done.
  - intros r' Hr'. simpl in Hr'. rewrite lookup_alter_eq, Hr in Hr'. injection Hr' as <-.
    by apply HP, Hat.
Qed.

Lemma quiet_at_rec id P c c' :
  (forall r r', core_of r' = core_of r -> P r -> P r') ->
  quiet c c' -> at_rec id P c -> at_rec id P c'.
Proof.
  intros HP [Hr _ _ _ _ _ _ _ _ _ _ _ _ _] Hat r' Hr'.
  destruct (core_record _ _ _ _ Hr Hr') as (r & Hx & Hcore). eapply HP; [done|]. by apply Hat.
Qed.

Lemma Quiet_keeps_at {A} n k id P (m : CM A) :
  (forall r r', core_of r' = core_of r -> P r -> P r') -> Quiet m ->
  keeps_cm (fun c => inv n k c /\ at_rec id P c) m.
Proof.
  intros HP Hm c [Hc Hat]. split; [by apply (Quiet_keeps n k m)|].
  eapply quiet_at_rec; [exact HP|apply Hm|exact Hat].
Qed.

Lemma authed_core r r' : core_of r' = core_of r -> authed r -> authed r'.
Proof. unfold authed. intros [= H1 H2 H3 H4 H5 H6 H7 H8 H9 H10 H11 H12 H13]. congruence. Qed.

Lemma noise_write_inv n k id p P :
  (forall r h, P r -> P (set_r_handshake h r)) ->
  (forall r r', core_of r' = core_of r -> P r -> P r') ->
  keeps_cm (fun c => inv n k c /\ at_rec id P c) (noise_write id p).
Proof.
  intros HP1 HP2. unfold noise_write. apply keeps_seq; [by apply Quiet_keeps_at; [|apply Quiet_gets]|].
  intros found. destruct (found ≫= r_handshake) as [hs|]; [|by apply triple_ret].
  apply keeps_seq; [|intros; by apply noise_run_inv].
  case_match; [apply Quiet_keeps_at; [done|apply Quiet_draw]|by apply triple_ret].
Qed.

(** The invariant alone, as an assertion with a trivial record part. *)
Lemma keeps_any {A} n k id (m : CM A) :
  keeps_cm (fun c => inv n k c /\ at_rec id (fun _ => True) c) m -> keeps_cm (inv n k) m.
Proof. intros H c Hc. by apply (H c). Qed.

Lemma keeps_noise_read n k id msg : keeps_cm (inv n k) (noise_read id msg).
Proof. eapply keeps_any. by apply noise_run_inv. Qed.
Hint Resolve keeps_noise_read : keeps.

Lemma keeps_noise_write n k id p : keeps_cm (inv n k) (noise_write id p).
Proof. eapply keeps_any. by apply noise_write_inv. Qed.
Hint Resolve keeps_noise_write : keeps.

Lemma keeps_send_noise_init n k id : keeps_cm (inv n k) (send_noise_init id).
Proof. unfold send_noise_init. solve_keeps. Qed.
Hint Resolve keeps_send_noise_init : keeps.

(** ** Identity verification *)

Lemma accept_payload_fields c hp ss r :
  let r' := accept_payload c hp ss r in
  r_id r' = r_id r /\ r_state r' = r_state r /\ r_handshake r' = r_handshake r /\
  r_session r' = r_session r /\ r_localhost_passthrough r' = r_localhost_passthrough r /\
  path_ids r' = path_ids r /\ r_peer_user_pubkey r' = hp_user_pubkey hp /\
  r_peer_device_pubkey r' = hp_device_pubkey hp /\ r_peer_authenticated r' = true.
Proof.
  unfold accept_payload, path_ids. cbn zeta.
  destruct (r_transport_paths r) as [|tp tps] eqn:E; simpl; rewrite E; simpl;
    split_and!; try done; by rewrite ?E.
Qed.

Lemma process_inv n k id data :
  triple (inv n k) (process_handshake_payload id data)
    (fun b c => inv n k c /\ (b = true -> at_rec id authed c)).
Proof.
  intros c Hc. unfold process_handshake_payload.
  assert (forall d, inv n k (snd (drop_pkt id d c)) ) as Hdrop
    by (intros; by apply (Quiet_keeps n k (drop_pkt id d)); [solve_quiet|]).
  case_bool_decide; [split; [apply Hdrop|done]|].
  generalize (cdec HandshakePayload_codec data). intros hp.
  destruct (signature_ok hp) eqn:Hsig; simpl; [|split; [apply Hdrop|done]].
  unfold mbind, cm_bind, rcu_find, gets, mret, cm_ret; simpl.
  destruct (c_records c !! id) as [r|] eqn:Hr; [|by split]. simpl.
  destruct (r_handshake r) as [hs|] eqn:Hh; [|by split].
  destruct (pk_to_curve25519 (hp_device_pubkey hp)) as [x|] eqn:Hx;
    [|split; [apply Hdrop|done]].
  case_bool_decide; [|split; [apply Hdrop|done]].
  set (m := match get_schemes hp with Some l => _ | None => _ end).
  assert (quiet c (snd (m c))) as Hq.
  { unfold m. destruct (get_schemes hp); [done|]. simpl. apply (Quiet_emit_ev _ c). }
  destruct (m c) as [ss c1]. simpl in *.
  pose proof (q_records _ _ Hq id) as Hcore.
  rewrite Hr in Hcore. destruct (c_records c1 !! id) as [r1|] eqn:Hr1; [|done].
  assert (core_of r1 = core_of r) as Hcr by by apply (inj Some).
  assert (inv n k c1) as Hc1 by by eapply inv_calm; [apply quiet_calm|].
  assert (r_handshake r1 = Some hs) as Hh1.
  { injection Hcr as E1 E2 E3 E4 E5 E6 E7 E8 E9 E10 E11 E12 E13. congruence. }
  destruct (accept_payload_fields c1 hp ss r1) as (F1 & F2 & F3 & F4 & F5 & F6 & F7 & F8 & F9).
  pose proof (phase_of _ _ _ _ _ Hc1 Hr1) as Hph.
  destruct (handshaking _ _ Hph Hh1) as (Hs1 & Hs2 & Hs3).
  split.
  - apply (upd_record_inv n k id (accept_payload c1 hp ss) c1). split; [done|].
    intros r' Hr'. assert (r' = r1) as -> by congruence. unfold update_ok, phase_ok, auth_ok.
    rewrite F1, F2, F3, F4, F5, F6, F7, F8, Hs1, Hs2, Hs3, Hh1. split_and!; try done.
    + intros _. left. by eauto.
    + intros _ _. split; [by exists (hp_signature hp)|by rewrite Hx].
  - intros _ r' Hr'. unfold upd_record, modify in Hr'. cbn [snd c_records set_c_records] in Hr'.
    rewrite lookup_alter_eq, Hr1 in Hr'. apply (inj Some) in Hr'. unfold authed. congruence.
Qed.

(** ** The end of the handshake *)

Lemma erase_record_inv n k id :
  triple (fun c => inv n k c /\ at_rec id (fun r => r_state r <> STATE_ESTABLISHED) c)
    (erase_record id) (fun _ => inv n k).
Proof.
  intros c [[I1 I2 I3 I4 I5 I6] Hat]. split; try done; simpl.
  - intros i r [_ Hr]%lookup_delete_Some. by apply I3.
  - intros hex i (r & Hr & Hst & ->)%I4. exists r.
    split; [|done]. rewrite lookup_delete_ne; [done|]. intros ->. by apply (Hat r).
  - intros tid pid (Hlt & Hno & r & Hr & Hst & Hin)%I5. split; [done|].
    split; [by rewrite lookup_delete_None; right|]. exists r. split; [|done].
    rewrite lookup_delete_ne; [done|]. intros ->. by apply (Hat r).
Qed.

Lemma establish_fields hs r :
  let r' := establish hs r in
  r_id r' = r_id r /\ r_state r' = STATE_ESTABLISHED /\ r_handshake r' = None /\
  is_Some (r_session r') /\ r_localhost_passthrough r' = (r_is_localhost r || r_localhost_passthrough r)
  /\ r_is_localhost r' = r_is_localhost r /\ path_ids r' = path_ids r /\
  r_peer_user_pubkey r' = r_peer_user_pubkey r /\
  r_peer_device_pubkey r' = r_peer_device_pubkey r /\
  r_peer_authenticated r' = r_peer_authenticated r.
Proof.
  unfold establish. destruct (hs_split hs) as [cs cr]. simpl.
  destruct (r_is_localhost r) eqn:E; simpl; rewrite ?E; naive_solver.
Qed.

(** The switch to the established state and the entry in the key index. *)
Lemma establish_inv n k id r hs c :
  inv n k c -> c_records c !! id = Some r -> r_handshake r = Some hs -> authed r ->
  inv n k (set_c_pk_index (<[bytes_to_hex (r_peer_user_pubkey r) := id]> (c_pk_index c))
             (set_c_records (alter (establish hs) id (c_records c)) c)).
Proof.
  intros Hc Hr Hh Ha. pose proof (phase_of _ _ _ _ _ Hc Hr) as Hph.
  destruct (handshaking _ _ Hph Hh) as (Hs1 & Hs2 & Hs3).
  destruct (establish_fields hs r) as (F1 & F2 & F3 & F4 & F5 & F6 & F7 & F8 & F9 & F10).
  assert (inv n k (set_c_records (alter (establish hs) id (c_records c)) c)) as [I1 I2 I3 I4 I5 I6].
  { apply (upd_record_inv n k id (establish hs) c). split; [done|].
    intros r' Hr'. assert (r' = r) as -> by congruence. unfold update_ok, phase_ok, auth_ok.
    rewrite F1, F2, F3, F5, F6, F7, F8, F9, F10, Hs1, Hs3, orb_false_r. unfold authed in Ha.
    split_and!; try done. intros _. by right. }
  split; try done; simpl in *. intros hex i.
  destruct (decide (hex = bytes_to_hex (r_peer_user_pubkey r))) as [->|Hne].
  - rewrite lookup_insert_eq. intros [= <-]. exists (establish hs r).
    rewrite lookup_alter_eq, Hr. by rewrite F8.
  - rewrite lookup_insert_ne by done. apply I4.
Qed.

Lemma finalize_inv n k id :
  triple (fun c => inv n k c /\ at_rec id authed c) (finalize_handshake id) (fun _ => inv n k).
Proof.
  unfold finalize_handshake, rcu_find. apply triple_gets. intros [r|]; [|by apply triple_ret; naive_solver].
  destruct (r_handshake r) as [hs|] eqn:Hh; [|by apply triple_ret; naive_solver].
  apply triple_gets. intros dup. case_bool_decide as Hdup.
  - eapply triple_bind with (R := fun _ c => inv n k c /\
      at_rec id (fun r => r_state r <> STATE_ESTABLISHED) c).
    { intros c [[[Hc Hat] Hr] _].
      apply (Quiet_keeps_at n k id (fun r => r_state r <> STATE_ESTABLISHED)); [|apply Quiet_close_now|].
      { intros r1 r2 [= H1 H2 H3 H4 H5 H6 H7 H8 H9 H10 H11 H12 H13]. congruence. }
      split; [done|]. intros r' Hr'. assert (r' = r) as -> by congruence.
      destruct (handshaking _ _ (phase_of _ _ _ _ _ Hc Hr) Hh) as (-> & _). done. }
    intros _. eapply triple_bind; [apply erase_record_inv|]. intros ?; cbn beta.
    apply keeps_seq; [|intros _]; apply keeps_modify; intros c; by apply calm_refl_pending.
  - apply (triple_pre (fun c => inv n k c /\ authed r /\ c_records c !! id = Some r)).
    { intros c [[[Hc Hat] Hr] _]. split; [done|]. split; [by apply Hat|done]. }
    unfold upd_record. apply triple_modify, triple_modify. apply (triple_pre (inv n k)).
    { intros c (c1 & (c0 & (Hc & Ha & Hr) & ->) & ->).
      exact (establish_inv n k id r hs c0 Hc Hr Hh Ha). }
    solve_keeps.
Qed.

Lemma keeps_noise_init n k id p : keeps_cm (inv n k) (handle_noise_init id p).
Proof. unfold handle_noise_init, handshake_as, build_handshake_payload. solve_keeps. Qed.
Hint Resolve keeps_noise_init : keeps.

(** After a successful verification the rest runs with an authenticated record. *)
Lemma after_process n k id data (yes no : CM unit) :
  triple (fun c => inv n k c /\ at_rec id authed c) yes (fun _ => inv n k) ->
  keeps_cm (inv n k) no ->
  keeps_cm (inv n k)
    (ok ← process_handshake_payload id data; if (ok : bool) then yes else no).
Proof.
  intros Hyes Hno. eapply triple_bind; [apply process_inv|]. intros [|]; cbn beta.
  - eapply triple_pre; [|exact Hyes]. naive_solver.
  - eapply triple_pre; [|exact Hno]. naive_solver.
Qed.

Lemma keeps_noise_resp n k id p : keeps_cm (inv n k) (handle_noise_resp id p).
Proof.
  unfold handle_noise_resp, handshake_as, build_handshake_payload.
  apply keeps_seq; [solve_keeps|intros [hs|]; [|solve_keeps]].
  apply keeps_seq; [solve_keeps|intros [data|]; [|solve_keeps]].
  apply after_process; [|solve_keeps].
  apply keeps_seq; [by apply Quiet_keeps_at; [apply authed_core|apply Quiet_gets]|intros hp].
  apply keeps_seq; [by apply noise_write_inv; [|apply authed_core]|intros [m|]].
  - apply keeps_seq; [apply Quiet_keeps_at; [apply authed_core|apply Quiet_send_frame]|].
    intros _. apply finalize_inv.
  - eapply triple_pre; [|apply Quiet_keeps, Quiet_close_now]. naive_solver.
Qed.
Hint Resolve keeps_noise_resp : keeps.

Lemma keeps_noise_fin n k id p : keeps_cm (inv n k) (handle_noise_fin id p).
Proof.
  unfold handle_noise_fin, handshake_as.
  apply keeps_seq; [solve_keeps|intros [hs|]; [|solve_keeps]].
  apply keeps_seq; [solve_keeps|intros [data|]; [|solve_keeps]].
  apply after_process; [apply finalize_inv|solve_keeps].
Qed.
Hint Resolve keeps_noise_fin : keeps.

(** ** Reception *)

(** The session of the record that is being read is replaced by itself with a new window. *)
Lemma session_decrypt_quiet id s p pid c r :
  c_records c !! id = Some r -> r_session r = Some s ->
  quiet c (snd (session_decrypt id s p pid c)).
Proof.
  intros Hr Hs. unfold session_decrypt.
  assert (forall s', send_key s' = send_key s -> recv_key s' = recv_key s ->
    handshake_hash s' = handshake_hash s ->
    quiet c (snd (upd_record id (set_r_session (Some s')) c))) as H.
  { intros s' E1 E2 E3. split; try done. intros i. simpl.
    destruct (decide (i = id)) as [->|Hne]; [|by rewrite lookup_alter_ne].
    rewrite lookup_alter_eq, Hr. cbn [fmap option_fmap option_map]. f_equal.
    unfold core_of, session_keys, path_ids. simpl. rewrite Hs. simpl. congruence. }
  unfold decrypt. case_bool_decide; [by apply H|].
  destruct (accept pid (recv_window s)) as [[|] w]; [|by apply H].
  destruct (aead_decrypt _ _ _ _); by apply H.
Qed.

Lemma keeps_deliver n k d id rec hdr payload plain ts :
  (forall i h b t, keeps_cm (inv n k) (d i h b t)) ->
  keeps_cm (inv n k) (deliver_plain d id rec hdr payload plain ts).
Proof. intros Hd. unfold deliver_plain, handle_relay. solve_keeps. Qed.

Lemma keeps_dispatch_body n k d id hdr payload ts :
  (forall i h b t, keeps_cm (inv n k) (d i h b t)) ->
  keeps_cm (inv n k) (dispatch_body d id hdr payload ts).
Proof.
  intros Hd. unfold dispatch_body.
  do 3 (case_match; [by auto with keeps nocore|]).
  unfold rcu_find. apply triple_gets. intros [rec|];
    [|eapply triple_pre; [|apply Quiet_keeps; solve_quiet]; naive_solver].
  repeat case_match;
    try (eapply triple_pre with (P := inv n k); [naive_solver|];
         solve [apply (keeps_deliver n k); exact Hd | apply Quiet_keeps; solve_quiet]).
  eapply triple_bind with (R := fun _ => inv n k).
  { intros c [Hc Hr]. eapply inv_calm; [|exact Hc]. by eapply quiet_calm, session_decrypt_quiet. }
  intros [|b plain]; [apply Quiet_keeps; solve_quiet|by apply keeps_deliver].
Qed.

(** One dispatch, with the counter up during it. *)
Lemma keeps_guarded n k (m : CM unit) :
  fits 32 k -> (forall k', fits 32 k' -> keeps_cm (inv n k') m) ->
  keeps_cm (inv n k) (add_in_flight 1 ;; m ;; add_in_flight (-1)).
Proof.
  intros Hk Hm. apply triple_modify, (triple_pre (inv n (u32 (k + 1)))).
  { intros c (c0 & [[I1 J1] I2 I3 I4 I5 I6] & ->). split; try done. simpl. congruence. }
  apply keeps_seq with (P := inv n (u32 (k + 1))); [by apply Hm, wrap_fits|]. intros _ c [[I1 J1] I2 I3 I4 I5 I6].
  split; try done. simpl. rewrite I2. by apply wrap_inc_dec.
Qed.

Lemma keeps_dispatch n k fuel id hdr payload ts :
  fits 32 k -> keeps_cm (inv n k) (cm_dispatch fuel id hdr payload ts).
Proof.
  revert k id hdr payload ts.
  induction fuel as [|fuel IH]; intros k id hdr payload ts Hk; simpl.
  - apply keeps_guarded; [done|]. intros k' Hk'. apply keeps_dispatch_body.
    intros. apply Quiet_keeps. solve_quiet.
  - apply keeps_guarded; [done|]. intros k' Hk'. apply keeps_dispatch_body.
    intros. by apply IH.
Qed.

Lemma keeps_set_recv_buf n k id b : keeps_cm (inv n k) (upd_record id (set_r_recv_buf b)).
Proof. intros c Hc. apply upd_record_inv. by split. Qed.
Hint Resolve keeps_set_recv_buf : keeps.

Lemma keeps_reassemble n k rounds d id ts consumed :
  (forall i h b t, keeps_cm (inv n k) (d i h b t)) ->
  keeps_cm (inv n k) (reassemble rounds d id ts consumed).
Proof.
  intros Hd. revert consumed. induction rounds as [|rounds IH]; intros consumed; simpl; solve_keeps.
Qed.

Lemma keeps_handle_data n k fuel id raw :
  fits 32 k -> keeps_cm (inv n k) (handle_data fuel id raw).
Proof.
  intros Hk. unfold handle_data, handle_data_with.
  assert (forall i h b t, keeps_cm (inv n k) (cm_dispatch fuel i h b t)) as Hd
    by (intros; by apply keeps_dispatch).
  solve_keeps. by apply keeps_reassemble.
Qed.

(** ** Rekeying *)

Lemma keeps_rekey n k id : keeps_cm (inv n k) (rekey_session id).
Proof.
  unfold rekey_session, rcu_find. apply triple_gets. intros [r|]; [|by apply triple_ret; naive_solver].
  destruct (r_session r) as [s|] eqn:Hs; [|by apply triple_ret; naive_solver].
  case_bool_decide as Hst; [|by apply triple_ret; naive_solver].
  eapply triple_bind with (R := fun _ => inv n k); [|intros _; by apply triple_ret].
  intros c [Hc Hr]. eapply upd_record_inv. split; [done|]. intros r' Hr'.
  assert (r' = r) as -> by congruence. unfold update_ok, phase_ok, auth_ok. simpl.
  rewrite Hst. split_and!; try done. naive_solver.
Qed.
End operations.
