(* ===== verification/CmScenario.v ===== *)
(** * A concrete run of two nodes

    Two managers over the executable [ToyCrypto] primitives and an always-successful
    [tcp] connector: [alice] connects to [bob], the three handshake frames travel through
    [handle_data], and both end up established.  The witnesses of the theorems about
    connections are evaluated on these states. *)

From Stdlib Require Import ZArith Strings.Byte String Lia.
From stdpp Require Import base gmap list strings numbers.
From S2P Require Import Prelude Codec Wire NonceWindow Queue Crypto Noise Session Signals.
From S2P Require Import CmState CmTransport CmClose CmHandshake CmDispatch CmLifecycle.

Local Open Scope Z_scope.

#[local] Existing Instances ToyCrypto.ops ToyCrypto.laws.

Definition toy_identity (user device : byte) : NodeIdentity :=
  let '(up, us) := ToyCrypto.keypair_of (replicate 32 user) in
  let '(dp, ds) := ToyCrypto.keypair_of (replicate 32 device) in
  mk_identity up us dp ds.

Definition toy_tcp : connector_ops := mk_ops false true true (fun _ => 0).

(** A handler of message type 100 that consumes what it gets. *)
Definition toy_handler : handler_t :=
  mk_handler (Some "echo") true (Some (fun _ _ _ => PROPAGATION_CONSUMED)) true [100] None.

Definition toy_node (user device : byte) (rng0 : nat) : cm :=
  cm_init bus_init (toy_identity user device) None 1000 2000 rng0 0.

Definition toy_setup : list api_call :=
  [ApiRegisterConnector "tcp" toy_tcp; ApiRegisterHandler toy_handler].

Definition toy_ep (addr : string) (flags : Z) : endpoint_t := mk_endpoint addr 25565 [] 0 flags.

(** The frames a node handed to its connectors. *)
Definition sent (c : cm) : list bytes :=
  omap (fun e => match e with EvSendTo _ _ f _ => Some f | _ => None end) (c_trace c).

Definition alice0 : cm := toy_node x01 x02 0.
Definition bob0 : cm := toy_node x03 x04 100.

(** msg1, msg2 and msg3 of the handshake. *)
Definition msg1 : bytes :=
  nth 0 (sent (run_calls 2 (toy_setup ++ [ApiOnConnect (toy_ep "10.0.0.2" EP_FLAG_OUTBOUND)]) alice0)) [].
Definition bob_calls : list api_call :=
  toy_setup ++ [ApiOnConnect (toy_ep "10.0.0.1" 0); ApiOnData 1 msg1].
Definition msg2 : bytes := nth 0 (sent (run_calls 2 bob_calls bob0)) [].
Definition alice_calls : list api_call :=
  toy_setup ++ [ApiOnConnect (toy_ep "10.0.0.2" EP_FLAG_OUTBOUND); ApiOnData 1 msg2].
Definition msg3 : bytes := nth 1 (sent (run_calls 2 alice_calls alice0)) [].

Definition alice : cm := run_calls 2 alice_calls alice0.
Definition bob : cm := run_calls 2 (bob_calls ++ [ApiOnData 1 msg3]) bob0.

Example handshake_establishes :
  get_state alice 1 = Some STATE_ESTABLISHED /\ get_state bob 1 = Some STATE_ESTABLISHED /\
  get_peer_pubkey alice 1 = Some (replicate 32 x03) /\
  get_peer_pubkey bob 1 = Some (replicate 32 x01).
Proof. vm_compute. split_and!; reflexivity. Qed.

(** The records of the peers at each other, and their sessions. *)
Definition no_record : ConnectionRecord :=
  new_record 0 (toy_ep "" 0) (hs_init true [] []) 0 0.
Definition no_session : NoiseSession := mk_session [] [] [] window_init.
Definition record_of (c : cm) : ConnectionRecord := default no_record (c_records c !! 1).
Definition session_of (c : cm) : NoiseSession := default no_session (r_session (record_of c)).

Definition alice_record : ConnectionRecord := record_of alice.
Definition bob_record : ConnectionRecord := record_of bob.

Lemma alice_record_lookup : c_records alice !! 1 = Some alice_record.
Proof. vm_compute. reflexivity. Qed.

Lemma bob_record_lookup : c_records bob !! 1 = Some bob_record.
Proof. vm_compute. reflexivity. Qed.

(** Bob before any message arrives. *)
Definition bob_waiting : cm := run_calls 2 (toy_setup ++ [ApiOnConnect (toy_ep "10.0.0.1" 0)]) bob0.

Lemma bob_waiting_lookup : c_records bob_waiting !! 1 = Some (record_of bob_waiting).
Proof. vm_compute. reflexivity. Qed.

(** Alice with a second transport to bob. *)
Definition alice_ice : cm :=
  run_calls 2 [ApiAddTransport (Some (bytes_to_hex (replicate 32 x03))) (Some (toy_ep "10.0.0.7" 0))
                 (Some "ice"%string)] alice.

Lemma alice_ice_lookup : c_records alice_ice !! 1 = Some (record_of alice_ice).
Proof. vm_compute. reflexivity. Qed.
