(* ===== verification/CmReassembly.v ===== *)
(** * Stream reassembly ([handle_data], [core/cm/dispatch.cpp])

    [frames_of] is the specification: the frames at the front of a byte string and what is
    left.  [handle_data] dispatches exactly those frames, in order, of the bytes buffered
    so far ([handle_data_dispatches]), and the specification does not depend on how the
    stream was cut into reads ([frames_of_app]). *)

From Stdlib Require Import ZArith Strings.Byte String Lia.
From stdpp Require Import base gmap list strings numbers.
From S2P Require Import Prelude Codec Wire NonceWindow Queue Crypto Noise Session Signals.
From S2P Require Import CmState CmTransport CmClose CmHandshake CmDispatch CmLifecycle CmFrame CmInvariant CmScenario.

Local Open Scope Z_scope.

(** ** Specification *)

(** Frames, the bytes left, and why the stream is broken, if it is. *)
Fixpoint split_frames (fuel : nat) (buf : bytes)
    : list (header_t * bytes) * bytes * option DropReason :=
  match fuel with
  | O => ([], buf, None)
  | S fuel =>
      match next_frame buf with
      | FvMore => ([], buf, None)
      | FvBad why => ([], buf, Some why)
      | FvFrame hdr payload rest =>
          let '(fs, r, e) := split_frames fuel rest in ((hdr, payload) :: fs, r, e)
      end
  end.

Definition frames_of (buf : bytes) : list (header_t * bytes) * bytes * option DropReason :=
  split_frames (S (length buf)) buf.

(** ** The view of one frame *)

Lemma header_sizes : HDR_SIZE = csize header_t_codec.
Proof. done. Qed.

Lemma payload_len_nonneg buf : (HDR_SIZE <= length buf)%nat -> 0 <= hdr_payload_len (view_header buf).
Proof.
  intros H. pose proof (cdec_wf (c := header_t_codec) buf H) as Hwf.
  destruct Hwf as (_ & _ & _ & _ & Hl & _). unfold fits in Hl. exact (proj1 Hl).
Qed.

Lemma view_header_app buf k : (HDR_SIZE <= length buf)%nat -> view_header (buf ++ k) = view_header buf.
Proof. intros. unfold view_header. by apply cdec_app; [apply _|]. Qed.

(** A complete frame. *)
Definition complete (buf : bytes) (hdr : header_t) (payload rest : bytes) : Prop :=
  hdr = view_header buf /\ hdr_magic hdr = GNET_MAGIC /\ hdr_proto_ver hdr = GNET_PROTO_VER /\
  buf = take HDR_SIZE buf ++ payload ++ rest /\
  (HDR_SIZE <= length buf)%nat /\ hdr_payload_len hdr = blen payload.

Lemma FvFrame_inj h h' p p' r r' :
  FvFrame h p r = FvFrame h' p' r' -> h = h' /\ p = p' /\ r = r'.
Proof. intros H. by injection H. Qed.

Lemma next_frame_complete buf hdr payload rest :
  next_frame buf = FvFrame hdr payload rest <-> complete buf hdr payload rest.
Proof.
  unfold next_frame, complete. case_bool_decide as Hlen.
  { split; [done|]. intros (_ & _ & _ & _ & ? & _). lia. }
  pose proof (payload_len_nonneg buf ltac:(lia)) as Hp.
  set (h := view_header buf) in *.
  destruct (Z.eqb_spec (hdr_magic h) GNET_MAGIC) as [Hm|Hm]; cbn [negb];
    [|split; [done|]; by intros (-> & ? & _)].
  destruct (Z.eqb_spec (hdr_proto_ver h) GNET_PROTO_VER) as [Hv|Hv]; cbn [negb];
    [|split; [done|]; by intros (-> & _ & ? & _)].
  destruct (Z.ltb_spec (blen buf) (Z.of_nat HDR_SIZE + hdr_payload_len h)) as [Hl|Hl].
  - split; [done|]. intros (-> & _ & _ & Hb & _ & Hpl). exfalso.
    apply (f_equal length) in Hb. rewrite !length_app, length_take in Hb.
    unfold blen in *. lia.
  - unfold blen in Hl. split.
    + intros (<- & <- & <-)%FvFrame_inj. split_and!; try done; [|lia|].
      * apply split_slice.
      * unfold blen. rewrite length_slice by lia. lia.
    + intros (-> & _ & _ & Hb & _ & Hpl). f_equal.
      * rewrite Hb at 1. unfold slice. rewrite drop_app_length' by (rewrite length_take; lia).
        rewrite Hpl. unfold blen. rewrite Nat2Z.id. by rewrite take_app_length.
      * rewrite Hb at 1. rewrite app_assoc, drop_app_length'; [done|].
        rewrite length_app, length_take, Hpl. unfold blen. lia.
Qed.

Lemma complete_app buf hdr payload rest k :
  complete buf hdr payload rest -> complete (buf ++ k) hdr payload (rest ++ k).
Proof.
  intros (Hh & Hm & Hv & Hb & Hl & Hp). unfold complete. rewrite view_header_app by done.
  split_and!; try done; [|rewrite length_app; lia].
  rewrite take_app_le by done. rewrite Hb at 1. by rewrite <-!app_assoc.
Qed.

Lemma complete_length buf hdr payload rest :
  complete buf hdr payload rest -> length buf = (HDR_SIZE + length payload + length rest)%nat.
Proof.
  intros (_ & _ & _ & Hb & Hl & _). apply (f_equal length) in Hb.
  rewrite !length_app, length_take in Hb. lia.
Qed.

Lemma next_frame_bad_app buf why k : next_frame buf = FvBad why -> next_frame (buf ++ k) = FvBad why.
Proof.
  unfold next_frame. case_bool_decide as Hl; [done|].
  rewrite bool_decide_false by (rewrite length_app; lia).
  rewrite view_header_app by lia. repeat case_match; naive_solver.
Qed.

(** ** Fuel *)

Lemma split_frames_fuel f1 f2 buf :
  (length buf < f1)%nat -> (length buf < f2)%nat -> split_frames f1 buf = split_frames f2 buf.
Proof.
  revert f2 buf. induction f1 as [|f1 IH]; intros [|f2] buf H1 H2; try lia. simpl.
  destruct (next_frame buf) as [| |hdr p rest] eqn:E; try done.
  apply next_frame_complete, complete_length in E.
  assert (HDR_SIZE = 20%nat) by done.
  by rewrite (IH f2) by lia.
Qed.

Lemma frames_of_cons buf :
  frames_of buf =
    match next_frame buf with
    | FvMore => ([], buf, None)
    | FvBad why => ([], buf, Some why)
    | FvFrame hdr payload rest =>
        let '(fs, r, e) := frames_of rest in ((hdr, payload) :: fs, r, e)
    end.
Proof.
  unfold frames_of at 1. simpl. destruct (next_frame buf) as [| |hdr p rest] eqn:E; try done.
  apply next_frame_complete, complete_length in E. assert (HDR_SIZE = 20%nat) by done.
  unfold frames_of. by rewrite (split_frames_fuel (length buf) (S (length rest))) by lia.
Qed.

(** Induction along the frames of a buffer. *)
Lemma frames_ind (P : bytes -> Prop) :
  (forall buf, (forall hdr p rest, next_frame buf = FvFrame hdr p rest -> P rest) -> P buf) ->
  forall buf, P buf.
Proof.
  intros H buf. remember (length buf) as n eqn:Hn.
  revert buf Hn. induction n as [n IH] using lt_wf_ind. intros buf ->. apply H.
  intros hdr p rest E. apply next_frame_complete, complete_length in E.
  assert (HDR_SIZE = 20%nat) by done. eapply IH; [|done]. lia.
Qed.

(** ** Cutting a stream *)

Lemma frames_of_app a b :
  frames_of (a ++ b) =
    match frames_of a with
    | (fs, rest, None) => let '(fs', r, e) := frames_of (rest ++ b) in (fs ++ fs', r, e)
    | (fs, rest, Some why) => (fs, rest ++ b, Some why)
    end.
Proof.
  revert a. refine (frames_ind _ _). intros a IH. rewrite (frames_of_cons a).
  destruct (next_frame a) as [|why|hdr p rest] eqn:E.
  - by destruct (frames_of (a ++ b)) as [[fs r] e].
  - rewrite frames_of_cons. by rewrite (next_frame_bad_app _ _ _ E).
  - rewrite frames_of_cons.
    assert (next_frame (a ++ b) = FvFrame hdr p (rest ++ b)) as ->
      by by apply next_frame_complete, complete_app, next_frame_complete.
    rewrite (IH _ _ _ eq_refl). destruct (frames_of rest) as [[fs r] [why|]]; [done|].
    by destruct (frames_of (r ++ b)) as [[fs' r'] e'].
Qed.

(** What is left of a buffer holds no further frame. *)
Lemma frames_of_rest buf : match frames_of buf with
  | (_, rest, None) => frames_of rest = ([], rest, None)
  | _ => True
  end.
Proof.
  revert buf. refine (frames_ind _ _). intros buf IH. rewrite frames_of_cons.
  destruct (next_frame buf) as [|why|hdr p rest] eqn:E; [|done|].
  - by rewrite frames_of_cons, E.
  - specialize (IH _ _ _ eq_refl). by destruct (frames_of rest) as [[fs r] [why|]].
Qed.

(** A frame as [build_frame] lays it out. *)
Definition wire_frame (f : header_t * bytes) : Prop :=
  header_wf f.1 /\ hdr_magic f.1 = GNET_MAGIC /\ hdr_proto_ver f.1 = GNET_PROTO_VER /\
  hdr_payload_len f.1 = blen f.2.

Lemma frames_of_wire fs tail :
  Forall wire_frame fs -> frames_of tail = ([], tail, None) ->
  frames_of (concat (map (fun f => frame_bytes f.1 f.2) fs) ++ tail) = (fs, tail, None).
Proof.
  intros Hf Ht. induction Hf as [|[h p] fs (Hwf & Hm & Hv & Hl) Hf IH]; [done|].
  cbn [map concat fst snd] in *.
  rewrite frames_of_cons, <-app_assoc. set (k := concat _ ++ tail) in *.
  assert (next_frame (frame_bytes h p ++ k) = FvFrame h p k) as ->; [|by rewrite IH].
  assert (length (frame_bytes h p) = (HDR_SIZE + length p)%nat) as Hfl
    by by rewrite length_frame_bytes.
  apply next_frame_complete. unfold complete. rewrite view_header_app, view_frame by (done || lia).
  split_and!; try done; rewrite length_app; lia.
Qed.

(** ** The code follows the specification *)

Section refinement.
Context `{CO : !CryptoOps}.
Variable dispatch : Z -> header_t -> bytes -> Z -> CM unit.

Definition set_buf (peer : Z) (b : bytes) (c : cm) : cm :=
  snd (upd_record peer (set_r_recv_buf b) c).

(** Frames dispatched one after the other until the connection is gone. *)
Fixpoint run_frames (peer ts : Z) (fs : list (header_t * bytes)) (c : cm) : cm :=
  match fs with
  | [] => c
  | (hdr, payload) :: fs =>
      let c1 := snd (dispatch peer hdr payload ts c) in
      match c_records c1 !! peer with
      | None => c1
      | Some _ => run_frames peer ts fs c1
      end
  end.

(** A dispatch may remove the connection but not touch its receive buffer. *)
Definition leaves_buffer (peer : Z) : Prop :=
  forall hdr payload ts c r r',
    c_records c !! peer = Some r ->
    c_records (snd (dispatch peer hdr payload ts c)) !! peer = Some r' ->
    r_recv_buf r' = r_recv_buf r.

Lemma set_buf_same peer c r b :
  c_records c !! peer = Some r -> r_recv_buf r = b -> set_buf peer b c = c.
Proof.
  intros Hr <-. unfold set_buf, upd_record, modify. simpl.
  assert (alter (set_r_recv_buf (r_recv_buf r)) peer (c_records c) = c_records c) as ->.
  { apply map_eq. intros i. destruct (decide (i = peer)) as [->|Hne].
    - rewrite lookup_alter_eq, Hr. simpl. by destruct r.
    - by rewrite lookup_alter_ne. }
  by destruct c.
Qed.

Lemma set_buf_gone peer c b : c_records c !! peer = None -> set_buf peer b c = c.
Proof.
  intros Hr. unfold set_buf, upd_record, modify. simpl.
  assert (alter (set_r_recv_buf b) peer (c_records c) = c_records c) as ->.
  { apply map_eq. intros i. destruct (decide (i = peer)) as [->|Hne].
    - by rewrite lookup_alter_eq, Hr.
    - by rewrite lookup_alter_ne. }
  by destruct c.
Qed.

Lemma reassemble_spec peer ts rounds c r consumed fs rest :
  leaves_buffer peer -> c_records c !! peer = Some r ->
  (length (r_recv_buf r) - consumed < rounds)%nat ->
  frames_of (drop consumed (r_recv_buf r)) = (fs, rest, None) ->
  reassemble rounds dispatch peer ts consumed c = (tt, set_buf peer rest (run_frames peer ts fs c)).
Proof.
  intros Hd. revert c r consumed fs rest.
  induction rounds as [|rounds IH]; intros c r consumed fs rest Hr Hlen Hf; [lia|].
  cbn [reassemble]. unfold mbind, cm_bind, rcu_find, gets. rewrite Hr.
  rewrite frames_of_cons in Hf.
  destruct (next_frame (drop consumed (r_recv_buf r))) as [| |hdr p rest'] eqn:E.
  - injection Hf as <- <-. cbn [run_frames]. case_bool_decide as Hc.
    + done.
    + rewrite (set_buf_same _ _ _ _ Hr); [done|]. by replace consumed with 0%nat by lia.
  - done.
  - destruct (frames_of rest') as [[fs' r1] e] eqn:Ef. injection Hf as <- <- ->.
    cbn [run_frames]. pose proof (Hd hdr p ts c) as Hbuf.
    destruct (dispatch peer hdr p ts c) as [[] c1]. cbn [snd] in *.
    apply next_frame_complete in E. pose proof (complete_length _ _ _ _ E) as Hl.
    destruct E as (-> & _ & _ & Hb & Hhl & Hpl).
    set (total := (HDR_SIZE + Z.to_nat (hdr_payload_len (view_header (drop consumed (r_recv_buf r)))))%nat).
    assert (total = (HDR_SIZE + length p)%nat) as Ht
      by (unfold total; rewrite Hpl; unfold blen; lia).
    assert (HDR_SIZE = 20%nat) by done. rewrite length_drop in Hl.
    destruct (c_records c1 !! peer) as [r'|] eqn:Hr'.
    + specialize (Hbuf r r' Hr eq_refl). apply (IH c1 r'); [done|rewrite Hbuf; lia|].
      rewrite Hbuf, <-drop_drop, Hb, app_assoc, drop_app_length'; [done|].
      rewrite length_app, length_take, length_drop. lia.
    + rewrite set_buf_gone by done. destruct rounds as [|rounds]; cbn [reassemble];
        unfold mbind, cm_bind, rcu_find, gets; by rewrite Hr'.
Qed.

Lemma handle_data_spec id peer raw c r fs rest :
  leaves_buffer peer -> c_shutting_down c = false ->
  default id (c_transport_index c !! id) = peer -> c_records c !! peer = Some r ->
  blen (r_recv_buf r ++ raw) <= MAX_RECV_BUF ->
  frames_of (r_recv_buf r ++ raw) = (fs, rest, None) ->
  exists b, snd (handle_data_with dispatch id raw c) =
    set_buf peer rest (run_frames peer (c_now_ns c) fs (set_buf peer b c)).
Proof.
  intros Hd Hs Hp Hr Hmax Hf.
  unfold handle_data_with, mbind, cm_bind, rcu_find, gets. rewrite Hs, Hp, Hr.
  case_match eqn:Hfast.
  - rewrite !andb_true_iff in Hfast.
    destruct Hfast as ((((Hb & Hl) & Ht) & Hm) & Hv).
    apply bool_decide_eq_true in Hb, Hl. apply Z.eqb_eq in Ht, Hm, Hv.
    exists []. rewrite Hb in Hf. simpl app in Hf.
    assert (next_frame raw = FvFrame (view_header raw) (drop HDR_SIZE raw) []) as E.
    { apply next_frame_complete. split_and!; try done.
      - by rewrite app_nil_r, take_drop.
      - unfold blen in *. rewrite length_drop. lia. }
    rewrite frames_of_cons, E in Hf. simpl in Hf. injection Hf as <- <-.
    rewrite (set_buf_same _ _ _ _ Hr Hb). cbn [run_frames].
    pose proof (Hd (view_header raw) (drop HDR_SIZE raw) (c_now_ns c) c) as Hbuf.
    destruct (dispatch _ _ _ _ c) as [[] c1]. cbn [snd] in *.
    destruct (c_records c1 !! peer) as [r'|] eqn:Hr'.
    + rewrite (set_buf_same _ _ _ _ Hr'); [done|]. by rewrite (Hbuf r r').
    + by rewrite set_buf_gone.
  - exists (r_recv_buf r ++ raw). set (buf := r_recv_buf r ++ raw) in *.
    unfold upd_record, modify at 1.
    destruct (Z.ltb_spec MAX_RECV_BUF (blen buf)); [lia|].
    change (set_c_records (alter (set_r_recv_buf buf) peer (c_records c)) c) with (set_buf peer buf c).
    assert (c_records (set_buf peer buf c) !! peer = Some (set_r_recv_buf buf r)) as Hr1.
    { unfold set_buf, upd_record, modify. simpl. by rewrite lookup_alter_eq, Hr. }
    erewrite reassemble_spec; [done|done|exact Hr1|simpl; lia|exact Hf].
Qed.
End refinement.

(** ** [dispatch_packet] leaves the buffer alone *)

(** Records may disappear, none appears, and the buffers of the others are kept. *)
Definition buf_kept (c c' : cm) : Prop :=
  forall id r', c_records c' !! id = Some r' ->
    exists r, c_records c !! id = Some r /\ r_recv_buf r' = r_recv_buf r.

#[export] Instance buf_kept_preorder : PreOrder buf_kept.
Proof.
  split; [intros c id r ?; by exists r|].
  intros a b c H1 H2 id r Hr. destruct (H2 _ _ Hr) as (r1 & Hr1 & E).
  destruct (H1 _ _ Hr1) as (r0 & Hr0 & E0). exists r0. split; [done|congruence].
Qed.

Definition BufKept {A} (m : CM A) : Prop := forall c, buf_kept c (snd (m c)).

Lemma Quiet_BufKept {A} (m : CM A) : Quiet m -> BufKept m.
Proof.
  intros Hq c id r' Hr'. destruct (core_record _ _ _ _ (q_records _ _ (Hq c)) Hr') as (r & Hr & Hc).
  exists r. split; [done|]. by injection Hc.
Qed.

Lemma BufKept_bind {A B} (m : CM A) (k : A -> CM B) :
  BufKept m -> (forall a, BufKept (k a)) -> BufKept (m ≫= k).
Proof.
  intros Hm Hk c. unfold mbind, cm_bind. specialize (Hm c).
  destruct (m c) as [a c']. etrans; [exact Hm|apply Hk].
Qed.

Lemma BufKept_same {A} (m : CM A) :
  (forall c, c_records (snd (m c)) = c_records c) -> BufKept m.
Proof. intros H c id r. rewrite H. eauto. Qed.

Lemma BufKept_upd id f : (forall r, r_recv_buf (f r) = r_recv_buf r) -> BufKept (upd_record id f).
Proof.
  intros Hf c i r Hr. simpl in Hr.
  apply lookup_alter_Some in Hr as [(-> & r0 & Hr0 & ->)|[_ Hr]]; [|by eauto].
  exists r0. by rewrite Hf.
Qed.

Lemma BufKept_erase id : BufKept (erase_record id).
Proof. intros c i r Hr. simpl in Hr. apply lookup_delete_Some in Hr as [_ Hr]. eauto. Qed.

Create HintDb buf_kept.

Ltac buf_step :=
  match goal with
  | |- forall _, _ => intros ?
  | |- BufKept (_ ≫= _) => apply BufKept_bind
  | |- BufKept (match ?x with _ => _ end) => destruct x
  | |- BufKept (upd_record _ _) => by apply BufKept_upd
  | |- BufKept (erase_record _) => apply BufKept_erase
  | |- BufKept (modify _) => by apply BufKept_same
  | |- BufKept _ => solve [auto with buf_kept nocore | apply Quiet_BufKept; solve_quiet]
  end.
Ltac solve_buf := repeat buf_step.

Section dispatcher.
Context `{CO : !CryptoOps}.

Lemma BufKept_noise_run {A} id (m : SE HandshakeState A) : BufKept (noise_run id m).
Proof. unfold noise_run. solve_buf. Qed.
Hint Resolve BufKept_noise_run : buf_kept.

Lemma BufKept_noise_write id p : BufKept (noise_write id p).
Proof. unfold noise_write. solve_buf. Qed.
Hint Resolve BufKept_noise_write : buf_kept.

Lemma accept_payload_buf c hp ss r : r_recv_buf (accept_payload c hp ss r) = r_recv_buf r.
Proof. unfold accept_payload. cbn zeta. by destruct (r_transport_paths _). Qed.

Lemma BufKept_process id d : BufKept (process_handshake_payload id d).
Proof. unfold process_handshake_payload. solve_buf; apply BufKept_upd, accept_payload_buf. Qed.
Hint Resolve BufKept_process : buf_kept.

Lemma establish_buf hs r : r_recv_buf (establish hs r) = r_recv_buf r.
Proof. unfold establish. destruct (hs_split hs). simpl. by case_match. Qed.

Lemma BufKept_flush_pending u id : BufKept (flush_pending_messages u id).
Proof. unfold flush_pending_messages. solve_buf. Qed.
Hint Resolve BufKept_flush_pending : buf_kept.

Lemma BufKept_finalize id : BufKept (finalize_handshake id).
Proof.
  unfold finalize_handshake, erase_queue, erase_uri. solve_buf; apply BufKept_upd, establish_buf.
Qed.
Hint Resolve BufKept_finalize : buf_kept.

Lemma BufKept_dispatch_body d id hdr p ts :
  (forall i h b t, BufKept (d i h b t)) -> BufKept (dispatch_body d id hdr p ts).
Proof.
  intros Hd. unfold dispatch_body, handle_noise_init, handle_noise_resp, handle_noise_fin,
    handshake_as, noise_read, build_handshake_payload, deliver_plain, handle_relay, session_decrypt.
  solve_buf.
Qed.

Lemma BufKept_dispatch fuel id hdr p ts : BufKept (cm_dispatch fuel id hdr p ts).
Proof.
  revert id hdr p ts. induction fuel as [|fuel IH]; intros; simpl; unfold add_in_flight;
    solve_buf; apply BufKept_dispatch_body; solve_buf.
Qed.

(** C10: reception.  Bytes that arrive for a connection, within the 16 MB limit and with
    no malformed header, are handled by dispatching exactly the complete frames of the
    buffered bytes followed by the new ones, in order and each once, until one of them
    removes the connection; what is left of the last frame is what stays buffered. *)
Theorem handle_data_dispatches fuel id peer raw c r fs rest :
  c_shutting_down c = false -> default id (c_transport_index c !! id) = peer ->
  c_records c !! peer = Some r -> blen (r_recv_buf r ++ raw) <= MAX_RECV_BUF ->
  frames_of (r_recv_buf r ++ raw) = (fs, rest, None) ->
  exists b, snd (handle_data fuel id raw c) =
    set_buf peer rest (run_frames (cm_dispatch fuel) peer (c_now_ns c) fs (set_buf peer b c)).
Proof.
  intros. eapply handle_data_spec; try done. intros hdr p ts c' r1 r2 Hx Hy.
  destruct (BufKept_dispatch fuel peer hdr p ts c' _ _ Hy) as (r0 & Hr0 & E). congruence.
Qed.
End dispatcher.

#[local] Existing Instances ToyCrypto.ops ToyCrypto.laws.

Lemma handle_data_dispatches_witness :
  exists b, snd (handle_data 2 1 (frame_bytes (mk_hdr 0 100 [x41] 9) [x41] ++ [x54]) alice) =
    set_buf 1 [x54] (run_frames (cm_dispatch 2) 1 1000 [(mk_hdr 0 100 [x41] 9, [x41])]
      (set_buf 1 b alice)).
Proof.
  destruct (c_records alice !! 1) as [r|] eqn:Hr; [|vm_compute in Hr; discriminate].
  assert (r_recv_buf r = []) as Hb.
  { assert (r_recv_buf <$> c_records alice !! 1 = Some []) as H by (vm_compute; reflexivity).
    rewrite Hr in H. by injection H. }
  apply (handle_data_dispatches 2 1 1 _ alice r); rewrite ?Hb;
    [vm_compute; reflexivity|vm_compute; reflexivity|exact Hr|vm_compute; congruence|
     vm_compute; reflexivity].
Defined.
