(* ===== verification/TcpStream.v ===== *)
(** * Streams of the TCP connector

    The two-phase reader of [tcp.cpp] hands the core exactly the frames of the stream, one
    per call, however the stream is cut ([tcp_framing]); together with the write pipeline
    this makes the connector a transport of whole frames ([tcp_end_to_end]).  A frame sent
    while a connection is being registered can be lost ([tcp_early_send_lost]). *)

From Stdlib Require Import ZArith Strings.Byte String Lia.
From stdpp Require Import base gmap list strings numbers.
From S2P Require Import Prelude Codec Wire Queue CmReassembly Tcp.

Local Open Scope Z_scope.

(** ** The reader on a stream *)

Definition results (r : read_result) : list read_result := match r with RdNone => [] | _ => [r] end.

Fixpoint read_stream (data : bytes) (st : read_state) : read_state * list read_result :=
  match data with
  | [] => (st, [])
  | b :: data =>
      let '(st1, r) := read_byte b st in
      let '(st2, rs) := read_stream data st1 in
      (st2, results r ++ rs)
  end.

Lemma read_stream_app a b st :
  read_stream (a ++ b) st =
  let '(st1, r1) := read_stream a st in let '(st2, r2) := read_stream b st1 in (st2, r1 ++ r2).
Proof.
  revert st. induction a as [|x a IH]; intros st; simpl; [by destruct (read_stream b st)|].
  destruct (read_byte x st) as [st1 r]. rewrite IH. destruct (read_stream a st1) as [st2 r1].
  destruct (read_stream b st2) as [st3 r2]. by rewrite app_assoc.
Qed.

Lemma read_header_more data buf :
  (length (buf ++ data) < HDR_SIZE)%nat -> read_stream data (RHeader buf) = (RHeader (buf ++ data), []).
Proof.
  revert buf. induction data as [|b data IH]; intros buf Hl; simpl; [by rewrite app_nil_r|].
  rewrite cons_middle, app_assoc in Hl. rewrite (cons_middle b buf data), app_assoc.
  rewrite bool_decide_false by (rewrite !length_app in *; simpl in *; lia).
  rewrite (IH (buf ++ [b])) by done. done.
Qed.

Lemma read_body_more data buf total :
  (length (buf ++ data) < total)%nat -> read_stream data (RBody buf total) = (RBody (buf ++ data) total, []).
Proof.
  revert buf. induction data as [|b data IH]; intros buf Hl; simpl; [by rewrite app_nil_r|].
  rewrite cons_middle, app_assoc in Hl. rewrite (cons_middle b buf data), app_assoc.
  rewrite bool_decide_false by (rewrite !length_app in *; simpl in *; lia).
  rewrite (IH (buf ++ [b])) by done. done.
Qed.

(** A read whose last byte arrives. *)
Lemma read_header_full hd :
  length hd = HDR_SIZE ->
  read_stream hd read_init = ((on_header hd).1, results (on_header hd).2).
Proof.
  intros Hl. destruct (exists_last (l:=hd)) as (d & b & ->); [by intros ->|].
  rewrite length_app in Hl. simpl in Hl.
  rewrite read_stream_app. unfold read_init. rewrite read_header_more by (simpl; lia). simpl.
  rewrite bool_decide_true by (rewrite length_app; simpl; lia).
  destruct (on_header (d ++ [b])). by rewrite app_nil_r.
Qed.

Lemma read_body_full p buf total :
  p <> [] -> length (buf ++ p) = total -> read_stream p (RBody buf total) = (read_init, [RdFrame (buf ++ p)]).
Proof.
  intros Hp Hl. destruct (exists_last Hp) as (d & b & ->). rewrite app_assoc, length_app in Hl. simpl in Hl.
  rewrite read_stream_app, read_body_more by lia. simpl.
  by rewrite bool_decide_true, <-app_assoc by (rewrite length_app; simpl; lia).
Qed.

Lemma read_stopped data : read_stream data RStopped = (RStopped, []).
Proof. induction data as [|b data IH]; simpl; [done|]. by rewrite IH. Qed.

(** ** Frames *)

(** A frame the reader accepts. *)
Definition tcp_frame (f : header_t * bytes) : Prop := wire_frame f /\ blen f.2 <= MAX_PAYLOAD.

Abbreviation raw_frame f := (frame_bytes f.1 f.2).

Lemma raw_frame_split f :
  tcp_frame f -> exists hd, raw_frame f = hd ++ f.2 /\ length hd = HDR_SIZE /\ view_header hd = f.1.
Proof.
  intros [(Hwf & _) _]. exists (cenc header_t_codec f.1). split_and!; [done|by apply cenc_length|].
  rewrite <-(app_nil_r (cenc _ _)). by apply cdec_enc.
Qed.

Lemma on_header_frame f hd :
  tcp_frame f -> view_header hd = f.1 ->
  on_header hd = if bool_decide (f.2 = []) then (read_init, RdFrame hd)
                 else (RBody hd (HDR_SIZE + length f.2), RdNone).
Proof.
  intros [(Hwf & Hm & Hv & Hl) Hmax] Hh. unfold on_header. rewrite Hh, Hm, Hv, Hl, !Z.eqb_refl. cbn [negb].
  unfold blen in *. case_bool_decide as Hp; [by rewrite Hp|].
  rewrite (proj2 (Z.eqb_neq _ _)) by (destruct (f.2); simpl; done || lia).
  rewrite (proj2 (Z.ltb_ge _ _)) by lia. by rewrite Nat2Z.id.
Qed.

Lemma read_frame f : tcp_frame f -> read_stream (raw_frame f) read_init = (read_init, [RdFrame (raw_frame f)]).
Proof.
  intros Hf. destruct (raw_frame_split f Hf) as (hd & -> & Hl & Hh).
  rewrite read_stream_app, read_header_full, (on_header_frame f) by done.
  case_bool_decide as Hp; cbn [fst snd results]; [by rewrite Hp, app_nil_r|].
  rewrite (read_body_full f.2 hd (HDR_SIZE + length f.2)); [done|done|by rewrite length_app, Hl].
Qed.

Lemma read_frames fs :
  Forall tcp_frame fs ->
  read_stream (concat (map (fun f => raw_frame f) fs)) read_init = (read_init, map (fun f => RdFrame (raw_frame f)) fs).
Proof.
  induction 1 as [|f fs Hf Hfs IH]; [done|]. cbn [map concat].
  by rewrite read_stream_app, read_frame, IH.
Qed.

(** The beginning of a frame, possibly nothing. *)
Definition partial (rest : bytes) : Prop := exists f more, tcp_frame f /\ rest ++ more = raw_frame f /\ more <> [].

(** The reader holds these bytes. *)
Definition holds (rest : bytes) (st : read_state) : Prop :=
  st = RHeader rest \/ exists total, st = RBody rest total /\ (length rest < total)%nat.

Lemma read_partial rest :
  partial rest -> exists st, read_stream rest read_init = (st, []) /\ holds rest st.
Proof.
  intros (f & more & Hf & He & Hmore). destruct (raw_frame_split f Hf) as (hd & Hr & Hl & Hh). rewrite Hr in He.
  assert (length more <> 0%nat) as Hm by (by destruct more).
  pose proof (f_equal (@length _) He) as Hlen. rewrite !length_app in Hlen.
  destruct (decide (length rest < HDR_SIZE)%nat) as [Hlt|Hge].
  { exists (RHeader rest). split; [by apply (read_header_more rest [])|by left]. }
  assert (rest = hd ++ take (length rest - HDR_SIZE) f.2) as Hrest.
  { apply (f_equal (take (length rest))) in He. rewrite take_app_length, take_app, Hl in He.
    rewrite He at 1. f_equal. apply take_ge. lia. }
  set (p1 := take (length rest - HDR_SIZE) f.2) in *.
  assert (f.2 <> []) as Hp by (intros Hp; rewrite Hp in Hlen; simpl in Hlen; lia).
  exists (RBody rest (HDR_SIZE + length f.2)). split.
  - rewrite Hrest at 1. rewrite read_stream_app, read_header_full, (on_header_frame f), bool_decide_false by done.
    cbn [fst snd results]. rewrite read_body_more by (rewrite <-Hrest; lia). by rewrite <-Hrest.
  - right. eexists. split; [done|]. lia.
Qed.

(** A header the reader refuses. *)
Definition refused (hd : bytes) : Prop :=
  length hd = HDR_SIZE /\
  (hdr_magic (view_header hd) <> GNET_MAGIC \/ hdr_proto_ver (view_header hd) <> GNET_PROTO_VER \/
   MAX_PAYLOAD < hdr_payload_len (view_header hd)).

Lemma read_refused hd rest :
  refused hd -> read_stream (hd ++ rest) read_init = (RStopped, [RdProtocolError]).
Proof.
  intros [Hl Hbad]. rewrite read_stream_app, read_header_full by done.
  assert (on_header hd = (RStopped, RdProtocolError)) as ->.
  { unfold on_header. destruct (Z.eqb_spec (hdr_magic (view_header hd)) GNET_MAGIC) as [Hm|]; [|done].
    destruct (Z.eqb_spec (hdr_proto_ver (view_header hd)) GNET_PROTO_VER) as [Hv|]; [|done]. cbn [negb].
    assert (MAX_PAYLOAD < hdr_payload_len (view_header hd)) as Hmax by tauto.
    rewrite (proj2 (Z.eqb_neq _ _)) by (unfold MAX_PAYLOAD in Hmax; lia).
    by rewrite (proj2 (Z.ltb_lt _ _)). }
  cbn [fst snd results]. by rewrite read_stopped.
Qed.

(** ** The reader of a connection *)

Definition out_of (id : Z) (r : read_result) : tcp_out :=
  match r with RdFrame f => NotifyData id f | _ => NotifyDisconnect id 1 end.

Lemma recv_byte_step k c conn b st r :
  tc_heap c !! k = Some conn -> read_byte b (t_read conn) = (st, r) ->
  let c' := recv_byte k c b in
  tc_heap c' !! k = Some (set_t_read st conn) /\ tc_out c' = tc_out c ++ map (out_of (t_id conn)) (results r) /\
  tc_stopped c' = tc_stopped c /\
  (tc_connections c !! t_id conn = None \/ r = RdProtocolError -> tc_connections c' !! t_id conn = None).
Proof.
  intros Hk Hr. unfold recv_byte. rewrite Hk, Hr.
  assert (alter (set_t_read st) k (tc_heap c) !! k = Some (set_t_read st conn)) as Ha
    by by rewrite list_lookup_alter_eq, Hk.
  destruct r; simpl; rewrite ?app_nil_r, ?lookup_delete_eq; split_and!; try done; by intros [?|?].
Qed.

Lemma recv_stream k c conn data st rs :
  tc_heap c !! k = Some conn -> read_stream data (t_read conn) = (st, rs) ->
  let c' := fold_left (recv_byte k) data c in
  tc_heap c' !! k = Some (set_t_read st conn) /\ tc_out c' = tc_out c ++ map (out_of (t_id conn)) rs /\
  tc_stopped c' = tc_stopped c /\
  (tc_connections c !! t_id conn = None \/ RdProtocolError ∈ rs -> tc_connections c' !! t_id conn = None).
Proof.
  revert c conn st rs. induction data as [|b data IH]; intros c conn st rs Hk; simpl.
  - intros [= <- <-]. rewrite app_nil_r. split_and!; try done; [rewrite Hk; by destruct conn|].
    intros [?|?%elem_of_nil]; done.
  - destruct (read_byte b (t_read conn)) as [st1 r] eqn:Hb.
    destruct (read_stream data st1) as [st2 rs2] eqn:Hd. intros [= <- <-].
    destruct (recv_byte_step k c conn b st1 r Hk Hb) as (Hk1 & Ho1 & Hs1 & Ht1).
    destruct (IH (recv_byte k c b) (set_t_read st1 conn) st2 rs2 Hk1 Hd) as (Hk2 & Ho2 & Hs2 & Ht2).
    split_and!; [done|by rewrite Ho2, Ho1, map_app, app_assoc|congruence|].
    intros Hor. apply Ht2. rewrite elem_of_app in Hor. destruct Hor as [Hn|[Hr|Hr]]; [left; auto|left|by right].
    apply Ht1. right. destruct r; simpl in Hr; [by apply elem_of_nil in Hr|..];
      apply list_elem_of_singleton in Hr; done.
Qed.

Lemma run_recv k pieces c :
  tc_stopped c = false ->
  run_tcp (map (TRecv k) pieces) c = fold_left (recv_byte k) (concat pieces) c.
Proof.
  revert c. induction pieces as [|d pieces IH]; intros c Hs; [done|].
  unfold run_tcp in *. cbn [map fold_left concat run_tcp_op]. rewrite Hs, fold_left_app. apply IH.
  clear IH. revert c Hs. induction d as [|b d IHd]; intros c Hs; [done|]. apply IHd. unfold recv_byte.
  destruct (tc_heap c !! k) as [conn|]; [|done]. destruct (read_byte b _) as [st []]; done.
Qed.

(** C19: The connector cuts the stream of a connection exactly at the frames: whatever the
    pieces in which the bytes arrive, the core is handed each complete frame in one call, in
    order, and the bytes of an incomplete last frame are kept; when a header is refused, the
    frames before it have been handed over, the core is told that the connection is closed,
    and nothing that follows is read. *)
Theorem tcp_framing k c conn fs pieces :
  tc_stopped c = false -> tc_heap c !! k = Some conn -> t_read conn = read_init -> Forall tcp_frame fs ->
  let c' := run_tcp (map (TRecv k) pieces) c in
  (forall rest, partial rest -> concat pieces = concat (map (fun f => raw_frame f) fs) ++ rest ->
     tc_out c' = tc_out c ++ map (fun f => NotifyData (t_id conn) (raw_frame f)) fs /\
     exists st, tc_heap c' !! k = Some (set_t_read st conn) /\ holds rest st) /\
  (forall bad rest, refused bad -> concat pieces = concat (map (fun f => raw_frame f) fs) ++ bad ++ rest ->
     tc_out c' = tc_out c ++ map (fun f => NotifyData (t_id conn) (raw_frame f)) fs ++ [NotifyDisconnect (t_id conn) 1] /\
     tc_heap c' !! k = Some (set_t_read RStopped conn) /\ tc_connections c' !! t_id conn = None).
Proof.
  intros Hs Hk Hr Hfs c'. unfold c'. rewrite run_recv by done. split.
  - intros rest (st & Hst & Hh)%read_partial ->.
    destruct (recv_stream k c conn (concat (map (fun f => raw_frame f) fs) ++ rest) st
      (map (fun f => RdFrame (raw_frame f)) fs)) as (Hk' & Ho & _); [done| |].
    { by rewrite Hr, read_stream_app, read_frames, Hst, app_nil_r. }
    split; [by rewrite Ho, map_map|eauto].
  - intros bad rest Hbad ->.
    destruct (recv_stream k c conn (concat (map (fun f => raw_frame f) fs) ++ bad ++ rest) RStopped
      (map (fun f => RdFrame (raw_frame f)) fs ++ [RdProtocolError])) as (Hk' & Ho & _ & Ht); [done| |].
    { by rewrite Hr, read_stream_app, read_frames, read_refused. }
    split_and!; [by rewrite Ho, map_app, map_map|done|].
    apply Ht. right. apply elem_of_app. right. by left.
Qed.

(** Frames queued on one connector reach the core of the other unchanged.  When all writes
    of the sending connection are done and none has failed, and the receiver reads what the
    socket sent, in whatever pieces, the core is handed exactly the frames that were queued,
    in order, and its reassembly gets their headers and payloads with nothing left over. *)
Theorem tcp_end_to_end ops ks sender fs k c conn pieces :
  tc_heap (run_tcp ops tcpc_init) !! ks = Some sender ->
  t_failed sender = false -> t_writing sender = false -> t_log sender = map (fun f => raw_frame f) fs ->
  Forall tcp_frame fs ->
  tc_stopped c = false -> tc_heap c !! k = Some conn -> t_read conn = read_init ->
  concat pieces = t_wire sender ->
  tc_out (run_tcp (map (TRecv k) pieces) c) = tc_out c ++ map (NotifyData (t_id conn)) (t_log sender) /\
  frames_of (concat (t_log sender)) = (fs, [], None).
Proof.
  intros Hks Hf Hw Hlog Hfs Hs Hk Hr Hp.
  destruct (run_tcp_keeps ops _ tcp_inv_init) as [Hwi _ _].
  pose proof (Forall_lookup_1 _ _ _ _ Hwi Hks) as Hinv. rewrite (quiet_wire sender Hinv Hf Hw), Hlog in Hp.
  rewrite Hlog. split.
  - rewrite run_recv, Hp by done.
    destruct (recv_stream k c conn (concat (map (fun f => raw_frame f) fs)) read_init
      (map (fun f => RdFrame (raw_frame f)) fs)) as (_ & Ho & _); [done|by rewrite Hr, read_frames|].
    by rewrite Ho, !map_map.
  - rewrite <-(app_nil_r (concat _)). apply frames_of_wire; [|done].
    eapply Forall_impl; [|exact Hfs]. by intros f [].
Qed.

(** A frame the core sends on a connection it has just been told of can be lost: the core
    learns the id before the connection is in the table, so when another thread runs the
    sending task first, the task finds no connection, and the send has reported success. *)
Theorem tcp_early_send_lost c peer outbound id data :
  tc_stopped c = false -> tc_tasks c = [] -> tc_connections c !! id = None -> id <> CONN_ID_INVALID ->
  let c1 := run_tcp [TRegister peer outbound id] c in
  let c2 := run_tcp [TDoSend id data; TRun 0; TInsert (length (tc_heap c))] c1 in
  (tcp_do_send id data c1).1 = 0 /\ tc_tasks c2 = [] /\
  tc_connections c2 !! id = Some (length (tc_heap c)) /\
  exists conn, tc_heap c2 !! length (tc_heap c) = Some conn /\ t_log conn = [] /\ t_write_queue conn = [].
Proof.
  intros Hs Ht Hid Hne c1 c2.
  assert (c1 = mk_tcpc (tc_connections c) (tc_heap c ++ [tcp_init id]) []
                 (tc_out c ++ [NotifyConnect (endpoint_of peer outbound)]) false) as Hc1.
  { unfold c1, run_tcp. simpl. rewrite Hs. unfold register_socket. rewrite (proj2 (Z.eqb_neq _ _) Hne). simpl.
    by rewrite Ht, Hs. }
  assert (c2 = register_insert (length (tc_heap c)) c1) as ->.
  { unfold c2, run_tcp. rewrite Hc1. simpl. by rewrite Hid. }
  split; [done|]. unfold register_insert. rewrite Hc1. cbn [tc_heap].
  rewrite list_lookup_middle by done. cbn [t_read tcp_init t_id]. simpl. split_and!; [done|by rewrite lookup_insert_eq|].
  exists (set_t_read read_init (tcp_init id)). split_and!; [|done..].
  by rewrite list_lookup_alter_eq, list_lookup_middle.
Qed.

(** ** Concrete connectors *)

Definition toy_frame (t : Z) (p : bytes) : header_t * bytes :=
  (mk_header_t GNET_MAGIC GNET_PROTO_VER 0 t (blen p) 0, p).

Definition toy_frames : list (header_t * bytes) := [toy_frame 100 [x41; x42]; toy_frame 101 []].

Definition toy_peer : peer_addr := mk_peer "10.0.0.1" 4000 false.

(** A connector with one registered connection; one that has sent two frames in two batches. *)
Definition toy_tcpc : TcpConnector := run_tcp [TRegister (Some toy_peer) false 7; TInsert 0] tcpc_init.

Definition toy_send_ops : list tcp_op :=
  [TRegister (Some toy_peer) true 5; TInsert 0] ++
  [TDoSend 5 (raw_frame (toy_frame 100 [x41; x42])); TRun 0; TStartWrite 0;
   TDoSend 5 (raw_frame (toy_frame 101 [])); TRun 0; TWritten 0 WrDone; TStartWrite 0; TWritten 0 WrDone].

Lemma toy_frames_ok : Forall tcp_frame toy_frames.
Proof.
  repeat apply Forall_cons_2; [..|apply Forall_nil_2]; (split; [split_and!; try reflexivity|vm_compute; discriminate]);
    repeat split; vm_compute; done.
Qed.

Definition toy_sender : TcpConnection :=
  default (tcp_init 0) (tc_heap (run_tcp toy_send_ops tcpc_init) !! 0%nat).

Lemma tcp_write_pipeline_witness :
  tc_heap (run_tcp toy_send_ops tcpc_init) !! 0%nat = Some toy_sender /\
  t_wire toy_sender = concat (t_log toy_sender) /\ length (t_log toy_sender) = 2%nat.
Proof.
  assert (tc_heap (run_tcp toy_send_ops tcpc_init) !! 0%nat = Some toy_sender) as Hk by (vm_compute; reflexivity).
  split; [exact Hk|]. destruct (tcp_write_pipeline toy_send_ops 0 toy_sender Hk) as (_ & _ & _ & _ & Hw).
  split; [apply Hw; vm_compute; reflexivity|vm_compute; reflexivity].
Defined.

Definition toy_pieces : list bytes :=
  [concat (map (fun f => raw_frame f) toy_frames); take 1 (raw_frame (toy_frame 9 []))].

Lemma tcp_framing_witness :
  tc_out (run_tcp (map (TRecv 0) toy_pieces) toy_tcpc) =
    tc_out toy_tcpc ++ map (fun f => NotifyData 7 (raw_frame f)) toy_frames.
Proof.
  assert (partial (take 1 (raw_frame (toy_frame 9 [])))) as Hp.
  { exists (toy_frame 9 []), (drop 1 (raw_frame (toy_frame 9 []))). split_and!.
    - split; [split_and!; try reflexivity; repeat split; vm_compute; done|vm_compute; discriminate].
    - apply take_drop.
    - vm_compute. discriminate. }
  assert (concat toy_pieces =
    concat (map (fun f => raw_frame f) toy_frames) ++ take 1 (raw_frame (toy_frame 9 []))) as Hc
    by (vm_compute; reflexivity).
  destruct (tcp_framing 0 toy_tcpc (set_t_read read_init (tcp_init 7)) toy_frames toy_pieces) as [Hf _].
  - vm_compute. reflexivity.
  - vm_compute. reflexivity.
  - reflexivity.
  - exact toy_frames_ok.
  - destruct (Hf _ Hp Hc) as [Ho _]. exact Ho.
Defined.

Lemma tcp_end_to_end_witness :
  tc_out (run_tcp (map (TRecv 0) [take 30 (t_wire toy_sender); drop 30 (t_wire toy_sender)]) toy_tcpc) =
    tc_out toy_tcpc ++ map (NotifyData 7) (t_log toy_sender) /\
  frames_of (concat (t_log toy_sender)) = (toy_frames, [], None).
Proof.
  apply (tcp_end_to_end toy_send_ops 0 toy_sender toy_frames 0 toy_tcpc (set_t_read read_init (tcp_init 7))).
  - vm_compute. reflexivity.
  - vm_compute. reflexivity.
  - vm_compute. reflexivity.
  - vm_compute. reflexivity.
  - exact toy_frames_ok.
  - vm_compute. reflexivity.
  - vm_compute. reflexivity.
  - reflexivity.
  - cbn [concat]. rewrite app_nil_r. apply take_drop.
Defined.

Lemma tcp_early_send_lost_witness :
  exists conn, tc_heap (run_tcp [TDoSend 7 [x01]; TRun 0; TInsert 0]
                          (run_tcp [TRegister (Some toy_peer) true 7] tcpc_init)) !! 0%nat = Some conn /\
    t_log conn = [].
Proof.
  destruct (tcp_early_send_lost tcpc_init (Some toy_peer) true 7 [x01]) as (_ & _ & _ & conn & Hk & Hl & _).
  - reflexivity.
  - reflexivity.
  - reflexivity.
  - vm_compute. discriminate.
  - exists conn. split; [exact Hk|exact Hl].
Defined.

(** Two sends from one thread may be queued in either order, since any thread may run
    either task first. *)
Lemma tcp_sends_reordered :
  let c := run_tcp [TDoSend 7 [x01]; TDoSend 7 [x02]] toy_tcpc in
  t_log <$> tc_heap (run_tcp [TRun 0; TRun 0] c) !! 0%nat = Some [[x01]; [x02]] /\
  t_log <$> tc_heap (run_tcp [TRun 1; TRun 0] c) !! 0%nat = Some [[x02]; [x01]].
Proof. split; vm_compute; reflexivity. Qed.

(** A closed connection is reported twice, by the closing task and by its aborted read. *)
Lemma tcp_close_reported_twice :
  tc_out (run_tcp [TDoClose 7 false; TRun 0; TReadFailed 0 None] toy_tcpc) =
  tc_out toy_tcpc ++ [NotifyDisconnect 7 0; NotifyDisconnect 7 0].
Proof. vm_compute. reflexivity. Qed.
