(* ===== verification/TcpListen.v ===== *)
(** * TCP connector: listening, accepting and connecting ([plugins/connectors/tcp/tcp.cpp])

    The part of the connector that makes sockets: the acceptor that [do_listen] replaces, the
    loop of [accept_next], and the lookup and connection that [do_connect] posts.  An acceptor
    is a shared object whose pending [async_accept]s outlive it, so acceptors live in a list
    and the member [acceptor_] is an index.  What the operating system answers is an input:
    a closed acceptor ends its accepts as aborted, one that is open without listening ends
    them with an error, a listening one accepts or fails. *)

From Stdlib Require Import ZArith Strings.Byte String Lia.
From stdpp Require Import base gmap list strings numbers.
From S2P Require Import Prelude Codec Wire Tcp.

Local Open Scope Z_scope.

Inductive acc_state := AcClosed | AcOpen | AcListening.

#[export] Instance acc_state_eq_dec : EqDecision acc_state.
Proof. solve_decision. Defined.

Record acceptor := mk_acceptor { ac_state : acc_state; ac_pending : nat }.

(** A connection being made. *)
Inductive dial := DResolving (host port : bytes) | DConnecting (host port : bytes).

Record TcpServer := mk_server {
  ts_tcp : TcpConnector;
  ts_acceptors : list acceptor;
  ts_acceptor : option nat;
  ts_dials : list dial;
}.

Definition server_start : TcpServer := mk_server tcpc_init [] None [].

Definition set_tcp (c : TcpConnector) (s : TcpServer) : TcpServer :=
  mk_server c (ts_acceptors s) (ts_acceptor s) (ts_dials s).

Definition at_acceptor (i : nat) (f : acceptor -> acceptor) (s : TcpServer) : TcpServer :=
  mk_server (ts_tcp s) (alter f i (ts_acceptors s)) (ts_acceptor s) (ts_dials s).

Definition with_state (st : acc_state) (a : acceptor) : acceptor := mk_acceptor st (ac_pending a).
Definition add_pending (a : acceptor) : acceptor := mk_acceptor (ac_state a) (S (ac_pending a)).
Definition drop_pending (a : acceptor) : acceptor := mk_acceptor (ac_state a) (pred (ac_pending a)).

Definition acceptor_is_open (s : TcpServer) (i : nat) : bool :=
  match ts_acceptors s !! i with Some a => bool_decide (ac_state a <> AcClosed) | None => false end.

Definition tcp_accept_next (s : TcpServer) : TcpServer :=
  match ts_acceptor s with
  | Some i => if acceptor_is_open s i then at_acceptor i add_pending s else s
  | None => s
  end.

(** How far the calls of [do_listen] get: a bad address, a failed [open], a failed option,
    [bind] or [listen], or all of them. *)
Inductive listen_result := LBadAddress | LOpenFailed | LBindFailed | LListening.

(** [acceptor_ = make_unique(...)] destroys the previous acceptor. *)
Definition replace_acceptor (st : acc_state) (s : TcpServer) : TcpServer :=
  let olds := match ts_acceptor s with
              | Some i => alter (with_state AcClosed) i (ts_acceptors s)
              | None => ts_acceptors s
              end in
  mk_server (ts_tcp s) (olds ++ [mk_acceptor st 0]) (Some (length olds)) (ts_dials s).

(** [do_listen] waits for its posted task; [None]: the threads are gone and it waits forever. *)
Definition do_listen (r : listen_result) (s : TcpServer) : option (Z * TcpServer) :=
  if tc_stopped (ts_tcp s) then None
  else
    Some match r with
         | LBadAddress => (-1, s)
         | LOpenFailed => (-1, replace_acceptor AcClosed s)
         | LBindFailed => (-1, replace_acceptor AcOpen s)
         | LListening => (0, tcp_accept_next (replace_acceptor AcListening s))
         end.

(** The completion handler of an accept of acceptor [i]. *)
Inductive accept_result := AccSocket (peer : option peer_addr) (id : Z) | AccAborted | AccError.

Definition accept_possible (r : accept_result) (st : acc_state) : bool :=
  match st, r with
  | AcClosed, AccAborted | AcOpen, AccError | AcListening, (AccSocket _ _ | AccError) => true
  | _, _ => false
  end.

Definition on_accept (i : nat) (r : accept_result) (s : TcpServer) : option TcpServer :=
  match ts_acceptors s !! i with
  | Some a =>
      if negb (tc_stopped (ts_tcp s)) && bool_decide (0 < ac_pending a)%nat && accept_possible r (ac_state a) then
        let s := at_acceptor i drop_pending s in
        let s := match r with AccSocket peer id => set_tcp (register_socket peer false id (ts_tcp s)) s | _ => s end in
        Some (tcp_accept_next s)
      else None
  | None => None
  end.

(** The handlers of [async_resolve] and [async_connect]. *)
Definition on_dial (i : nat) (ok : bool) (peer : option peer_addr) (id : Z) (s : TcpServer) : option TcpServer :=
  if tc_stopped (ts_tcp s) then None
  else
    match ts_dials s !! i with
    | None => None
    | Some d =>
        let gone := mk_server (ts_tcp s) (ts_acceptors s) (ts_acceptor s) (delete i (ts_dials s)) in
        Some match d, ok with
             | _, false => gone
             | DResolving host port, true =>
                 mk_server (ts_tcp s) (ts_acceptors s) (ts_acceptor s) (<[i := DConnecting host port]> (ts_dials s))
             | DConnecting _ _, true => set_tcp (register_socket peer true id (ts_tcp s)) gone
             end
    end.

(** What a posted task does to the acceptor and the connections being made. *)
Definition task_effect (t : tcp_task) (s : TcpServer) : TcpServer :=
  match t with
  | TaskConnect host port =>
      mk_server (ts_tcp s) (ts_acceptors s) (ts_acceptor s) (ts_dials s ++ [DResolving host port])
  | TaskShutdown =>
      match ts_acceptor s with
      | Some i => if acceptor_is_open s i then at_acceptor i (with_state AcClosed) s else s
      | None => s
      end
  | _ => s
  end.

Inductive server_op :=
  | SoListen (r : listen_result)
  | SoAccept (i : nat) (r : accept_result)
  | SoDial (i : nat) (ok : bool) (peer : option peer_addr) (id : Z)
  | SoTcp (op : tcp_op).

Definition run_server_op (op : server_op) (s : TcpServer) : TcpServer :=
  match op with
  | SoListen r => match do_listen r s with Some (_, s) => s | None => s end
  | SoAccept i r => default s (on_accept i r s)
  | SoDial i ok peer id => default s (on_dial i ok peer id s)
  | SoTcp op =>
      let effect := match op with
                    | TRun i => if tc_stopped (ts_tcp s) then None else tc_tasks (ts_tcp s) !! i
                    | _ => None
                    end in
      let s := from_option (fun t => task_effect t s) s effect in
      set_tcp (run_tcp_op (ts_tcp s) op) s
  end.

Definition run_server_ops (ops : list server_op) (s : TcpServer) : TcpServer :=
  fold_left (fun s op => run_server_op op s) ops s.

(** ** The accept loop *)

Definition pending_total (s : TcpServer) : nat := sum_list_with ac_pending (ts_acceptors s).

Definition listened (s : TcpServer) (op : server_op) : bool :=
  match op with SoListen LListening => negb (tc_stopped (ts_tcp s)) | _ => false end.

(** Successful calls of [do_listen]. *)
Fixpoint listens (ops : list server_op) (s : TcpServer) : nat :=
  match ops with
  | [] => 0
  | op :: ops => (if listened s op then 1 else 0) + listens ops (run_server_op op s)
  end.

(** Programs that never fail to listen after a good address and are not shut down. *)
Definition steady (op : server_op) : bool :=
  match op with
  | SoListen LOpenFailed | SoListen LBindFailed | SoTcp TShutdown => false
  | _ => true
  end.

Record loop_inv (n : nat) (s : TcpServer) : Prop := {
  li_total : pending_total s = n;
  li_current : match ts_acceptor s with
               | Some i => exists a, ts_acceptors s !! i = Some a /\ ac_state a = AcListening
               | None => ts_acceptors s = []
               end;
  li_others : forall i a, ts_acceptors s !! i = Some a -> ts_acceptor s <> Some i -> ac_state a = AcClosed;
  li_tasks : TaskShutdown ∉ tc_tasks (ts_tcp s);
}.

Lemma sum_alter (f : acceptor -> acceptor) l i a d :
  l !! i = Some a -> (ac_pending (f a) + d = ac_pending a + 1)%nat ->
  (sum_list_with ac_pending (alter f i l) + d = sum_list_with ac_pending l + 1)%nat.
Proof.
  revert i. induction l as [|x l IH]; intros [|i] H Hf; cbn in *; try done.
  - injection H as ->. lia.
  - pose proof (IH i H Hf). lia.
Qed.

Lemma sum_alter_same (f : acceptor -> acceptor) l i :
  (forall a, ac_pending (f a) = ac_pending a) ->
  sum_list_with ac_pending (alter f i l) = sum_list_with ac_pending l.
Proof. intros Hf. revert i. induction l as [|x l IH]; intros [|i]; cbn; [done|done|by rewrite Hf|by rewrite IH]. Qed.

Lemma register_tasks peer ob id c : tc_tasks (register_socket peer ob id c) = tc_tasks c.
Proof. unfold register_socket. by destruct (id =? CONN_ID_INVALID). Qed.

Lemma upd_tasks k f c : tc_tasks (upd_conn k f c) = tc_tasks c.
Proof. done. Qed.

Lemma recv_tasks k data c : tc_tasks (fold_left (recv_byte k) data c) = tc_tasks c.
Proof.
  revert c. induction data as [|b data IH]; intros c; cbn; [done|]. rewrite IH. unfold recv_byte.
  destruct (tc_heap c !! k); [|done]. by destruct (read_byte _ _) as [? []].
Qed.

(** Only [on_shutdown] posts the task that closes the acceptor. *)
Lemma tcp_no_shutdown op c :
  op <> TShutdown -> TaskShutdown ∉ tc_tasks c -> TaskShutdown ∉ tc_tasks (run_tcp_op c op).
Proof.
  intros Hop Hc. assert (forall t, t <> TaskShutdown -> TaskShutdown ∉ tc_tasks c ++ [t]) as Hpost by set_solver.
  destruct op as [uri|id d|id iov|id hard|i|peer ob id|k|k|k r|k data|k err| |]; cbn [run_tcp_op]; try done.
  - unfold tcp_do_connect. destruct (tcp_target uri) as [[]|]; [|done]. by apply Hpost.
  - by apply Hpost.
  - by apply Hpost.
  - by apply Hpost.
  - destruct (tc_stopped c); [done|]. destruct (tc_tasks c !! i) as [t|] eqn:E; [|done].
    assert (TaskShutdown ∉ delete i (tc_tasks c)) as Hd.
    { by intros H%list_elem_of_delete_inv. }
    destruct t; cbn; try done. by case_match.
  - destruct (tc_stopped c); [done|]. by rewrite register_tasks.
  - destruct (tc_stopped c); [done|]. unfold register_insert. destruct (tc_heap c !! k) as [x|]; [|done].
    by destruct (t_read x).
  - by destruct (tc_stopped c).
  - by destruct (tc_stopped c).
  - destruct (tc_stopped c); [done|]. by rewrite recv_tasks.
  - destruct (tc_stopped c); [done|]. unfold read_failed. destruct (tc_heap c !! k) as [x|]; [|done].
    by destruct (t_read x).
Qed.

(** Accepting goes on at the current acceptor. *)
Lemma accept_next_inv n s : loop_inv n s -> ts_acceptor s <> None -> loop_inv (S n) (tcp_accept_next s).
Proof.
  intros [Ht Hc Ho Hs] Hcur. unfold tcp_accept_next, acceptor_is_open. destruct (ts_acceptor s) as [i|] eqn:Ei; [|done].
  destruct Hc as (a & Ha & Hst). rewrite Ha, bool_decide_true by by rewrite Hst. split; cbn.
  - pose proof (sum_alter add_pending (ts_acceptors s) i a 0 Ha) as Hsum. unfold pending_total in *. cbn in *. lia.
  - rewrite Ei. exists (add_pending a). by rewrite list_lookup_alter_eq, Ha.
  - rewrite Ei. intros k b Hk Hne. rewrite list_lookup_alter_ne in Hk by congruence. by apply (Ho k); rewrite ?Ei.
  - done.
Qed.

Lemma drop_pending_inv n s i a :
  loop_inv (S n) s -> ts_acceptors s !! i = Some a -> (0 < ac_pending a)%nat -> loop_inv n (at_acceptor i drop_pending s).
Proof.
  intros [Ht Hc Ho Hs] Ha Hp. split; cbn.
  - pose proof (sum_alter drop_pending (ts_acceptors s) i a 2 Ha) as Hsum. unfold pending_total in *. cbn in *. lia.
  - destruct (ts_acceptor s) as [j|]; [|by rewrite Hc, lookup_nil in Ha]. destruct Hc as (b & Hb & Hst).
    destruct (decide (i = j)) as [->|Hne].
    + exists (drop_pending b). by rewrite list_lookup_alter_eq, Hb.
    + exists b. by rewrite list_lookup_alter_ne.
  - intros k b Hk Hne. destruct (decide (i = k)) as [->|Hik].
    + rewrite list_lookup_alter_eq, Ha in Hk. injection Hk as <-. exact (Ho k a Ha Hne).
    + rewrite list_lookup_alter_ne in Hk by done. by apply (Ho k).
  - done.
Qed.

Lemma set_tcp_inv n c s : loop_inv n s -> TaskShutdown ∉ tc_tasks c -> loop_inv n (set_tcp c s).
Proof. by intros [Ht Hc Ho Hs] H. Qed.

Lemma listen_inv n s : loop_inv n s -> loop_inv n (replace_acceptor AcListening s).
Proof.
  intros [Ht Hc Ho Hs].
  set (olds := match ts_acceptor s with
              | Some i => alter (with_state AcClosed) i (ts_acceptors s)
              | None => ts_acceptors s
              end).
  assert (sum_list_with ac_pending olds = n) as Hsum.
  { unfold olds. destruct (ts_acceptor s); [rewrite sum_alter_same by done|]; exact Ht. }
  assert (forall i a, olds !! i = Some a -> ac_state a = AcClosed) as Hcl.
  { unfold olds. intros i a Hi. destruct (ts_acceptor s) as [j|] eqn:Ej; [|by rewrite Hc, lookup_nil in Hi].
    destruct (decide (i = j)) as [->|Hne].
    - rewrite list_lookup_alter_eq in Hi. destruct (ts_acceptors s !! j); [|done]. by injection Hi as <-.
    - rewrite list_lookup_alter_ne in Hi by done. apply (Ho i a Hi). congruence. }
  unfold replace_acceptor. fold olds. split; cbn.
  - unfold pending_total. cbn. rewrite sum_list_with_app. cbn. lia.
  - exists (mk_acceptor AcListening 0). by rewrite list_lookup_middle.
  - intros i a Hi Hne. apply lookup_app_Some in Hi as [Hi|[Hle Hi]]; [by apply (Hcl i)|].
    apply list_lookup_singleton_Some in Hi as [Hz _]. destruct Hne. f_equal. lia.
  - done.
Qed.

Lemma loop_step n op s :
  loop_inv n s -> steady op = true -> loop_inv (n + if listened s op then 1 else 0) (run_server_op op s).
Proof.
  intros Hi Hop. destruct op as [r|i r|i ok peer id|op]; cbn [run_server_op listened].
  - unfold do_listen. destruct (tc_stopped (ts_tcp s)) eqn:Est; [destruct r; cbn; by rewrite Nat.add_0_r|].
    destruct r; try done; cbn [negb]; [by rewrite Nat.add_0_r|]. rewrite Nat.add_1_r.
    apply accept_next_inv; [by apply listen_inv|done].
  - rewrite Nat.add_0_r. unfold on_accept. destruct (ts_acceptors s !! i) as [a|] eqn:Ha; [|done].
    destruct (negb (tc_stopped (ts_tcp s))); [|done]. case_bool_decide as Hp; [|done].
    destruct (accept_possible r (ac_state a)); [|done]. cbn [andb default from_option].
    assert (ts_acceptor s <> None) as Hcur.
    { intros Hn. pose proof (li_current _ _ Hi) as Hc. rewrite Hn in Hc. by rewrite Hc, lookup_nil in Ha. }
    assert (exists m, n = S m) as [m ->].
    { pose proof (sum_alter (fun a => mk_acceptor (ac_state a) (pred (ac_pending a))) (ts_acceptors s) i a 2 Ha) as H.
      pose proof (li_total _ _ Hi) as Ht. unfold pending_total in Ht. cbn in H. destruct n; [lia|eauto]. }
    unfold id. apply accept_next_inv; [|by destruct r].
    pose proof (drop_pending_inv m s i a Hi Ha Hp) as Hd. destruct r; [|done|done].
    apply set_tcp_inv; [done|]. rewrite register_tasks. apply Hd.
  - rewrite Nat.add_0_r. unfold on_dial. destruct (tc_stopped (ts_tcp s)); [done|].
    destruct (ts_dials s !! i) as [d|]; [|done]. destruct Hi as [H1 H2 H3 H4].
    destruct d, ok; cbn; split; try done; cbn; by rewrite register_tasks.
  - rewrite Nat.add_0_r. destruct Hi as [H1 H2 H3 H4].
    assert (op <> TShutdown) as Hne by (intros ->; done).
    cbv zeta. match goal with |- loop_inv _ (set_tcp _ ?x) => set (s1 := x); assert (ts_acceptors s1 = ts_acceptors s /\
      ts_acceptor s1 = ts_acceptor s /\ ts_tcp s1 = ts_tcp s) as (E1 & E2 & E3) end.
    { unfold s1. destruct op as [| | | |i| | | | | | | |]; try done. destruct (tc_stopped (ts_tcp s)); [done|].
      destruct (tc_tasks (ts_tcp s) !! i) as [[]|] eqn:E; try done. destruct H4. by eapply list_elem_of_lookup_2. }
    clearbody s1. split; cbn [set_tcp ts_acceptors ts_acceptor ts_tcp].
    + unfold pending_total. cbn. by rewrite E1.
    + by rewrite E1, E2.
    + by rewrite E1, E2.
    + rewrite E3. by apply tcp_no_shutdown.
Qed.

Lemma loop_run n ops s :
  loop_inv n s -> forallb steady ops = true -> loop_inv (n + listens ops s) (run_server_ops ops s).
Proof.
  revert n s. induction ops as [|op ops IH]; intros n s Hi Hops; cbn; [by rewrite Nat.add_0_r|].
  cbn in Hops. apply andb_prop in Hops as [H1 H2].
  rewrite Nat.add_assoc. apply IH; [by apply loop_step|done].
Qed.

(** The accept loop never dies.  Through any interleaving of calls of [do_listen] that succeed
    or give a bad address, accepted sockets, accept errors, aborted accepts of replaced
    acceptors, connections being made and everything else the connector does before it is shut
    down, as many accepts are pending as there were successful calls; after the first one the
    current acceptor listens, and no other does. *)
Theorem accept_loop ops :
  forallb steady ops = true ->
  let s := run_server_ops ops server_start in
  pending_total s = listens ops server_start /\
  ((0 < listens ops server_start)%nat ->
     exists i a, ts_acceptor s = Some i /\ ts_acceptors s !! i = Some a /\ ac_state a = AcListening) /\
  (forall i a, ts_acceptors s !! i = Some a -> ac_state a = AcListening -> ts_acceptor s = Some i).
Proof.
  intros Hops s. destruct (loop_run 0 ops server_start) as [Ht Hc Ho _]; [by split; try done; set_solver|done|].
  fold s in Ht, Hc, Ho. cbn in Ht. split_and!; [done| |].
  - intros Hn. destruct (ts_acceptor s) as [i|]; [destruct Hc as (a & Ha & Hst); by exists i, a|].
    unfold pending_total in Ht. rewrite Hc in Ht. cbn in Ht. lia.
  - intros i a Ha Hst. destruct (decide (ts_acceptor s = Some i)) as [|Hne]; [done|].
    pose proof (Ho i a Ha Hne). congruence.
Qed.

(** Listening twice: the accept of the first acceptor goes on at the second. *)
Definition toy_listen_ops : list server_op :=
  [SoListen LListening; SoAccept 0 (AccSocket None 7); SoListen LListening; SoAccept 0 AccAborted;
   SoAccept 1 AccError; SoAccept 1 (AccSocket None 8)].

Lemma accept_loop_witness :
  forallb steady toy_listen_ops = true /\
  pending_total (run_server_ops toy_listen_ops server_start) = 2%nat /\
  length (tc_heap (ts_tcp (run_server_ops toy_listen_ops server_start))) = 2%nat.
Proof.
  split; [reflexivity|]. split; [|reflexivity]. rewrite (proj1 (accept_loop toy_listen_ops eq_refl)). reflexivity.
Defined.

(** After a listen that worked, one that cannot bind: the listening socket is gone, and the
    accept that was pending on it moves to an acceptor that does not listen, where it fails
    and is started again without end. *)
Definition toy_failed_relisten : TcpServer :=
  run_server_ops [SoListen LListening; SoListen LBindFailed; SoAccept 0 AccAborted] server_start.

Lemma relisten_spins n :
  let s := run_server_ops (replicate n (SoAccept 1 AccError)) toy_failed_relisten in
  s = toy_failed_relisten /\ is_Some (on_accept 1 AccError s) /\
  Forall (fun a => ac_state a <> AcListening) (ts_acceptors s).
Proof.
  cbv zeta. assert (run_server_ops (replicate n (SoAccept 1 AccError)) toy_failed_relisten = toy_failed_relisten) as ->.
  { induction n as [|n IH]; [done|]. unfold run_server_ops in *. cbn [replicate fold_left]. exact IH. }
  split; [done|]. split; [by eexists|]. by repeat constructor.
Qed.

(** After the threads were stopped a listen waits forever. *)
Lemma listen_after_stop r s : tc_stopped (ts_tcp s) = true -> do_listen r s = None.
Proof. unfold do_listen. by intros ->. Qed.
