(* ===== verification/CmDelivery.v ===== *)
(** * From [send] to the handlers of the peer

    The frame one node builds for an established connection, received by the other,
    reaches exactly the handlers of its type with exactly the payload; what does not
    belong is refused; and the identity payload of the handshake is accepted exactly when
    its signature and its device key are right. *)

From Stdlib Require Import ZArith Strings.Byte String Lia.
From stdpp Require Import base gmap list strings numbers.
From S2P Require Import Prelude Codec Wire NonceWindow Queue Crypto Noise Session Signals.
From S2P Require Import CmState CmTransport CmClose CmHandshake CmDispatch CmLifecycle CmFrame CmInvariant CmScenario.
From S2P Require Import CmReassembly.

Local Open Scope Z_scope.

(** Message types that are not handled by the manager itself. *)
Definition app_type (t : Z) : Prop :=
  fits 16 t /\ is_handshake t = false /\ t <> MSG_TYPE_HEARTBEAT /\ t <> MSG_TYPE_RELAY.

(** What the handlers of the connection see as the remote endpoint. *)
Definition remote_view (id : Z) (r : ConnectionRecord) : endpoint_t :=
  let rem := r_remote r in
  mk_endpoint (ep_address rem) (ep_port rem) (ep_pubkey rem) id (ep_flags rem).

Lemma dispatch_packet_channels b b' t hdr ep d :
  channels b' = channels b -> wildcards b' = wildcards b ->
  dispatch_packet b' t hdr ep d = dispatch_packet b t hdr ep d.
Proof. intros H1 H2. unfold dispatch_packet. by rewrite H1, H2. Qed.

Lemma trace_for_each {A} (l : list A) (f : A -> event) c :
  snd (for_each l (fun a => emit_ev (f a)) c) = set_c_trace (c_trace c ++ map f l) c.
Proof.
  revert c. induction l as [|a l IH]; intros c; simpl.
  - rewrite app_nil_r. by destruct c.
  - unfold mbind, cm_bind. simpl. rewrite IH. simpl. by rewrite <-app_assoc.
Qed.

Section delivery.
Context `{CO : !CryptoOps} {CL : CryptoLaws CO}.

Lemma mk_hdr_wf flags t p pid :
  fits 8 flags -> fits 64 pid -> blen p < 2 ^ 32 -> header_wf (mk_hdr flags t p pid).
Proof.
  intros Hf Hp Hl. unfold header_wf, mk_hdr. simpl.
  split_and!; try done; try (by apply wrap_fits); try (unfold fits; vm_compute; by split).
Qed.

(** A sealed payload is at most 21 bytes longer than the plaintext. *)
Lemma encrypt_length p n en th lvl s : blen (encrypt p n en th lvl s) <= blen p + 21.
Proof.
  unfold encrypt. destruct (aead_encrypt_Some (send_key s) (nonce12 n) []
    (body_of p (try_compress p en th lvl))) as (c & -> & Hl).
  unfold blen. rewrite Hl. unfold body_of, try_compress.
  destruct (en && _); [|cbn [length]; lia].
  destruct (zstd_compress lvl p) as [z|]; [|cbn [length]; lia].
  case_bool_decide; cbn [length]; [|lia]. rewrite length_app, length_le_enc. lia.
Qed.

(** The events of a handler run. *)
Lemma run_handlers_trace id r hdr d ts c :
  c_trace (snd (run_handlers id r hdr d ts c)) =
    c_trace c ++ map (fun name => EvHandle name hdr (remote_view id r) d)
      (snd (dispatch_packet (c_bus c) (hdr_payload_type hdr) hdr (remote_view id r) d)).
Proof.
  unfold run_handlers. fold (remote_view id r). unfold mbind, cm_bind, gets at 1.
  destruct (dispatch_packet (c_bus c) _ _ _ _) as [res calls]. simpl.
  pose proof (trace_for_each calls (fun name => EvHandle name hdr (remote_view id r) d) c) as Ht.
  destruct (for_each _ _ c) as [[] c1]. simpl in Ht. subst c1. simpl.
  destruct (er_result res); simpl; try done. by destruct (String.eqb _ _).
Qed.

(** A single whole frame on an empty buffer is dispatched at once. *)
Lemma handle_data_one d id hdr p c r :
  wire_frame (hdr, p) -> c_shutting_down c = false -> c_transport_index c !! id = None ->
  c_records c !! id = Some r -> r_recv_buf r = [] ->
  handle_data_with d id (frame_bytes hdr p) c = d id hdr p (c_now_ns c) c.
Proof.
  intros (Hwf & Hm & Hv & Hl) Hs Ht Hr Hb. cbn [fst snd] in *.
  unfold handle_data_with, mbind, cm_bind, rcu_find, gets.
  rewrite Hs, Ht. cbn [default from_option]. rewrite Hr, view_frame, drop_frame by done.
  rewrite bool_decide_true by done.
  rewrite bool_decide_true by (rewrite length_frame_bytes by done; lia).
  assert (blen (frame_bytes hdr p) = Z.of_nat HDR_SIZE + hdr_payload_len hdr) as ->.
  { unfold blen. rewrite length_frame_bytes by done. rewrite Hl. unfold blen. lia. }
  by rewrite Hm, Hv, !Z.eqb_refl.
Qed.

(** A packet of an established remote peer that decrypts runs its handlers. *)
Lemma dispatch_session_trace fuel id hdr p plain ts c r s s' :
  app_type (hdr_payload_type hdr) -> Z.land (hdr_flags hdr) GNET_FLAG_TRUSTED = 0 ->
  c_records c !! id = Some r -> r_state r = STATE_ESTABLISHED -> r_session r = Some s ->
  r_is_localhost r = false -> r_localhost_passthrough r = false ->
  decrypt p (hdr_packet_id hdr) s = (plain, s') -> plain <> [] ->
  c_trace (snd (cm_dispatch fuel id hdr p ts c)) =
    c_trace c ++ map (fun name => EvHandle name hdr (remote_view id r) plain)
      (snd (dispatch_packet (c_bus c) (hdr_payload_type hdr) hdr (remote_view id r) plain)).
Proof.
  intros (_ & Hhs & Hhb & Hrl) Hfl Hr Hst Hs Hl Hp Hdec Hne.
  apply orb_false_iff in Hhs as [[H1 H2]%orb_false_iff H3].
  assert (forall d, c_trace (snd (dispatch_body d id hdr p ts (snd (add_in_flight 1 c)))) =
    c_trace c ++ map (fun name => EvHandle name hdr (remote_view id r) plain)
      (snd (dispatch_packet (c_bus c) (hdr_payload_type hdr) hdr (remote_view id r) plain))) as H.
  { intros d. unfold dispatch_body. rewrite H1, H2, H3.
    unfold mbind, cm_bind, rcu_find, gets. simpl. rewrite Hr.
    rewrite bool_decide_false by (rewrite Hst; auto). rewrite Hp, Hfl. simpl. rewrite Hs, Hl.
    unfold session_decrypt. rewrite Hdec. unfold mbind, cm_bind. simpl.
    destruct plain as [|b plain]; [done|]. unfold deliver_plain, mbind, cm_bind. simpl.
    destruct (Z.eqb_spec (hdr_payload_type hdr) MSG_TYPE_HEARTBEAT); [done|].
    destruct (Z.eqb_spec (hdr_payload_type hdr) MSG_TYPE_RELAY); [done|].
    rewrite run_handlers_trace. simpl. by rewrite (dispatch_packet_channels (c_bus c)). }
  destruct fuel; cbn [cm_dispatch]; unfold mbind, cm_bind;
    destruct (add_in_flight 1 c) as [[] c0];
    match goal with |- context [dispatch_body ?d _ _ _ _ _] => specialize (H d) end;
    destruct (dispatch_body _ _ _ _ _ _) as [[] c1]; exact H.
Qed.

(** The frame built for a message, received by the peer with the matching key. *)
Lemma delivery_exact fuel a ida ra sa b idb rb sb w t p :
  c_records a !! ida = Some ra -> r_session ra = Some sa ->
  r_is_localhost ra = false -> r_localhost_passthrough ra = false ->
  fits 64 (r_send_packet_id ra) ->
  c_records b !! idb = Some rb -> r_state rb = STATE_ESTABLISHED -> r_session rb = Some sb ->
  r_is_localhost rb = false -> r_localhost_passthrough rb = false -> r_recv_buf rb = [] ->
  c_shutting_down b = false -> c_transport_index b !! idb = None ->
  recv_key sb = send_key sa -> accept (r_send_packet_id ra) (recv_window sb) = (true, w) ->
  app_type t -> p <> [] -> blen p <= MAX_ORIG_SIZE ->
  exists frame a' hdr,
    build_frame ida t p a = (Some frame, a') /\ hdr_payload_type hdr = t /\
    c_trace (snd (handle_data fuel idb frame b)) =
      c_trace b ++ map (fun name => EvHandle name hdr (remote_view idb rb) p)
        (snd (dispatch_packet (c_bus b) t hdr (remote_view idb rb) p)).
Proof.
  intros Ha Hsa Hla Hpa Hid Hb Hst Hsb Hlb Hpb Hbuf Hshut Hti Hkey Hacc (Ht & Hhs & Hhb & Hrl) Hne Hlen.
  set (wire := encrypt p (r_send_packet_id ra) (from_option comp_enabled true (c_compression a))
    (from_option comp_threshold 512 (c_compression a)) (from_option comp_level 1 (c_compression a)) sa).
  set (hdr := mk_hdr 0 t wire (r_send_packet_id ra)).
  assert (blen wire < 2 ^ 32) as Hw.
  { pose proof (encrypt_length p (r_send_packet_id ra) (from_option comp_enabled true (c_compression a))
      (from_option comp_threshold 512 (c_compression a)) (from_option comp_level 1 (c_compression a)) sa).
    unfold MAX_ORIG_SIZE, wire in *. lia. }
  assert (header_wf hdr) as Hwf by by apply mk_hdr_wf.
  assert (hdr_payload_type hdr = t) as Htype by by apply wrap_small.
  assert (hdr_payload_len hdr = blen wire) as Hplen.
  { apply wrap_small. unfold fits, blen in *. lia. }
  eexists (frame_bytes hdr wire), _, hdr. split; [|split; [done|]].
  { unfold build_frame, fetch_packet_id, mbind, cm_bind, rcu_find, gets. rewrite Ha, Hpa. simpl.
    rewrite Hsa, Hhs, Hla. done. }
  assert (decrypt wire (r_send_packet_id ra) sb = (p, with_window w sb)) as Hdec.
  { unfold wire. rewrite decrypt_honest by done. by rewrite Hacc. }
  unfold handle_data. rewrite (handle_data_one _ _ hdr wire b rb); [|by split_and!|done..].
  erewrite dispatch_session_trace by (rewrite ?Htype; done). by rewrite Htype.
Qed.

(** End-to-end delivery.  A frame that a node builds for a message on a connection
    with a session, whatever its compression settings, makes the peer (established, with
    the matching receive key, and a window that accepts the packet id) invoke exactly
    the handler chain of that message type, with exactly the payload sent. *)
Theorem secure_delivery fuel a ida ra sa b idb rb sb w t p :
  c_records a !! ida = Some ra -> r_session ra = Some sa ->
  r_is_localhost ra = false -> r_localhost_passthrough ra = false ->
  fits 64 (r_send_packet_id ra) ->
  c_records b !! idb = Some rb -> r_state rb = STATE_ESTABLISHED -> r_session rb = Some sb ->
  r_is_localhost rb = false -> r_localhost_passthrough rb = false -> r_recv_buf rb = [] ->
  c_shutting_down b = false -> c_transport_index b !! idb = None ->
  recv_key sb = send_key sa -> accept (r_send_packet_id ra) (recv_window sb) = (true, w) ->
  app_type t -> p <> [] -> blen p <= MAX_ORIG_SIZE ->
  exists frame a' hdr,
    build_frame ida t p a = (Some frame, a') /\ hdr_payload_type hdr = t /\
    c_trace (snd (handle_data fuel idb frame b)) =
      c_trace b ++ map (fun name => EvHandle name hdr (remote_view idb rb) p)
        (snd (dispatch_packet (c_bus b) t hdr (remote_view idb rb) p)).
Proof. apply delivery_exact. Qed.

(** ** What is refused *)

(** Before a connection is established, a packet of any type but the three
    handshake ones changes nothing except the StateNotEstablished drop counter. *)
Theorem not_established_dropped fuel id hdr p ts c r :
  c_records c !! id = Some r -> r_state r <> STATE_ESTABLISHED ->
  is_handshake (hdr_payload_type hdr) = false -> fits 32 (c_in_flight_dispatches c) ->
  cm_dispatch fuel id hdr p ts c = drop_pkt id StateNotEstablished c.
Proof.
  intros Hr Hst Hhs Hfl. apply orb_false_iff in Hhs as [[H1 H2]%orb_false_iff H3].
  assert (forall d, (add_in_flight 1 ;; dispatch_body d id hdr p ts ;; add_in_flight (-1)) c
    = drop_pkt id StateNotEstablished c) as H; [|by destruct fuel; apply H].
  intros d. unfold dispatch_body. rewrite H1, H2, H3.
  unfold mbind, cm_bind, rcu_find, gets. simpl. rewrite Hr, bool_decide_true by done.
  unfold drop_pkt, on_bus, modify. simpl. pose proof (wrap_inc_dec _ _ Hfl) as E.
  unfold add_in_flight, modify, set_c_in_flight_dispatches. simpl.
  rewrite E. by destruct c.
Qed.

(** C11: the identity check of the handshake.  [process_handshake_payload] succeeds
    exactly when the payload is long enough, its signature is the user key's over both
    keys, and its device key is the Noise static key the peer proved to hold; a failure
    changes no record. *)
Theorem process_handshake_payload_exact id data c :
  (fst (process_handshake_payload id data c) = true <->
   (csize HandshakePayload_codec <= length data)%nat /\
   signature_ok (cdec HandshakePayload_codec data) = true /\
   exists r hs, c_records c !! id = Some r /\ r_handshake r = Some hs /\
     pk_to_curve25519 (hp_device_pubkey (cdec HandshakePayload_codec data)) = Some (rs hs)) /\
  (fst (process_handshake_payload id data c) = false ->
   c_records (snd (process_handshake_payload id data c)) = c_records c).
Proof.
  unfold process_handshake_payload. generalize (csize HandshakePayload_codec) as size. intros size.
  case_bool_decide as Hlen.
  { split; [|done]. split; [done|]. intros [? _]. lia. }
  generalize (cdec HandshakePayload_codec data). intros hp.
  destruct (signature_ok hp) eqn:Hsig; simpl; [|naive_solver].
  unfold mbind, cm_bind, rcu_find, gets. simpl.
  destruct (c_records c !! id) as [r|] eqn:Hr; simpl; [|naive_solver].
  destruct (r_handshake r) as [hs|] eqn:Hh; [|naive_solver].
  destruct (pk_to_curve25519 (hp_device_pubkey hp)) as [x|] eqn:Hx; [|naive_solver].
  case_bool_decide as He; [|naive_solver].
  split; [|by destruct (get_schemes hp)]. split; [|by destruct (get_schemes hp)].
  intros _. split; [lia|]. split; [done|]. subst. eauto.
Qed.

(** A node whose keys are Ed25519 key pairs. *)
Definition identity_ok (me : NodeIdentity) : Prop :=
  ed_keypair (user_pubkey me) (user_seckey me) /\ ed_keypair (device_pubkey me) (device_seckey me).

(** The payload before its schemes are filled in. *)
Definition bare_payload (c : cm) : HandshakePayload :=
  let me := c_identity c in
  mk_HandshakePayload (user_pubkey me) (device_pubkey me)
    (sign_detached (user_seckey me) (user_pubkey me ++ device_pubkey me)) 0
    (replicate HANDSHAKE_MAX_SCHEMES (zeros HANDSHAKE_SCHEME_LEN)) (local_core_meta c).

Lemma bare_payload_wf c :
  identity_ok (c_identity c) -> cwf HandshakePayload_codec (bare_payload c).
Proof.
  intros [Hu Hd]. apply HandshakePayload_wf;
    [apply Hu|apply Hd|apply sign_detached_length|unfold fits; lia|done|by repeat constructor|].
  unfold local_core_meta. case_bool_decide; split; vm_compute; split; congruence.
Qed.

(** The exact effect of an honest peer's payload. *)
Lemma process_honest a b idb rb hs :
  identity_ok (c_identity a) -> c_records b !! idb = Some rb -> r_handshake rb = Some hs ->
  rs hs = scalarmult_base (sk_to_curve25519 (device_seckey (c_identity a))) ->
  process_handshake_payload idb (fst (build_handshake_payload a)) b =
    (true, snd (upd_record idb (accept_payload b (handshake_payload_of a)
                                  (map clip_scheme (take 8 (local_schemes a)))) b)).
Proof.
  intros Hid Hb Hh Hrs. pose proof (bare_payload_wf a Hid) as Hbare.
  pose proof (set_schemes_wf (local_schemes a) _ Hbare) as Hwf. destruct Hid as [Hu Hd].
  change (set_schemes (local_schemes a) (bare_payload a)) with (handshake_payload_of a) in Hwf.
  unfold build_handshake_payload, gets. cbn [fst].
  set (hp := handshake_payload_of a) in *.
  assert (cdec HandshakePayload_codec (cenc HandshakePayload_codec hp) = hp) as Hdec.
  { rewrite <-(app_nil_r (cenc _ _)). by apply cdec_enc. }
  unfold process_handshake_payload. rewrite Hdec.
  rewrite bool_decide_false by (rewrite cenc_length by done; lia).
  assert (signature_ok hp = true) as -> by apply Hu. cbn [negb].
  unfold mbind, cm_bind, rcu_find, gets. rewrite Hb. cbn [mbind option_bind]. rewrite Hh.
  assert (pk_to_curve25519 (hp_device_pubkey hp) = Some (rs hs)) as ->
    by (rewrite Hrs; apply (ed_curve _ _ Hd)).
  rewrite bool_decide_true by done.
  assert (get_schemes hp = Some (map clip_scheme (take 8 (local_schemes a)))) as ->.
  { by apply get_schemes_set. }
  done.
Qed.

(** An honest peer passes the check: the payload a node builds is accepted by the
    other side of a Noise handshake in which it used its device key, and the record then
    carries its keys, its first eight schemes and its capabilities. *)
Theorem honest_payload_accepted a b idb rb hs :
  identity_ok (c_identity a) -> c_records b !! idb = Some rb -> r_handshake rb = Some hs ->
  rs hs = scalarmult_base (sk_to_curve25519 (device_seckey (c_identity a))) ->
  exists b' r, process_handshake_payload idb (fst (build_handshake_payload a)) b = (true, b') /\
    c_records b' !! idb = Some r /\ r_peer_authenticated r = true /\
    r_peer_user_pubkey r = user_pubkey (c_identity a) /\
    r_peer_device_pubkey r = device_pubkey (c_identity a) /\
    r_peer_schemes r = map clip_scheme (take 8 (local_schemes a)) /\
    r_peer_core_meta r = local_core_meta a /\ c_trace b' = c_trace b.
Proof.
  intros Hid Hb Hh Hrs. rewrite (process_honest a b idb rb hs) by done.
  eexists _, _. split; [done|].
  unfold upd_record, modify. cbn [snd c_records set_c_records].
  rewrite lookup_alter_eq, Hb. split; [done|].
  destruct (accept_payload_fields b (handshake_payload_of a)
    (map clip_scheme (take 8 (local_schemes a))) rb) as (_ & _ & _ & _ & _ & _ & F7 & F8 & F9).
  split_and!; try done; unfold accept_payload; cbn zeta; by destruct (r_transport_paths _).
Qed.

(** Events are only ever added. *)
Definition Grows {A} (m : CM A) : Prop := forall c, c_trace c `prefix_of` c_trace (snd (m c)).

Lemma Quiet_Grows {A} (m : CM A) : Quiet m -> Grows m.
Proof. intros H c. apply (q_trace _ _ (H c)). Qed.

Lemma Grows_bind {A B} (m : CM A) (k : A -> CM B) :
  Grows m -> (forall a, Grows (k a)) -> Grows (m ≫= k).
Proof.
  intros Hm Hk c. unfold mbind, cm_bind. specialize (Hm c).
  destruct (m c) as [a c']. etrans; [exact Hm|apply Hk].
Qed.

Lemma Grows_noise_write id p : Grows (noise_write id p).
Proof.
  unfold noise_write. apply Grows_bind; [apply Quiet_Grows; solve_quiet|intros found].
  destruct (found ≫= r_handshake) as [hs|]; [|by intros c].
  apply Grows_bind; [apply Quiet_Grows; case_match; [apply Quiet_draw|solve_quiet]|intros rnd].
  unfold noise_run. apply Grows_bind; [apply Quiet_Grows; solve_quiet|intros f].
  destruct (f ≫= r_handshake) as [h|]; [|by intros c].
  destruct (write_message p rnd h) as [o h']. by intros c.
Qed.

(** ** Where the code differs from its documentation *)

(** [send(conn_id, ...)] does not wait for the handshake: on a remote connection
    that has no session yet it reports success and the frame carries the payload in the
    clear. *)
Theorem send_before_established_plaintext id t p c r :
  c_records c !! id = Some r -> r_session r = None -> r_localhost_passthrough r = false ->
  fst (send_id id t p c) = true /\
  exists flags c', build_frame id t p c =
    (Some (frame_bytes (mk_hdr flags t p (r_send_packet_id r)) p), c').
Proof.
  intros Hr Hs Hp. split.
  - unfold send_id, mbind, cm_bind, rcu_find, gets. rewrite Hr.
    by destruct (send_frame id t p c) as [[] c'].
  - unfold build_frame, fetch_packet_id, mbind, cm_bind, rcu_find, gets. rewrite Hr, Hp, Hs.
    simpl. eauto.
Qed.

(** The first handshake message is unauthenticated and its payload is copied into a
    one-byte buffer: any NOISE_INIT of 34 bytes or more on a connection that waits for it
    writes past [payload_out]. *)
Theorem noise_init_overflow id p c r hs :
  c_records c !! id = Some r -> r_handshake r = Some hs -> initiator hs = false ->
  step hs = 0 -> has_key (cipher (symmetric hs)) = false -> (34 <= length p)%nat ->
  EvUB "handle_noise_init: payload_out[1]" ∈ c_trace (snd (handle_noise_init id p c)).
Proof.
  intros Hr Hh Hi Hst Hk Hp.
  assert (exists hs', read_message p hs = (Some (drop DHLEN p), hs')) as [hs' Hread].
  { unfold read_message, recv_ephemeral, hs_mix_hash, lift_sym, decrypt_and_hash, cipher_decrypt,
      se_bind, se_get, se_guard, se_mod, se_ret. rewrite Hst. simpl.
    rewrite bool_decide_true by (unfold DHLEN; lia). simpl. rewrite Hk. eauto. }
  unfold handle_noise_init, handshake_as, noise_read, noise_run, rcu_find.
  unfold mbind at 1, cm_bind at 1. unfold mbind at 1, cm_bind at 1. unfold gets at 1.
  rewrite Hr. cbn [mbind option_bind]. rewrite Hh, bool_decide_true by done.
  cbn [mret cm_ret]. unfold mbind at 1, cm_bind at 1. unfold mbind at 1, cm_bind at 1.
  unfold gets at 1. rewrite Hr. cbn [mbind option_bind]. rewrite Hh, Hread.
  unfold mbind at 1, cm_bind at 1. unfold upd_record at 1, modify at 1. cbn [mret cm_ret].
  rewrite bool_decide_true by (rewrite length_drop; unfold DHLEN; lia).
  unfold mbind at 1, cm_bind at 1. unfold emit_ev at 1, modify at 1.
  set (c1 := set_c_trace _ _).
  match goal with |- _ ∈ c_trace (snd (?m c1)) => assert (Grows m) as Hg end.
  { apply Grows_bind; [apply Quiet_Grows; unfold build_handshake_payload; solve_quiet|intros hp].
    apply Grows_bind; [apply Grows_noise_write|intros w].
    apply Quiet_Grows. destruct w; solve_quiet. }
  destruct (Hg c1) as [l ->]. apply elem_of_app. left. unfold c1. simpl.
  apply elem_of_app. right. by apply list_elem_of_singleton.
Qed.

(** A CONSUMED verdict is remembered as the connection's affinity but never used:
    the handlers a packet reaches do not depend on it. *)
Theorem affinity_ignored id r hdr d ts c plugin :
  c_trace (snd (run_handlers id (set_r_affinity_plugin plugin r) hdr d ts c)) =
  c_trace (snd (run_handlers id r hdr d ts c)).
Proof. by rewrite !run_handlers_trace. Qed.

(** The address of a secondary transport outlives its connection: after the primary
    transport is gone, sending to the secondary address fails for good, without queueing
    the message and without a connection attempt. *)
Theorem secondary_uri_dangles id e c r uri t p :
  c_records c !! id = Some r -> c_transport_index c !! id = None -> c_shutting_down c = false ->
  uri <> "" -> c_uri_index c !! uri_key uri = Some id -> uri_key uri <> addr_key (r_remote r) ->
  let c' := snd (handle_disconnect id e c) in
  c_records c' !! id = None /\ send_uri uri t p c' = (false, c').
Proof.
  intros Hr Hti Hs Hne Huri Hkey c'.
  assert (exists s, quiet s c' /\ c_records s !! id = None /\
    c_uri_index s !! uri_key uri = Some id /\ c_shutting_down s = false) as (s & Hq & H1 & H2 & H3).
  { unfold c', handle_disconnect, mbind, cm_bind, gets. rewrite Hti.
    unfold disconnect_primary, mbind, cm_bind, rcu_find, gets. rewrite Hr.
    pose proof (erase_paths_run id (r_transport_paths r) c) as Hp.
    destruct (for_each (r_transport_paths r) _ c) as [[] c1]. cbn [snd] in Hp. subst c1.
    destruct (r_peer_authenticated r);
      (eexists; split; [apply Quiet_notify|]; simpl; rewrite lookup_delete_eq;
       split_and!; [done|by rewrite lookup_delete_ne|done]). }
  assert (c_records c' !! id = None) as H1'.
  { pose proof (q_records _ _ Hq id) as E. rewrite H1 in E. by destruct (c_records c' !! id). }
  split; [done|]. unfold send_uri, mbind, cm_bind, resolve_uri, rcu_find, gets.
  rewrite (q_shutting _ _ Hq), H3. destruct (String.eqb_spec uri ""); [done|]. simpl.
  rewrite (q_uri _ _ Hq), H2. by rewrite H1'.
Qed.
End delivery.

(** ** Witnesses, on the states of [CmScenario] *)

#[local] Existing Instances ToyCrypto.ops ToyCrypto.laws.

Lemma secure_delivery_witness :
  exists frame a' hdr,
    build_frame 1 100 [x41; x42] alice = (Some frame, a') /\ hdr_payload_type hdr = 100 /\
    c_trace (snd (handle_data 2 1 frame bob)) =
      c_trace bob ++ map (fun name => EvHandle name hdr (remote_view 1 bob_record) [x41; x42])
        (snd (dispatch_packet (c_bus bob) 100 hdr (remote_view 1 bob_record) [x41; x42])).
Proof.
  eapply (secure_delivery 2 alice 1 alice_record (session_of alice) bob 1 bob_record (session_of bob)
    (snd (accept 2 (recv_window (session_of bob))))); try (vm_compute; reflexivity).
  - unfold fits. vm_compute. split; congruence.
  - split_and!; try (vm_compute; congruence). unfold fits. lia.
  - discriminate.
  - vm_compute. congruence.
Defined.

Lemma not_established_dropped_witness :
  cm_dispatch 2 1 (mk_hdr 0 100 [x41] 5) [x41] 0 bob_waiting =
    drop_pkt 1 StateNotEstablished bob_waiting.
Proof.
  apply (not_established_dropped 2 1 _ _ 0 bob_waiting (record_of bob_waiting));
    [exact bob_waiting_lookup|vm_compute; congruence|reflexivity|].
  unfold fits. vm_compute. split; congruence.
Defined.

Lemma process_handshake_payload_exact_witness :
  c_records (snd (process_handshake_payload 1 [x41] bob_waiting)) = c_records bob_waiting.
Proof.
  apply (proj2 (process_handshake_payload_exact 1 [x41] bob_waiting)). vm_compute. reflexivity.
Defined.

(** Bob once the static key of alice is known to his engine. *)
Definition bob_keyed : cm :=
  snd (upd_record 1 (fun r => set_r_handshake (with_rs (replicate 32 x02) <$> r_handshake r) r)
         bob_waiting).

Definition bob_keyed_state : HandshakeState :=
  default (hs_init true [] []) (r_handshake (record_of bob_keyed)).

Lemma honest_payload_accepted_witness :
  exists b' r, process_handshake_payload 1 (fst (build_handshake_payload alice)) bob_keyed = (true, b') /\
    c_records b' !! 1 = Some r /\ r_peer_authenticated r = true /\
    r_peer_user_pubkey r = replicate 32 x01 /\ r_peer_schemes r = ["tcp"%string].
Proof.
  destruct (honest_payload_accepted alice bob_keyed 1 (record_of bob_keyed) bob_keyed_state)
    as (b' & r & H1 & H2 & H3 & H4 & _ & H6 & _).
  - assert (c_identity alice = toy_identity x01 x02) as -> by (vm_compute; reflexivity).
    exact (conj (ToyCrypto.keypair_of_ok (replicate 32 x01) ltac:(vm_compute; congruence))
                (ToyCrypto.keypair_of_ok (replicate 32 x02) ltac:(vm_compute; congruence))).
  - vm_compute. reflexivity.
  - vm_compute. reflexivity.
  - vm_compute. reflexivity.
  - exists b', r. split_and!; [exact H1|exact H2|exact H3| |].
    + rewrite H4. vm_compute. reflexivity.
    + rewrite H6. vm_compute. reflexivity.
Defined.

Lemma send_before_established_plaintext_witness :
  fst (send_id 1 100 [x41] bob_waiting) = true.
Proof.
  apply (send_before_established_plaintext 1 100 [x41] bob_waiting (record_of bob_waiting)
    bob_waiting_lookup); vm_compute; reflexivity.
Defined.

Lemma noise_init_overflow_witness :
  EvUB "handle_noise_init: payload_out[1]" ∈
    c_trace (snd (handle_noise_init 1 (replicate 40 x41) bob_waiting)).
Proof.
  apply (noise_init_overflow 1 (replicate 40 x41) bob_waiting (record_of bob_waiting)
    (default (hs_init true [] []) (r_handshake (record_of bob_waiting))));
    [exact bob_waiting_lookup|vm_compute; reflexivity..|simpl; lia].
Defined.

Lemma secondary_uri_dangles_witness :
  fst (send_uri "tcp://10.0.0.7:25565" 100 [x41] (snd (handle_disconnect 1 0 alice_ice))) = false.
Proof.
  assert (send_uri "tcp://10.0.0.7:25565" 100 [x41] (snd (handle_disconnect 1 0 alice_ice)) =
    (false, snd (handle_disconnect 1 0 alice_ice))) as ->; [|reflexivity].
  apply (secondary_uri_dangles 1 0 alice_ice (record_of alice_ice)
    "tcp://10.0.0.7:25565"); try (vm_compute; reflexivity); [discriminate|vm_compute; discriminate].
Defined.
