(* ===== verification/CmLink.v ===== *)
(** * From the first packet to the last: two connected managers

    [ready] describes a manager that can write to a connection: it is running, the only
    path of the connection is active and its connector takes every frame.  [linked] adds
    the sessions of a pair of managers.  A linked pair stays linked under every message
    sent and received, so a stream of messages arrives complete and in order, and the
    Noise handshake of two managers that know nothing of each other ends in a linked pair:
    composed, an application's first message to an unknown peer reaches the handlers of
    that peer. *)

From Stdlib Require Import ZArith Strings.Byte String Lia.
From stdpp Require Import base gmap list strings numbers.
From S2P Require Import Prelude Codec Wire NonceWindow Queue Crypto Noise Session Signals.
From S2P Require Import CmState CmTransport CmClose CmHandshake CmDispatch CmLifecycle CmFrame CmInvariant CmScenario.
From S2P Require Import CmReassembly CmDelivery.

Local Open Scope Z_scope.

(** The only path of a connection: its own transport, by TCP. *)
Definition tcp_path (id : Z) (tps : list TransportPath) : Prop :=
  exists p, tps = [p] /\ tp_transport_conn_id p = id /\ tp_scheme p = "tcp"%string /\ tp_active p = true.

Record ready (c : cm) (id : Z) (r : ConnectionRecord) : Prop := mk_ready {
  rd_record : c_records c !! id = Some r;
  rd_running : c_shutting_down c = false;
  rd_primary : c_transport_index c !! id = None;
  rd_buf : r_recv_buf r = [];
  rd_path : tcp_path id (r_transport_paths r);
  rd_queue : c_send_queues c !! id = Some queue_init;
  rd_connector : exists ops, c_connectors c !! "tcp"%string = Some ops /\ forall n, co_rc ops n = 0;
}.

(** What a command that is not about this connection's record leaves alone. *)
Record same_env (c c' : cm) : Prop := mk_same_env {
  se_identity : c_identity c' = c_identity c;
  se_shutting : c_shutting_down c' = c_shutting_down c;
  se_prio : c_scheme_priority c' = c_scheme_priority c;
  se_connectors : c_connectors c' = c_connectors c;
  se_pk : c_pk_index c' = c_pk_index c;
  se_transport : c_transport_index c' = c_transport_index c;
  se_pending : c_pending_messages c' = c_pending_messages c;
  se_handlers : c_handler_entries c' = c_handler_entries c;
  se_channels : channels (c_bus c') = channels (c_bus c) /\ wildcards (c_bus c') = wildcards (c_bus c);
}.

#[export] Instance same_env_preorder : PreOrder same_env.
Proof.
  split.
  - intros c. by split.
  - intros a b c [] []. split; try congruence. intuition congruence.
Qed.

Lemma quiet_same_env c c' : quiet c c' -> same_env c c'.
Proof. intros []. by split. Qed.

(** Running one command of a computation. *)
Lemma cm_run {A B} (m : CM A) (k : A -> CM B) c a c' : m c = (a, c') -> (m ≫= k) c = k a c'.
Proof. unfold mbind, cm_bind. by intros ->. Qed.

Lemma cm_assoc {A B C} (m : CM A) (k : A -> CM B) (k' : B -> CM C) c :
  ((m ≫= k) ≫= k') c = (m ≫= (fun a => k a ≫= k')) c.
Proof. unfold mbind, cm_bind. by destruct (m c). Qed.

Lemma for_each_map {A B} (g : A -> B) (f : B -> CM unit) l c :
  for_each (map g l) f c = for_each l (fun a => f (g a)) c.
Proof.
  revert c. induction l as [|a l IH]; intros c; [done|]. cbn. unfold mbind, cm_bind.
  destruct (f (g a) c). apply IH.
Qed.

Lemma for_each_app {A} (l1 l2 : list A) (k : A -> CM unit) c c1 :
  for_each l1 k c = (tt, c1) -> for_each (l1 ++ l2) k c = for_each l2 k c1.
Proof.
  revert c. induction l1 as [|x l1 IH]; intros c; [by intros [= ->]|]. cbn [for_each app].
  unfold mbind, cm_bind. destruct (k x c) as [[] c2]. by apply IH.
Qed.

Ltac cm_step := erewrite cm_run by reflexivity; cbv beta.

Lemma push_drain_empty f :
  blen f <= MAX_BYTES ->
  try_push f queue_init = (true, mk_queue [f] (blen f) false) /\
  drain_batch 64 (mk_queue [f] (blen f) false) = ([f], queue_init).
Proof.
  intros Hf. pose proof (blen_nonneg f). unfold try_push, drain_batch. cbn -[u64 Z.add].
  replace (0 + blen f) with (blen f) by lia. replace (blen f - (blen f + 0)) with 0 by lia.
  rewrite (wrap_small 64 (blen f)) by (unfold fits, MAX_BYTES in *; lia).
  destruct (Z.ltb_spec MAX_BYTES (blen f)); [lia|]. done.
Qed.

Section sending.
Context `{CO : !CryptoOps}.

(** A record after a frame went out. *)
Definition after_send (r : ConnectionRecord) : ConnectionRecord :=
  set_r_transport_paths (map (set_tp_consecutive_errors 0) (r_transport_paths r))
    (set_r_send_packet_id (u64 (r_send_packet_id r + 1)) r).

Definition after_write (id : Z) (f : bytes) (c : cm) : cm :=
  set_c_bus (emit_stat (mk_stat TxPacket 1 id BadMagic)
     (emit_stat (mk_stat TxBytes (blen f) id BadMagic) (c_bus c)))
    (set_c_trace (c_trace c ++ [EvSendTo "tcp" id f 0]) (set_c_io (S (c_io c)) c)).

Lemma try_paths_one id r c f :
  ready c id r ->
  snd (try_paths id (active_paths r) [f] c) =
    set_c_records (alter (fun r => set_r_transport_paths
       (map (set_tp_consecutive_errors 0) (r_transport_paths r)) r) id (c_records c))
      (after_write id f c) /\
  fst (try_paths id (active_paths r) [f] c) = true /\ active_paths r <> [].
Proof.
  intros [Hr _ _ _ (p & Hp & Hid & Hs & Ha) _ (ops & Hops & Hrc)].
  unfold active_paths. rewrite Hp. cbn. rewrite Ha. cbn.
  unfold mbind, cm_bind, find_connector, gets. rewrite Hs. cbn. rewrite Hops. cbn.
  unfold flush_frames_to_connector. rewrite andb_false_r. cbn.
  unfold mbind, cm_bind, next_rc. rewrite Hrc, Hid. cbn. split_and!; [|done|done].
  unfold after_write. f_equal. apply alter_ext. intros r' Hr'. rewrite Hr in Hr'.
  injection Hr' as <-. by rewrite Hp.
Qed.

(** The bytes a message occupies on the wire. *)
Definition wire_payload (c : cm) (r : ConnectionRecord) (t : Z) (p : bytes) : bytes :=
  match r_session r with
  | Some s =>
      if negb (is_handshake t) && negb (r_is_localhost r) then
        encrypt p (r_send_packet_id r) (from_option comp_enabled true (c_compression c))
          (from_option comp_threshold 512 (c_compression c))
          (from_option comp_level 1 (c_compression c)) s
      else p
  | None => p
  end.

Definition wire_flags (r : ConnectionRecord) : Z := if r_is_localhost r then GNET_FLAG_TRUSTED else 0.

Definition wire_hdr (c : cm) (r : ConnectionRecord) (t : Z) (p : bytes) : header_t :=
  mk_hdr (wire_flags r) t (wire_payload c r t p) (r_send_packet_id r).

Definition wire_bytes (c : cm) (r : ConnectionRecord) (t : Z) (p : bytes) : bytes :=
  frame_bytes (wire_hdr c r t p) (wire_payload c r t p).

Lemma build_frame_wire id t p c r :
  c_records c !! id = Some r -> r_localhost_passthrough r && negb (is_handshake t) = false ->
  build_frame id t p c = (Some (wire_bytes c r t p),
    set_c_records (alter (fun r => set_r_send_packet_id (u64 (r_send_packet_id r + 1)) r) id
                     (c_records c)) c).
Proof.
  intros Hr Hp. unfold build_frame, fetch_packet_id, mbind, cm_bind, rcu_find, gets.
  by rewrite Hr, Hp.
Qed.

(** One frame of a ready connection goes straight to its connector. *)
Lemma send_frame_ready id t p c r :
  ready c id r -> r_localhost_passthrough r && negb (is_handshake t) = false ->
  blen (wire_bytes c r t p) <= MAX_BYTES ->
  exists c', send_frame id t p c = (tt, c') /\
    c_trace c' = c_trace c ++ [EvSendTo "tcp" id (wire_bytes c r t p) 0] /\
    ready c' id (after_send r) /\ same_env c c' /\ c_rng c' = c_rng c.
Proof.
  intros Hready Hpass Hlen. pose proof Hready as [Hr Hrun Hti Hbuf Hpath Hq Hconn].
  destruct (push_drain_empty _ Hlen) as [Hpush Hdrain].
  set (pid := set_r_send_packet_id (u64 (r_send_packet_id r + 1)) r).
  set (c1 := set_c_send_queues (<[id := queue_init]> (<[id := mk_queue [wire_bytes c r t p]
      (blen (wire_bytes c r t p)) false]> (c_send_queues c)))
    (set_c_records (alter (fun r => set_r_send_packet_id (u64 (r_send_packet_id r + 1)) r) id
                     (c_records c)) c)).
  assert (ready c1 id pid) as Hready1.
  { split; try done; cbn [c1 c_records c_send_queues set_c_records set_c_send_queues];
      [by rewrite lookup_alter_eq, Hr|by rewrite lookup_insert_eq]. }
  destruct (try_paths_one id pid c1 (wire_bytes c r t p) Hready1) as (Hsnd & Hfst & Hne).
  eexists. split.
  { unfold send_frame. cm_step. rewrite Hrun.
    rewrite (cm_run _ _ _ _ _ (build_frame_wire id t p c r Hr Hpass)).
    unfold get_or_create_queue. rewrite cm_assoc. cm_step. cbn [c_send_queues set_c_records].
    rewrite Hq. cm_step. rewrite Hpush. cm_step. unfold flush_queue. cm_step.
    cbn [c_shutting_down set_c_records set_c_send_queues]. rewrite Hrun. cm_step.
    cbn [c_records set_c_records set_c_send_queues].
    rewrite lookup_alter_eq, Hr. cbn [fmap option_fmap option_map]. cm_step.
    cbn [c_send_queues set_c_records set_c_send_queues].
    rewrite lookup_insert_eq. cbn [from_option Datatypes.id]. rewrite Hdrain. cm_step.
    cbn [c_send_queues set_c_records set_c_send_queues].
    unfold mbind, cm_bind. fold pid.
    change (set_c_send_queues ?x (set_c_send_queues _ ?y)) with (set_c_send_queues x y). fold c1.
    destruct (try_paths id (active_paths pid) [wire_bytes c r t p] c1) as [b c2].
    cbn [fst snd] in *. subst b c2. reflexivity. }
  split; [done|]. split; [|split; [by split|done]].
  split; try done; cbn [c1 after_write c_records c_send_queues set_c_records set_c_send_queues
    set_c_bus set_c_trace set_c_io].
  - by rewrite lookup_alter_eq, lookup_alter_eq, Hr.
  - destruct Hpath as (q & Hq' & Hid & Hs & Ha). exists (set_tp_consecutive_errors 0 q).
    cbn [after_send r_transport_paths set_r_transport_paths]. by rewrite Hq'.
  - by rewrite lookup_insert_eq.
Qed.
End sending.

(** ** Receiving on an established connection *)

Section receiving.
Context `{CO : !CryptoOps} {CL : CryptoLaws CO}.

(** A record with the same core, session, paths and packet counter. *)
Definition same_record (r r' : ConnectionRecord) : Prop :=
  core_of r' = core_of r /\ r_session r' = r_session r /\
  r_transport_paths r' = r_transport_paths r /\ r_send_packet_id r' = r_send_packet_id r.

Lemma run_handlers_record id r hdr d ts c r0 :
  c_records c !! id = Some r0 ->
  exists r', c_records (snd (run_handlers id r hdr d ts c)) !! id = Some r' /\ same_record r0 r' /\
    c_send_queues (snd (run_handlers id r hdr d ts c)) = c_send_queues c.
Proof.
  intros Hr. set (Q := fun c' => exists r', c_records c' !! id = Some r' /\ same_record r0 r' /\
    c_send_queues c' = c_send_queues c). change (Q (snd (run_handlers id r hdr d ts c))).
  unfold run_handlers. unfold mbind, cm_bind, gets at 1.
  destruct (dispatch_packet (c_bus c) _ _ _ _) as [res calls]. simpl.
  pose proof (trace_for_each calls (fun name => EvHandle name hdr (remote_view id r) d) c) as Ht.
  unfold remote_view in Ht. destruct (for_each _ _ c) as [[] c1]. simpl in Ht. subst c1. simpl.
  destruct (er_result res); simpl; try (by exists r0).
  destruct (String.eqb _ _); simpl; [|by exists r0]. unfold Q. simpl.
  rewrite lookup_alter_eq, Hr. simpl. eexists. by split.
Qed.

Lemma same_env_run_handlers id r hdr d ts c : same_env c (snd (run_handlers id r hdr d ts c)).
Proof. apply quiet_same_env, Quiet_run_handlers. Qed.

(** A packet of an established remote peer that decrypts: the record keeps everything but
    the receive window. *)
Lemma dispatch_session_state fuel id hdr p plain ts c r s s' :
  app_type (hdr_payload_type hdr) -> Z.land (hdr_flags hdr) GNET_FLAG_TRUSTED = 0 ->
  c_records c !! id = Some r -> r_state r = STATE_ESTABLISHED -> r_session r = Some s ->
  r_is_localhost r = false -> r_localhost_passthrough r = false ->
  decrypt p (hdr_packet_id hdr) s = (plain, s') -> plain <> [] ->
  exists r', c_records (snd (cm_dispatch fuel id hdr p ts c)) !! id = Some r' /\
    same_record (set_r_session (Some s') r) r' /\
    same_env c (snd (cm_dispatch fuel id hdr p ts c)) /\
    c_send_queues (snd (cm_dispatch fuel id hdr p ts c)) = c_send_queues c.
Proof.
  intros (_ & Hhs & Hhb & Hrl) Hfl Hr Hst Hs Hl Hp Hdec Hne.
  apply orb_false_iff in Hhs as [[H1 H2]%orb_false_iff H3].
  assert (forall d, exists r',
    c_records (snd (dispatch_body d id hdr p ts (snd (add_in_flight 1 c)))) !! id = Some r' /\
    same_record (set_r_session (Some s') r) r' /\
    same_env c (snd (dispatch_body d id hdr p ts (snd (add_in_flight 1 c)))) /\
    c_send_queues (snd (dispatch_body d id hdr p ts (snd (add_in_flight 1 c)))) = c_send_queues c)
    as H.
  { intros d. unfold dispatch_body. rewrite H1, H2, H3.
    unfold mbind, cm_bind, rcu_find, gets. simpl. rewrite Hr.
    rewrite bool_decide_false by (rewrite Hst; auto). rewrite Hp, Hfl. simpl. rewrite Hs, Hl.
    unfold session_decrypt. rewrite Hdec. unfold mbind, cm_bind. simpl.
    destruct plain as [|b plain]; [done|]. unfold deliver_plain, mbind, cm_bind. simpl.
    destruct (Z.eqb_spec (hdr_payload_type hdr) MSG_TYPE_HEARTBEAT); [done|].
    destruct (Z.eqb_spec (hdr_payload_type hdr) MSG_TYPE_RELAY); [done|].
    match goal with |- context [run_handlers id r hdr ?d ts ?c1] =>
      destruct (run_handlers_record id r hdr d ts c1 (set_r_session (Some s') r)) as (r' & Hr' & Hsame & Hq);
        [simpl; by rewrite lookup_alter_eq, Hr|];
      pose proof (same_env_run_handlers id r hdr d ts c1) as Henv end.
    exists r'. split; [exact Hr'|]. split; [done|]. split; [|exact Hq]. etrans; [|exact Henv]. by split. }
  destruct fuel; cbn [cm_dispatch]; unfold mbind, cm_bind;
    destruct (add_in_flight 1 c) as [[] c0];
    match goal with |- context [dispatch_body ?d _ _ _ _ _] => specialize (H d) end;
    destruct (dispatch_body _ _ _ _ _ _) as [[] c1];
    (destruct H as (r' & Hr' & Hsame & [] & Hq); exists r'; split; [exact Hr'|];
     split; [exact Hsame|]; split; [by split|exact Hq]).
Qed.

(** A packet that does not decrypt, or that the window refuses: only the window changes. *)
Lemma dispatch_session_dropped fuel id hdr p ts c r s s' :
  app_type (hdr_payload_type hdr) -> Z.land (hdr_flags hdr) GNET_FLAG_TRUSTED = 0 ->
  c_records c !! id = Some r -> r_state r = STATE_ESTABLISHED -> r_session r = Some s ->
  r_is_localhost r = false -> r_localhost_passthrough r = false ->
  decrypt p (hdr_packet_id hdr) s = ([], s') ->
  let c' := snd (cm_dispatch fuel id hdr p ts c) in
  c_records c' !! id = Some (set_r_session (Some s') r) /\ same_env c c' /\
  c_send_queues c' = c_send_queues c /\ c_trace c' = c_trace c.
Proof.
  intros (_ & Hhs & _) Hfl Hr Hst Hs Hl Hp Hdec. apply orb_false_iff in Hhs as [[H1 H2]%orb_false_iff H3].
  destruct fuel; cbn [cm_dispatch]; unfold mbind, cm_bind, add_in_flight, modify at 1, dispatch_body; rewrite H1, H2, H3;
    unfold mbind, cm_bind, rcu_find, gets; cbn; rewrite Hr, bool_decide_false by (rewrite Hst; auto);
    rewrite Hp, Hfl; cbn; rewrite Hs, Hl; unfold session_decrypt, mbind, cm_bind; rewrite Hdec; cbn;
    (split_and!; [by rewrite lookup_alter_eq, Hr|by split|done|done]).
Qed.

(** ** Linked managers *)

(** Messages of [a] on connection [ida] are readable for [b] on connection [idb]. *)
Record linked (a : cm) (ida : Z) (b : cm) (idb : Z) (ra rb : ConnectionRecord)
    (sa sb : NoiseSession) : Prop := mk_linked {
  lk_ready : ready a ida ra;
  lk_session : r_session ra = Some sa;
  lk_remote : r_is_localhost ra = false /\ r_localhost_passthrough ra = false;
  lk_record : c_records b !! idb = Some rb;
  lk_running : c_shutting_down b = false;
  lk_primary : c_transport_index b !! idb = None;
  lk_buf : r_recv_buf rb = [];
  lk_established : r_state rb = STATE_ESTABLISHED;
  lk_peer_session : r_session rb = Some sb;
  lk_peer_remote : r_is_localhost rb = false /\ r_localhost_passthrough rb = false;
  lk_key : recv_key sb = send_key sa;
  lk_window : highest_nonce (recv_window sb) < r_send_packet_id ra;
  lk_id : 0 < r_send_packet_id ra;
}.

Lemma accept_next n w :
  0 < n -> highest_nonce w < n -> exists w', accept n w = (true, w') /\ highest_nonce w' = n.
Proof.
  intros Hn Hw. unfold accept. destruct (Z.eqb_spec n 0); [lia|].
  destruct (highest_nonce w =? 0); [by eexists|].
  destruct (Z.ltb_spec (highest_nonce w) n); [by eexists|lia].
Qed.

(** An application message that fits in a queue. *)
Definition message_ok (m : Z * bytes) : Prop :=
  app_type (fst m) /\ snd m <> [] /\ blen (snd m) + 64 <= MAX_BYTES.

(** The handler calls a message with header [hdr] causes at [c]. *)
Definition handled (c : cm) (ep : endpoint_t) (hdr : header_t) (p : bytes) : list event :=
  map (fun name => EvHandle name hdr ep p)
    (snd (dispatch_packet (c_bus c) (hdr_payload_type hdr) hdr ep p)).

Lemma handled_same c c' ep hdrs ps :
  channels (c_bus c') = channels (c_bus c) /\ wildcards (c_bus c') = wildcards (c_bus c) ->
  zip_with (handled c' ep) hdrs ps = zip_with (handled c ep) hdrs ps.
Proof.
  intros [Hc Hw]. revert ps. induction hdrs as [|h hs IH]; intros [|p ps]; try done. cbn.
  rewrite IH. unfold handled. by rewrite (dispatch_packet_channels (c_bus c)).
Qed.

Lemma core_of_remote r r' :
  core_of r' = core_of r ->
  r_state r' = r_state r /\ r_remote r' = r_remote r /\ r_recv_buf r' = r_recv_buf r /\
  r_is_localhost r' = r_is_localhost r /\ r_localhost_passthrough r' = r_localhost_passthrough r.
Proof. unfold core_of. by intros [=]. Qed.

(** The bytes of one frame that fits in a queue. *)
Definition frame_fits (f : bytes) : Prop :=
  exists fr, f = frame_bytes (fst fr) (snd fr) /\ wire_frame fr /\ blen (snd fr) <= MAX_BYTES.

(** The frame of a message over a session. *)
Lemma wire_session a ra sa t p :
  r_session ra = Some sa -> r_is_localhost ra = false -> message_ok (t, p) ->
  fits 64 (r_send_packet_id ra) ->
  wire_payload a ra t p = encrypt p (r_send_packet_id ra)
    (from_option comp_enabled true (c_compression a)) (from_option comp_threshold 512 (c_compression a))
    (from_option comp_level 1 (c_compression a)) sa /\
  wire_frame (wire_hdr a ra t p, wire_payload a ra t p) /\
  hdr_payload_type (wire_hdr a ra t p) = t /\ blen (wire_bytes a ra t p) <= MAX_BYTES.
Proof.
  intros Hs Hl ((Ht & Hhs & _) & Hne & Hlen) Hid. cbn [fst snd] in *.
  unfold wire_bytes, wire_hdr, wire_flags. rewrite Hl.
  assert (wire_payload a ra t p = encrypt p (r_send_packet_id ra)
    (from_option comp_enabled true (c_compression a)) (from_option comp_threshold 512 (c_compression a))
    (from_option comp_level 1 (c_compression a)) sa) as Hw
    by (unfold wire_payload; by rewrite Hs, Hhs, Hl).
  assert (blen (wire_payload a ra t p) <= blen p + 21) as Hle
    by (rewrite Hw; apply encrypt_length).
  set (w := wire_payload a ra t p) in *. clearbody w.
  assert (header_wf (mk_hdr 0 t w (r_send_packet_id ra))) as Hwf
    by (apply mk_hdr_wf; [done|done|unfold MAX_BYTES in Hlen; lia]).
  split; [done|]. split_and!.
  - unfold wire_frame. split_and!; [done..|]. apply wrap_small.
    unfold fits, MAX_BYTES in *. pose proof (blen_nonneg w). cbn [snd]. lia.
  - by apply wrap_small.
  - unfold blen in *. rewrite length_frame_bytes by done.
    change HDR_SIZE with 20%nat. lia.
Qed.

(** *** Both ends for themselves *)

(** A connection that can send over its session. *)
Record sends (c : cm) (id : Z) (r : ConnectionRecord) (s : NoiseSession) : Prop := mk_sends {
  sd_ready : ready c id r;
  sd_session : r_session r = Some s;
  sd_remote : r_is_localhost r = false /\ r_localhost_passthrough r = false;
  sd_id : 0 < r_send_packet_id r;
}.

(** A connection whose session reads what arrives. *)
Record receives (c : cm) (id : Z) (r : ConnectionRecord) (s : NoiseSession) : Prop := mk_receives {
  rv_record : c_records c !! id = Some r;
  rv_running : c_shutting_down c = false;
  rv_primary : c_transport_index c !! id = None;
  rv_buf : r_recv_buf r = [];
  rv_established : r_state r = STATE_ESTABLISHED;
  rv_session : r_session r = Some s;
  rv_remote : r_is_localhost r = false /\ r_localhost_passthrough r = false;
}.

(** The frame carries a message under a key with a packet id. *)
Definition carries (k : bytes) (n : Z) (m : Z * bytes) (f : header_t * bytes) : Prop :=
  exists (on : bool) (threshold level : Z) s,
    wire_frame f /\ blen (snd f) <= MAX_BYTES /\ hdr_payload_type (fst f) = fst m /\ hdr_packet_id (fst f) = n /\
    Z.land (hdr_flags (fst f)) GNET_FLAG_TRUSTED = 0 /\ message_ok m /\
    snd f = encrypt (snd m) n on threshold level s /\ send_key s = k.

Lemma send_message c id r s t p :
  sends c id r s -> message_ok (t, p) -> r_send_packet_id r + 1 < 2 ^ 64 ->
  exists f c', send_frame id t p c = (tt, c') /\
    c_trace c' = c_trace c ++ [EvSendTo "tcp" id (frame_bytes (fst f) (snd f)) 0] /\
    sends c' id (after_send r) s /\ same_env c c' /\ carries (send_key s) (r_send_packet_id r) (t, p) f /\
    r_send_packet_id (after_send r) = r_send_packet_id r + 1.
Proof.
  intros [Hready Hs [Hl Hp] Hid] Hok Hn.
  destruct (wire_session c r s t p) as (Hw & Hwire & Htype & Hsize); [done|done|done|unfold fits; lia|].
  destruct (send_frame_ready id t p c r Hready) as (c' & Hsend & Htr & Hready' & Henv & _); [by rewrite Hp|done|].
  assert (r_send_packet_id (after_send r) = r_send_packet_id r + 1) as Hnext
    by (cbn [after_send r_send_packet_id set_r_transport_paths set_r_send_packet_id]; apply wrap_small; unfold fits; lia).
  exists (wire_hdr c r t p, wire_payload c r t p), c'. split_and!; try done.
  - split; try done. rewrite Hnext. lia.
  - eexists _, _, _, s. split_and!; [done| |done|done| |done|exact Hw|done].
    + unfold wire_bytes, blen in *. rewrite length_frame_bytes in Hsize by apply Hwire. cbn [snd]. lia.
    + cbn [fst hdr_flags wire_hdr mk_hdr]. unfold wire_flags. by rewrite Hl.
Qed.

(** [receives] whatever is buffered. *)
Record hears (c : cm) (id : Z) (r : ConnectionRecord) (s : NoiseSession) : Prop := mk_hears {
  hr_record : c_records c !! id = Some r;
  hr_running : c_shutting_down c = false;
  hr_primary : c_transport_index c !! id = None;
  hr_established : r_state r = STATE_ESTABLISHED;
  hr_session : r_session r = Some s;
  hr_remote : r_is_localhost r = false /\ r_localhost_passthrough r = false;
}.

Lemma receives_hears c id r s : receives c id r s <-> hears c id r s /\ r_recv_buf r = [].
Proof. split; [intros []; split; [by split|done]|]. intros [[] ?]. by split. Qed.

(** The state after one frame of the peer, handled or not. *)
Record heard (c : cm) (id : Z) (r : ConnectionRecord) (s : NoiseSession) (w : NonceWindow)
    (c' : cm) (r' : ConnectionRecord) (s' : NoiseSession) : Prop := mk_heard {
  hd_hears : hears c' id r' s';
  hd_env : same_env c c';
  hd_core : core_of r' = core_of r;
  hd_pid : r_send_packet_id r' = r_send_packet_id r;
  hd_keys : send_key s' = send_key s /\ recv_key s' = recv_key s;
  hd_window : recv_window s' = w;
  hd_ready : ready c id r -> ready c' id r';
}.

(** One frame of the peer: its handlers run exactly when the window accepts its packet id. *)
Lemma dispatch_message fuel c id r s n m f ok w ts :
  hears c id r s -> carries (recv_key s) n m f -> accept n (recv_window s) = (ok, w) ->
  exists c' r' s', cm_dispatch fuel id (fst f) (snd f) ts c = (tt, c') /\
    c_trace c' = c_trace c ++ (if ok then handled c (remote_view id r) (fst f) (snd m) else []) /\
    heard c id r s w c' r' s'.
Proof.
  intros [Hr Hrun Hti Hst Hs [Hl Hp]] (on & th & lv & s0 & Hwire & Hmax & Htype & Hpid & Hfl & Hok & Hw & Hkey) Hacc.
  assert (decrypt (snd f) (hdr_packet_id (fst f)) s = (if ok then snd m else [], with_window w s)) as Hdec.
  { rewrite Hw, Hpid, decrypt_honest; [by rewrite Hacc|done|].
    destruct Hok as (_ & _ & Hle). unfold MAX_ORIG_SIZE, MAX_BYTES in *. lia. }
  assert (app_type (hdr_payload_type (fst f))) as Happ by (rewrite Htype; apply Hok).
  assert (exists r', c_records (cm_dispatch fuel id (fst f) (snd f) ts c).2 !! id = Some r' /\
    same_record (set_r_session (Some (with_window w s)) r) r' /\
    same_env c (cm_dispatch fuel id (fst f) (snd f) ts c).2 /\
    c_send_queues (cm_dispatch fuel id (fst f) (snd f) ts c).2 = c_send_queues c /\
    c_trace (cm_dispatch fuel id (fst f) (snd f) ts c).2 =
      c_trace c ++ (if ok then handled c (remote_view id r) (fst f) (snd m) else [])) as
    (r' & Hr' & (Hcore & Hsess & Hpaths & Hpid') & Henv & Hqs & Htrace).
  { destruct ok.
    - assert (snd m <> []) as Hne by apply Hok.
      edestruct (dispatch_session_state fuel id (fst f) (snd f) (snd m) ts c r s) as (r' & ? & ? & ? & ?); [done..|].
      exists r'. split_and!; try done. by eapply dispatch_session_trace.
    - destruct (dispatch_session_dropped fuel id (fst f) (snd f) ts c r s (with_window w s)) as (? & ? & ? & ?); [done..|].
      eexists. rewrite app_nil_r. by split_and!. }
  destruct (cm_dispatch fuel id (fst f) (snd f) ts c) as [[] c']. cbn [snd] in *.
  assert (core_of r' = core_of r) as Hcore' by (rewrite Hcore; unfold core_of, session_keys;
    cbn [r_session set_r_session]; by rewrite Hs).
  destruct (core_of_remote _ _ Hcore') as (H1 & H2 & H3 & H4 & H5). pose proof Henv as [].
  exists c', r', (with_window w s). split_and!; [done..|]. split; try done.
  - split; try done; try congruence; split; congruence.
  - intros []. split; rewrite ?Hqs, ?Hpaths; try done; try congruence. by rewrite se_connectors0.
Qed.

(** A whole frame handed over at once. *)
Lemma recv_message fuel c id r s n m f ok w :
  receives c id r s -> carries (recv_key s) n m f -> accept n (recv_window s) = (ok, w) ->
  exists c' r' s', handle_data fuel id (frame_bytes (fst f) (snd f)) c = (tt, c') /\
    c_trace c' = c_trace c ++ (if ok then handled c (remote_view id r) (fst f) (snd m) else []) /\
    receives c' id r' s' /\ heard c id r s w c' r' s'.
Proof.
  intros [Hh Hbuf]%receives_hears Hc Hacc.
  destruct (dispatch_message fuel c id r s n m f ok w (c_now_ns c) Hh Hc Hacc) as (c' & r' & s' & Hd & Ht & Hheard).
  exists c', r', s'. split_and!; [|done| |done].
  - assert (wire_frame (fst f, snd f)) as Hwire by (destruct Hc as (_ & _ & _ & _ & Hwire & _); by destruct f).
    destruct Hh. rewrite <-Hd. unfold handle_data. by apply handle_data_one with (r := r).
  - apply receives_hears. split; [apply Hheard|]. destruct (core_of_remote _ _ (hd_core _ _ _ _ _ _ _ _ Hheard)) as (_ & _ & -> & _). done.
Qed.

Lemma linked_ends a ida b idb ra rb sa sb :
  linked a ida b idb ra rb sa sb <->
  sends a ida ra sa /\ receives b idb rb sb /\ recv_key sb = send_key sa /\
  highest_nonce (recv_window sb) < r_send_packet_id ra.
Proof.
  split; [intros []; split_and!; try done; by split|]. intros ([] & [] & ? & ?). by split.
Qed.

(** One message of a linked pair arrives, and the pair stays linked. *)
Lemma link_step fuel a ida b idb ra rb sa sb t p :
  linked a ida b idb ra rb sa sb -> message_ok (t, p) -> r_send_packet_id ra + 1 < 2 ^ 64 ->
  exists f hdr a' b' rb' sb',
    send_frame ida t p a = (tt, a') /\ c_trace a' = c_trace a ++ [EvSendTo "tcp" ida f 0] /\
    handle_data fuel idb f b = (tt, b') /\ hdr_payload_type hdr = t /\
    c_trace b' = c_trace b ++ handled b (remote_view idb rb) hdr p /\
    linked a' ida b' idb (after_send ra) rb' sa sb' /\
    same_env a a' /\ same_env b b' /\ core_of rb' = core_of rb /\
    r_send_packet_id rb' = r_send_packet_id rb /\ (ready b idb rb -> ready b' idb rb') /\ frame_fits f.
Proof.
  intros (Hs & Hr & Hkey & Hwin)%linked_ends Hok Hn.
  destruct (send_message a ida ra sa t p Hs Hok Hn) as (f & a' & Hsend & Hta & Hs' & Hea & Hc & Hnext).
  rewrite <-Hkey in Hc.
  destruct (accept_next _ _ (sd_id _ _ _ _ Hs) Hwin) as (w & Hacc & Htop).
  destruct (recv_message fuel b idb rb sb _ _ _ _ _ Hr Hc Hacc) as
    (b' & rb' & sb' & Hd & Htb & Hr' & [_ Heb Hcore Hpid [_ Hkey'] Hwin' Hrdy]).
  destruct Hc as (_ & _ & _ & _ & Hwire & Hmax & Htype & _).
  exists (frame_bytes (fst f) (snd f)), (fst f), a', b', rb', sb'. split_and!; try done; [|by exists f].
  apply linked_ends. split_and!; try done; [congruence|rewrite Hwin'; lia].
Qed.

(** A stream of messages over a linked pair. *)
Lemma link_stream fuel ida idb ms a b ra rb sa sb :
  linked a ida b idb ra rb sa sb -> Forall message_ok ms ->
  r_send_packet_id ra + Z.of_nat (length ms) < 2 ^ 64 ->
  exists fs hdrs a' b' ra' rb' sb',
    for_each ms (fun m => send_frame ida (fst m) (snd m)) a = (tt, a') /\
    c_trace a' = c_trace a ++ map (fun f => EvSendTo "tcp" ida f 0) fs /\
    for_each fs (handle_data fuel idb) b = (tt, b') /\
    map hdr_payload_type hdrs = map fst ms /\
    c_trace b' = c_trace b ++
      concat (zip_with (handled b (remote_view idb rb)) hdrs (map snd ms)) /\
    linked a' ida b' idb ra' rb' sa sb' /\ core_of ra' = core_of ra /\
    same_env a a' /\ same_env b b' /\ core_of rb' = core_of rb /\
    r_send_packet_id rb' = r_send_packet_id rb /\ (ready b idb rb -> ready b' idb rb') /\
    Forall frame_fits fs /\ length fs = length ms /\
    r_send_packet_id ra' = r_send_packet_id ra + Z.of_nat (length ms).
Proof.
  intros Hl Hf. revert a b ra rb sb Hl.
  induction Hf as [|[t p] ms Hm Hf IH]; intros a b ra rb sb Hl Hn.
  { exists [], [], a, b, ra, rb, sb. cbn. rewrite !app_nil_r. split_and!; done || lia. }
  cbn [length] in Hn.
  destruct (link_step fuel a ida b idb ra rb sa sb t p) as
    (f & hdr & a1 & b1 & rb1 & sb1 & Hs & Hta & Hd & Ht & Htb & Hl1 & Hea & Heb & Hcore & Hpid & Hrdy & Hfit);
    [done|done|lia|].
  assert (r_send_packet_id (after_send ra) = r_send_packet_id ra + 1) as Hnext.
  { cbn [after_send r_send_packet_id set_r_transport_paths set_r_send_packet_id].
    destruct Hl. apply wrap_small. unfold fits. lia. }
  destruct (IH a1 b1 (after_send ra) rb1 sb1 Hl1) as
    (fs & hdrs & a2 & b2 & ra2 & rb2 & sb2 & Hs2 & Hta2 & Hd2 & Ht2 & Htb2 & Hl2 & Hca2 & Hea2 & Heb2 &
     Hcore2 & Hpid2 & Hrdy2 & Hfit2 & Hlen & Hlast);
    [lia|].
  exists (f :: fs), (hdr :: hdrs), a2, b2, ra2, rb2, sb2. cbn [for_each map zip_with concat fst snd].
  rewrite (cm_run _ _ _ _ _ Hs), (cm_run _ _ _ _ _ Hd).
  split_and!; try done; [|by rewrite Ht, Ht2| | |by etrans|by etrans|congruence|congruence|by auto|by constructor|cbn [length]; lia|cbn [length]; lia].
  - rewrite Hta2, Hta, <-app_assoc. done.
  - rewrite Htb2, Htb, <-app_assoc. do 2 f_equal.
    destruct (core_of_remote _ _ Hcore) as (_ & Hrem & _). unfold remote_view. rewrite Hrem.
    f_equal. apply handled_same, Heb.
  - rewrite Hca2. unfold core_of, path_ids. cbn [after_send r_transport_paths set_r_transport_paths
      set_r_send_packet_id session_keys]. by rewrite <-list_fmap_compose.
Qed.

(** C4: messages sent on an established connection arrive.  Whatever messages an
    application sends, in whatever number, each is written as one frame, and the peer that
    gets the frames in order runs for each message, in order, exactly the handler chain of
    its type with exactly its payload; both managers are then again in such a state. *)
Theorem link_delivers fuel ida idb ms a b ra rb sa sb :
  linked a ida b idb ra rb sa sb -> Forall message_ok ms ->
  r_send_packet_id ra + Z.of_nat (length ms) < 2 ^ 64 ->
  exists fs hdrs a' b' ra' rb' sb',
    for_each ms (fun m => send_frame ida (fst m) (snd m)) a = (tt, a') /\
    c_trace a' = c_trace a ++ map (fun f => EvSendTo "tcp" ida f 0) fs /\
    for_each fs (handle_data fuel idb) b = (tt, b') /\
    map hdr_payload_type hdrs = map fst ms /\
    c_trace b' = c_trace b ++
      concat (zip_with (handled b (remote_view idb rb)) hdrs (map snd ms)) /\
    linked a' ida b' idb ra' rb' sa sb'.
Proof.
  intros Hl Hm Hn. destruct (link_stream fuel ida idb ms a b ra rb sa sb Hl Hm Hn) as
    (fs & hdrs & a' & b' & ra' & rb' & sb' & ? & ? & ? & ? & ? & ? & _).
  by exists fs, hdrs, a', b', ra', rb', sb'.
Qed.
End receiving.

#[local] Existing Instances ToyCrypto.ops ToyCrypto.laws.

Lemma alice_linked : linked alice 1 bob 1 alice_record bob_record (session_of alice) (session_of bob).
Proof.
  split; try (vm_compute; reflexivity); try (split; vm_compute; reflexivity).
  split; try (vm_compute; reflexivity); try exact alice_record_lookup.
  - eexists. split; [vm_compute; reflexivity|]. split_and!; vm_compute; reflexivity.
  - exists toy_tcp. split; [vm_compute; reflexivity|done].
Qed.

Lemma link_delivers_witness :
  exists fs hdrs a' b' ra' rb' sb',
    for_each [(100, [x41]); (300, [x42; x43])] (fun m => send_frame 1 (fst m) (snd m)) alice = (tt, a') /\
    c_trace a' = c_trace alice ++ map (fun f => EvSendTo "tcp" 1 f 0) fs /\
    for_each fs (handle_data 2 1) bob = (tt, b') /\
    map hdr_payload_type hdrs = [100; 300] /\
    c_trace b' = c_trace bob ++
      concat (zip_with (handled bob (remote_view 1 bob_record)) hdrs [[x41]; [x42; x43]]) /\
    linked a' 1 b' 1 ra' rb' (session_of alice) sb'.
Proof.
  apply (link_delivers 2 1 1 [(100, [x41]); (300, [x42; x43])] alice bob alice_record bob_record
    (session_of alice) (session_of bob)); [exact alice_linked| |vm_compute; reflexivity].
  repeat constructor; cbn [fst snd]; try (vm_compute; congruence); unfold fits; lia.
Defined.
