(* ===== verification/CmStream.v ===== *)
(** * A stream of frames at an established connection

    The frames a peer sends over a session arrive as bytes in pieces of any size.  [delivered]
    is what the receiver owes its handlers: of the frames that have arrived, those whose
    packet id the replay window accepts.  [handle_data] runs exactly their handler chains,
    whatever the pieces ([stream_pieces]). *)

From Stdlib Require Import ZArith Strings.Byte String Lia.
From stdpp Require Import base gmap list strings numbers.
From S2P Require Import Prelude Codec Wire NonceWindow Queue Crypto Noise Session Signals.
From S2P Require Import CmState CmTransport CmClose CmHandshake CmDispatch CmLifecycle CmFrame CmInvariant CmScenario.
From S2P Require Import CmReassembly CmDelivery CmLink.

Local Open Scope Z_scope.

(** A message with its packet id and the frame that carries it. *)
Record item := mk_item { it_id : Z; it_msg : Z * bytes; it_frame : header_t * bytes }.

Definition it_raw (it : item) : bytes := frame_bytes (it_frame it).1 (it_frame it).2.

(** The items the window accepts, in order, and the window after them. *)
Fixpoint delivered (w : NonceWindow) (its : list item) : list item * NonceWindow :=
  match its with
  | [] => ([], w)
  | it :: its =>
      let '(ok, w) := accept (it_id it) w in
      let '(got, w) := delivered w its in
      ((if ok : bool then [it] else []) ++ got, w)
  end.

(** Packet ids that rise from above [h] are all accepted. *)
Fixpoint rising (h : Z) (its : list item) : Prop :=
  match its with
  | [] => True
  | it :: its => 0 < it_id it /\ h < it_id it /\ rising (it_id it) its
  end.

Lemma deliver_rising w its :
  rising (highest_nonce w) its -> (delivered w its).1 = its.
Proof.
  revert w. induction its as [|it its IH]; intros w; [done|]. cbn. intros (Hpos & Hh & Hr).
  destruct (accept_next (it_id it) w Hpos Hh) as (w' & -> & Hw'). rewrite <-Hw' in Hr. specialize (IH w' Hr).
  destruct (delivered w' its). cbn in *. by rewrite IH.
Qed.

Lemma rising_app h a b : rising h (a ++ b) -> rising h a.
Proof. revert h. induction a as [|it a IH]; intros h; [done|]. cbn. intros (? & ? & Hr%IH). done. Qed.

Lemma rising_seq p h its :
  map it_id its = seqZ p (Z.of_nat (length its)) -> 0 < p -> h < p -> rising h its.
Proof.
  revert p h. induction its as [|it its IH]; intros p h; [done|]. cbn [map length rising].
  rewrite Nat2Z.inj_succ, seqZ_cons by lia. rewrite Z.pred_succ. intros [= -> Hids] Hp Hh. split_and!; [done..|].
  apply (IH (Z.succ p)); [done|lia|lia].
Qed.

(** New packet ids that are less than a window apart are all accepted, in whatever order. *)
Lemma deliver_near h0 seen lo w its :
  since h0 seen w -> h0 < lo -> 0 < lo ->
  (forall n, n ∈ seen ++ map it_id its -> lo <= n < lo + WINDOW_SIZE) -> NoDup (seen ++ map it_id its) ->
  (delivered w its).1 = its.
Proof.
  revert seen w. induction its as [|it its IH]; intros seen w Hs Hh Hlo Hr Hd; [done|]. cbn [map delivered] in *.
  assert (lo <= it_id it < lo + WINDOW_SIZE) as Hit by (apply Hr; set_solver).
  destruct (accept_since h0 seen w (it_id it)) as (w' & -> & Hs'); [done|lia|lia| | |].
  - apply list.NoDup_app in Hd as (_ & Hd & _). intros Hin. apply (Hd _ Hin). left.
  - destruct (sn_top _ _ _ Hs) as [->|Htop]; [lia|].
    assert (lo <= highest_nonce w < lo + WINDOW_SIZE) by (apply Hr; set_solver). lia.
  - specialize (IH (it_id it :: seen) w' Hs' Hh Hlo). destruct (delivered w' its) as [got w2]. cbn [fst app] in *.
    rewrite IH; [done|intros n Hn; apply Hr; set_solver|]. by rewrite Permutation_middle.
Qed.

Lemma deliver_app w a b :
  delivered w (a ++ b) = ((delivered w a).1 ++ (delivered (delivered w a).2 b).1, (delivered (delivered w a).2 b).2).
Proof.
  revert w. induction a as [|it a IH]; intros w; cbn; [by destruct (delivered w b)|].
  destruct (accept (it_id it) w) as [ok w1]. rewrite IH. destruct (delivered w1 a) as [l w2]. cbn.
  by rewrite <-app_assoc.
Qed.

Lemma deliver_sublist w its : (delivered w its).1 `sublist_of` its.
Proof.
  revert w. induction its as [|it its IH]; intros w; [done|]. cbn.
  destruct (accept (it_id it) w) as [ok w1]. specialize (IH w1). destruct (delivered w1 its). cbn in *.
  destruct ok; by constructor.
Qed.

Lemma deliver_Forall (P : item -> Prop) w its : Forall P its -> Forall P (delivered w its).1.
Proof.
  destruct (submseteq_Permutation _ _ (sublist_submseteq _ _ (deliver_sublist w its))) as [k Hk].
  rewrite Hk at 1. by intros [? _]%Forall_app.
Qed.

(** What is left of a buffer after its complete frames. *)
Definition left_over (buf : bytes) : bytes := (frames_of buf).1.2.

(** No piece takes the buffered bytes over the limit. *)
Fixpoint within_limit (buf : bytes) (pieces : list bytes) : bool :=
  match pieces with
  | [] => true
  | raw :: pieces => (blen (buf ++ raw) <=? MAX_RECV_BUF) && within_limit (left_over (buf ++ raw)) pieces
  end.

(** The handler calls that a list of items causes at [c]. *)
Definition runs (c : cm) (ep : endpoint_t) (its : list item) : list event :=
  concat (map (fun it => handled c ep (it_frame it).1 (it_msg it).2) its).

Lemma runs_app c ep a b : runs c ep (a ++ b) = runs c ep a ++ runs c ep b.
Proof. unfold runs. by rewrite map_app, concat_app. Qed.

Section stream.
Context `{CO : !CryptoOps} {CL : CryptoLaws CO} (fuel : nat).

Definition item_ok (k : bytes) (it : item) : Prop := carries k (it_id it) (it_msg it) (it_frame it).

Lemma items_wire k its : Forall (item_ok k) its -> Forall wire_frame (map it_frame its).
Proof. intros H. apply Forall_map. eapply Forall_impl; [|exact H]. by intros it (? & ? & ? & ? & Hw & _). Qed.

(** A manager that reads under [kr] with window [w] and has buffered [buf]; [ep] is the peer it
    reports, [c0] the manager at the beginning. *)
Definition attends (c0 : cm) (id : Z) (ep : endpoint_t) (kr : bytes) (w : NonceWindow) (buf : bytes) (c : cm) : Prop :=
  exists r s, hears c id r s /\ recv_key s = kr /\ recv_window s = w /\ r_recv_buf r = buf /\
    remote_view id r = ep /\ same_env c0 c.

Lemma receives_listens c id r s :
  receives c id r s -> attends c id (remote_view id r) (recv_key s) (recv_window s) [] c.
Proof. intros [Hh Hb]%receives_hears. by exists r, s. Qed.

Lemma listens_frame c0 id ep kr w buf c it ok w' ts :
  attends c0 id ep kr w buf c -> item_ok kr it -> accept (it_id it) w = (ok, w') ->
  exists c', cm_dispatch fuel id (it_frame it).1 (it_frame it).2 ts c = (tt, c') /\
    c_trace c' = c_trace c ++ runs c0 ep (if ok then [it] else []) /\ attends c0 id ep kr w' buf c'.
Proof.
  intros (r & s & Hh & <- & <- & <- & <- & He) Hit Hacc.
  destruct (dispatch_message fuel c id r s _ _ _ ok w' ts Hh Hit Hacc) as (c' & r' & s' & Hd & Ht & Hheard).
  destruct Hheard as [Hh' He' Hcore _ [_ Hk] Hw' _]. destruct (core_of_remote _ _ Hcore) as (_ & Hrem & Hbuf & _).
  exists c'. split_and!; [done| |exists r', s'; split_and!; try done; [|by etrans]; unfold remote_view; by rewrite Hrem].
  rewrite Ht. f_equal. destruct ok; [|done]. cbn. rewrite app_nil_r.
  pose proof (handled_same c0 c (remote_view id r) [(it_frame it).1] [(it_msg it).2] (se_channels _ _ He)) as [=->]. done.
Qed.

Lemma listens_frames c0 id ep kr w buf its c ts :
  attends c0 id ep kr w buf c -> Forall (item_ok kr) its ->
  let c' := run_frames (cm_dispatch fuel) id ts (map it_frame its) c in
  c_trace c' = c_trace c ++ runs c0 ep (delivered w its).1 /\ attends c0 id ep kr (delivered w its).2 buf c'.
Proof.
  intros Hl Hits. revert w c Hl. induction Hits as [|it its Hit Hits IH]; intros w c Hl; cbn [delivered map run_frames]; [cbn; by rewrite app_nil_r|].
  destruct (accept (it_id it) w) as [ok w1] eqn:Hacc.
  destruct (listens_frame _ _ _ _ _ _ _ _ _ _ ts Hl Hit Hacc) as (c1 & Hd & Ht & Hl1).
  destruct (it_frame it) as [hdr p]. cbn [fst snd] in Hd. rewrite Hd. cbn [snd].
  destruct (IH w1 c1 Hl1) as [Ht2 Hl2]. pose proof Hl1 as (r1 & s1 & [Hr1 _ _ _ _ _] & _). rewrite Hr1.
  destruct (delivered w1 its) as [got w2]. cbn [fst snd] in *. by rewrite Ht2, Ht, runs_app, <-app_assoc.
Qed.

Lemma listens_set_buf c0 id ep kr w buf b c :
  attends c0 id ep kr w buf c -> attends c0 id ep kr w b (set_buf id b c) /\ c_trace (set_buf id b c) = c_trace c.
Proof.
  intros (r & s & [] & ? & ? & ? & ? & []). split; [|done]. exists (set_r_recv_buf b r), s. split_and!; try done.
  split; try done. cbn. by rewrite lookup_alter_eq, hr_record.
Qed.

Lemma dispatch_leaves_buffer id : leaves_buffer (cm_dispatch fuel) id.
Proof.
  intros hdr p ts c r1 r2 Hx Hy. destruct (BufKept_dispatch fuel id hdr p ts c _ _ Hy) as (r0 & Hr0 & E). congruence.
Qed.

(** One read. *)
Lemma listens_data c0 id ep kr w buf c raw its rest :
  attends c0 id ep kr w buf c -> Forall (item_ok kr) its ->
  frames_of (buf ++ raw) = (map it_frame its, rest, None) -> blen (buf ++ raw) <= MAX_RECV_BUF ->
  exists c', handle_data fuel id raw c = (tt, c') /\
    c_trace c' = c_trace c ++ runs c0 ep (delivered w its).1 /\ attends c0 id ep kr (delivered w its).2 rest c'.
Proof.
  intros Hl Hits Hf Hmax. pose proof Hl as (r & s & [Hr Hrun Hti _ _ _] & _ & _ & Hb & _). rewrite <-Hb in *.
  destruct (handle_data_spec (cm_dispatch fuel) id id raw c r (map it_frame its) rest) as (b & Hd);
    [apply dispatch_leaves_buffer|done|by rewrite Hti|done|done|done|].
  destruct (listens_set_buf _ _ _ _ _ _ b _ Hl) as [Hl1 Ht1].
  destruct (listens_frames _ _ _ _ _ _ _ _ (c_now_ns c) Hl1 Hits) as [Ht2 Hl2].
  destruct (listens_set_buf _ _ _ _ _ _ rest _ Hl2) as [Hl3 Ht3].
  exists (handle_data_with (cm_dispatch fuel) id raw c).2. split_and!.
  - unfold handle_data. by destruct (handle_data_with (cm_dispatch fuel) id raw c) as [[] c'].
  - by rewrite Hd, Ht3, Ht2, Ht1.
  - by rewrite Hd.
Qed.

(** Frames that begin a stream of items. *)
Lemma frames_of_split buf raw k its tail :
  frames_of (buf ++ raw ++ k) = (map it_frame its, tail, None) ->
  exists its1 its2, its = its1 ++ its2 /\ frames_of (buf ++ raw) = (map it_frame its1, left_over (buf ++ raw), None) /\
    frames_of (left_over (buf ++ raw) ++ k) = (map it_frame its2, tail, None).
Proof.
  unfold left_over. rewrite app_assoc, frames_of_app. destruct (frames_of (buf ++ raw)) as [[fs rest] [why|]]; [done|].
  cbn [fst snd]. destruct (frames_of (rest ++ k)) as [[fs' r] e]. intros [= Hfs <- ->].
  symmetry in Hfs. apply map_eq_app in Hfs as (its1 & its2 & -> & <- & <-). by exists its1, its2.
Qed.

Lemma listens_pieces c0 id ep kr pieces its tail w buf c :
  attends c0 id ep kr w buf c -> Forall (item_ok kr) its -> within_limit buf pieces = true ->
  frames_of buf = ([], buf, None) -> frames_of (buf ++ concat pieces) = (map it_frame its, tail, None) ->
  exists c', for_each pieces (handle_data fuel id) c = (tt, c') /\
    c_trace c' = c_trace c ++ runs c0 ep (delivered w its).1 /\ attends c0 id ep kr (delivered w its).2 tail c'.
Proof.
  revert its w buf c. induction pieces as [|raw pieces IH]; intros its w buf c Hl Hits Hlim Hb Hf.
  { cbn [concat] in Hf. rewrite app_nil_r, Hb in Hf. injection Hf as Hn <-. destruct its; [|done].
    exists c. cbn. by rewrite app_nil_r. }
  cbn [within_limit concat] in *. apply andb_prop in Hlim as [Hmax%Z.leb_le Hlim].
  destruct (frames_of_split _ _ _ _ _ Hf) as (its1 & its2 & -> & Hf1 & Hf2). apply Forall_app in Hits as [Hi1 Hi2].
  destruct (listens_data _ _ _ _ _ _ _ _ _ _ Hl Hi1 Hf1 Hmax) as (c1 & Hd & Ht & Hl1).
  pose proof (frames_of_rest (buf ++ raw)) as Hrest. rewrite Hf1 in Hrest.
  destruct (IH its2 _ _ _ Hl1 Hi2 Hlim Hrest Hf2) as (c2 & Hd2 & Ht2 & Hl2).
  exists c2. cbn [for_each]. rewrite (cm_run _ _ _ _ _ Hd), deliver_app. cbn [fst snd]. split_and!; [done| |exact Hl2].
  by rewrite Ht2, Ht, runs_app, <-app_assoc.
Qed.

(** C7: reception does not depend on how the stream is cut.  Frames that a peer's session has
    made, sent back to back and followed by an incomplete one, arrive at an established
    connection in pieces of any sizes that never take the buffered bytes over the 16 MB limit.
    The manager runs, in order, the handler chains of exactly the frames whose packet id the
    replay window accepts, each with its payload (of all of them when the packet ids rise, as
    the sender assigns them), and exactly the bytes of the incomplete frame stay buffered. *)
Theorem stream_pieces id c r s its tail pieces :
  receives c id r s -> Forall (item_ok (recv_key s)) its -> frames_of tail = ([], tail, None) ->
  concat pieces = concat (map it_raw its) ++ tail -> within_limit [] pieces = true ->
  exists c' r' s', for_each pieces (handle_data fuel id) c = (tt, c') /\
    c_trace c' = c_trace c ++ runs c (remote_view id r) (delivered (recv_window s) its).1 /\
    (rising (highest_nonce (recv_window s)) its -> (delivered (recv_window s) its).1 = its) /\
    hears c' id r' s' /\ r_recv_buf r' = tail /\ recv_window s' = (delivered (recv_window s) its).2.
Proof.
  intros Hr Hits Htail Hp Hlim.
  destruct (listens_pieces c id (remote_view id r) (recv_key s) pieces its tail (recv_window s) [] c) as (c' & Hd & Ht & Hl);
    [by apply receives_listens|done|done|done| |].
  { cbn [app]. rewrite Hp. rewrite <-(frames_of_wire (map it_frame its) tail) by eauto using items_wire.
    by rewrite map_map. }
  destruct Hl as (r' & s' & Hh & _ & Hw & Hb & _). exists c', r', s'. split_and!; try done. apply deliver_rising.
Qed.
End stream.

#[local] Existing Instances ToyCrypto.ops ToyCrypto.laws.

(** Two frames of [alice], with packet ids as she assigns them. *)
Definition toy_item (n : Z) (p : bytes) : item :=
  let w := encrypt p n true 512 1 (session_of alice) in mk_item n (100, p) (mk_hdr 0 100 w n, w).

Definition toy_items : list item := [toy_item 5 [x41]; toy_item 7 [x42; x43]; toy_item 5 [x44]; toy_item 6 [x45]].

Lemma toy_items_ok : Forall (item_ok (recv_key (session_of bob))) toy_items.
Proof.
  repeat constructor; (exists true, 512, 1, (session_of alice); split_and!;
    [repeat split; vm_compute; congruence|vm_compute; congruence|reflexivity|reflexivity|reflexivity| |reflexivity|vm_compute; reflexivity]);
    (split_and!; [repeat constructor; vm_compute; congruence|done|vm_compute; congruence]).
Qed.

(** Cut into three pieces and followed by two bytes of a frame; the third frame repeats a packet
    id, so three of the four are handled. *)
Definition toy_stream : bytes := concat (map it_raw toy_items) ++ [x54; x45].

Example toy_delivered : map it_id (delivered (recv_window (session_of bob)) toy_items).1 = [5; 7; 6].
Proof. vm_compute. reflexivity. Qed.

Lemma stream_pieces_witness :
  exists c' r' s',
    for_each [take 5 toy_stream; slice 5 60 toy_stream; drop 65 toy_stream] (handle_data 2 1) bob = (tt, c') /\
    c_trace c' = c_trace bob ++ runs bob (remote_view 1 bob_record) (delivered (recv_window (session_of bob)) toy_items).1 /\
    (rising (highest_nonce (recv_window (session_of bob))) toy_items ->
     (delivered (recv_window (session_of bob)) toy_items).1 = toy_items) /\
    hears c' 1 r' s' /\ r_recv_buf r' = [x54; x45] /\
    recv_window s' = (delivered (recv_window (session_of bob)) toy_items).2.
Proof.
  apply (stream_pieces 2 1 bob bob_record (session_of bob) toy_items [x54; x45]);
    [|exact toy_items_ok|reflexivity|reflexivity|vm_compute; reflexivity].
  split; try (vm_compute; reflexivity). split; vm_compute; reflexivity.
Defined.
