(* ===== verification/CmTcp.v ===== *)
(** * The whole path of a message: manager, TCP connector, socket, connector, manager

    Two managers with their TCP connectors and the two streams between their sockets.  A
    manager's connector calls become operations of its connector ([tcp_call]), what a
    connector tells its core become calls of the manager ([tcp_tells]), and each stream hands
    over the bytes the other socket has written in pieces of any size.  A schedule is a list
    of actions on either side: messages sent, any of the posted tasks taken up by some thread,
    writes started and ended, well or with an error, bytes arriving.  A socket whose write has
    failed sends nothing more; the connection stays up (no read fails) along a schedule.

    In every schedule each manager has run handler chains of messages the other has sent, none
    more often than it was sent; in the order they were sent when the sender's tasks were taken
    up in order; and all of them once everything is read, when no write failed and the tasks
    were in order or few enough for the replay window to forgive the order ([stack_prefix]).
    Every schedule without failed writes can be completed to such an end ([stack_completes]). *)

From Stdlib Require Import ZArith Strings.Byte String Lia.
From stdpp Require Import base gmap list strings numbers.
From S2P Require Import Prelude Codec Wire NonceWindow Queue Crypto Noise Session Signals.
From S2P Require Import CmState CmTransport CmClose CmHandshake CmDispatch CmLifecycle HostApi CmFrame CmInvariant CmScenario.
From S2P Require Import CmReassembly Tcp TcpStream CmDelivery CmLink CmStream.

Local Open Scope Z_scope.

(** ** A node: manager and connector *)

(** The operations of a connector table are those of [tcp.cpp]. *)
Definition tcp_call (e : event) : list tcp_op :=
  match e with
  | EvSendTo "tcp" id f _ => [TDoSend id f]
  | EvSendGather "tcp" id fs _ => [TDoSendGather id fs]
  | EvConnect "tcp" uri => [TDoConnect (str_bytes uri)]
  | EvClose "tcp" id => [TDoClose id false]
  | EvCloseNow "tcp" id => [TDoClose id true]
  | _ => []
  end.

(** One connection of a node: [n_id] for the manager, slot [n_slot] of the connector;
    [n_read] counts the bytes of the peer's socket that have arrived. *)
Record node := mk_node {
  n_cm : cm;
  n_tcp : TcpConnector;
  n_read : nat;
  n_id : Z;
  n_slot : nat;
}.

Definition set_n_tcp (c : TcpConnector) (n : node) : node := mk_node (n_cm n) c (n_read n) (n_id n) (n_slot n).

(** What the socket of the connection has sent. *)
Definition wire_of (n : node) : bytes := from_option t_wire [] (tc_heap (n_tcp n) !! n_slot n).

(** A computation of the manager, whose connector calls reach the connector. *)
Definition manager_call (m : CM unit) (n : node) : node :=
  let c := (m (n_cm n)).2 in
  let calls := concat (map tcp_call (drop (length (c_trace (n_cm n))) (c_trace c))) in
  mk_node c (run_tcp calls (n_tcp n)) (n_read n) (n_id n) (n_slot n).

(** The socket of the connection has failed to write. *)
Definition broken (n : node) : bool := from_option t_failed false (tc_heap (n_tcp n) !! n_slot n).

(** [ATask i]: a thread takes up the [i]th posted task; [AWritten r]: the write in flight ends. *)
Inductive stack_action :=
  | ASend (t : Z) (p : bytes)
  | ATask (i : nat)
  | AStart
  | AWritten (r : write_result)
  | ARecv (len : nat).

Section actions.
Context `{CO : !CryptoOps} (fuel : nat).

(** The notifications a connector makes through the host table. *)
Definition tcp_tells (o : tcp_out) : CM unit :=
  match o with
  | NotifyConnect ep => handle_connect ep ;; mret tt
  | NotifyData id data => handle_data fuel id data
  | NotifyDisconnect id err => handle_disconnect id err
  end.

(** An action of a node; [peer] is what the other socket has sent. *)
Definition act (peer : bytes) (n : node) (x : stack_action) : node :=
  match x with
  | ASend t p => manager_call (send_frame (n_id n) t p) n
  | ATask i => set_n_tcp (run_tcp [TRun i] (n_tcp n)) n
  | AStart => set_n_tcp (run_tcp [TStartWrite (n_slot n)] (n_tcp n)) n
  | AWritten r => set_n_tcp (run_tcp [TWritten (n_slot n) (if broken n then WrError 0 else r)] (n_tcp n)) n
  | ARecv len =>
      let data := take len (drop (n_read n) peer) in
      let tcp := run_tcp [TRecv (n_slot n) data] (n_tcp n) in
      let told := drop (length (tc_out (n_tcp n))) (tc_out tcp) in
      manager_call (for_each told tcp_tells) (mk_node (n_cm n) tcp (n_read n + length data) (n_id n) (n_slot n))
  end.

(** Two nodes; [true] is the first. *)
Definition stack_step (w : node * node) (sx : bool * stack_action) : node * node :=
  let '(side, x) := sx in
  if side then (act (wire_of w.2) w.1 x, w.2) else (w.1, act (wire_of w.1) w.2 x).

Definition run_stack (xs : list (bool * stack_action)) (w : node * node) : node * node := fold_left stack_step xs w.
End actions.

(** The messages one side sends in a schedule. *)
Definition sent_by (side : bool) (xs : list (bool * stack_action)) : list (Z * bytes) :=
  omap (fun '(s, x) => match x with ASend t p => if Bool.eqb s side then Some (t, p) else None | _ => None end) xs.

(** The threads of one side take up its tasks in the order they were posted. *)
Definition in_turn (x : stack_action) : bool := match x with ATask i => bool_decide (i = 0%nat) | _ => true end.

(** No write of one side fails. *)
Definition sound (x : stack_action) : bool := match x with AWritten (WrAborted _ | WrError _) => false | _ => true end.

Definition all_of (side : bool) (f : stack_action -> bool) (xs : list (bool * stack_action)) : bool :=
  forallb (fun '(s, x) => if Bool.eqb s side then f x else true) xs.

Definition in_order (side : bool) (xs : list (bool * stack_action)) : Prop := all_of side in_turn xs = true.
Definition unbroken (side : bool) (xs : list (bool * stack_action)) : Prop := all_of side sound xs = true.

(** The handler calls among the events of a manager. *)
Definition is_handle (e : event) : bool := match e with EvHandle _ _ _ _ => true | _ => false end.
Definition handles (tr : list event) : list event := List.filter is_handle tr.

Lemma handles_app a b : handles (a ++ b) = handles a ++ handles b.
Proof. apply List.filter_app. Qed.

Lemma handles_handled c ep hdr p : handles (handled c ep hdr p) = handled c ep hdr p.
Proof. unfold handled, handles. induction (dispatch_packet _ _ _ _ _).2 as [|x l IH]; [done|]. cbn. by rewrite IH. Qed.

(** ** The connector *)

(** What the reader makes of the beginning of a stream of frames. *)
Lemma read_stream_prefix got rest fs :
  Forall tcp_frame fs -> concat (map (fun f => raw_frame f) fs) = got ++ rest ->
  exists k st, read_stream got read_init = (st, map (fun f => RdFrame (raw_frame f)) (take k fs)) /\
    (k <= length fs)%nat /\ (rest = [] -> k = length fs).
Proof.
  intros Hfs. revert got. induction Hfs as [|f fs Hf Hfs IH]; intros got He.
  { cbn [map concat] in He. symmetry in He. apply app_nil in He as [-> ->]. by exists 0%nat, read_init. }
  cbn [map concat] in He. apply app_eq_inv in He as [(q & Hg & ->)|(q & -> & Hq)].
  - destruct q as [|b q].
    + rewrite app_nil_r in Hg. subst got. rewrite read_frame by done. exists 1%nat, read_init. cbn [take].
      split; [by destruct fs|]. cbn [app length]. split; [lia|]. intros Hc. destruct fs as [|f' fs]; [done|].
      apply (f_equal length) in Hc. cbn [map concat] in Hc. rewrite length_app, length_frame_bytes in Hc; [simpl in Hc; lia|].
      apply Forall_cons_1 in Hfs as [[Hw _] _]. apply Hw.
    + destruct (read_partial got) as (st & Hst & _); [by exists f, (b :: q)|].
      exists 0%nat, st. rewrite Hst. split_and!; [done|lia|done].
  - destruct (IH q Hq) as (k & st & Hst & Hk & Hall). exists (S k), st. cbn [take map].
    rewrite read_stream_app, read_frame, Hst by done. cbn [length].
    split_and!; [done|lia|]. intros ->. by rewrite Hall.
Qed.

(** The connector with its connection: it was given [log0] and then the items [qs], [wait] are
    still in posted tasks, the socket has sent [out] and the reader is in state [st]; [u]: no
    write has failed. *)
Record port (id : Z) (k : nat) (log0 : list bytes) (qs wait : list item) (out : bytes) (st : read_state) (u : bool)
    (c : TcpConnector) : Prop := mk_port {
  pt_running : tc_stopped c = false;
  pt_table : tc_connections c !! id = Some k;
  pt_tasks : tc_tasks c = map (fun it => TaskSend id [it_raw it]) wait;
  pt_conn : exists conn, tc_heap c !! k = Some conn /\ t_id conn = id /\ write_inv conn /\
    (u = true -> t_failed conn = false) /\ t_log conn = log0 ++ map it_raw qs /\ t_wire conn = out /\
    out `prefix_of` concat (t_log conn) /\ t_read conn = st;
}.

(** The connection of slot [k] has nothing to do: no task is posted and no write is under way. *)
Definition idle (k : nat) (c : TcpConnector) : Prop :=
  tc_tasks c = [] /\ exists conn, tc_heap c !! k = Some conn /\ t_writing conn = false.

(** The actions of the connector on its own; those that bring it to rest, and their operations. *)
Definition works (x : stack_action) : bool := match x with ATask _ | AStart | AWritten _ => true | _ => false end.

Definition pumps (x : stack_action) : bool := works x && in_turn x && sound x.

Definition work_op (k : nat) (x : stack_action) : tcp_op :=
  match x with
  | AStart => TStartWrite k
  | AWritten _ => TWritten k WrDone
  | _ => TRun 0
  end.

Abbreviation worked k xs c := (run_tcp (map (work_op k) xs) c).

Section port.
Context (id : Z) (k : nat) (log0 : list bytes).

Lemma port_post qs wait out st u c it :
  port id k log0 qs wait out st u c -> port id k log0 qs (wait ++ [it]) out st u (run_tcp [TDoSend id (it_raw it)] c).
Proof. intros [Hs Hc Ht Hconn]. split; try done. cbn. by rewrite Ht, map_app. Qed.

(** A posted task taken up: the frame joins the queue of the connection. *)
Lemma port_task i qs wait out st u c :
  port id k log0 qs wait out st u c ->
  port id k log0 (qs ++ option_list (wait !! i)) (delete i wait) out st u (run_tcp [TRun i] c).
Proof.
  intros H. pose proof H as [Hs Hc Ht (conn & Hk & Hid & Hw & Hf & Hlog & Hwire & Hpre & Hr)].
  unfold run_tcp. cbn [fold_left run_tcp_op]. rewrite Hs, Ht, list_lookup_fmap.
  destruct (wait !! i) as [it|] eqn:Hi; cbn [fmap option_fmap option_map option_list].
  2: { apply lookup_ge_None in Hi. rewrite app_nil_r, delete_take_drop, take_ge, drop_ge, app_nil_r by lia. done. }
  cbn [run_task tc_connections]. rewrite Hc. split; try done.
  - symmetry. exact (list_fmap_delete (fun it => TaskSend id [it_raw it]) wait i).
  - exists (enqueue [it_raw it] conn). split_and!; try done.
    + cbn [tc_heap upd_conn]. by rewrite list_lookup_alter_eq, Hk.
    + by apply enqueue_keeps.
    + cbn [enqueue t_log]. by rewrite Hlog, map_app, <-app_assoc.
    + cbn [enqueue t_log]. rewrite concat_app. by apply prefix_app_r.
Qed.

(** Steps on the connection itself that add to what the socket has sent. *)
Lemma port_conn qs wait out st u u' c g conn more :
  port id k log0 qs wait out st u c -> tc_heap c !! k = Some conn -> write_inv (g conn) ->
  t_id (g conn) = t_id conn -> t_log (g conn) = t_log conn -> t_read (g conn) = t_read conn ->
  (u' = true -> t_failed (g conn) = false) -> t_wire (g conn) = t_wire conn ++ more ->
  (out ++ more) `prefix_of` concat (t_log conn) ->
  port id k log0 qs wait (out ++ more) st u' (upd_conn k g c).
Proof.
  intros [Hs Hc Ht (conn' & Hk' & Hid & Hw & Hf & Hlog & Hwire & Hpre & Hr)] Hk Hw' H1 H2 H3 H4 H5 H6.
  rewrite Hk' in Hk. injection Hk as ->. split; try done.
  exists (g conn). rewrite H1, H2, H3, H5, Hwire. split_and!; try done.
  cbn [tc_heap upd_conn]. by rewrite list_lookup_alter_eq, Hk'.
Qed.

Lemma port_start qs wait out st u c :
  port id k log0 qs wait out st u c -> port id k log0 qs wait out st u (run_tcp [TStartWrite k] c).
Proof.
  intros H. pose proof H as [Hs Hc Ht (conn & Hk & Hid & Hw & Hf & Hlog & Hwire & Hpre & Hr)].
  unfold run_tcp. cbn [fold_left run_tcp_op]. rewrite Hs, <-(app_nil_r out).
  assert (t_log (start_write conn) = t_log conn /\ t_read (start_write conn) = t_read conn /\
    t_failed (start_write conn) = t_failed conn /\ t_wire (start_write conn) = t_wire conn) as (H1 & H2 & H3 & H4)
    by (unfold start_write; by destruct (t_starts conn), (t_write_queue conn)).
  eapply port_conn; rewrite ?H1, ?H2, ?H3, ?H4, ?app_nil_r; eauto using start_write_keeps, start_write_id.
Qed.

(** A write that ends; a socket that has failed before sends nothing. *)
Lemma port_written r qs wait out st u c :
  port id k log0 qs wait out st u c ->
  let r' := if from_option t_failed false (tc_heap c !! k) then WrError 0 else r in
  exists more, port id k log0 qs wait (out ++ more) st (u && sound (AWritten r)) (run_tcp [TWritten k r'] c).
Proof.
  intros H r'. pose proof H as [Hs Hc Ht (conn & Hk & Hid & Hw & Hf & Hlog & Hwire & Hpre & Hr)].
  unfold r'. rewrite Hk. cbn [from_option]. unfold run_tcp. cbn [fold_left run_tcp_op]. rewrite Hs.
  set (q := if t_failed conn then WrError 0 else r).
  assert (exists more, t_wire (on_written q conn) = t_wire conn ++ more /\ (out ++ more) `prefix_of` concat (t_log conn) /\
    t_log (on_written q conn) = t_log conn /\ t_read (on_written q conn) = t_read conn /\
    (u && sound (AWritten r) = true -> t_failed (on_written q conn) = false)) as (more & H1 & H2 & H3 & H4 & H5).
  { unfold on_written. destruct (t_inflight conn) as [|batch rest] eqn:Hin.
    { exists []. rewrite !app_nil_r. split_and!; try done. intros [Hu _]%andb_prop. auto. }
    destruct (t_failed conn) eqn:Hfail; subst q.
    - exists []. rewrite !app_nil_r. split_and!; try done. by intros [Hu%Hf _]%andb_prop.
    - pose proof (wi_bytes _ Hw Hfail) as Hby. rewrite Hin in Hby. cbn [concat] in Hby. rewrite concat_app, <-!app_assoc in Hby.
      rewrite Hwire in Hby.
      destruct r as [|n|n]; cbn [t_wire t_log t_read t_failed sound].
      + exists (concat batch). split_and!; try done. rewrite Hby. apply prefix_app, prefix_app_r. done.
      + exists (take n (concat batch)). split_and!; try done; [|by rewrite andb_false_r].
        rewrite Hby. apply prefix_app, prefix_app_r, prefix_take.
      + exists (take n (concat batch)). split_and!; try done; [|by rewrite andb_false_r].
        rewrite Hby. apply prefix_app, prefix_app_r, prefix_take. }
  exists more. eapply port_conn; eauto using on_written_keeps, on_written_id.
Qed.

(** Bytes that make only frames keep the connection in the table. *)
Lemma recv_table c data conn st rs :
  tc_heap c !! k = Some conn -> read_stream data (t_read conn) = (st, rs) -> RdProtocolError ∉ rs ->
  tc_connections (fold_left (recv_byte k) data c) = tc_connections c /\ tc_tasks (fold_left (recv_byte k) data c) = tc_tasks c.
Proof.
  revert c conn st rs. induction data as [|b data IH]; intros c conn st rs Hk; [done|]. cbn [read_stream fold_left].
  destruct (read_byte b (t_read conn)) as [st1 r] eqn:Hb. destruct (read_stream data st1) as [st2 rs2] eqn:Hd.
  intros [= <- <-] Hno. apply not_elem_of_app in Hno as [Hr Hno].
  destruct (recv_byte_step k c conn b st1 r Hk Hb) as (Hk1 & _).
  destruct (IH (recv_byte k c b) (set_t_read st1 conn) st2 rs2 Hk1 Hd Hno) as [-> ->].
  unfold recv_byte. rewrite Hk, Hb. destruct r; [done|done|]. destruct Hr. by left.
Qed.

Lemma port_recv qs wait out st u c data st' fs' :
  port id k log0 qs wait out st u c -> read_stream data st = (st', map RdFrame fs') ->
  let c' := run_tcp [TRecv k data] c in
  port id k log0 qs wait out st' u c' /\ drop (length (tc_out c)) (tc_out c') = map (NotifyData id) fs' /\
  (idle k c -> idle k c').
Proof.
  intros [Hs Hc Ht (conn & Hk & Hid & Hw & Hf & Hlog & Hwire & Hpre & Hr)] Hrd c'.
  assert (c' = fold_left (recv_byte k) data c) as -> by (unfold c', run_tcp; cbn [fold_left run_tcp_op]; by rewrite Hs).
  rewrite <-Hr in Hrd. destruct (recv_stream k c conn data st' _ Hk Hrd) as (Hk' & Ho & Hs' & _).
  destruct (recv_table c data conn st' _ Hk Hrd) as [Hc' Ht'].
  { intros (x & Hx & _)%list_elem_of_fmap. done. }
  split_and!.
  - split; [by rewrite Hs'|by rewrite Hc'|by rewrite Ht'|]. exists (set_t_read st' conn). by split_and!; try apply write_inv_read.
  - rewrite Ho, drop_app_length, Hid, map_map. done.
  - intros (H1 & conn' & H2 & H3). rewrite Hk in H2. injection H2 as <-. split; [by rewrite Ht'|]. by exists (set_t_read st' conn).
Qed.

Lemma port_prefix qs wait out st u c :
  port id k log0 qs wait out st u c -> out `prefix_of` concat (log0 ++ map it_raw qs).
Proof. by intros [_ _ _ (conn & _ & _ & _ & _ & <- & _ & Hpre & _)]. Qed.

(** All that was given has been sent when nothing is left to do and no write has failed. *)
Lemma port_quiet qs wait out st u c :
  port id k log0 qs wait out st u c -> idle k c -> wait = [] /\ (u = true -> out = concat (log0 ++ map it_raw qs)).
Proof.
  intros [_ _ Ht (conn' & Hk & _ & Hw & Hf & Hlog & Hwire & _)] (Htasks & conn & Hk' & Hq). rewrite Hk in Hk'. injection Hk' as ->.
  split; [destruct wait; [done|by rewrite Ht in Htasks]|]. intros Hu. rewrite <-Hlog, <-Hwire. by apply quiet_wire; auto.
Qed.

(** *** The connector can always become idle *)

Definition settles (c : TcpConnector) : Prop := exists xs, Forall pumps xs /\ idle k (worked k xs c).

Lemma settles_step c x : pumps x -> settles (worked k [x] c) -> settles c.
Proof. intros Hx (xs & Hw & Hi). exists (x :: xs). by split; [constructor|]. Qed.

Lemma heap_start c conn :
  tc_stopped c = false -> tc_heap c !! k = Some conn -> tc_heap (worked k [AStart] c) !! k = Some (start_write conn).
Proof.
  intros Hs Hk. unfold run_tcp. cbn [map work_op fold_left run_tcp_op]. rewrite Hs. cbn [upd_conn tc_heap].
  by rewrite list_lookup_alter_eq, Hk.
Qed.

Lemma heap_written c conn r :
  tc_stopped c = false -> tc_heap c !! k = Some conn -> tc_heap (worked k [AWritten r] c) !! k = Some (on_written WrDone conn).
Proof.
  intros Hs Hk. unfold run_tcp. cbn [map work_op fold_left run_tcp_op]. rewrite Hs. cbn [upd_conn tc_heap].
  by rewrite list_lookup_alter_eq, Hk.
Qed.

Lemma port_idle_now qs out st u c conn :
  port id k log0 qs [] out st u c -> tc_heap c !! k = Some conn -> t_writing conn = false -> settles c.
Proof. intros [] Hk Hq. exists []. split; [constructor|]. split; [done|by exists conn]. Qed.

Lemma port_done qs wait out st c :
  port id k log0 qs wait out st true c ->
  exists more, port id k log0 qs wait (out ++ more) st true (worked k [AWritten WrDone] c).
Proof.
  intros H. pose proof (port_written WrDone _ _ _ _ _ _ H) as (more & H'). exists more.
  destruct H as [_ _ _ (conn & Hk & _ & _ & Hf & _)]. rewrite Hk in H'. cbn [from_option] in H'.
  by rewrite (Hf eq_refl) in H'.
Qed.

Lemma pump_start n qs out st c conn :
  port id k log0 qs [] out st true c -> tc_heap c !! k = Some conn ->
  t_starts conn = 1%nat -> t_inflight conn = [] -> (length (t_write_queue conn) <= n)%nat -> settles c.
Proof.
  revert out c conn. induction n as [|n IH]; intros out c conn H Hk Hst Hi Hn;
    apply (settles_step _ AStart); try done; pose proof (pt_running _ _ _ _ _ _ _ _ _ H) as Hs;
    pose proof (heap_start c conn Hs Hk) as Hk1; apply port_start in H;
    unfold start_write in Hk1; rewrite Hst in Hk1; destruct (t_write_queue conn) as [|f q] eqn:Hq;
    try (by eapply port_idle_now); [simpl in Hn; lia|].
  apply (settles_step _ (AWritten WrDone)); [done|].
  pose proof (heap_written _ _ WrDone (pt_running _ _ _ _ _ _ _ _ _ H) Hk1) as Hk2. apply port_done in H as (more' & H).
  unfold on_written in Hk2. rewrite Hi in Hk2. cbn [app t_inflight t_write_queue] in Hk2.
  case_bool_decide as Hd; [by eapply port_idle_now|].
  eapply IH; [exact H|exact Hk2|done|done|]. cbn [t_write_queue]. rewrite length_drop. simpl in *. lia.
Qed.

Lemma port_pump qs out st c : port id k log0 qs [] out st true c -> settles c.
Proof.
  intros H. pose proof H as [Hs _ _ (conn & Hk & _ & Hw & _)].
  destruct (t_writing conn) eqn:Hwr; [|by eapply port_idle_now]. pose proof (wi_token _ Hw) as Htok. rewrite Hwr in Htok.
  destruct (t_inflight conn) as [|batch [|]] eqn:Hi; cbn [length] in Htok; [|assert (t_starts conn = 0%nat) as Hst by lia|lia].
  { apply (pump_start (length (t_write_queue conn)) qs out st c conn); try done. lia. }
  apply (settles_step _ (AWritten WrDone)); [done|].
  pose proof (heap_written c conn WrDone Hs Hk) as Hk2. apply port_done in H as (more & H).
  unfold on_written in Hk2. rewrite Hi, Hst in Hk2. case_bool_decide as Hd; cbn [negb] in Hk2; [by eapply port_idle_now|].
  by eapply (pump_start (length (t_write_queue conn))).
Qed.

Lemma port_settles qs wait out st c : port id k log0 qs wait out st true c -> settles c.
Proof.
  revert qs c. induction wait as [|it wait IH]; intros qs c H; [by eapply port_pump|].
  apply (settles_step _ (ATask 0)); [done|]. eapply IH. exact (port_task 0 _ _ _ _ _ _ H).
Qed.
End port.

(** ** The managers *)

Abbreviation raws its := (map it_raw its).

Lemma runs_no_calls c ep its : concat (map tcp_call (runs c ep its)) = [].
Proof.
  unfold runs. induction its as [|it its IH]; [done|]. cbn [map concat]. rewrite map_app, concat_app, IH, app_nil_r.
  unfold handled. induction (dispatch_packet _ _ _ _ _).2 as [|x l IHl]; [done|]. exact IHl.
Qed.

Lemma runs_handles c ep its : handles (runs c ep its) = runs c ep its.
Proof.
  unfold runs. induction its as [|it its IH]; [done|]. cbn [map concat]. by rewrite handles_app, handles_handled, IH.
Qed.

Lemma runs_zip c ep its :
  runs c ep its = concat (zip_with (handled c ep) (map (fun it => (it_frame it).1) its) (map snd (map it_msg its))).
Proof. unfold runs. induction its as [|it its IH]; [done|]. cbn. by rewrite IH. Qed.

Section managers.
Context `{CO : !CryptoOps} {CL : CryptoLaws CO}.

Lemma item_tcp k it : item_ok k it -> tcp_frame (it_frame it).
Proof.
  intros (? & ? & ? & ? & Hw & Hmax & _). split; [done|]. unfold MAX_BYTES, MAX_PAYLOAD in *. lia.
Qed.

Lemma items_types k its : Forall (item_ok k) its ->
  map hdr_payload_type (map (fun it => (it_frame it).1) its) = map fst (map it_msg its).
Proof. induction 1 as [|it its (? & ? & ? & ? & _ & _ & Ht & _) _ IH]; [done|]. cbn. by rewrite IH, Ht. Qed.

(** A manager whose connection sends under [ks] from packet id [pid] on and reads under [kr]
    with window [w]; [ep] is the peer it reports to its handlers. *)
Definition talks (c0 : cm) (id : Z) (ep : endpoint_t) (ks kr : bytes) (pid : Z) (w : NonceWindow) (c : cm) : Prop :=
  exists r s, sends c id r s /\ receives c id r s /\ send_key s = ks /\ recv_key s = kr /\
    r_send_packet_id r = pid /\ recv_window s = w /\ remote_view id r = ep /\ same_env c0 c.

Lemma talks_send c0 id ep ks kr pid w c t p :
  talks c0 id ep ks kr pid w c -> message_ok (t, p) -> pid + 1 < 2 ^ 64 ->
  exists it c', send_frame id t p c = (tt, c') /\ c_trace c' = c_trace c ++ [EvSendTo "tcp" id (it_raw it) 0] /\
    item_ok ks it /\ it_id it = pid /\ it_msg it = (t, p) /\ talks c0 id ep ks kr (pid + 1) w c'.
Proof.
  intros (r & s & Hs & Hr & <- & <- & <- & <- & <- & Henv) Hm Hn.
  destruct (send_message c id r s t p Hs Hm Hn) as (f & c' & Hsend & Ht & Hs' & He & Hc & Hpid).
  exists (mk_item (r_send_packet_id r) (t, p) f), c'. split_and!; try done.
  exists (after_send r), s. split_and!; try done; [|by etrans].
  destruct Hr. pose proof Hs' as [[] _ _ _]. by split.
Qed.

Lemma talks_recv_one fuel c0 id ep ks kr pid w c it ok w' :
  talks c0 id ep ks kr pid w c -> item_ok kr it -> accept (it_id it) w = (ok, w') ->
  exists c', handle_data fuel id (it_raw it) c = (tt, c') /\
    c_trace c' = c_trace c ++ runs c0 ep (if ok then [it] else []) /\ talks c0 id ep ks kr pid w' c'.
Proof.
  intros (r & s & Hs & Hr & <- & <- & <- & <- & <- & Henv) Hit Hacc.
  destruct (recv_message fuel c id r s _ _ _ ok w' Hr Hit Hacc) as
    (c1 & r1 & s1 & Hd & Ht & Hr1 & [_ He Hcore Hp1 [Hsk Hrk] Hw1 Hrdy]).
  destruct (core_of_remote _ _ Hcore) as (_ & Hrem & _ & Hl & Hlp).
  exists c1. split_and!; [done| |].
  - rewrite Ht. f_equal. destruct ok; [|done]. cbn. rewrite app_nil_r.
    pose proof (handled_same c0 c (remote_view id r) [(it_frame it).1] [(it_msg it).2] (se_channels _ _ Henv)) as [=->]. done.
  - exists r1, s1. split_and!; try done; [| |by etrans].
    + destruct Hs. split; [by apply Hrdy|apply Hr1| |lia]. by rewrite Hl, Hlp.
    + unfold remote_view. by rewrite Hrem.
Qed.

(** A run of whole frames: those the window accepts are handled. *)
Lemma talks_recv fuel c0 id ep ks kr pid its w c :
  talks c0 id ep ks kr pid w c -> Forall (item_ok kr) its ->
  exists c', for_each (raws its) (handle_data fuel id) c = (tt, c') /\
    c_trace c' = c_trace c ++ runs c0 ep (delivered w its).1 /\ talks c0 id ep ks kr pid (delivered w its).2 c'.
Proof.
  intros Hk Hits. revert w c Hk. induction Hits as [|it its Hit Hits IH]; intros w c Hk.
  { exists c. cbn. by rewrite app_nil_r. }
  cbn [map delivered for_each]. destruct (accept (it_id it) w) as [ok w1] eqn:Hacc.
  destruct (talks_recv_one fuel _ _ _ _ _ _ _ _ _ _ _ Hk Hit Hacc) as (c1 & Hd & Ht & Hk1).
  destruct (IH w1 c1 Hk1) as (c2 & Hd2 & Ht2 & Hk2). exists c2. rewrite (cm_run _ _ _ _ _ Hd).
  destruct (delivered w1 its) as [got w2]. cbn [fst snd] in *. split_and!; [done| |done].
  by rewrite Ht2, Ht, runs_app, <-app_assoc.
Qed.
End managers.

(** ** One node *)

(** A node at the beginning: its manager, what its connection was given so far, its key, its
    next packet id, its replay window and the peer it reports. *)
Record base := mk_base {
  b_cm : cm; b_log : list bytes; b_key : bytes; b_pid : Z; b_win : NonceWindow; b_ep : endpoint_t }.

(** What one side has been made to do: the messages it was to send, whether its tasks were taken
    up in order, whether no write failed. *)
Record effort := mk_effort { ef_msgs : list (Z * bytes); ef_order : bool; ef_sound : bool }.

Definition no_effort : effort := mk_effort [] true true.

Abbreviation sent x := (match x with ASend t p => [(t, p)] | _ => [] end).

Definition more_effort (e : effort) (x : stack_action) : effort :=
  mk_effort (ef_msgs e ++ sent x) (ef_order e && in_turn x) (ef_sound e && sound x).

Section stack.
Context `{CO : !CryptoOps} {CL : CryptoLaws CO} (fuel : nat).

(** The items of a side: its messages with consecutive packet ids; [qs] were queued on the
    socket, [wait] not yet. *)
Record outgoing (b : base) (e : effort) (its qs wait : list item) : Prop := mk_outgoing {
  og_ok : Forall (item_ok (b_key b)) its;
  og_msgs : map it_msg its = ef_msgs e;
  og_ids : map it_id its = seqZ (b_pid b) (Z.of_nat (length its));
  og_queued : qs ++ wait ≡ₚ its;
  og_order : ef_order e = true -> qs ++ wait = its;
}.

Lemma outgoing_send b e its qs wait it :
  outgoing b e its qs wait -> item_ok (b_key b) it -> it_id it = b_pid b + Z.of_nat (length (ef_msgs e)) ->
  outgoing b (more_effort e (ASend (it_msg it).1 (it_msg it).2)) (its ++ [it]) qs (wait ++ [it]).
Proof.
  intros [Hok Hms Hids Hq Ho] Hit Hid. split.
  - apply Forall_app. by repeat constructor.
  - rewrite map_app, Hms. cbn. by destruct (it_msg it).
  - rewrite map_app, Hids, length_app, Nat2Z.inj_add, seqZ_app by lia. cbn. by rewrite Hid, <-Hms, length_map.
  - by rewrite app_assoc, Hq.
  - cbn. rewrite andb_true_r. intros H%Ho. by rewrite app_assoc, H.
Qed.

Lemma outgoing_task b e its qs wait i :
  outgoing b e its qs wait -> outgoing b (more_effort e (ATask i)) its (qs ++ option_list (wait !! i)) (delete i wait).
Proof.
  intros [Hok Hms Hids Hq Ho]. split; try done; cbn; [by rewrite app_nil_r| |].
  - rewrite <-Hq, <-app_assoc. f_equiv. destruct (wait !! i) as [it|] eqn:Hi; cbn; [symmetry; by apply delete_Permutation|].
    apply lookup_ge_None in Hi. by rewrite delete_take_drop, take_ge, drop_ge, app_nil_r by lia.
  - intros [H%Ho ->%bool_decide_eq_true]%andb_prop. rewrite <-app_assoc, <-H. by destruct wait.
Qed.

Lemma outgoing_other b e its qs wait x :
  outgoing b e its qs wait -> sent x = [] -> in_turn x = true -> outgoing b (more_effort e x) its qs wait.
Proof.
  intros [Hok Hms Hids Hq Ho] Hx Ht. split; try done; cbn [more_effort ef_msgs ef_order]; [by rewrite Hx, app_nil_r|].
  by rewrite Ht, andb_true_r.
Qed.

Lemma outgoing_queued b e its qs wait : outgoing b e its qs wait -> Forall (item_ok (b_key b)) qs.
Proof. intros [Hok _ _ Hq _]. rewrite <-Hq in Hok. by apply Forall_app in Hok as [? _]. Qed.

(** The node after [e], with window [w]. *)
Record half (b peer : base) (e : effort) (its qs wait : list item) (st : read_state) (w : NonceWindow) (n : node) : Prop := mk_half {
  hf_manager : talks (b_cm b) (n_id n) (b_ep b) (b_key b) (b_key peer) (b_pid b + Z.of_nat (length (ef_msgs e))) w (n_cm n);
  hf_port : port (n_id n) (n_slot n) (b_log b) qs wait (wire_of n) st (ef_sound e) (n_tcp n);
  hf_items : outgoing b e its qs wait;
}.

Lemma port_wire id k log0 qs wait out st u c : port id k log0 qs wait out st u c -> from_option t_wire [] (tc_heap c !! k) = out.
Proof. intros [_ _ _ (conn & -> & _ & _ & _ & _ & <- & _)]. done. Qed.

Lemma half_send b peer e its qs wait st w n wire t p :
  half b peer e its qs wait st w n -> message_ok (t, p) -> b_pid b + Z.of_nat (length (ef_msgs e ++ [(t, p)])) < 2 ^ 64 ->
  let n' := act fuel wire n (ASend t p) in
  exists it, half b peer (more_effort e (ASend t p)) (its ++ [it]) qs (wait ++ [it]) st w n' /\
    handles (c_trace (n_cm n')) = handles (c_trace (n_cm n)) /\ n_read n' = n_read n /\ wire_of n' = wire_of n.
Proof.
  intros [Hm Hp Ho] Hok Hn. rewrite length_app in Hn. cbn [length act] in *.
  destruct (talks_send _ _ _ _ _ _ _ _ _ _ Hm Hok) as (it & c' & Hsend & Ht & Hit & Hid & Hmsg & Hm'); [lia|].
  unfold manager_call. rewrite Hsend. cbn [snd]. rewrite Ht, drop_app_length. cbn [map tcp_call concat app].
  apply (port_post _ _ _ _ _ _ _ _ _ it) in Hp. pose proof (port_wire _ _ _ _ _ _ _ _ _ Hp) as Hw.
  exists it. split_and!; try done.
  - split.
    + cbn [n_id n_cm more_effort ef_msgs]. rewrite length_app. cbn [length].
      by replace (b_pid b + _) with (b_pid b + Z.of_nat (length (ef_msgs e)) + 1) by lia.
    + unfold wire_of in *. cbn [n_tcp n_slot n_id more_effort ef_sound sound] in *. by rewrite Hw, andb_true_r.
    + pose proof (outgoing_send _ _ _ _ _ _ Ho Hit Hid) as H. by rewrite Hmsg in H.
  - cbn [n_cm]. by rewrite Ht, handles_app, app_nil_r.
Qed.

Lemma half_works b peer e its qs wait st w n wire x :
  works x = true -> half b peer e its qs wait st w n ->
  let n' := act fuel wire n x in
  exists qs' wait' more, half b peer (more_effort e x) its (qs ++ qs') wait' st w n' /\
    wire_of n' = wire_of n ++ more /\ n_cm n' = n_cm n /\ n_read n' = n_read n.
Proof.
  intros Hx [Hm Hp Ho].
  assert (exists qs' wait' more c', port (n_id n) (n_slot n) (b_log b) (qs ++ qs') wait' (wire_of n ++ more) st (ef_sound e && sound x) c' /\
    outgoing b (more_effort e x) its (qs ++ qs') wait' /\ act fuel wire n x = set_n_tcp c' n) as
    (qs' & wait' & more & c' & Hp' & Ho' & ->).
  { destruct x as [|i| |r|]; try done.
    - exists (option_list (wait !! i)), (delete i wait), [], (run_tcp [TRun i] (n_tcp n)). cbn [sound].
      rewrite app_nil_r, andb_true_r. split_and!; [by apply port_task|by apply outgoing_task|done].
    - exists [], wait, [], (run_tcp [TStartWrite (n_slot n)] (n_tcp n)). cbn [sound].
      rewrite !app_nil_r, andb_true_r. split_and!; [by apply port_start|by apply outgoing_other|done].
    - pose proof (port_written _ _ _ r _ _ _ _ _ _ Hp) as (more & Hp').
      exists [], wait, more. eexists. rewrite app_nil_r. split_and!; [exact Hp'|by apply outgoing_other|done]. }
  pose proof (port_wire _ _ _ _ _ _ _ _ _ Hp') as Hw.
  exists qs', wait', more. split_and!; [|exact Hw|done|done].
  split; [|unfold wire_of in *; cbn [set_n_tcp n_tcp n_slot n_id more_effort ef_sound] in *; by rewrite Hw|done].
  cbn [set_n_tcp n_cm n_id more_effort ef_msgs]. destruct x; try done; by rewrite app_nil_r.
Qed.

Lemma tells_data id l c : for_each (map (NotifyData id) l) (tcp_tells fuel) c = for_each l (handle_data fuel id) c.
Proof. by rewrite for_each_map. Qed.

(** Bytes that complete frames of the peer. *)
Lemma half_recv b peer e its qs wait st w n wire len st' new :
  half b peer e its qs wait st w n ->
  read_stream (take len (drop (n_read n) wire)) st = (st', map RdFrame (raws new)) ->
  Forall (item_ok (b_key peer)) new ->
  let n' := act fuel wire n (ARecv len) in
  half b peer (more_effort e (ARecv len)) its qs wait st' (delivered w new).2 n' /\
  handles (c_trace (n_cm n')) = handles (c_trace (n_cm n)) ++ runs (b_cm b) (b_ep b) (delivered w new).1 /\
  n_read n' = (n_read n + length (take len (drop (n_read n) wire)))%nat /\ wire_of n' = wire_of n /\
  (idle (n_slot n) (n_tcp n) -> idle (n_slot n') (n_tcp n')).
Proof.
  intros [Hm Hp Ho] Hrd Hnew. cbn [act]. set (data := take len (drop (n_read n) wire)) in *.
  destruct (port_recv _ _ _ _ _ _ _ _ _ _ _ _ Hp Hrd) as (Hp' & -> & Hidle).
  destruct (talks_recv fuel _ _ _ _ _ _ _ _ _ Hm Hnew) as (c' & Hd & Ht & Hm').
  pose proof (port_wire _ _ _ _ _ _ _ _ _ Hp') as Hw.
  unfold manager_call. cbn [n_cm n_tcp n_id n_slot n_read]. rewrite tells_data, Hd. cbn [snd].
  rewrite Ht, drop_app_length, runs_no_calls. change (run_tcp [] ?c) with c.
  split_and!; [|by rewrite handles_app, runs_handles|done|exact Hw|exact Hidle].
  split; [cbn [n_id n_cm more_effort ef_msgs]; by rewrite app_nil_r| |by apply outgoing_other].
  unfold wire_of in *. cbn [n_tcp n_slot n_id more_effort ef_sound sound]. by rewrite Hw, andb_true_r.
Qed.

(** ** One direction *)

(** What the reader makes of the beginning of a stream of items. *)
Lemma read_items its key got rest :
  Forall (item_ok key) its -> concat (raws its) = got ++ rest ->
  exists k st, read_stream got read_init = (st, map RdFrame (raws (take k its))) /\ (k <= length its)%nat /\
    (rest = [] -> k = length its).
Proof.
  intros Hits He. destruct (read_stream_prefix got rest (map it_frame its)) as (k & st & Hst & Hk & Hall).
  - apply Forall_map. eapply Forall_impl; [|exact Hits]. intros it. apply item_tcp.
  - by rewrite map_map.
  - rewrite length_map in *. exists k, st. split_and!; [|done|done]. rewrite Hst. f_equal.
    assert (take k (map it_frame its) = map it_frame (take k its)) as -> by apply firstn_map. by rewrite !map_map.
Qed.

(** The sending node of base [b] has queued [qs] and its socket has sent [wire]; of these bytes
    the receiving node has read [read], its reader is in state [st], and its manager has seen the
    first [k] items and has window [w]. *)
Record flow (b peer : base) (qs : list item) (wire : bytes) (read : nat) (st : read_state) (k : nat) (w : NonceWindow)
    (tr : list event) : Prop := mk_flow {
  fl_ok : Forall (item_ok (b_key b)) qs;
  fl_seen : (k <= length qs)%nat;
  fl_reader : exists got ahead, wire = concat (b_log b) ++ got ++ ahead /\ read = length (concat (b_log b) ++ got) /\
    read_stream got read_init = (st, map RdFrame (raws (take k qs)));
  fl_window : w = (delivered (b_win peer) (take k qs)).2;
  fl_trace : handles tr = handles (c_trace (b_cm peer)) ++
    runs (b_cm peer) (b_ep peer) (delivered (b_win peer) (take k qs)).1;
}.

Lemma flow_grow b peer qs qs' wire more read st k w tr :
  flow b peer qs wire read st k w tr -> Forall (item_ok (b_key b)) (qs ++ qs') ->
  flow b peer (qs ++ qs') (wire ++ more) read st k w tr.
Proof.
  intros [Hc Hk (got & ahead & -> & Hr) Hw Ht] Hok.
  split; rewrite ?take_app_le by lia; try done; [rewrite length_app; lia|].
  exists got, (ahead ++ more). by rewrite <-!app_assoc.
Qed.

Lemma flow_trace b peer qs wire read st k w tr tr' :
  handles tr' = handles tr -> flow b peer qs wire read st k w tr -> flow b peer qs wire read st k w tr'.
Proof. intros He []. split; try done. by rewrite He. Qed.

(** How far the reader gets with more bytes of the stream. *)
Lemma flow_read b peer qs wire read st k w tr len :
  flow b peer qs wire read st k w tr -> wire `prefix_of` concat (b_log b ++ raws qs) ->
  let data := take len (drop read wire) in
  exists st' k', (k <= k')%nat /\ (k' <= length qs)%nat /\
    read_stream data st = (st', map RdFrame (raws (drop k (take k' qs)))) /\
    exists got ahead, wire = concat (b_log b) ++ got ++ ahead /\ (read + length data)%nat = length (concat (b_log b) ++ got) /\
      read_stream got read_init = (st', map RdFrame (raws (take k' qs))).
Proof.
  intros [Hc Hk (got & ahead & -> & -> & Hrd) _ _] (rest & Hrest) data.
  assert (drop (length (concat (b_log b) ++ got)) (concat (b_log b) ++ got ++ ahead) = ahead) as Hd
    by by rewrite app_assoc, drop_app_length.
  unfold data in *. rewrite Hd. rewrite concat_app, <-!app_assoc in Hrest. apply app_inv_head in Hrest.
  destruct (read_items qs (b_key b) (got ++ take len ahead) (drop len ahead ++ rest)) as (k' & st' & Hst & Hk' & _);
    [done|by rewrite <-app_assoc, (app_assoc (take len ahead)), take_drop|].
  rewrite read_stream_app, Hrd in Hst. destruct (read_stream (take len ahead) st) as [st1 rs1] eqn:Hrd1.
  injection Hst as -> Hrs.
  assert (k <= k')%nat as Hkk.
  { apply (f_equal length) in Hrs. rewrite length_app, !length_map, !length_take in Hrs. lia. }
  exists st', k'. split_and!; [done|lia| |].
  - f_equal. rewrite <-(take_drop k (take k' qs)), take_take, Nat.min_l, !map_app in Hrs by done.
    by apply app_inv_head in Hrs.
  - exists (got ++ take len ahead), (drop len ahead). split_and!.
    + by rewrite <-app_assoc, take_drop.
    + rewrite !length_app. lia.
    + by rewrite read_stream_app, Hrd, Hrd1, Hrs.
Qed.

Lemma flow_all b peer qs wire read st k w tr :
  flow b peer qs wire read st k w tr -> wire = concat (b_log b ++ raws qs) -> read = length wire -> k = length qs.
Proof.
  intros [Hc Hk (got & ahead & -> & -> & Hrd) _ _] Hw Hlen. rewrite !length_app in Hlen.
  assert (ahead = []) as -> by (destruct ahead; [done|simpl in Hlen; lia]).
  rewrite concat_app in Hw. apply app_inv_head in Hw. rewrite app_nil_r in Hw.
  destruct (read_items qs (b_key b) got []) as (k' & st' & Hst & _ & Hall); [done|by rewrite app_nil_r|].
  rewrite Hrd, Hall in Hst by done. injection Hst as _ Hrs.
  apply (f_equal length) in Hrs. rewrite !length_map, !length_take in Hrs. lia.
Qed.

(** ** Both nodes *)

Definition duplex (b1 b2 : base) (e1 e2 : effort) (w : node * node) : Prop :=
  exists its1 qs1 wait1 st1 w1 k1 its2 qs2 wait2 st2 w2 k2,
    half b1 b2 e1 its1 qs1 wait1 st1 w1 w.1 /\ half b2 b1 e2 its2 qs2 wait2 st2 w2 w.2 /\
    flow b1 b2 qs1 (wire_of w.1) (n_read w.2) st2 k2 w2 (c_trace (n_cm w.2)) /\
    flow b2 b1 qs2 (wire_of w.2) (n_read w.1) st1 k1 w1 (c_trace (n_cm w.1)).

Lemma duplex_swap b1 b2 e1 e2 n1 n2 : duplex b1 b2 e1 e2 (n1, n2) -> duplex b2 b1 e2 e1 (n2, n1).
Proof.
  intros (its1 & qs1 & wait1 & st1 & w1 & k1 & its2 & qs2 & wait2 & st2 & w2 & k2 & ? & ? & ? & ?).
  by exists its2, qs2, wait2, st2, w2, k2, its1, qs1, wait1, st1, w1, k1.
Qed.

Lemma duplex_send b1 b2 e1 e2 n1 n2 t p :
  duplex b1 b2 e1 e2 (n1, n2) -> message_ok (t, p) -> b_pid b1 + Z.of_nat (length (ef_msgs e1 ++ [(t, p)])) < 2 ^ 64 ->
  duplex b1 b2 (more_effort e1 (ASend t p)) e2 (act fuel (wire_of n2) n1 (ASend t p), n2).
Proof.
  intros (its1 & qs1 & wait1 & st1 & w1 & k1 & its2 & qs2 & wait2 & st2 & w2 & k2 & H1 & H2 & F1 & F2) Hm Hn.
  destruct (half_send _ _ _ _ _ _ _ _ _ (wire_of n2) t p H1 Hm Hn) as (it & H1' & Ht & Hr & Hw).
  exists (its1 ++ [it]), qs1, (wait1 ++ [it]), st1, w1, k1, its2, qs2, wait2, st2, w2, k2. cbn [fst snd] in *.
  split_and!; [done|done|by rewrite Hw|rewrite Hr; by apply (flow_trace _ _ _ _ _ _ _ _ _ _ Ht)].
Qed.

Lemma duplex_works b1 b2 e1 e2 n1 n2 x :
  works x = true -> duplex b1 b2 e1 e2 (n1, n2) ->
  duplex b1 b2 (more_effort e1 x) e2 (act fuel (wire_of n2) n1 x, n2).
Proof.
  intros Hx (its1 & qs1 & wait1 & st1 & w1 & k1 & its2 & qs2 & wait2 & st2 & w2 & k2 & H1 & H2 & F1 & F2).
  destruct (half_works _ _ _ _ _ _ _ _ _ (wire_of n2) x Hx H1) as (qs' & wait' & more & H1' & Hw & Hc & Hr).
  exists its1, (qs1 ++ qs'), wait', st1, w1, k1, its2, qs2, wait2, st2, w2, k2. cbn [fst snd] in *.
  split_and!; [done|done|rewrite Hw; apply flow_grow; [done|]|by rewrite Hc, Hr].
  eapply outgoing_queued, (hf_items _ _ _ _ _ _ _ _ _ H1').
Qed.

Lemma duplex_recv b1 b2 e1 e2 n1 n2 len :
  duplex b1 b2 e1 e2 (n1, n2) ->
  let n1' := act fuel (wire_of n2) n1 (ARecv len) in
  duplex b1 b2 (more_effort e1 (ARecv len)) e2 (n1', n2) /\
  n_read n1' = (n_read n1 + length (take len (drop (n_read n1) (wire_of n2))))%nat /\
  wire_of n1' = wire_of n1 /\ (idle (n_slot n1) (n_tcp n1) -> idle (n_slot n1') (n_tcp n1')).
Proof.
  intros (its1 & qs1 & wait1 & st1 & w1 & k1 & its2 & qs2 & wait2 & st2 & w2 & k2 & H1 & H2 & F1 & F2). cbn [fst snd] in *.
  destruct (flow_read _ _ _ _ _ _ _ _ _ len F2) as (st' & k' & Hkk & Hk' & Hrd & Hgot);
    [by eapply port_prefix, hf_port|].
  pose proof F2 as [Hok Hk _ Hwin Ht].
  assert (Forall (item_ok (b_key b2)) (drop k1 (take k' qs2))) as Hnew by by apply Forall_drop, Forall_take.
  destruct (half_recv _ _ _ _ _ _ _ _ _ (wire_of n2) len _ _ H1 Hrd Hnew) as (H1' & Ht' & Hr' & Hw' & Hidle).
  assert (delivered (b_win b1) (take k' qs2) = ((delivered (b_win b1) (take k1 qs2)).1 ++ (delivered w1 (drop k1 (take k' qs2))).1,
    (delivered w1 (drop k1 (take k' qs2))).2)) as Hdel.
  { rewrite <-(take_drop k1 (take k' qs2)) at 1. by rewrite take_take, Nat.min_l, deliver_app, <-Hwin by done. }
  cbn zeta. split_and!; [|done..].
  exists its1, qs1, wait1, st', (delivered w1 (drop k1 (take k' qs2))).2, k', its2, qs2, wait2, st2, w2, k2. cbn [fst snd].
  split_and!; [done|done|by rewrite Hw'|].
  split; [done|done|by rewrite Hr'|by rewrite Hdel|]. rewrite Ht', Ht, Hdel. cbn [fst]. by rewrite runs_app, <-app_assoc.
Qed.

(** The messages of a schedule can be sent. *)
Definition sendable (pid : Z) (ms : list (Z * bytes)) : Prop :=
  Forall message_ok ms /\ pid + Z.of_nat (length ms) < 2 ^ 64.

Lemma sendable_app pid ms ms' : sendable pid (ms ++ ms') -> sendable pid ms.
Proof. intros [[Hm _]%Forall_app Hn]. rewrite length_app in Hn. split; [done|lia]. Qed.

Lemma duplex_act b1 b2 e1 e2 n1 n2 x :
  sendable (b_pid b1) (ef_msgs (more_effort e1 x)) ->
  duplex b1 b2 e1 e2 (n1, n2) -> duplex b1 b2 (more_effort e1 x) e2 (act fuel (wire_of n2) n1 x, n2).
Proof.
  intros [Hm Hn] H. cbn [more_effort ef_msgs] in *. apply Forall_app in Hm as [_ Hm]. destruct x.
  - apply Forall_cons_1 in Hm as [Hm _]. by apply duplex_send.
  - by apply duplex_works.
  - by apply duplex_works.
  - by apply duplex_works.
  - by apply duplex_recv.
Qed.

(** *** Schedules *)

Lemma sent_by_app side xs ys : sent_by side (xs ++ ys) = sent_by side xs ++ sent_by side ys.
Proof. apply omap_app. Qed.

Lemma all_of_app side f xs ys : all_of side f (xs ++ ys) = all_of side f xs && all_of side f ys.
Proof. apply forallb_app. Qed.

Definition effort_of (side : bool) (xs : list (bool * stack_action)) : effort :=
  mk_effort (sent_by side xs) (all_of side in_turn xs) (all_of side sound xs).

Lemma effort_of_snoc side xs s x :
  effort_of side (xs ++ [(s, x)]) = if Bool.eqb s side then more_effort (effort_of side xs) x else effort_of side xs.
Proof.
  unfold effort_of. rewrite sent_by_app, !all_of_app. unfold all_of at 2 4. cbn [forallb]. rewrite !andb_true_r.
  destruct (Bool.eqb s side) eqn:E.
  - unfold more_effort. cbn [ef_msgs ef_order ef_sound]. do 2 f_equal. unfold sent_by. by destruct x; cbn; rewrite ?E.
  - rewrite !andb_true_r. f_equal. rewrite <-(app_nil_r (sent_by side xs)) at 2. f_equal.
    unfold sent_by. by destruct x; cbn; rewrite ?E.
Qed.

Lemma duplex_run b1 b2 xs w :
  sendable (b_pid b1) (sent_by true xs) -> sendable (b_pid b2) (sent_by false xs) ->
  duplex b1 b2 no_effort no_effort w -> duplex b1 b2 (effort_of true xs) (effort_of false xs) (run_stack fuel xs w).
Proof.
  intros H1 H2 Hw. induction xs as [|[s x] xs IH] using rev_ind; [done|].
  pose proof (IH (sendable_app _ _ _ ltac:(rewrite <-sent_by_app; exact H1)) (sendable_app _ _ _ ltac:(rewrite <-sent_by_app; exact H2))) as IH'.
  unfold run_stack. rewrite fold_left_app. fold (run_stack fuel xs w). destruct (run_stack fuel xs w) as [n1 n2].
  change (sent_by true ?l) with (ef_msgs (effort_of true l)) in H1. change (sent_by false ?l) with (ef_msgs (effort_of false l)) in H2.
  rewrite effort_of_snoc in *. rewrite effort_of_snoc in *.
  destruct s; cbn [Bool.eqb fold_left stack_step fst snd] in *.
  - by apply duplex_act.
  - by apply duplex_swap, duplex_act, duplex_swap.
Qed.

(** ** The beginning *)

Definition node_of (side : bool) (w : node * node) : node := if side then w.1 else w.2.

(** Everything given to [n] has been sent and read by [p]. *)
Definition drained (n p : node) : Prop := idle (n_slot n) (n_tcp n) /\ n_read p = length (wire_of n).

Definition at_rest (w : node * node) : Prop := forall side, drained (node_of side w) (node_of (negb side) w).

(** The connector of an end is running and at rest between two frames, the connection in its
    table. *)
Record attached (n p : node) : Prop := mk_attached {
  at_inv : tcp_inv (n_tcp n);
  at_running : tc_stopped (n_tcp n) = false;
  at_table : tc_connections (n_tcp n) !! n_id n = Some (n_slot n);
  at_conn : exists conn, tc_heap (n_tcp n) !! n_slot n = Some conn /\ t_failed conn = false /\ t_read conn = read_init;
  at_drained : drained n p;
}.

(** An end of an established connection: the manager can send and receive over its session, and
    the peer's session [sp] reads what it sends. *)
Record joined (n p : node) (r : ConnectionRecord) (s sp : NoiseSession) : Prop := mk_joined {
  jn_sends : sends (n_cm n) (n_id n) r s;
  jn_receives : receives (n_cm n) (n_id n) r s;
  jn_key : recv_key sp = send_key s;
  jn_window : highest_nonce (recv_window sp) < r_send_packet_id r;
  jn_attached : attached n p;
}.

Definition connected (w : node * node) (r : bool -> ConnectionRecord) (s : bool -> NoiseSession) : Prop :=
  forall side, joined (node_of side w) (node_of (negb side) w) (r side) (s side) (s (negb side)).

(** Managers that are linked in both directions, as two nodes are after their first contact, are
    connected when their connectors are. *)
Lemma linked_connected n1 n2 r s :
  linked (n_cm n1) (n_id n1) (n_cm n2) (n_id n2) (r true) (r false) (s true) (s false) ->
  linked (n_cm n2) (n_id n2) (n_cm n1) (n_id n1) (r false) (r true) (s false) (s true) ->
  attached n1 n2 -> attached n2 n1 -> connected (n1, n2) r s.
Proof. intros (Hs1 & Hr2 & Hk1 & Hw1)%linked_ends (Hs2 & Hr1 & Hk2 & Hw2)%linked_ends H1 H2 []; by split. Qed.

Definition base_of (n : node) (r : ConnectionRecord) (s : NoiseSession) : base :=
  mk_base (n_cm n) (from_option t_log [] (tc_heap (n_tcp n) !! n_slot n)) (send_key s) (r_send_packet_id r)
    (recv_window s) (remote_view (n_id n) r).

Lemma joined_half n p r rp s sp :
  joined n p r s sp -> joined p n rp sp s ->
  half (base_of n r s) (base_of p rp sp) no_effort [] [] [] read_init (recv_window s) n.
Proof.
  intros [Hs Hr _ _ [Hinv Hrun Htab (conn & Hk & Hf & Hrd) [[Ht _] _]]] [_ _ Hkey Hwin _]. split; [|split; try done|by split].
  - cbn [base_of b_cm b_ep b_key b_pid no_effort ef_msgs length]. rewrite Z.add_0_r. by exists r, s.
  - destruct (ti_table _ Hinv _ _ Htab) as (conn' & Hk' & Hid). rewrite Hk in Hk'. injection Hk' as <-.
    pose proof (Forall_lookup_1 _ _ _ _ (ti_write _ Hinv) Hk) as Hw.
    exists conn. unfold wire_of, base_of. cbn [b_log map]. rewrite Hk, app_nil_r. cbn [from_option].
    split_and!; try done. rewrite (wi_bytes _ Hw Hf). by apply prefix_app_r.
Qed.

Lemma joined_flow n p r rp s sp :
  joined n p r s sp ->
  flow (base_of n r s) (base_of p rp sp) [] (wire_of n) (n_read p) read_init 0 (recv_window sp) (c_trace (n_cm p)).
Proof.
  intros [_ _ _ _ [Hinv _ _ (conn & Hk & Hf & _) [(_ & conn' & Hk' & Hq) Hread]]]. rewrite Hk in Hk'. injection Hk' as <-.
  pose proof (quiet_wire conn (Forall_lookup_1 _ _ _ _ (ti_write _ Hinv) Hk) Hf Hq) as Hw.
  split; [done|done| |done|by cbn; rewrite app_nil_r]. exists [], []. rewrite Hread. unfold wire_of, base_of. cbn [b_log]. rewrite Hk.
  cbn [from_option]. by rewrite Hw, !app_nil_r.
Qed.

Lemma connected_duplex n1 n2 r s :
  connected (n1, n2) r s ->
  duplex (base_of n1 (r true) (s true)) (base_of n2 (r false) (s false)) no_effort no_effort (n1, n2).
Proof.
  intros H. pose proof (H true) as H1. pose proof (H false) as H2. cbn [node_of negb fst snd] in *.
  exists [], [], [], read_init, (recv_window (s true)), 0%nat, [], [], [], read_init, (recv_window (s false)), 0%nat. cbn [fst snd].
  split_and!; [by eapply joined_half|by eapply joined_half|by eapply joined_flow|by eapply joined_flow].
Qed.

(** ** What a schedule shows *)

(** The order of the items does not matter when the window holds them all. *)
Lemma outgoing_near b e its qs wait w :
  outgoing b e its qs wait -> wait = [] -> highest_nonce w < b_pid b -> 0 < b_pid b ->
  Z.of_nat (length (ef_msgs e)) <= WINDOW_SIZE -> (delivered w qs).1 = qs.
Proof.
  intros [_ Hms Hids Hq _] -> Hw Hpos Hn. rewrite app_nil_r in Hq.
  assert (map it_id qs ≡ₚ seqZ (b_pid b) (Z.of_nat (length its))) as Hperm by by rewrite Hq, Hids.
  rewrite <-Hms, length_map in Hn.
  apply (deliver_near (highest_nonce w) [] (b_pid b)); [apply since_start|done|done| |].
  - intros n. cbn [app]. rewrite Hperm, elem_of_seqZ. lia.
  - cbn [app]. rewrite Hperm. apply NoDup_seqZ.
Qed.

Lemma outgoing_rising b e its qs wait w k :
  outgoing b e its qs wait -> ef_order e = true -> highest_nonce w < b_pid b -> 0 < b_pid b ->
  (delivered w (take k qs)).1 = take k qs.
Proof.
  intros [_ _ Hids _ Ho] He Hw Hpos. apply deliver_rising, (rising_app _ _ (drop k qs)). rewrite take_drop.
  apply (rising_app _ _ wait). rewrite (Ho He). by apply (rising_seq (b_pid b)).
Qed.

(** The messages of the first node at the second. *)
Lemma duplex_received b1 b2 e1 e2 n1 n2 :
  duplex b1 b2 e1 e2 (n1, n2) -> highest_nonce (b_win b2) < b_pid b1 -> 0 < b_pid b1 ->
  exists got, Forall (item_ok (b_key b1)) got /\
    handles (c_trace (n_cm n2)) = handles (c_trace (b_cm b2)) ++ runs (b_cm b2) (b_ep b2) got /\
    map it_msg got ⊆+ ef_msgs e1 /\ (ef_order e1 = true -> map it_msg got `prefix_of` ef_msgs e1) /\
    (ef_sound e1 = true -> drained n1 n2 -> ef_order e1 = true \/ Z.of_nat (length (ef_msgs e1)) <= WINDOW_SIZE ->
     map it_msg got ≡ₚ ef_msgs e1).
Proof.
  intros (its & qs & wait & st1 & w1 & k1 & its2 & qs2 & wait2 & st2 & w2 & k & [_ Hp Ho] & _ & F & _) Hw Hpos. cbn [fst snd] in *.
  pose proof F as [Hok Hk _ _ Ht]. pose proof Ho as [_ Hms _ Hq Hord]. rewrite <-Hms. exists (delivered (b_win b2) (take k qs)).1.
  pose proof (deliver_sublist (b_win b2) (take k qs)) as Hsub. split_and!; [|done| | |].
  - by apply deliver_Forall, Forall_take.
  - apply (fmap_submseteq it_msg). rewrite <-Hq. etrans; [by apply sublist_submseteq|].
    apply submseteq_inserts_r, sublist_submseteq, sublist_take.
  - intros He. rewrite (outgoing_rising _ _ _ _ _ _ _ Ho He Hw Hpos), <-(Hord He).
    exists (map it_msg (drop k qs ++ wait)). by rewrite <-map_app, app_assoc, take_drop.
  - intros Hu [Hi Hr] Hcase. destruct (port_quiet _ _ _ _ _ _ _ _ _ Hp Hi) as [-> Hout].
    rewrite (flow_all _ _ _ _ _ _ _ _ _ F (Hout Hu) Hr), take_ge by done. rewrite app_nil_r in Hq.
    apply (fmap_Permutation it_msg). rewrite <-Hq. destruct Hcase as [He|Hn].
    + pose proof (outgoing_rising _ _ _ _ _ _ (length qs) Ho He Hw Hpos) as H. rewrite take_ge in H by done. by rewrite H.
    + rewrite Hms in Hn. by rewrite (outgoing_near _ _ _ _ _ _ Ho eq_refl Hw Hpos Hn).
Qed.

(** ** Completing a schedule *)

Lemma run_stack_app xs ys w : run_stack fuel (xs ++ ys) w = run_stack fuel ys (run_stack fuel xs w).
Proof. apply fold_left_app. Qed.

Lemma run_left xs n1 n2 : run_stack fuel (map (pair true) xs) (n1, n2) = (fold_left (act fuel (wire_of n2)) xs n1, n2).
Proof. revert n1. induction xs as [|x xs IH]; intros n1; [done|]. cbn. apply IH. Qed.

Lemma run_right xs n1 n2 : run_stack fuel (map (pair false) xs) (n1, n2) = (n1, fold_left (act fuel (wire_of n1)) xs n2).
Proof. revert n2. induction xs as [|x xs IH]; intros n2; [done|]. cbn. apply IH. Qed.

(** Actions that leave messages, order and soundness as they are. *)
Definition neutral (x : stack_action) : bool := match x with ARecv _ => true | _ => pumps x end.

Lemma neutral_effort e x : neutral x = true -> more_effort e x = e.
Proof.
  destruct e as [ms o u], x as [|[|i]| |[| |]|]; try done; unfold more_effort; cbn; intros _; by rewrite app_nil_r, !andb_true_r.
Qed.

Lemma duplex_not_broken b1 b2 e1 e2 n1 n2 : ef_sound e1 = true -> duplex b1 b2 e1 e2 (n1, n2) -> broken n1 = false.
Proof.
  intros Hu (its1 & qs1 & wait1 & st1 & w1 & k1 & its2 & qs2 & wait2 & st2 & w2 & k2 & [_ [_ _ _ Hconn] _] & _).
  destruct Hconn as (conn & Hk & _ & _ & Hf & _). cbn [fst] in Hk. unfold broken. rewrite Hk. by apply Hf.
Qed.

Lemma act_pumps wire n x : pumps x = true -> broken n = false -> act fuel wire n x = set_n_tcp (worked (n_slot n) [x] (n_tcp n)) n.
Proof. intros Hx Hb. destruct x as [|[|i]| |[| |]|]; try done. cbn [act]. by rewrite Hb. Qed.

Lemma duplex_settles b1 b2 e1 e2 n1 n2 :
  ef_sound e1 = true -> duplex b1 b2 e1 e2 (n1, n2) ->
  exists xs, let n1' := fold_left (act fuel (wire_of n2)) xs n1 in
    Forall pumps xs /\ duplex b1 b2 e1 e2 (n1', n2) /\ idle (n_slot n1') (n_tcp n1').
Proof.
  intros Hu H.
  assert (settles (n_slot n1) (n_tcp n1)) as (xs & Hxs & Hi).
  { destruct H as (its1 & qs1 & wait1 & st1 & w1 & k1 & its2 & qs2 & wait2 & st2 & w2 & k2 & [_ Hp _] & _).
    rewrite Hu in Hp. by eapply port_settles. }
  exists xs. cbn zeta. split; [done|]. revert n1 H Hi. induction Hxs as [|x xs Hx Hxs IH]; intros n1 H Hi; [done|]. cbn [fold_left].
  apply Is_true_true in Hx. apply IH.
  - rewrite <-(neutral_effort e1 x) by by destruct x. apply duplex_works; [|done]. by destruct x.
  - by rewrite act_pumps by eauto using duplex_not_broken.
Qed.

(** All that is on the way arrives. *)
Lemma duplex_fetch b1 b2 e1 e2 n1 n2 :
  duplex b1 b2 e1 e2 (n1, n2) ->
  let n1' := act fuel (wire_of n2) n1 (ARecv (length (wire_of n2))) in
  duplex b1 b2 e1 e2 (n1', n2) /\ n_read n1' = length (wire_of n2) /\
  wire_of n1' = wire_of n1 /\ (idle (n_slot n1) (n_tcp n1) -> idle (n_slot n1') (n_tcp n1')).
Proof.
  intros H. pose proof (duplex_recv _ _ _ _ _ _ (length (wire_of n2)) H) as (H' & Hr & Hw & Hi).
  rewrite neutral_effort in H' by done. split_and!; try done. rewrite Hr, length_take, length_drop.
  destruct H as (its1 & qs1 & wait1 & st1 & w1 & k1 & its2 & qs2 & wait2 & st2 & w2 & k2 & _ & _ & _ & [_ _ (got & ahead & Hwire & Hread & _) _ _]).
  cbn [fst snd] in *. rewrite Hread, Hwire, !length_app. lia.
Qed.

Definition neutral_schedule (ys : list (bool * stack_action)) : Prop :=
  forall side, sent_by side ys = [] /\ in_order side ys /\ unbroken side ys.

Lemma neutral_app a b : neutral_schedule a -> neutral_schedule b -> neutral_schedule (a ++ b).
Proof.
  intros Ha Hb side. destruct (Ha side) as (H1 & H2 & H3), (Hb side) as (H4 & H5 & H6).
  unfold in_order, unbroken in *. by rewrite sent_by_app, !all_of_app, H1, H2, H3, H4, H5, H6.
Qed.

Lemma neutral_one s x : neutral x = true -> neutral_schedule [(s, x)].
Proof. intros Hx side. destruct s, side, x as [|[|i]| |[| |]|]; try done. Qed.

Lemma neutral_pumps s xs : Forall pumps xs -> neutral_schedule (map (pair s) xs).
Proof.
  induction 1 as [|x xs Hx _ IH]; [done|]. apply (neutral_app [(s, x)]); [|done].
  apply neutral_one. destruct x; try done; by apply Is_true_true in Hx.
Qed.

Lemma duplex_completes b1 b2 e1 e2 n1 n2 :
  ef_sound e1 = true -> ef_sound e2 = true -> duplex b1 b2 e1 e2 (n1, n2) ->
  exists ys, neutral_schedule ys /\ at_rest (run_stack fuel ys (n1, n2)).
Proof.
  intros Hu1 Hu2 H. destruct (duplex_settles _ _ _ _ _ _ Hu1 H) as (xs1 & Hx1 & H1 & Hi1). cbn zeta in *.
  set (m1 := fold_left (act fuel (wire_of n2)) xs1 n1) in *. apply duplex_swap in H1.
  destruct (duplex_settles _ _ _ _ _ _ Hu2 H1) as (xs2 & Hx2 & H2 & Hi2). cbn zeta in *.
  set (m2 := fold_left (act fuel (wire_of m1)) xs2 n2) in *. apply duplex_swap in H2.
  pose proof (duplex_fetch _ _ _ _ _ _ H2) as (H3 & Hr3 & Hw3 & Hi3). cbn zeta in *.
  set (l1 := act fuel (wire_of m2) m1 (ARecv (length (wire_of m2)))) in *. apply duplex_swap in H3.
  pose proof (duplex_fetch _ _ _ _ _ _ H3) as (_ & Hr4 & Hw4 & Hi4). cbn zeta in *.
  exists (map (pair true) xs1 ++ map (pair false) xs2 ++
    [(true, ARecv (length (wire_of m2)))] ++ [(false, ARecv (length (wire_of l1)))]). split.
  - repeat apply neutral_app; by apply neutral_pumps || apply neutral_one.
  - rewrite !run_stack_app, run_left. fold m1. rewrite run_right. fold m2. cbn [run_stack fold_left stack_step fst snd]. fold l1.
    intros []; cbn [node_of negb fst snd]; split; [by apply Hi3|done|by apply Hi4|by rewrite Hr3, Hw4].
Qed.

(** From [n0] to [n] the manager has run, in order, the handler chains of exactly the messages
    [ms], each with its type, its payload and the peer of record [r]. *)
Definition ran (n0 : node) (r : ConnectionRecord) (ms : list (Z * bytes)) (n : node) : Prop :=
  exists hdrs, map hdr_payload_type hdrs = map fst ms /\
    handles (c_trace (n_cm n)) = handles (c_trace (n_cm n0)) ++
      concat (zip_with (handled (n_cm n0) (remote_view (n_id n0) r)) hdrs (map snd ms)).

Lemma connected_run w r s xs :
  connected w r s -> (forall side, sendable (r_send_packet_id (r side)) (sent_by side xs)) ->
  duplex (base_of w.1 (r true) (s true)) (base_of w.2 (r false) (s false)) (effort_of true xs) (effort_of false xs) (run_stack fuel xs w).
Proof.
  intros Hc Hs. destruct w as [n1 n2]. apply duplex_run; [apply (Hs true)|apply (Hs false)|by apply connected_duplex].
Qed.

(** What the other side of a schedule has handled of the messages of [side]. *)
Definition received (w : node * node) (r : bool -> ConnectionRecord) (xs : list (bool * stack_action)) (side : bool)
    (ms : list (Z * bytes)) : Prop :=
  let w' := run_stack fuel xs w in
  let all := sent_by side xs in
  ran (node_of (negb side) w) (r (negb side)) ms (node_of (negb side) w') /\
  ms ⊆+ all /\ (in_order side xs -> ms `prefix_of` all) /\
  (unbroken side xs -> drained (node_of side w') (node_of (negb side) w') ->
   in_order side xs \/ Z.of_nat (length all) <= WINDOW_SIZE -> ms ≡ₚ all).

Lemma joined_window n p r s sp : joined n p r s sp -> highest_nonce (recv_window sp) < r_send_packet_id r /\ 0 < r_send_packet_id r.
Proof. intros [Hs _ _ Hw _]. split; [done|]. apply (sd_id _ _ _ _ Hs). Qed.

Lemma run_received w r s xs side :
  connected w r s -> (forall side, sendable (r_send_packet_id (r side)) (sent_by side xs)) ->
  exists ms, received w r xs side ms.
Proof.
  intros Hc Hs. pose proof (connected_run w r s xs Hc Hs) as H. destruct (joined_window _ _ _ _ _ (Hc side)) as [Hw Hpos].
  unfold received. destruct w as [n1 n2], (run_stack fuel xs _) as [m1 m2].
  destruct side; [|apply duplex_swap in H];
    (destruct (duplex_received _ _ _ _ _ _ H Hw Hpos) as (got & Hok & Ht & Hsub & Hpre & Hall); exists (map it_msg got);
     split_and!; [|done..]; exists (map (fun it => (it_frame it).1) got); rewrite runs_zip in Ht;
     split; [by eapply items_types|done]).
Qed.

Lemma prefix_perm {A} (l k : list A) : l `prefix_of` k -> l ≡ₚ k -> l = k.
Proof.
  intros [z ->] H%Permutation_length. rewrite length_app in H. destruct z; [by rewrite app_nil_r|simpl in H; lia].
Qed.

(** C2: In every schedule of two managers, their connectors and the two streams between their
    sockets, with messages sent from both sides, the posted tasks of a connector taken up by its
    threads in any order, writes that fail, and each stream cut into pieces of any size, each
    manager has run handler chains of messages the other has sent, each with its type and its
    payload, none more often than it was sent, and no other handler.  If the sender's tasks were
    taken up in the order they were posted, they are a prefix of the messages sent, in order.  If
    no write of the sender failed, its connector is idle and all it sent has been read, they are
    all of its messages, provided the tasks were taken up in order or there are at most 256
    messages (the replay window).  A socket whose write has failed sends nothing more, and no
    read fails along the schedule. *)
Theorem stack_prefix w r s xs side :
  connected w r s -> (forall side, sendable (r_send_packet_id (r side)) (sent_by side xs)) ->
  exists ms, let w' := run_stack fuel xs w in
    ran (node_of (negb side) w) (r (negb side)) ms (node_of (negb side) w') /\
    ms ⊆+ sent_by side xs /\
    (in_order side xs -> ms `prefix_of` sent_by side xs) /\
    (unbroken side xs -> drained (node_of side w') (node_of (negb side) w') ->
     in_order side xs \/ Z.of_nat (length (sent_by side xs)) <= WINDOW_SIZE -> ms ≡ₚ sent_by side xs).
Proof. apply run_received. Qed.

(** C3: What has been sent can be delivered.  Whatever has happened so far in a schedule of two
    managers and their connectors, posted tasks taken up in any order, as long as no write failed
    on either side, finitely many further steps of the connectors and the streams bring both to
    rest.  Then each manager has run the handler chains of messages the other has sent, none more
    often than sent and no other handler: of exactly these messages, in order, when the tasks were
    taken up in the order they were posted, and of all of them in some order when there are at
    most 256. *)
Theorem stack_completes w r s xs :
  connected w r s -> (forall side, sendable (r_send_packet_id (r side)) (sent_by side xs)) ->
  (forall side, unbroken side xs) ->
  exists ys, (forall side, sent_by side ys = []) /\ at_rest (run_stack fuel (xs ++ ys) w) /\
    forall side, exists ms,
      ran (node_of (negb side) w) (r (negb side)) ms (node_of (negb side) (run_stack fuel (xs ++ ys) w)) /\
      ms ⊆+ sent_by side xs /\ (in_order side xs -> ms = sent_by side xs) /\
      (Z.of_nat (length (sent_by side xs)) <= WINDOW_SIZE -> ms ≡ₚ sent_by side xs).
Proof.
  intros Hc Hs Hu. pose proof (connected_run w r s xs Hc Hs) as H. destruct (run_stack fuel xs w) as [n1 n2] eqn:Hw.
  destruct (duplex_completes (base_of w.1 (r true) (s true)) (base_of w.2 (r false) (s false)) (effort_of true xs) (effort_of false xs)
    n1 n2 (Hu true) (Hu false) H) as (ys & Hy & Hrest).
  assert (forall side, sent_by side (xs ++ ys) = sent_by side xs) as He
    by (intros side; rewrite sent_by_app; destruct (Hy side) as (-> & _); by rewrite app_nil_r).
  assert (forall side, unbroken side (xs ++ ys)) as Hu'
    by (intros side; unfold unbroken; rewrite all_of_app, (Hu side); by destruct (Hy side) as (_ & _ & ->)).
  assert (forall side, in_order side xs -> in_order side (xs ++ ys)) as Ho
    by (intros side Hin; unfold in_order; rewrite all_of_app, Hin; by destruct (Hy side) as (_ & -> & _)).
  exists ys. rewrite run_stack_app, Hw. split_and!; [apply Hy|done|]. intros side.
  destruct (run_received w r s (xs ++ ys) side Hc) as (ms & Hr & Hsub & Hpre & Hall); [intros; by rewrite He|].
  rewrite run_stack_app, Hw, He in *. specialize (Hall (Hu' side) (Hrest side)). exists ms. split_and!; [done|done| |auto].
  intros Hin. apply prefix_perm; auto.
Qed.
End stack.

#[local] Existing Instances ToyCrypto.ops ToyCrypto.laws.

(** Two established managers with one connection each in their connectors. *)
Definition toy_conn_tcpc (id : Z) : TcpConnector := run_tcp [TRegister None true id; TInsert 0] tcpc_init.

Definition toy_node (c : cm) : node := mk_node c (toy_conn_tcpc 1) 0 1 0.
Definition toy_stack : node * node := (toy_node alice, toy_node bob).
Definition toy_record (side : bool) : ConnectionRecord := if side then alice_record else bob_record.
Definition toy_session (side : bool) : NoiseSession := if side then session_of alice else session_of bob.

Lemma bob_ready : ready bob 1 bob_record.
Proof.
  split; try (vm_compute; reflexivity).
  - eexists. split; [vm_compute; reflexivity|]. split_and!; vm_compute; reflexivity.
  - exists toy_tcp. split; [vm_compute; reflexivity|done].
Qed.

Lemma bob_linked : linked bob 1 alice 1 bob_record alice_record (session_of bob) (session_of alice).
Proof.
  split; try (vm_compute; reflexivity); try (split; vm_compute; reflexivity); exact bob_ready.
Qed.

Lemma toy_idle : idle 0 (toy_conn_tcpc 1).
Proof. split; [vm_compute; reflexivity|]. eexists. split; vm_compute; reflexivity. Qed.

Lemma toy_attached c p : attached (toy_node c) (toy_node p).
Proof.
  split; cbn [toy_node n_id n_tcp n_slot]; [apply run_tcp_keeps, tcp_inv_init|vm_compute; reflexivity|vm_compute; reflexivity| |
    split; [exact toy_idle|vm_compute; reflexivity]].
  eexists. split_and!; vm_compute; reflexivity.
Qed.

Lemma toy_connected : connected toy_stack toy_record toy_session.
Proof. apply linked_connected; [exact alice_linked|exact bob_linked|apply toy_attached|apply toy_attached]. Qed.

(** Two messages and an answer; the tasks of the two messages are taken up in reverse order, and
    the first piece that arrives ends in the middle of a frame. *)
Definition toy_schedule : list (bool * stack_action) :=
  [(true, ASend 100 [x41]); (true, ASend 100 [x42; x43]); (true, ATask 1); (true, AStart); (true, AWritten WrDone);
   (false, ARecv 30); (true, ATask 0); (true, AStart); (false, ARecv 1000); (false, ASend 100 [x44]); (false, ATask 0);
   (false, AStart); (false, AWritten WrDone); (true, ARecv 1000)].

Lemma toy_sendable side : sendable (r_send_packet_id (toy_record side)) (sent_by side toy_schedule).
Proof.
  destruct side; (split; [|vm_compute; reflexivity]); repeat constructor; cbn [fst snd]; try (vm_compute; congruence); unfold fits; lia.
Qed.

(** Along this schedule the second message and the answer have been handled, the first message is
    still being written; after its write, handled it is as well. *)
Example toy_schedule_trace :
  let payloads side xs := omap (fun e => match e with EvHandle _ _ _ p => Some p | _ => None end)
    (drop (length (c_trace (n_cm (node_of side toy_stack)))) (c_trace (n_cm (node_of side (run_stack 2 xs toy_stack))))) in
  payloads false toy_schedule = [[x42; x43]] /\ payloads true toy_schedule = [[x44]] /\
  payloads false (toy_schedule ++ [(true, AWritten WrDone); (false, ARecv 1000)]) = [[x42; x43]; [x41]].
Proof. split_and!; vm_compute; reflexivity. Qed.

(** With a write that fails after 10 bytes, nothing more of its side arrives. *)
Example toy_failed_trace :
  let xs := [(true, ASend 100 [x41]); (true, ATask 0); (true, AStart); (true, AWritten (WrError 10)); (false, ARecv 1000);
    (true, ASend 100 [x42]); (true, ATask 0); (true, AStart); (true, AWritten WrDone); (false, ARecv 1000)] in
  handles (c_trace (n_cm (node_of false (run_stack 2 xs toy_stack)))) = handles (c_trace bob) /\
  n_read (node_of false (run_stack 2 xs toy_stack)) = 10%nat.
Proof. split; vm_compute; reflexivity. Qed.

Lemma stack_prefix_witness :
  exists ms, let w' := run_stack 2 toy_schedule toy_stack in
    ran (node_of (negb true) toy_stack) (toy_record (negb true)) ms (node_of (negb true) w') /\
    ms ⊆+ sent_by true toy_schedule /\
    (in_order true toy_schedule -> ms `prefix_of` sent_by true toy_schedule) /\
    (unbroken true toy_schedule -> drained (node_of true w') (node_of (negb true) w') ->
     in_order true toy_schedule \/ Z.of_nat (length (sent_by true toy_schedule)) <= WINDOW_SIZE ->
     ms ≡ₚ sent_by true toy_schedule).
Proof. exact (stack_prefix 2 toy_stack toy_record toy_session toy_schedule true toy_connected toy_sendable). Defined.

Lemma stack_completes_witness :
  exists ys, (forall side, sent_by side ys = []) /\ at_rest (run_stack 2 (toy_schedule ++ ys) toy_stack) /\
    forall side, exists ms,
      ran (node_of (negb side) toy_stack) (toy_record (negb side)) ms (node_of (negb side) (run_stack 2 (toy_schedule ++ ys) toy_stack)) /\
      ms ⊆+ sent_by side toy_schedule /\ (in_order side toy_schedule -> ms = sent_by side toy_schedule) /\
      (Z.of_nat (length (sent_by side toy_schedule)) <= WINDOW_SIZE -> ms ≡ₚ sent_by side toy_schedule).
Proof.
  apply (stack_completes 2 toy_stack toy_record toy_session toy_schedule toy_connected toy_sendable).
  intros side. destruct side; reflexivity.
Defined.
