(* ===== verification/CmContact.v ===== *)
(** * The handshake of two managers

    Two managers that know nothing of each other, a connector that reports the connection
    to both, and the three Noise frames each writes: the run ends with a pair of sessions
    with mirrored keys ([CmLink.linked] in both directions), each side knows the other's
    authenticated user key, and the messages the initiator's application had queued for
    the address reach the handlers of the peer. *)

From Stdlib Require Import ZArith Strings.Byte String Lia.
From stdpp Require Import base gmap list strings numbers.
From S2P Require Import Prelude Codec Wire NonceWindow Queue Crypto Noise Session Signals.
From S2P Require Import CmState CmTransport CmClose CmHandshake CmDispatch CmLifecycle CmFrame CmInvariant CmScenario.
From S2P Require Import CmReassembly CmDelivery CmLink.

Local Open Scope Z_scope.

(** ** Commands that only count and notify *)

Definition is_write (e : event) : bool :=
  match e with EvSendTo _ _ _ _ | EvSendGather _ _ _ _ => true | _ => false end.

Record talk (c c' : cm) : Prop := mk_talk {
  tk_env : same_env c c';
  tk_records : c_records c' = c_records c;
  tk_queues : c_send_queues c' = c_send_queues c;
  tk_trace : exists es, c_trace c' = c_trace c ++ es /\ Forall (fun e => is_write e = false) es;
}.

#[export] Instance talk_preorder : PreOrder talk.
Proof.
  split.
  - intros c. split; [done..|]. exists []. by rewrite app_nil_r.
  - intros a b c [E1 R1 Q1 (e1 & T1 & F1)] [E2 R2 Q2 (e2 & T2 & F2)].
    split; [by etrans|congruence..|]. exists (e1 ++ e2).
    by rewrite T2, T1, app_assoc, Forall_app.
Qed.

Definition Talk {A} (m : CM A) : Prop := forall c, talk c (snd (m c)).

Lemma Talk_gets {A} (f : cm -> A) : Talk (gets f).
Proof. intros c. done. Qed.
Lemma Talk_ret {A} (a : A) : Talk (mret a).
Proof. intros c. done. Qed.
Lemma Talk_bind {A B} (m : CM A) (k : A -> CM B) : Talk m -> (forall a, Talk (k a)) -> Talk (m ≫= k).
Proof.
  intros Hm Hk c. unfold mbind, cm_bind. specialize (Hm c).
  destruct (m c) as [a c']. etrans; [done|apply Hk].
Qed.
Lemma Talk_for_each {A} (l : list A) (f : A -> CM unit) : (forall a, Talk (f a)) -> Talk (for_each l f).
Proof. intros Hf. induction l; simpl; [apply Talk_ret|]. by apply Talk_bind. Qed.
Lemma Talk_emit e : is_write e = false -> Talk (emit_ev e).
Proof. intros He c. split; [by split|done|done|]. exists [e]. split; [done|by constructor]. Qed.
Lemma Talk_bus f :
  (forall b, channels (f b) = channels b /\ wildcards (f b) = wildcards b) -> Talk (on_bus f).
Proof. intros Hf c. split; [|done|done|exists []; by rewrite app_nil_r]. split; try done. apply Hf. Qed.

Ltac solve_talk := repeat match goal with
  | |- forall _, _ => intros ?
  | |- Talk (mret _) => apply Talk_ret
  | |- Talk (_ ≫= _) => apply Talk_bind
  | |- Talk (gets _) => apply Talk_gets
  | |- Talk (rcu_find _) => apply Talk_gets
  | |- Talk (find_connector _) => apply Talk_gets
  | |- Talk (emit_ev _) => by apply Talk_emit
  | |- Talk (stat _ _ _) => by apply Talk_bus
  | |- Talk (on_bus _) => by apply Talk_bus
  | |- Talk (for_each _ _) => apply Talk_for_each
  | |- Talk (match ?x with _ => _ end) => destruct x
  | H : _ |- Talk _ => apply H
  end.

Lemma Talk_notify uri st : Talk (notify_handlers uri st).
Proof. unfold notify_handlers. solve_talk. Qed.

Lemma Talk_try_upgrade r b pk ss : Talk (try_upgrade r b pk ss).
Proof. induction ss as [|s ss IH]; simpl; solve_talk. Qed.

Lemma Talk_upgrade id : Talk (schedule_transport_upgrade id).
Proof. unfold schedule_transport_upgrade. solve_talk. apply Talk_try_upgrade. Qed.

Lemma ready_talk c c' id r : talk c c' -> ready c id r -> ready c' id r.
Proof.
  intros [[_ Hsh _ Hcn _ Hti _ _ _] HR HQ _] [].
  split; rewrite ?HR, ?HQ, ?Hsh, ?Hti, ?Hcn; done.
Qed.

(** ** One step of the handshake at a time *)

Section steps.
Context `{CO : !CryptoOps} {CL : CryptoLaws CO}.

(** A connection in its handshake, with the fields that matter for the end of it. *)
Record shaking (c : cm) (id : Z) (hs : HandshakeState) (pid : Z) (ini : bool) (ep : endpoint_t)
    (r : ConnectionRecord) : Prop := mk_shaking {
  sh_ready : ready c id r;
  sh_handshake : r_handshake r = Some hs;
  sh_session : r_session r = None;
  sh_remote : r_is_localhost r = false /\ r_localhost_passthrough r = false;
  sh_pid : r_send_packet_id r = pid;
  sh_initiator : r_is_initiator r = ini;
  sh_ep : r_remote r = ep;
}.

(** The random block an engine call draws. *)
Definition drawn (c : cm) (hs : HandshakeState) : bytes :=
  if step hs <? 2 then random_block (c_rng c) else [].

(** A change of the record that keeps the connection usable. *)
Lemma ready_upd c id r f :
  ready c id r -> r_recv_buf (f r) = r_recv_buf r -> tcp_path id (r_transport_paths (f r)) ->
  ready (set_c_records (alter f id (c_records c)) c) id (f r).
Proof.
  intros [] Hb Hp. split; try done.
  - cbn [c_records set_c_records]. rewrite lookup_alter_eq. by rewrite rd_record.
  - congruence.
Qed.

Lemma ready_rng c id r n : ready c id r -> ready (set_c_rng n c) id r.
Proof. by intros []. Qed.

Lemma ready_in_flight c id r n : ready c id r -> ready (set_c_in_flight_dispatches n c) id r.
Proof. by intros []. Qed.

Lemma noise_run_shaking {A} id (m : SE HandshakeState A) c r hs x hs' pid ini ep :
  shaking c id hs pid ini ep r -> m hs = (x, hs') ->
  exists c', noise_run id m c = (x, c') /\
    shaking c' id hs' pid ini ep (set_r_handshake (Some hs') r) /\
    same_env c c' /\ c_rng c' = c_rng c /\ c_trace c' = c_trace c.
Proof.
  intros [Hrd Hh Hs [Hl1 Hl2] Hp Hi He] Hm. unfold noise_run, rcu_find. cm_step.
  rewrite (rd_record _ _ _ Hrd). cbn [mbind option_bind]. rewrite Hh, Hm.
  eexists. split; [reflexivity|]. split; [|split; [by split|done]].
  split; try done. apply (ready_upd _ _ _ (set_r_handshake (Some hs'))); [done..|apply Hrd].
Qed.

Lemma noise_write_shaking id p c r hs m hs' pid ini ep :
  shaking c id hs pid ini ep r -> write_message p (drawn c hs) hs = (Some m, hs') ->
  exists c' r', noise_write id p c = (Some m, c') /\ shaking c' id hs' pid ini ep r' /\
    same_env c c' /\ c_trace c' = c_trace c /\ r_peer_user_pubkey r' = r_peer_user_pubkey r.
Proof.
  intros Hsh Hm. pose proof Hsh as [Hrd Hh Hs Hl Hp Hi He]. unfold noise_write, rcu_find. cm_step.
  rewrite (rd_record _ _ _ Hrd). cbn [mbind option_bind]. rewrite Hh. unfold drawn in Hm.
  destruct (step hs <? 2).
  - cm_step. edestruct (noise_run_shaking id (write_message p (random_block (c_rng c)))
      (set_c_rng (S (c_rng c)) c)) as (c' & Hrun & Hsh' & Henv & _ & Htr); [|exact Hm|].
    { split; [by apply ready_rng|done..]. }
    exists c', (set_r_handshake (Some hs') r). split; [exact Hrun|]. split; [done|].
    split; [|by split]. etrans; [|exact Henv]. by split.
  - cm_step. destruct (noise_run_shaking id (write_message p []) c r hs _ _ _ _ _ Hsh Hm)
      as (c' & Hrun & Hsh' & Henv & _ & Htr).
    exists c', (set_r_handshake (Some hs') r). by split_and!.
Qed.

(** Sending a handshake frame. *)
Lemma shaking_send id t p c r hs pid ini ep :
  shaking c id hs pid ini ep r -> is_handshake t = true -> fits 16 t -> fits 64 pid ->
  blen p <= 4096 ->
  exists c' r', send_frame id t p c = (tt, c') /\
    c_trace c' = c_trace c ++ [EvSendTo "tcp" id (frame_bytes (mk_hdr 0 t p pid) p) 0] /\
    shaking c' id hs (u64 (pid + 1)) ini ep r' /\ same_env c c' /\
    c_rng c' = c_rng c /\ r_peer_user_pubkey r' = r_peer_user_pubkey r /\
    r_peer_authenticated r' = r_peer_authenticated r.
Proof.
  intros [Hrd Hh Hs [Hl1 Hl2] Hp Hi He] Ht Hft Hpid Hlen. pose proof (blen_nonneg p).
  assert (wire_bytes c r t p = frame_bytes (mk_hdr 0 t p pid) p) as Hw.
  { unfold wire_bytes, wire_hdr, wire_flags, wire_payload. by rewrite Hs, Hl1, Hp. }
  destruct (send_frame_ready id t p c r Hrd) as (c' & Hsend & Htr & Hrd' & Henv & Hrng).
  { by rewrite Hl2. }
  { rewrite Hw. unfold blen in *. rewrite length_frame_bytes
      by (apply mk_hdr_wf; [done|done|unfold blen in *; lia]).
    change HDR_SIZE with 20%nat. unfold MAX_BYTES. lia. }
  rewrite Hw in Htr. exists c', (after_send r). split_and!; try done.
  split; try done. by rewrite <-Hp.
Qed.

(** The header of a handshake frame. *)
Lemma handshake_wire t p pid :
  is_handshake t = true -> fits 16 t -> fits 64 pid -> blen p <= 4096 ->
  wire_frame (mk_hdr 0 t p pid, p) /\ hdr_payload_type (mk_hdr 0 t p pid) = t.
Proof.
  intros Ht Hft Hpid Hlen. pose proof (blen_nonneg p). split; [|by apply wrap_small].
  split_and!; [apply mk_hdr_wf; [done|done|lia]|done|done|].
  apply wrap_small. unfold fits. cbn [snd]. lia.
Qed.

(** A handler between the two halves of the in-flight guard. *)
Lemma dispatch_guarded fuel id hdr p ts c c' (m : CM unit) :
  (forall d, dispatch_body d id hdr p ts = m) ->
  m (set_c_in_flight_dispatches (u32 (c_in_flight_dispatches c + 1)) c) = (tt, c') ->
  cm_dispatch fuel id hdr p ts c =
    (tt, set_c_in_flight_dispatches (u32 (c_in_flight_dispatches c' - 1)) c').
Proof.
  intros Hb Hm. destruct fuel; cbn [cm_dispatch]; cm_step;
    rewrite Hb; by rewrite (cm_run _ _ _ _ _ Hm).
Qed.

(** ** The handlers *)

Definition payload_of (c : cm) : bytes := cenc HandshakePayload_codec (handshake_payload_of c).

Lemma payload_of_env c c' : same_env c c' -> payload_of c' = payload_of c.
Proof.
  intros [Hid _ _ Hcn _ _ _ _ _]. unfold payload_of, handshake_payload_of, local_schemes, local_core_meta.
  by rewrite Hid, Hcn.
Qed.

Lemma payload_of_length c : identity_ok (c_identity c) -> (length (payload_of c) <= 512)%nat.
Proof.
  intros Hid. pose proof (set_schemes_wf (local_schemes c) _ (bare_payload_wf c Hid)) as Hwf.
  change (set_schemes (local_schemes c) (bare_payload c)) with (handshake_payload_of c) in Hwf.
  unfold payload_of. rewrite cenc_length by done. apply Nat.leb_le. vm_compute. reflexivity.
Qed.

(** The frame a handshake message travels in. *)
Definition noise_frame (t : Z) (m : bytes) (pid : Z) : bytes := frame_bytes (mk_hdr 0 t m pid) m.

Lemma handshake_as_shaking c id hs pid ini ep r :
  shaking c id hs pid ini ep r -> handshake_as (initiator hs) id c = (Some hs, c).
Proof.
  intros [Hrd Hh _ _ _ _ _]. unfold handshake_as, rcu_find. cm_step.
  rewrite (rd_record _ _ _ Hrd). cbn [mbind option_bind]. rewrite Hh.
  by rewrite bool_decide_true.
Qed.

(** The responder answers msg1. *)
Lemma noise_init_run id c r hs hs1 hs2 m1 m2 pid ini ep :
  shaking c id hs pid ini ep r -> initiator hs = false -> fits 64 pid ->
  read_message m1 hs = (Some [], hs1) ->
  write_message (payload_of c) (if step hs1 <? 2 then random_block (c_rng c) else []) hs1 = (Some m2, hs2) ->
  blen m2 <= 4096 ->
  exists c' r', handle_noise_init id m1 c = (tt, c') /\
    c_trace c' = c_trace c ++ [EvSendTo "tcp" id (noise_frame MSG_TYPE_NOISE_RESP m2 pid) 0] /\
    shaking c' id hs2 (u64 (pid + 1)) ini ep r' /\ same_env c c'.
Proof.
  intros Hsh Hini Hpid Hread Hwrite Hlen. unfold handle_noise_init.
  pose proof (handshake_as_shaking _ _ _ _ _ _ _ Hsh) as Has. rewrite Hini in Has.
  rewrite (cm_run _ _ _ _ _ Has).
  destruct (noise_run_shaking id (read_message m1) c r hs _ _ _ _ _ Hsh Hread)
    as (c1 & Hrun1 & Hsh1 & Henv1 & Hrng1 & Htr1).
  unfold noise_read. rewrite (cm_run _ _ _ _ _ Hrun1).
  rewrite bool_decide_false by (cbn; lia). cm_step. unfold build_handshake_payload. cm_step.
  fold (payload_of c1). rewrite (payload_of_env c c1 Henv1).
  edestruct (noise_write_shaking id (payload_of c) c1) as (c2 & r2 & Hrun2 & Hsh2 & Henv2 & Htr2 & _);
    [exact Hsh1|unfold drawn; rewrite Hrng1; exact Hwrite|].
  rewrite (cm_run _ _ _ _ _ Hrun2).
  destruct (shaking_send id MSG_TYPE_NOISE_RESP m2 c2 r2 hs2 pid ini ep) as
    (c3 & r3 & Hsend & Htr3 & Hsh3 & Henv3 & _ & _); [done|done|by vm_compute|done|done|].
  exists c3, r3. split_and!; [done| |done|].
  - by rewrite Htr3, Htr2, Htr1.
  - etrans; [exact Henv1|]. by etrans.
Qed.

(** The primary path keeps its connector when both sides prefer TCP. *)
Definition prefers_tcp (c : cm) : Prop :=
  (exists rest, c_scheme_priority c = "tcp"%string :: rest) /\
  "tcp"%string ∈ take 8 (local_schemes c).

Lemma prefers_tcp_env c c' : same_env c c' -> prefers_tcp c -> prefers_tcp c'.
Proof.
  intros [_ _ Hp Hcn _ _ _ _ _] [H1 H2]. unfold prefers_tcp, local_schemes. by rewrite Hp, Hcn.
Qed.

Lemma negotiate_tcp c peer r :
  prefers_tcp c -> prefers_tcp peer ->
  r_peer_schemes r = map clip_scheme (take 8 (local_schemes peer)) ->
  negotiate_scheme c r = "tcp"%string.
Proof.
  intros [(rest & Hp) Hloc] [_ Hpeer] Hr. unfold negotiate_scheme. rewrite Hp. cbn [list_find].
  rewrite decide_True; [done|]. split.
  - apply list_elem_of_lookup in Hloc as [i Hi]. rewrite lookup_take in Hi. case_decide; [|done].
    by eapply list_elem_of_lookup_2.
  - right. rewrite Hr. change "tcp"%string with (clip_scheme "tcp").
    by apply list_elem_of_fmap_2.
Qed.

(** The peer's identity payload is accepted. *)
Lemma process_shaking a b id r hs pid ini ep :
  shaking b id hs pid ini ep r -> identity_ok (c_identity a) ->
  rs hs = scalarmult_base (sk_to_curve25519 (device_seckey (c_identity a))) ->
  prefers_tcp a -> prefers_tcp b ->
  exists b' r', process_handshake_payload id (payload_of a) b = (true, b') /\
    shaking b' id hs pid ini ep r' /\ same_env b b' /\ c_trace b' = c_trace b /\
    r_peer_user_pubkey r' = user_pubkey (c_identity a) /\ c_rng b' = c_rng b.
Proof.
  intros [Hrd Hh Hs [Hl1 Hl2] Hp Hi He] Hid Hrs Ha Hb.
  pose proof (process_honest a b id r hs Hid (rd_record _ _ _ Hrd) Hh Hrs) as Hproc.
  change (fst (build_handshake_payload a)) with (payload_of a) in Hproc. rewrite Hproc.
  set (f := accept_payload b _ _) in *.
  assert (tcp_path id (r_transport_paths (f r))) as Hpath.
  { destruct (rd_path _ _ _ Hrd) as (p & Hps & Hpid & Hsch & Hact).
    unfold f, accept_payload. cbn zeta. rewrite (negotiate_tcp b a) by done. cbn. rewrite Hps. cbn.
    by eexists. }
  eexists _, (f r). split; [reflexivity|].
  pose proof (accept_payload_fields b (handshake_payload_of a)
    (map clip_scheme (take 8 (local_schemes a))) r) as (F1 & F2 & F3 & F4 & F5 & F6 & F7 & F8 & F9).
  fold f in F1, F2, F3, F4, F5, F6, F7, F8, F9.
  assert (r_is_localhost (f r) = r_is_localhost r /\ r_send_packet_id (f r) = r_send_packet_id r /\
    r_is_initiator (f r) = r_is_initiator r /\ r_remote (f r) = r_remote r /\
    r_recv_buf (f r) = r_recv_buf r) as (G1 & G2 & G3 & G4 & G5).
  { unfold f, accept_payload. cbn zeta. cbn [r_transport_paths set_r_negotiated_scheme set_r_peer_core_meta set_r_peer_schemes set_r_peer_authenticated set_r_peer_device_pubkey set_r_peer_user_pubkey]. by destruct (r_transport_paths r). }
  split; [|split; [by split|]; split; [done|]; split; [exact F7|done]].
  split; [by apply ready_upd|congruence|congruence|split; congruence|congruence..].
Qed.

(** The initiator answers msg2 and is about to finish. *)
Lemma noise_resp_run id c peer r hs hs1 hs2 m2 m3 pid ini ep :
  shaking c id hs pid ini ep r -> initiator hs = true -> fits 64 pid ->
  read_message m2 hs = (Some (payload_of peer), hs1) ->
  identity_ok (c_identity peer) -> prefers_tcp peer -> prefers_tcp c ->
  rs hs1 = scalarmult_base (sk_to_curve25519 (device_seckey (c_identity peer))) ->
  step hs1 = 2 -> write_message (payload_of c) [] hs1 = (Some m3, hs2) -> blen m3 <= 4096 ->
  exists c' r', handle_noise_resp id m2 c = finalize_handshake id c' /\
    c_trace c' = c_trace c ++ [EvSendTo "tcp" id (noise_frame MSG_TYPE_NOISE_FIN m3 pid) 0] /\
    shaking c' id hs2 (u64 (pid + 1)) ini ep r' /\ same_env c c' /\
    r_peer_user_pubkey r' = user_pubkey (c_identity peer).
Proof.
  intros Hsh Hini Hpid Hread Hid Hpt Hct Hrs Hstep Hwrite Hlen. unfold handle_noise_resp.
  pose proof (handshake_as_shaking _ _ _ _ _ _ _ Hsh) as Has. rewrite Hini in Has.
  rewrite (cm_run _ _ _ _ _ Has).
  destruct (noise_run_shaking id (read_message m2) c r hs _ _ _ _ _ Hsh Hread)
    as (c1 & Hrun1 & Hsh1 & Henv1 & Hrng1 & Htr1).
  unfold noise_read. rewrite (cm_run _ _ _ _ _ Hrun1).
  edestruct (process_shaking peer c1) as (c2 & r2 & Hrun2 & Hsh2 & Henv2 & Htr2 & Hpk & Hrng2);
    [exact Hsh1|done|done|done|by eapply prefers_tcp_env|].
  rewrite (cm_run _ _ _ _ _ Hrun2). unfold build_handshake_payload. cm_step.
  fold (payload_of c2). rewrite (payload_of_env c c2) by by etrans.
  edestruct (noise_write_shaking id (payload_of c) c2) as
    (c3 & r3 & Hrun3 & Hsh3 & Henv3 & Htr3 & Hpk3);
    [exact Hsh2|unfold drawn; rewrite Hstep; exact Hwrite|].
  rewrite (cm_run _ _ _ _ _ Hrun3).
  destruct (shaking_send id MSG_TYPE_NOISE_FIN m3 c3 r3 hs2 pid ini ep) as
    (c4 & r4 & Hsend & Htr4 & Hsh4 & Henv4 & _ & Hpk4 & _); [done|done|by vm_compute|done|done|].
  rewrite (cm_run _ _ _ _ _ Hsend). exists c4, r4. split_and!; [done| |done| |congruence].
  - by rewrite Htr4, Htr3, Htr2, Htr1.
  - etrans; [exact Henv1|]. etrans; [exact Henv2|]. by etrans.
Qed.

(** The responder gets msg3 and is about to finish. *)
Lemma noise_fin_run id c peer r hs hs1 m3 pid ini ep :
  shaking c id hs pid ini ep r -> initiator hs = false ->
  read_message m3 hs = (Some (payload_of peer), hs1) ->
  identity_ok (c_identity peer) -> prefers_tcp peer -> prefers_tcp c ->
  rs hs1 = scalarmult_base (sk_to_curve25519 (device_seckey (c_identity peer))) ->
  exists c' r', handle_noise_fin id m3 c = finalize_handshake id c' /\
    c_trace c' = c_trace c /\ shaking c' id hs1 pid ini ep r' /\ same_env c c' /\
    r_peer_user_pubkey r' = user_pubkey (c_identity peer).
Proof.
  intros Hsh Hini Hread Hid Hpt Hct Hrs. unfold handle_noise_fin.
  pose proof (handshake_as_shaking _ _ _ _ _ _ _ Hsh) as Has. rewrite Hini in Has.
  rewrite (cm_run _ _ _ _ _ Has).
  destruct (noise_run_shaking id (read_message m3) c r hs _ _ _ _ _ Hsh Hread)
    as (c1 & Hrun1 & Hsh1 & Henv1 & Hrng1 & Htr1).
  unfold noise_read. rewrite (cm_run _ _ _ _ _ Hrun1).
  edestruct (process_shaking peer c1) as (c2 & r2 & Hrun2 & Hsh2 & Henv2 & Htr2 & Hpk & _);
    [exact Hsh1|done|done|done|by eapply prefers_tcp_env|].
  rewrite (cm_run _ _ _ _ _ Hrun2). exists c2, r2. split_and!; [done|congruence|done|by etrans|done].
Qed.

(** The state right after the switch to the session. *)
Definition switched (id : Z) (hs : HandshakeState) (hex : string) (c : cm) : cm :=
  set_c_pk_index (<[hex := id]> (c_pk_index c))
    (set_c_records (alter (establish hs) id (c_records c)) c).

(** What follows the switch and the flush of the pending messages. *)
Definition announce (id : Z) (hex : string) (ini : bool) : CM unit :=
  notify_handlers hex STATE_ESTABLISHED ;;
  stat AuthOk 1 id ;;
  on_bus (emit_conn_state id STATE_ESTABLISHED) ;;
  if ini then schedule_transport_upgrade id else mret tt.

Lemma Talk_announce id hex ini : Talk (announce id hex ini).
Proof. unfold announce. solve_talk; [apply Talk_notify|apply Talk_upgrade]. Qed.

Definition session_of_hs (hs : HandshakeState) : NoiseSession :=
  mk_session (key (hs_split hs).1) (key (hs_split hs).2) (get_handshake_hash hs) window_init.

Lemma finalize_run id c r hs pid ini ep :
  shaking c id hs pid ini ep r ->
  c_pk_index c !! bytes_to_hex (r_peer_user_pubkey r) = None ->
  let hex := bytes_to_hex (r_peer_user_pubkey r) in
  finalize_handshake id c =
    (flush_pending_messages (addr_key ep) id ;; announce id hex ini) (switched id hs hex c) /\
  ready (switched id hs hex c) id (establish hs r) /\
  r_session (establish hs r) = Some (session_of_hs hs) /\
  r_state (establish hs r) = STATE_ESTABLISHED /\
  r_is_localhost (establish hs r) = false /\ r_localhost_passthrough (establish hs r) = false /\
  r_send_packet_id (establish hs r) = pid /\ r_remote (establish hs r) = ep.
Proof.
  intros [Hrd Hh Hs [Hl1 Hl2] Hp Hi He] Hpk hex.
  assert (r_recv_buf (establish hs r) = r_recv_buf r /\
    r_transport_paths (establish hs r) = r_transport_paths r /\
    r_session (establish hs r) = Some (session_of_hs hs) /\
    r_state (establish hs r) = STATE_ESTABLISHED /\
    r_is_localhost (establish hs r) = false /\ r_localhost_passthrough (establish hs r) = false /\
    r_send_packet_id (establish hs r) = pid /\ r_remote (establish hs r) = ep) as (E1 & E2 & HE).
  { unfold establish, session_of_hs. destruct (hs_split hs). cbn. by rewrite Hl1. }
  split; [|split; [|done]].
  - unfold finalize_handshake, rcu_find. cm_step. rewrite (rd_record _ _ _ Hrd), Hh. cm_step.
    fold hex in Hpk |- *. rewrite Hpk, bool_decide_false by (intros [[? ?] _]; done).
    cm_step. cm_step. rewrite Hi, He. reflexivity.
  - pose proof (ready_upd c id r (establish hs) Hrd) as Hrd'. rewrite E2 in Hrd'.
    destruct Hrd'; [done|apply Hrd|]. split; try done.
Qed.

(** ** Connecting *)

(** A running node with its keys and a TCP connector that takes every frame, about to be
    told of a connection that is not local. *)
Record node_ok (c : cm) (ep : endpoint_t) : Prop := mk_node_ok {
  nd_running : c_shutting_down c = false;
  nd_fresh : c_transport_index c !! c_next_id c = None;
  nd_connector : exists ops, c_connectors c !! "tcp"%string = Some ops /\ forall n, co_rc ops n = 0;
  nd_identity : identity_ok (c_identity c);
  nd_tcp : prefers_tcp c;
  nd_remote : Z.land (ep_flags ep) EP_FLAG_TRUSTED = 0;
}.

Definition outbound (ep : endpoint_t) : bool := negb (Z.land (ep_flags ep) EP_FLAG_OUTBOUND =? 0).

(** The X25519 secret of a node. *)
Definition dh_secret (c : cm) : bytes := sk_to_curve25519 (device_seckey (c_identity c)).

Definition hs_start (c : cm) (ini : bool) : HandshakeState :=
  hs_init ini (scalarmult_base (dh_secret c)) (dh_secret c).

Lemma connect_prefix c ep :
  node_ok c ep ->
  exists c1 r, handle_connect ep c =
    ((if outbound ep then send_noise_init (c_next_id c) else mret tt) ;; mret (c_next_id c)) c1 /\
  shaking c1 (c_next_id c) (hs_start c (outbound ep)) 0 (outbound ep) ep r /\
  same_env c c1 /\ c_rng c1 = c_rng c /\ c_trace c1 = c_trace c.
Proof.
  intros [Hrun Hti Hconn [Hu Hd] Htcp Hrem].
  eexists _, (new_record (c_next_id c) ep (hs_start c (outbound ep))
    (scheme_priority_index (set_c_next_id (u64 (c_next_id c + 1)) c) "tcp") (c_now_ns c)). split.
  { unfold handle_connect. cm_step. rewrite Hrun. cm_step. cm_step. cm_step.
    cbn [c_identity set_c_next_id]. rewrite (ed_curve _ _ Hd). cm_step. cm_step. cm_step. cm_step.
    cm_step. cm_step. fold (outbound ep) (dh_secret c). reflexivity. }
  split; [|split_and!; [by split|done|done]].
  split; try done; [|unfold new_record; cbn [r_is_localhost r_localhost_passthrough]; by rewrite Hrem].
  split; try done.
  - cbn [c_records set_c_records set_c_bus set_c_send_queues set_c_uri_index].
    by rewrite lookup_insert_eq.
  - by eexists.
  - cbn [c_send_queues set_c_records set_c_bus set_c_send_queues set_c_uri_index].
    by rewrite lookup_insert_eq.
Qed.

Lemma connect_responder c ep :
  node_ok c ep -> outbound ep = false ->
  exists c' r, handle_connect ep c = (c_next_id c, c') /\
    shaking c' (c_next_id c) (hs_start c false) 0 false ep r /\
    same_env c c' /\ c_rng c' = c_rng c /\ c_trace c' = c_trace c.
Proof.
  intros Hn Ho. destruct (connect_prefix c ep Hn) as (c1 & r & Hrun & Hsh & Hrest).
  rewrite Ho in Hrun, Hsh. exists c1, r. split; [|done]. rewrite Hrun. by cm_step.
Qed.

Lemma connect_initiator c ep m1 hs1 :
  node_ok c ep -> outbound ep = true ->
  write_message [] (random_block (c_rng c)) (hs_start c true) = (Some m1, hs1) -> blen m1 <= 4096 ->
  exists c' r, handle_connect ep c = (c_next_id c, c') /\
    c_trace c' = c_trace c ++
      [EvSendTo "tcp" (c_next_id c) (noise_frame MSG_TYPE_NOISE_INIT m1 0) 0] /\
    shaking c' (c_next_id c) hs1 1 true ep r /\ same_env c c'.
Proof.
  intros Hn Ho Hw Hlen. destruct (connect_prefix c ep Hn) as (c1 & r & Hrun & Hsh & Henv & Hrng & Htr).
  rewrite Ho in Hrun, Hsh. rewrite Hrun. unfold send_noise_init, rcu_find. rewrite cm_assoc. cm_step.
  rewrite (rd_record _ _ _ (sh_ready _ _ _ _ _ _ _ Hsh)). cbn [mbind option_bind].
  rewrite (sh_handshake _ _ _ _ _ _ _ Hsh).
  edestruct (noise_write_shaking (c_next_id c) [] c1) as (c2 & r2 & Hrun2 & Hsh2 & Henv2 & Htr2 & _);
    [exact Hsh|unfold drawn; cbn [step hs_start hs_init]; rewrite Hrng; exact Hw|].
  rewrite cm_assoc, (cm_run _ _ _ _ _ Hrun2).
  destruct (shaking_send (c_next_id c) MSG_TYPE_NOISE_INIT m1 c2 r2 hs1 0 true ep) as
    (c3 & r3 & Hsend & Htr3 & Hsh3 & Henv3 & _); [done|done|by vm_compute|by vm_compute|done|].
  rewrite (cm_run _ _ _ _ _ Hsend). exists c3, r3. split_and!; [done| |done|].
  - by rewrite Htr3, Htr2, Htr.
  - etrans; [exact Henv|]. by etrans.
Qed.

(** A whole handshake frame reaches its handler. *)
Lemma receive_noise fuel id t m pid c c' (h : CM unit) hs p ini ep r :
  shaking c id hs p ini ep r -> is_handshake t = true -> fits 16 t -> fits 64 pid -> blen m <= 4096 ->
  (forall d, dispatch_body d id (mk_hdr 0 t m pid) m (c_now_ns c) = h) ->
  h (set_c_in_flight_dispatches (u32 (c_in_flight_dispatches c + 1)) c) = (tt, c') ->
  handle_data fuel id (noise_frame t m pid) c =
    (tt, set_c_in_flight_dispatches (u32 (c_in_flight_dispatches c' - 1)) c').
Proof.
  intros [Hrd _ _ _ _ _ _] Ht Hft Hpid Hlen Hb Hm. unfold handle_data.
  destruct (handshake_wire t m pid Ht Hft Hpid Hlen) as [Hwire _]. destruct Hrd.
  unfold noise_frame. rewrite (handle_data_one _ id _ m c r) by done.
  by apply (dispatch_guarded _ _ _ _ _ _ _ h).
Qed.

Lemma shaking_in_flight c id hs pid ini ep r n :
  shaking c id hs pid ini ep r -> shaking (set_c_in_flight_dispatches n c) id hs pid ini ep r.
Proof. intros []. split; try done. by apply ready_in_flight. Qed.

Lemma same_env_in_flight c n : same_env c (set_c_in_flight_dispatches n c).
Proof. by split. Qed.

Definition written (id : Z) (f : bytes) : event := EvSendTo "tcp" id f 0.

(** Both sides are about to finish: what is left to run is [finalize_handshake]. *)
Record at_end (fuel : nat) (c : cm) (id : Z) (f : bytes) (mid : cm) (r : ConnectionRecord)
    (hs : HandshakeState) (pid : Z) (ini : bool) (ep : endpoint_t) (peer : cm) : Prop := mk_at_end {
  ae_run : forall c', finalize_handshake id mid = (tt, c') ->
    handle_data fuel id f c =
      (tt, set_c_in_flight_dispatches (u32 (c_in_flight_dispatches c' - 1)) c');
  ae_shaking : shaking mid id hs pid ini ep r;
  ae_env : same_env c mid;
  ae_peer : r_peer_user_pubkey r = user_pubkey (c_identity peer);
}.

(** The receiver of a handshake frame whose handler ends in [finalize_handshake]. *)
Lemma receive_last fuel id t m pid c mid (h : CM unit) hs p ini ep r hs' p' r' peer :
  shaking c id hs p ini ep r -> is_handshake t = true -> fits 16 t -> fits 64 pid -> blen m <= 4096 ->
  (forall d, dispatch_body d id (mk_hdr 0 t m pid) m (c_now_ns c) = h) ->
  h (set_c_in_flight_dispatches (u32 (c_in_flight_dispatches c + 1)) c) = finalize_handshake id mid ->
  shaking mid id hs' p' ini ep r' ->
  same_env (set_c_in_flight_dispatches (u32 (c_in_flight_dispatches c + 1)) c) mid ->
  r_peer_user_pubkey r' = user_pubkey (c_identity peer) ->
  at_end fuel c id (noise_frame t m pid) mid r' hs' p' ini ep peer.
Proof.
  intros Hsh Ht Hft Hpid Hlen Hb Hh Hsh' Henv Hpk. split; [|done|by etrans; [apply same_env_in_flight|]|done].
  intros c' Hfin. eapply receive_noise; try done. by rewrite Hh.
Qed.

(** The responder takes the connection and answers the first frame. *)
Lemma responder_replies fuel b ep m1 m2 hs1 hs2 :
  node_ok b ep -> outbound ep = false -> blen m1 <= 4096 -> blen m2 <= 4096 ->
  read_message m1 (hs_start b false) = (Some [], hs1) -> step hs1 < 2 ->
  write_message (payload_of b) (random_block (c_rng b)) hs1 = (Some m2, hs2) ->
  let id := c_next_id b in
  exists b1 b2 r, handle_connect ep b = (id, b1) /\ c_trace b1 = c_trace b /\
    handle_data fuel id (noise_frame MSG_TYPE_NOISE_INIT m1 0) b1 = (tt, b2) /\
    c_trace b2 = c_trace b1 ++ [written id (noise_frame MSG_TYPE_NOISE_RESP m2 0)] /\
    shaking b2 id hs2 1 false ep r /\ same_env b b2.
Proof.
  intros Hb Ho L1 L2 R1 Hstep W2 id.
  destruct (connect_responder b ep Hb Ho) as (b1 & r1 & Hcb & Hsh1 & He1 & Hr1 & Ht1).
  destruct (noise_init_run id (set_c_in_flight_dispatches (u32 (c_in_flight_dispatches b1 + 1)) b1) r1 (hs_start b false) hs1 hs2
    m1 m2 0 false ep) as (b2 & r2 & Hrun & Ht2 & Hsh2 & He2); [by apply shaking_in_flight|done|done|done| |done|].
  { destruct (Z.ltb_spec (step hs1) 2); [|lia]. cbn [c_rng set_c_in_flight_dispatches]. rewrite Hr1.
    erewrite payload_of_env; [exact W2|]. etrans; [exact He1|apply same_env_in_flight]. }
  exists b1, (set_c_in_flight_dispatches (u32 (c_in_flight_dispatches b2 - 1)) b2), r2. split_and!; try done.
  - by eapply receive_noise with (h := handle_noise_init id m1).
  - by apply shaking_in_flight.
  - etrans; [exact He1|]. etrans; [apply same_env_in_flight|]. etrans; [exact He2|apply same_env_in_flight].
Qed.

(** The three frames between two nodes. *)
Lemma handshake_frames fuel a b epa epb ee es se :
  node_ok a epa -> node_ok b epb -> outbound epa = true -> outbound epb = false ->
  scalarmult (random_block (c_rng b)) (scalarmult_base (random_block (c_rng a))) = Some ee ->
  scalarmult (dh_secret b) (scalarmult_base (random_block (c_rng a))) = Some es ->
  scalarmult (dh_secret a) (scalarmult_base (random_block (c_rng b))) = Some se ->
  let ida := c_next_id a in let idb := c_next_id b in
  exists f1 f2 f3 a1 b1 b2 am bm ra rb hsa hsb,
    handle_connect epa a = (ida, a1) /\ c_trace a1 = c_trace a ++ [written ida f1] /\
    handle_connect epb b = (idb, b1) /\ c_trace b1 = c_trace b /\
    handle_data fuel idb f1 b1 = (tt, b2) /\ c_trace b2 = c_trace b1 ++ [written idb f2] /\
    at_end fuel a1 ida f2 am ra hsa 2 true epa b /\ c_trace am = c_trace a1 ++ [written ida f3] /\
    at_end fuel b2 idb f3 bm rb hsb 1 false epb a /\ c_trace bm = c_trace b2 /\
    same_env a a1 /\ same_env b b2 /\
    hs_split hsb = ((hs_split hsa).2, (hs_split hsa).1) /\
    get_handshake_hash hsa = get_handshake_hash hsb.
Proof.
  intros Ha Hb Hoa Hob Hee Hes Hse ida idb.
  pose proof (payload_of_length a (nd_identity _ _ Ha)) as Hla.
  pose proof (payload_of_length b (nd_identity _ _ Hb)) as Hlb.
  edestruct msg1_exchange with (S := sym_init PROTOCOL_NAME) (p := @nil byte) as (m1 & S1 & W1 & R1 & L1).
  edestruct msg2_exchange with (p := payload_of b) as (m2 & S2 & W2 & R2 & L2 & K2); [exact Hee|exact Hes|done|].
  edestruct msg3_exchange with (p := payload_of a) as (m3 & S3 & W3 & R3 & L3); [exact K2|exact Hse|done|].
  unfold DHLEN, MACLEN in L1, L2, L3. cbn [length sym_init cipher cipher_init has_key] in L1.
  destruct (connect_initiator a epa m1 _ Ha Hoa W1) as (a1 & ra1 & Hca & Hta1 & Hsha1 & Hea1);
    [unfold blen; rewrite L1; cbn; lia|].
  edestruct (responder_replies fuel b epb m1 m2) as (b1 & b2 & rb2 & Hcb & Htb1 & Hd1 & Htb2 & Hshb2 & Hebb);
    [exact Hb|exact Hob|unfold blen; rewrite L1; cbn; lia|unfold blen; rewrite L2; lia|exact R1|done|exact W2|].
  edestruct (noise_resp_run ida (set_c_in_flight_dispatches (u32 (c_in_flight_dispatches a1 + 1)) a1) b)
    as (am & ra & Hruna & Htam & Hsham & Heam & Hpka);
    [by apply shaking_in_flight|done|done|exact R2|apply Hb|apply Hb| |done|done| |
     unfold blen; rewrite L3; lia|].
  { eapply prefers_tcp_env; [|apply Ha]. etrans; [exact Hea1|apply same_env_in_flight]. }
  { erewrite payload_of_env; [exact W3|]. etrans; [exact Hea1|apply same_env_in_flight]. }
  edestruct (noise_fin_run idb (set_c_in_flight_dispatches (u32 (c_in_flight_dispatches b2 + 1)) b2) a)
    as (bm & rb & Hrunb & Htbm & Hshbm & Hebm & Hpkb);
    [by apply shaking_in_flight|done|exact R3|apply Ha|apply Ha| |done|].
  { eapply prefers_tcp_env; [|apply Hb]. etrans; [exact Hebb|apply same_env_in_flight]. }
  eexists _, _, _, a1, b1, b2, am, bm, ra, rb, _, _. split; [exact Hca|]. split; [exact Hta1|].
  split; [exact Hcb|]. split; [exact Htb1|]. split; [exact Hd1|]. split; [exact Htb2|].
  split; [|split; [exact Htam|]].
  { eapply receive_last with (h := handle_noise_resp ida m2); [exact Hsha1|done|done|done| |done|exact Hruna|exact Hsham|exact Heam|exact Hpka].
    unfold blen; rewrite L2; lia. }
  split; [|split; [exact Htbm|]].
  { eapply receive_last with (h := handle_noise_fin idb m3); [exact Hshb2|done|done|done| |done|exact Hrunb|
      exact Hshbm|exact Hebm|exact Hpkb]. unfold blen; rewrite L3; lia. }
  split; [done|]. split; [done|]. unfold hs_split, get_handshake_hash. cbn [symmetric initiator].
  split; [by destruct (sym_split S3)|done].
Qed.

(** ** The switch to the sessions *)

Definition message (m : PendingMessage) : Z * bytes := (pm_msg_type m, pm_payload m).

(** The messages an application queued for an address. *)
Definition queued (c : cm) (ep : endpoint_t) : list PendingMessage :=
  default [] (c_pending_messages c !! addr_key ep).

(** The flush of the pending messages leaves the same manager without them. *)
Definition unqueued (ep : endpoint_t) (c : cm) : cm :=
  match queued c ep with
  | [] => c
  | _ => set_c_pending_messages (delete (addr_key ep) (c_pending_messages c)) c
  end.

Lemma flush_run id ep c :
  flush_pending_messages (addr_key ep) id c =
    for_each (map message (queued c ep)) (fun m => send_frame id (fst m) (snd m)) (unqueued ep c).
Proof.
  rewrite for_each_map. unfold flush_pending_messages, unqueued, queued. cm_step.
  destruct (c_pending_messages c !! addr_key ep) as [[|m ms]|]; cbn [default from_option]; [done| |done].
  by cm_step.
Qed.

Lemma ready_unqueued c id r ep : ready c id r -> ready (unqueued ep c) id r.
Proof. unfold unqueued. by destruct (queued c ep); [|intros []]. Qed.

(** The responder finishes: nothing is written. *)
Lemma finish_responder id c r hs pid ini ep :
  shaking c id hs pid ini ep r ->
  c_pk_index c !! bytes_to_hex (r_peer_user_pubkey r) = None -> queued c ep = [] ->
  exists c', finalize_handshake id c = (tt, c') /\
    talk (switched id hs (bytes_to_hex (r_peer_user_pubkey r)) c) c' /\ ready c' id (establish hs r).
Proof.
  intros Hsh Hpk Hq. destruct (finalize_run _ _ _ _ _ _ _ Hsh Hpk) as (Hrun & Hrd & _).
  cbv zeta in Hrun. set (sw := switched _ _ _ c) in *.
  assert (flush_pending_messages (addr_key ep) id sw = (tt, sw)) as Hfl.
  { rewrite flush_run. unfold unqueued. by replace (queued sw ep) with (@nil PendingMessage). }
  rewrite Hrun, (cm_run _ _ _ _ _ Hfl).
  pose proof (Talk_announce id (bytes_to_hex (r_peer_user_pubkey r)) ini sw) as Ht.
  destruct (announce _ _ _ sw) as [[] c']. exists c'. cbn [snd] in Ht. split_and!; [done|done|].
  by eapply ready_talk.
Qed.

(** The initiator finishes against a responder that already did: the queued messages go
    out as a stream. *)
Lemma finish_initiator fuel id c r hs pid ini ep idb b rb sb :
  shaking c id hs pid ini ep r ->
  c_pk_index c !! bytes_to_hex (r_peer_user_pubkey r) = None ->
  linked (switched id hs (bytes_to_hex (r_peer_user_pubkey r)) c) id b idb (establish hs r) rb
    (session_of_hs hs) sb ->
  Forall message_ok (map message (queued c ep)) ->
  pid + Z.of_nat (length (queued c ep)) < 2 ^ 64 ->
  exists fs hdrs c1 c' b' ra' rb' sb',
    finalize_handshake id c = (tt, c') /\ c_trace c1 = c_trace c ++ map (written id) fs /\
    talk c1 c' /\ same_env (unqueued ep (switched id hs (bytes_to_hex (r_peer_user_pubkey r)) c)) c1 /\
    for_each fs (handle_data fuel idb) b = (tt, b') /\
    map hdr_payload_type hdrs = map pm_msg_type (queued c ep) /\
    c_trace b' = c_trace b ++
      concat (zip_with (handled b (remote_view idb rb)) hdrs (map pm_payload (queued c ep))) /\
    linked c1 id b' idb ra' rb' (session_of_hs hs) sb' /\ core_of ra' = core_of (establish hs r) /\
    same_env b b' /\ core_of rb' = core_of rb /\
    r_send_packet_id rb' = r_send_packet_id rb /\ (ready b idb rb -> ready b' idb rb').
Proof.
  intros Hsh Hpk Hl Hm Hn.
  destruct (finalize_run _ _ _ _ _ _ _ Hsh Hpk) as (Hrun & _ & _ & _ & _ & _ & Hpid & _).
  cbv zeta in Hrun. set (sw := switched _ _ _ c) in *.
  change (queued c ep) with (queued sw ep) in *.
  assert (linked (unqueued ep sw) id b idb (establish hs r) rb (session_of_hs hs) sb) as Hl'
    by (destruct Hl; split; try done; by apply ready_unqueued).
  destruct (link_stream fuel id idb (map message (queued sw ep)) _ b _ rb _ sb Hl' Hm) as
    (fs & hdrs & c1 & b' & ra' & rb' & sb' & Hs & Ht & Hd & Hh & Htb & Hl1 & Hcore & He1 & He2 & Hrest);
    [rewrite length_map; lia|].
  rewrite <-flush_run in Hs.
  pose proof (Talk_announce id (bytes_to_hex (r_peer_user_pubkey r)) ini c1) as Htk.
  destruct (announce id (bytes_to_hex (r_peer_user_pubkey r)) ini c1) as [[] c'] eqn:Ea.
  rewrite !map_map in *.
  exists fs, hdrs, c1, c', b', ra', rb', sb'. split; [by rewrite Hrun, (cm_run _ _ _ _ _ Hs)|].
  split; [|by split_and!; try apply Hrest].
  rewrite Ht. unfold unqueued. by destruct (queued sw ep).
Qed.

(** A pair that just switched, in both directions. *)
Lemma switched_linked a ida b idb ra rb hsa hsb :
  ready a ida (establish hsa ra) -> ready b idb (establish hsb rb) ->
  r_session (establish hsa ra) = Some (session_of_hs hsa) ->
  r_session (establish hsb rb) = Some (session_of_hs hsb) ->
  r_is_localhost (establish hsa ra) = false /\ r_localhost_passthrough (establish hsa ra) = false ->
  r_is_localhost (establish hsb rb) = false /\ r_localhost_passthrough (establish hsb rb) = false ->
  r_state (establish hsb rb) = STATE_ESTABLISHED ->
  hs_split hsb = ((hs_split hsa).2, (hs_split hsa).1) ->
  0 < r_send_packet_id (establish hsa ra) ->
  linked a ida b idb (establish hsa ra) (establish hsb rb) (session_of_hs hsa) (session_of_hs hsb).
Proof.
  intros Ha [] Hsa Hsb Hla Hlb Hst Hk Hpid. split; try done.
  unfold session_of_hs. cbn [recv_key send_key]. by rewrite Hk.
Qed.

(** The reverse direction after a stream: the peer's record kept its core. *)
Lemma linked_back a ida b idb ra rb sa sb sb0 rb0 :
  linked a ida b idb ra rb sa sb -> ready b idb rb -> core_of rb = core_of rb0 ->
  r_session rb0 = Some sb0 -> recv_key sa = send_key sb0 -> r_state ra = STATE_ESTABLISHED ->
  highest_nonce (recv_window sa) < r_send_packet_id rb -> 0 < r_send_packet_id rb ->
  linked b idb a ida rb ra sb sa.
Proof.
  intros [[] Hsa Hla Hb Hrun Hti Hbuf Hst Hsb Hlb Hkey Hwin Hpos] Hrd Hcore Hs0 Hk Hest Hw Hp.
  split; try done. assert (session_keys rb = session_keys rb0) as Hsk
    by (unfold core_of in Hcore; by simplify_eq).
  unfold session_keys in Hsk. rewrite Hsb, Hs0 in Hsk. cbn in Hsk. injection Hsk as Hsk _ _. congruence.
Qed.

Lemma same_env_queued c c' ep : same_env c c' -> queued c' ep = queued c ep.
Proof. intros H. unfold queued. by rewrite (se_pending _ _ H). Qed.

(** What a record keeps of the handshake that established it. *)
Lemma established_core hs r r' :
  core_of r' = core_of (establish hs r) ->
  r_peer_user_pubkey r' = r_peer_user_pubkey r /\ session_keys r' = session_keys (establish hs r).
Proof.
  intros H. assert (r_peer_user_pubkey (establish hs r) = r_peer_user_pubkey r) as Hp by apply establish_fields.
  unfold core_of in H. split; [rewrite <-Hp|]; by simplify_eq.
Qed.

Lemma same_keys_hash r r' s s' :
  session_keys r = session_keys r' -> r_session r = Some s -> r_session r' = Some s' ->
  handshake_hash s = handshake_hash s'.
Proof. unfold session_keys. intros H Hs Hs'. rewrite Hs, Hs' in H. cbn in H. by injection H. Qed.

Lemma unqueued_switched_pk id hs hex ep c : c_pk_index (unqueued ep (switched id hs hex c)) !! hex = Some id.
Proof.
  transitivity (c_pk_index (switched id hs hex c) !! hex); [unfold unqueued; by case_match|apply lookup_insert_eq].
Qed.

(** What the announcement of a switched connection leaves alone. *)
Lemma talk_channels id hs hex c c' c0 :
  talk (switched id hs hex c) c' -> same_env c0 c ->
  channels (c_bus c') = channels (c_bus c0) /\ wildcards (c_bus c') = wildcards (c_bus c0).
Proof. intros [E _ _ _] E0. rewrite (proj1 (se_channels _ _ E)), (proj2 (se_channels _ _ E)). apply E0. Qed.

Lemma talk_pk id hs hex c c' : talk (switched id hs hex c) c' -> c_pk_index c' !! hex = Some id.
Proof. intros [E _ _ _]. rewrite (se_pk _ _ E). apply lookup_insert_eq. Qed.

(** C1: first contact.  Two running nodes with valid keys and TCP connectors, of which
    neither is connected to the other, and whose Diffie-Hellman results are not refused:
    once the connectors report the connection, three frames, each the only one its sender
    writes, establish both ends.  Each side then lists the other under its authenticated
    user key, both sessions share the handshake hash and have mirrored keys, in both
    directions, and the messages that the initiator's application had queued for the
    address follow the last handshake frame, in order, and run at the responder exactly
    the handler chains of their types with exactly their payloads. *)
Theorem first_contact fuel a b epa epb ee es se :
  node_ok a epa -> node_ok b epb -> outbound epa = true -> outbound epb = false ->
  scalarmult (random_block (c_rng b)) (scalarmult_base (random_block (c_rng a))) = Some ee ->
  scalarmult (dh_secret b) (scalarmult_base (random_block (c_rng a))) = Some es ->
  scalarmult (dh_secret a) (scalarmult_base (random_block (c_rng b))) = Some se ->
  c_pk_index a !! bytes_to_hex (user_pubkey (c_identity b)) = None ->
  c_pk_index b !! bytes_to_hex (user_pubkey (c_identity a)) = None ->
  Forall message_ok (map message (queued a epa)) -> Z.of_nat (length (queued a epa)) < 2 ^ 63 ->
  queued b epb = [] ->
  exists ida idb f1 f2 f3 fs hdrs a1 b1 b2 a2 b3 b4 es1 es2 ra rb sa sb,
    handle_connect epa a = (ida, a1) /\ c_trace a1 = c_trace a ++ [written ida f1] /\
    handle_connect epb b = (idb, b1) /\ c_trace b1 = c_trace b /\
    handle_data fuel idb f1 b1 = (tt, b2) /\ c_trace b2 = c_trace b1 ++ [written idb f2] /\
    handle_data fuel ida f2 a1 = (tt, a2) /\
    c_trace a2 = c_trace a1 ++ map (written ida) (f3 :: fs) ++ es1 /\
    handle_data fuel idb f3 b2 = (tt, b3) /\ c_trace b3 = c_trace b2 ++ es2 /\
    Forall (fun e => is_write e = false) (es1 ++ es2) /\
    for_each fs (handle_data fuel idb) b3 = (tt, b4) /\
    map hdr_payload_type hdrs = map pm_msg_type (queued a epa) /\
    c_trace b4 = c_trace b3 ++
      concat (zip_with (handled b (remote_view idb rb)) hdrs (map pm_payload (queued a epa))) /\
    linked a2 ida b4 idb ra rb sa sb /\ linked b4 idb a2 ida rb ra sb sa /\
    handshake_hash sa = handshake_hash sb /\
    r_peer_user_pubkey ra = user_pubkey (c_identity b) /\
    r_peer_user_pubkey rb = user_pubkey (c_identity a) /\
    c_pk_index a2 !! bytes_to_hex (user_pubkey (c_identity b)) = Some ida /\
    c_pk_index b4 !! bytes_to_hex (user_pubkey (c_identity a)) = Some idb /\
    r_remote rb = epb.
Proof.
  intros Ha Hb Hoa Hob Hee Hes Hse Hpka Hpkb Hm Hn Hq.
  destruct (handshake_frames fuel a b epa epb ee es se Ha Hb Hoa Hob Hee Hes Hse) as
    (f1 & f2 & f3 & a1 & b1 & b2 & am & bm & ra & rb & hsa & hsb & Hca & Hta1 & Hcb & Htb1 & Hd1 & Htb2 &
     [Hra Hsha Hea Hpa] & Htam & [Hrb Hshb Heb Hpb] & Htbm & Hea1 & Heb2 & Hsplit & Hhash).
  pose proof (transitivity Hea1 Hea) as Hame. pose proof (transitivity Heb2 Heb) as Hbme.
  rewrite <-Hpa, <-(se_pk _ _ Hame) in Hpka. rewrite <-Hpb, <-(se_pk _ _ Hbme) in Hpkb.
  pose proof (same_env_queued _ _ epa Hame) as Hqa. rewrite <-(same_env_queued _ _ epb Hbme) in Hq.
  destruct (finish_responder _ _ _ _ _ _ _ Hshb Hpkb Hq) as (b3 & Hfb & Htkb & Hrdb).
  specialize (Hrb _ Hfb). set (b3' := set_c_in_flight_dispatches _ b3) in Hrb.
  destruct (finalize_run _ _ _ _ _ _ _ Hsha Hpka) as (_ & Hrda & Hsa & Hsta & Hla1 & Hla2 & Hpida & _).
  destruct (finalize_run _ _ _ _ _ _ _ Hshb Hpkb) as (_ & _ & Hsb & Hstb & Hlb1 & Hlb2 & Hpidb & Hepb).
  edestruct (finish_initiator fuel (c_next_id a) am ra hsa 2 true epa (c_next_id b) b3') as
    (fs & hdrs & c1 & c' & b4 & ra' & rb' & sb' & Hfa & Htc & Htka & Hec & Hd4 & Hty & Htb4 & Hl & Hcra &
     He4 & Hcrb & Hpid4 & Hrd4);
    [done|done|apply switched_linked; [done|exact (ready_in_flight _ _ _ _ Hrdb)|done|done|done|done|done|
       done|by rewrite Hpida]|by rewrite Hqa|rewrite Hqa; lia|].
  specialize (Hra _ Hfa). set (a2 := set_c_in_flight_dispatches _ c') in Hra. rewrite Hqa in *.
  destruct (tk_trace _ _ Htka) as (es1 & Hes1 & Hf1). destruct (tk_trace _ _ Htkb) as (es2 & Hes2 & Hf2).
  assert (linked a2 (c_next_id a) b4 (c_next_id b) ra' rb' (session_of_hs hsa) sb') as Hlab.
  { destruct Hl. split; try done. by apply ready_in_flight, (ready_talk c1). }
  exists (c_next_id a), (c_next_id b), f1, f2, f3, fs, hdrs, a1, b1, b2, a2, b3', b4, es1, es2, ra', rb',
    (session_of_hs hsa), sb'.
  destruct (core_of_remote _ _ Hcra) as (Hst' & _). destruct (core_of_remote _ _ Hcrb) as (_ & Hrem & _).
  assert (remote_view (c_next_id b) rb' = remote_view (c_next_id b) (establish hsb rb)) as Hview
    by (unfold remote_view; by rewrite Hrem).
  destruct (established_core _ _ _ Hcra) as [Hpua _]. destruct (established_core _ _ _ Hcrb) as [Hpub Hkeys].
  split_and!; try done.
  - change (c_trace a2) with (c_trace c'). rewrite Hes1, Htc, Htam. cbn [map]. by rewrite <-!app_assoc.
  - change (c_trace b3') with (c_trace b3). by rewrite Hes2, <-Htbm.
  - by apply Forall_app.
  - rewrite Htb4, Hview. do 2 f_equal. apply handled_same. exact (talk_channels _ _ _ _ _ _ Htkb Hbme).
  - eapply linked_back; [done|apply Hrd4; exact (ready_in_flight _ _ _ _ Hrdb)|done|done| |congruence|by rewrite Hpid4, Hpidb..].
    unfold session_of_hs. cbn [recv_key send_key]. by rewrite Hsplit.
  - transitivity (handshake_hash (session_of_hs hsb)); [exact Hhash|symmetry].
    exact (same_keys_hash _ _ _ _ Hkeys (lk_peer_session _ _ _ _ _ _ _ _ Hl) Hsb).
  - congruence.
  - congruence.
  - change (c_pk_index a2) with (c_pk_index c'). rewrite (se_pk _ _ (tk_env _ _ Htka)), (se_pk _ _ Hec), <-Hpa.
    apply unqueued_switched_pk.
  - rewrite (se_pk _ _ He4), <-Hpb. exact (talk_pk _ _ _ _ _ Htkb).
  - by rewrite Hrem.
Qed.
End steps.

(** ** The run of [CmScenario] with a message queued first *)

#[local] Existing Instances ToyCrypto.ops ToyCrypto.laws.

Definition caller : cm :=
  run_calls 2 (toy_setup ++ [ApiSendUri "tcp://10.0.0.2:25565" 100 [x41; x42]]) alice0.
Definition callee : cm := run_calls 2 toy_setup bob0.

Lemma toy_identity_ok u d :
  replicate 32 u <> zeros 32 -> replicate 32 d <> zeros 32 -> identity_ok (toy_identity u d).
Proof. intros Hu Hd. split; apply ToyCrypto.keypair_of_ok; done. Qed.

Lemma caller_ok : node_ok caller (toy_ep "10.0.0.2" EP_FLAG_OUTBOUND).
Proof.
  split; [vm_compute; reflexivity|vm_compute; reflexivity| | | |vm_compute; reflexivity].
  - exists toy_tcp. split; [vm_compute; reflexivity|done].
  - change (c_identity caller) with (toy_identity x01 x02). by apply toy_identity_ok.
  - split; [exists ["ice"%string]; vm_compute; reflexivity|]. apply (bool_decide_eq_true_1 _).
    vm_compute. reflexivity.
Qed.

Lemma callee_ok : node_ok callee (toy_ep "10.0.0.1" 0).
Proof.
  split; [vm_compute; reflexivity|vm_compute; reflexivity| | | |vm_compute; reflexivity].
  - exists toy_tcp. split; [vm_compute; reflexivity|done].
  - change (c_identity callee) with (toy_identity x03 x04). by apply toy_identity_ok.
  - split; [exists ["ice"%string]; vm_compute; reflexivity|]. apply (bool_decide_eq_true_1 _).
    vm_compute. reflexivity.
Qed.

Lemma first_contact_witness :
  exists ida idb f1 f2 f3 fs a1 b1 b2 a2 b3 b4 hdrs ra rb sa sb,
    handle_connect (toy_ep "10.0.0.2" EP_FLAG_OUTBOUND) caller = (ida, a1) /\
    c_trace a1 = c_trace caller ++ [written ida f1] /\
    handle_connect (toy_ep "10.0.0.1" 0) callee = (idb, b1) /\
    handle_data 2 idb f1 b1 = (tt, b2) /\ c_trace b2 = c_trace b1 ++ [written idb f2] /\
    handle_data 2 ida f2 a1 = (tt, a2) /\
    handle_data 2 idb f3 b2 = (tt, b3) /\ for_each fs (handle_data 2 idb) b3 = (tt, b4) /\
    c_trace b4 = c_trace b3 ++
      concat (zip_with (handled callee (remote_view idb rb)) hdrs [[x41; x42]]) /\
    linked a2 ida b4 idb ra rb sa sb /\ linked b4 idb a2 ida rb ra sb sa.
Proof.
  edestruct (first_contact 2 caller callee (toy_ep "10.0.0.2" EP_FLAG_OUTBOUND) (toy_ep "10.0.0.1" 0))
    as (ida & idb & f1 & f2 & f3 & fs & hdrs & a1 & b1 & b2 & a2 & b3 & b4 & es1 & es2 & ra & rb & sa & sb &
        H1 & H2 & H3 & _ & H4 & H5 & H6 & _ & H7 & _ & _ & H8 & _ & H9 & H10 & H11 & _);
    [exact caller_ok|exact callee_ok|vm_compute; reflexivity..| |vm_compute; reflexivity|
     vm_compute; reflexivity|].
  { assert (map message (queued caller (toy_ep "10.0.0.2" EP_FLAG_OUTBOUND)) = [(100, [x41; x42])]) as ->
      by (vm_compute; reflexivity).
    constructor; [|constructor]. split_and!; [split_and!| |]; cbn [fst snd];
      try (vm_compute; congruence). unfold fits; lia. }
  exists ida, idb, f1, f2, f3, fs, a1, b1, b2, a2, b3, b4, hdrs, ra, rb, sa, sb.
  assert (map pm_payload (queued caller (toy_ep "10.0.0.2" EP_FLAG_OUTBOUND)) = [[x41; x42]]) as E
    by (vm_compute; reflexivity).
  rewrite E in H9. by split_and!.
Defined.
