(* ===== verification/MachineId.v ===== *)
(** * Machine identity on Windows and macOS ([core/crypto/machine_id.cpp])

    On these systems the sources of the machine id are read from tables of the operating
    system.  The interesting one is the SMBIOS table, a sequence of structures that the
    program walks with a pointer: here the pointer is an offset into the buffer, and a read
    outside the buffer is a result of its own.  The walk always ends ([smbios_total]), it
    finds the identifier of the first system structure of a well-formed table
    ([smbios_first_uuid]), and a truncated table makes it read past the buffer
    ([smbios_truncated]). *)

From Stdlib Require Import ZArith Strings.Byte String Lia.
From stdpp Require Import base gmap list strings numbers.
From S2P Require Import Prelude Codec Wire Queue Crypto Identity.

Local Open Scope Z_scope.

(** ** The walk *)

Inductive smbios_result :=
  | SmUuid (uuid : bytes)
  | SmNone
  | SmOutOfBounds.

(** [p[i]]; the callers stay inside the buffer. *)
Definition byte_at (buf : bytes) (p : nat) : Z := from_option b2z 0 (buf !! p).

(** [while (p + 1 < end && !(p[0] == 0 && p[1] == 0)) ++p;] *)
Fixpoint skip_strings (fuel : nat) (buf : bytes) (p : nat) : nat :=
  match fuel with
  | O => p
  | S fuel =>
      if bool_decide (p + 1 < length buf)%nat && negb ((byte_at buf p =? 0) && (byte_at buf (p + 1) =? 0))
      then skip_strings fuel buf (S p)
      else p
  end.

(** The loop over the structures, [None] when the fuel does not suffice. *)
Fixpoint smbios_walk (fuel : nat) (buf : bytes) (p : nat) : option smbios_result :=
  match fuel with
  | O => None
  | S fuel =>
      if bool_decide (p + 4 < length buf)%nat then
        if (byte_at buf p =? 1) && (25 <=? byte_at buf (p + 1)) then
          Some (if bool_decide (p + 24 <= length buf)%nat then SmUuid (take 16 (drop (p + 8) buf)) else SmOutOfBounds)
        else if byte_at buf p =? 127 then Some SmNone
        else
          let p := (p + Z.to_nat (byte_at buf (p + 1)))%nat in
          smbios_walk fuel buf (skip_strings (length buf) buf p + 2)
      else Some SmNone
  end.

(** The table follows eight bytes of the firmware call's own. *)
Definition smbios_uuid (buf : bytes) : smbios_result := default SmNone (smbios_walk (S (length buf)) buf 8).

(** ** Windows and macOS *)

Definition c_string (buf : bytes) : bytes := match str_find [x00] buf with Some n => take n buf | None => buf end.

(** An entry of the list of adapters; [ad_address] is the fixed buffer of the entry. *)
Record adapter := mk_adapter { ad_length : Z; ad_address : bytes }.

(** What the system answers: the registry value, the firmware table, the adapters. *)
Record windows := mk_windows {
  win_machine_guid : option bytes;
  win_firmware : option bytes;
  win_adapters : option (list adapter);
}.

(** [None]: the walk has read outside the table. *)
Definition windows_platform_ids (w : windows) : option (list bytes) :=
  let guid := match win_machine_guid w with Some v => [c_string v] | None => [] end in
  match win_firmware w with
  | None => Some guid
  | Some buf =>
      match smbios_uuid buf with
      | SmUuid u => Some (guid ++ [to_hex u])
      | SmNone => Some guid
      | SmOutOfBounds => None
      end
  end.

(** A burned-in address of six bytes. *)
Definition universal_mac (len : Z) (addr : bytes) : list bytes :=
  if (len =? 6) && (Z.land (byte_at addr 0) 2 =? 0) then [to_hex (take 6 addr)] else [].

Definition windows_mac_addresses (w : windows) : list bytes :=
  concat (map (fun a => universal_mac (ad_length a) (ad_address a)) (default [] (win_adapters w))).

(** An entry of [getifaddrs] that has an address. *)
Record ifaddr := mk_ifaddr { ia_name : string; ia_link : bool; ia_alen : Z; ia_lladdr : bytes }.

Record macos := mk_macos {
  mac_uuid : option bytes;                       (* IOPlatformUUID *)
  mac_serial : option bytes;                     (* IOPlatformSerialNumber *)
  mac_ifaddrs : option (list (option ifaddr));   (* entries without an address are [None] *)
}.

Definition macos_platform_ids (m : macos) : list bytes :=
  match mac_uuid m with Some v => [c_string v] | None => [] end ++
  match mac_serial m with Some v => [c_string v] | None => [] end.

Definition macos_mac_address (i : ifaddr) : list bytes :=
  if ia_link i && negb (String.prefix "lo" (ia_name i)) then universal_mac (ia_alen i) (ia_lladdr i) else [].

Definition macos_mac_addresses (m : macos) : list bytes :=
  concat (map (from_option macos_mac_address []) (default [] (mac_ifaddrs m))).

Section machine_id.
Context `{CO : !CryptoOps}.

Definition windows_machine_id (w : windows) : option bytes :=
  ids ← windows_platform_ids w; Some (id_of_sources (ids ++ windows_mac_addresses w)).

Definition macos_machine_id (m : macos) : bytes := id_of_sources (macos_platform_ids m ++ macos_mac_addresses m).
End machine_id.

(** ** The walk ends *)

Lemma skip_strings_le fuel buf p : (p <= skip_strings fuel buf p)%nat.
Proof.
  revert p. induction fuel as [|fuel IH]; intros p; cbn [skip_strings]; [lia|].
  destruct (_ && _); [|lia]. specialize (IH (S p)). lia.
Qed.

Lemma smbios_walk_ends fuel buf p : (length buf < fuel + p)%nat -> (0 < fuel)%nat -> is_Some (smbios_walk fuel buf p).
Proof.
  revert p. induction fuel as [|fuel IH]; intros p Hf Hpos; [lia|]. cbn [smbios_walk].
  case_bool_decide as Hp; [|done]. destruct (_ && _); [done|]. destruct (_ =? 127); [done|].
  pose proof (skip_strings_le (length buf) buf (p + Z.to_nat (byte_at buf (p + 1)))) as Hle.
  apply IH; lia.
Qed.

(** Every table makes the walk end, within as many structures as the table has bytes. *)
Lemma smbios_total buf : smbios_walk (S (length buf)) buf 8 = Some (smbios_uuid buf).
Proof.
  unfold smbios_uuid. destruct (smbios_walk_ends (S (length buf)) buf 8) as [r ->]; [lia..|done].
Qed.

(** ** Well-formed tables *)

(** A structure: its type, handle, formatted area and strings. *)
Record smbios_struct := mk_struct {
  sm_type : byte;
  sm_handle : byte * byte;
  sm_area : bytes;
  sm_strings : list bytes;
}.

Fixpoint join_strings (ss : list bytes) : bytes :=
  match ss with
  | [] => []
  | [s] => s
  | s :: ss => s ++ x00 :: join_strings ss
  end.

Definition sm_len (s : smbios_struct) : Z := 4 + blen (sm_area s).

(** Header, formatted area, the strings with their terminators and a final zero. *)
Definition sm_encode (s : smbios_struct) : bytes :=
  [sm_type s; z2b (sm_len s); fst (sm_handle s); snd (sm_handle s)] ++ sm_area s ++ join_strings (sm_strings s) ++ [x00; x00].

Definition sm_string (s : bytes) : Prop := s <> [] /\ x00 ∉ s.

Record sm_wf (s : smbios_struct) : Prop := {
  wf_len : sm_len s < 256;
  wf_strings : Forall sm_string (sm_strings s);
}.

(** What the table says: the identifier of its first system structure, unless the end marker
    comes before it. *)
Fixpoint first_uuid (ss : list smbios_struct) : smbios_result :=
  match ss with
  | [] => SmNone
  | s :: ss =>
      if (b2z (sm_type s) =? 1) && (25 <=? sm_len s) then SmUuid (take 16 (drop 4 (sm_area s)))
      else if b2z (sm_type s) =? 127 then SmNone
      else first_uuid ss
  end.

Lemma byte_at_app pre l i : byte_at (pre ++ l) (length pre + i) = byte_at l i.
Proof. unfold byte_at. rewrite lookup_app_r by lia. by replace (length pre + i - length pre)%nat with i by lia. Qed.

(** No two zeros in a row before the end. *)
Fixpoint no_pair (l : bytes) : Prop :=
  match l with
  | [] => True
  | b :: l => ~ (b = x00 /\ head (l ++ [x00]) = Some x00) /\ no_pair l
  end.

Lemma no_pair_app s l : x00 ∉ s -> no_pair l -> no_pair (s ++ l).
Proof.
  induction s as [|b s IH]; [done|]. rewrite not_elem_of_cons. intros [Hb Hs] Hl. cbn [app no_pair].
  split; [intros [-> _]; done|auto].
Qed.

Lemma no_pair_join ss : Forall sm_string ss -> no_pair (join_strings ss).
Proof.
  induction 1 as [|s ss [Hne Hs] Hss IH]; [done|]. destruct ss as [|s' ss].
  - cbn [join_strings]. rewrite <-(app_nil_r s). by apply no_pair_app.
  - change (join_strings (s :: s' :: ss)) with (s ++ x00 :: join_strings (s' :: ss)).
    apply no_pair_app; [done|]. split; [|done]. intros [_ Hh].
    apply Forall_cons_1 in Hss as [[Hne' Hs'] _]. destruct s' as [|b s']; [done|].
    apply not_elem_of_cons in Hs' as [Hb _]. apply Hb. destruct ss; simpl in Hh; congruence.
Qed.

Lemma byte_zero b : (b2z b =? 0) = bool_decide (b = x00).
Proof. destruct b; reflexivity. Qed.

Lemma skip_strings_area fuel pre l post :
  no_pair l -> (length l < fuel)%nat ->
  skip_strings fuel (pre ++ l ++ x00 :: x00 :: post) (length pre) = (length pre + length l)%nat.
Proof.
  revert fuel pre. induction l as [|b l IH]; intros [|fuel] pre Hn Hf; try (simpl in Hf; lia); cbn [skip_strings];
    set (buf := pre ++ _);
    (assert (byte_at buf (length pre) = byte_at (drop (length pre) buf) 0) as ->
       by (unfold buf; rewrite drop_app_length, <-(byte_at_app pre _ 0); by rewrite Nat.add_0_r));
    (assert (byte_at buf (length pre + 1) = byte_at (drop (length pre) buf) 1) as ->
       by (unfold buf; by rewrite drop_app_length, byte_at_app)); unfold buf; rewrite drop_app_length.
  - rewrite andb_false_r. simpl. lia.
  - destruct Hn as [Hb Hn]. rewrite bool_decide_true by (rewrite !length_app; simpl; lia).
    assert ((byte_at ((b :: l) ++ x00 :: x00 :: post) 0 =? 0) && (byte_at ((b :: l) ++ x00 :: x00 :: post) 1 =? 0) = false) as ->.
    { change (byte_at _ 0) with (b2z b).
      assert (byte_at ((b :: l) ++ x00 :: x00 :: post) 1 = from_option b2z 0 (head (l ++ [x00]))) as -> by (by destruct l).
      destruct (head (l ++ [x00])) as [c|] eqn:Hc; [|by destruct l]. cbn [from_option]. rewrite !byte_zero.
      apply not_true_iff_false. rewrite andb_true_iff, !bool_decide_eq_true. intros [-> ->]. by apply Hb. }
    cbn [negb andb]. specialize (IH fuel (pre ++ [b]) Hn). rewrite length_app in IH. cbn [length] in *.
    rewrite <-app_assoc in IH. cbn [app] in *. rewrite <-Nat.add_1_r, IH by lia. lia.
Qed.

Lemma length_sm_encode s : (length (sm_encode s) = 4 + length (sm_area s) + length (join_strings (sm_strings s)) + 2)%nat.
Proof. unfold sm_encode. rewrite !length_app. simpl. lia. Qed.

(** One structure of the table. *)
Lemma smbios_walk_struct fuel pre s post :
  sm_wf s ->
  smbios_walk (S fuel) (pre ++ sm_encode s ++ post) (length pre) =
  if (b2z (sm_type s) =? 1) && (25 <=? sm_len s) then Some (SmUuid (take 16 (drop 4 (sm_area s))))
  else if b2z (sm_type s) =? 127 then Some SmNone
  else smbios_walk fuel ((pre ++ sm_encode s) ++ post) (length (pre ++ sm_encode s)).
Proof.
  intros [Hlen Hss]. cbn [smbios_walk]. pose proof (length_sm_encode s) as Hl.
  rewrite bool_decide_true by (rewrite !length_app; lia). set (buf := pre ++ sm_encode s ++ post).
  assert (byte_at buf (length pre) = b2z (sm_type s)) as ->
    by (unfold buf; rewrite <-(Nat.add_0_r (length pre)); by rewrite byte_at_app).
  assert (byte_at buf (length pre + 1) = sm_len s) as ->.
  { unfold buf. rewrite byte_at_app. change (byte_at _ 1) with (b2z (z2b (sm_len s))).
    apply b2z_z2b_small. unfold sm_len, blen in *. lia. }
  destruct (_ && _) eqn:H1.
  - apply andb_true_iff in H1 as [_ H1%Z.leb_le]. unfold sm_len, blen in H1.
    rewrite bool_decide_true by (unfold buf; rewrite !length_app; lia). do 2 f_equal.
    unfold buf. rewrite <-drop_drop, drop_app_length. unfold sm_encode. cbn [app drop].
    rewrite <-!app_assoc, drop_app_le, take_app_le; [done|rewrite length_drop; lia|lia].
  - destruct (_ =? 127); [done|].
    set (hd := [sm_type s; z2b (sm_len s); fst (sm_handle s); snd (sm_handle s)] ++ sm_area s).
    assert (buf = (pre ++ hd) ++ join_strings (sm_strings s) ++ x00 :: x00 :: post) as Hbuf
      by (unfold buf, sm_encode, hd; by rewrite <-!app_assoc).
    assert (length pre + Z.to_nat (sm_len s) = length (pre ++ hd))%nat as ->
      by (unfold hd, sm_len, blen; rewrite !length_app; simpl; lia).
    rewrite Hbuf at 3. rewrite skip_strings_area; [|by apply no_pair_join|rewrite Hbuf, !length_app; simpl; lia].
    unfold buf. rewrite app_assoc. f_equal. unfold hd. rewrite !length_app, Hl. simpl. lia.
Qed.

Lemma smbios_walk_table fuel pre ss :
  Forall sm_wf ss -> (length ss < fuel)%nat ->
  smbios_walk fuel (pre ++ concat (map sm_encode ss)) (length pre) = Some (first_uuid ss).
Proof.
  intros Hss. revert fuel pre. induction Hss as [|s ss Hs Hss IH]; intros [|fuel] pre Hf; try (simpl in Hf; lia).
  - cbn [map concat smbios_walk first_uuid]. by rewrite app_nil_r, bool_decide_false by lia.
  - cbn [map concat first_uuid]. rewrite smbios_walk_struct by done. destruct (_ && _); [done|].
    destruct (_ =? 127); [done|]. apply IH. simpl in Hf. lia.
Qed.

Lemma smbios_uuid_table hdr ss :
  length hdr = 8%nat -> Forall sm_wf ss -> smbios_uuid (hdr ++ concat (map sm_encode ss)) = first_uuid ss.
Proof.
  intros Hh Hss. unfold smbios_uuid. rewrite <-Hh, smbios_walk_table; [done|done|].
  rewrite length_app. enough (length ss <= length (concat (map sm_encode ss)))%nat by lia.
  clear Hss. induction ss as [|s ss IH]; [done|]. cbn [map concat length]. rewrite length_app, length_sm_encode. lia.
Qed.

Lemma first_uuid_inside ss : first_uuid ss <> SmOutOfBounds.
Proof. induction ss as [|s ss IH]; [done|]. cbn [first_uuid]. by repeat case_match. Qed.

(** C30: Every firmware table, well formed or not, makes the walk end after at most as many
    structures as the table has bytes; on a well-formed table it returns the identifier
    of the first system structure before the end marker, whatever structures come before it
    and whatever their strings, and reads nothing outside the table. *)
Theorem smbios_first_uuid :
  (forall buf, is_Some (smbios_walk (S (length buf)) buf 8)) /\
  (forall hdr ss, length hdr = 8%nat -> Forall sm_wf ss ->
     let buf := hdr ++ concat (map sm_encode ss) in
     smbios_walk (S (length buf)) buf 8 = Some (first_uuid ss) /\ first_uuid ss <> SmOutOfBounds).
Proof.
  split; [intros buf; by rewrite smbios_total|].
  intros hdr ss Hh Hss buf. split; [|apply first_uuid_inside]. unfold buf. by rewrite smbios_total, smbios_uuid_table.
Qed.

(** A table that ends inside a system structure makes the program read beyond it. *)
Lemma smbios_truncated hdr rest :
  length hdr = 8%nat -> (2 < length rest < 22)%nat -> smbios_uuid (hdr ++ [x01; x1b] ++ rest) = SmOutOfBounds.
Proof.
  intros Hh Hr. unfold smbios_uuid. rewrite <-Hh. cbn [smbios_walk].
  rewrite bool_decide_true by (rewrite !length_app; simpl; lia).
  assert (forall i, byte_at (hdr ++ [x01; x1b] ++ rest) (length hdr + i) = byte_at ([x01; x1b] ++ rest) i) as Hb
    by (intros; apply byte_at_app).
  pose proof (Hb 0%nat) as H0. rewrite Nat.add_0_r in H0. rewrite H0, (Hb 1%nat). cbn [byte_at app lookup list_lookup from_option].
  rewrite bool_decide_false by (rewrite !length_app; simpl; lia). done.
Qed.

(** With a well-formed table the machine id exists and depends on the table only through the
    identifier of the system: reordered or changed other structures keep it. *)
Lemma windows_machine_id_wf `{CO : !CryptoOps} guid hdr ss adapters :
  length hdr = 8%nat -> Forall sm_wf ss ->
  windows_machine_id (mk_windows guid (Some (hdr ++ concat (map sm_encode ss))) adapters) =
  Some (id_of_sources (from_option (fun v => [c_string v]) [] guid ++
    match first_uuid ss with SmUuid u => [to_hex u] | _ => [] end ++
    windows_mac_addresses (mk_windows guid None adapters))).
Proof.
  intros Hh Hss. unfold windows_machine_id, windows_platform_ids. cbn [win_firmware win_machine_guid].
  rewrite smbios_uuid_table by done. pose proof (first_uuid_inside ss) as Hne.
  destruct guid, (first_uuid ss); try done; cbn [mbind option_bind]; by rewrite <-?app_assoc.
Qed.

(** ** A table *)

Definition toy_bios : smbios_struct := mk_struct x00 (x00, x00) (replicate 20 x05) [str_bytes "Vendor"; str_bytes "1.0"].

Definition toy_system : smbios_struct :=
  mk_struct x01 (x01, x00) ([x01; x02; x03; x04] ++ replicate 16 xab ++ [x06; x00; x00]) [str_bytes "Model"].

Definition toy_end : smbios_struct := mk_struct x7f (x02, x00) [] [].

Definition toy_table : bytes := replicate 8 x00 ++ concat (map sm_encode [toy_bios; toy_system; toy_end]).

Lemma smbios_first_uuid_witness : smbios_walk (S (length toy_table)) toy_table 8 = Some (SmUuid (replicate 16 xab)).
Proof.
  refine (proj1 (proj2 smbios_first_uuid (replicate 8 x00) [toy_bios; toy_system; toy_end] _ _)); [reflexivity|].
  repeat constructor; vm_compute;
    first [reflexivity|congruence|intros H; repeat (apply elem_of_cons in H as [H|H]; [congruence|]); by apply elem_of_nil in H].
Defined.
