(* ===== verification/CmTermination.v ===== *)
(** * Termination of the dispatch recursion

    [handle_relay] re-enters [dispatch_packet] with the inner frame of a relayed packet it
    is the destination of, and that frame may be a relay again: the source has no depth
    limit, and decompression can make an inner frame longer than the packet that carried
    it.  What stops the recursion is the deduplication table: a call never processes two
    inner frames with the same fingerprint, and there are finitely many fingerprints.  The
    model bounds the recursion by a fuel; here enough fuel is shown to exist for every
    packet and state, so the fuel case of [cm_dispatch] is never taken. *)

From Stdlib Require Import ZArith Strings.Byte String Lia.
From stdpp Require Import base gmap list strings numbers fin_maps fin_sets.
From S2P Require Import Prelude Codec Wire NonceWindow Queue Crypto Noise Session Signals.
From S2P Require Import CmState CmTransport CmClose CmHandshake CmDispatch CmLifecycle CmScenario.

Local Open Scope Z_scope.

(** The fingerprints of all headers form a finite set. *)
Lemma fingerprints_finite :
  exists U : gset (Z * Z), forall h, header_wf h -> relay_fingerprint h ∈ U.
Proof.
  exists (list_to_set ((fun p => (Z.lxor (hash_u64 (fst p)) (u64 (Z.shiftl (snd p) 32)), fst p)) <$>
            list_prod (seqZ 0 (2 ^ 64)) (seqZ 0 (2 ^ 16)))).
  intros h (_ & _ & _ & Ht & _ & Hp). unfold fits in Ht, Hp.
  apply elem_of_list_to_set, list_elem_of_fmap.
  exists (hdr_packet_id h, hdr_payload_type h). split; [done|].
  apply list_elem_of_In, in_prod; apply list_elem_of_In, elem_of_seqZ;
    (split; [apply Ht || apply Hp|]); rewrite Z.add_0_l; apply Ht || apply Hp.
Qed.

(** The fingerprints recorded at the present instant: a purge keeps them. *)
Definition seen_now (c : cm) : gset (Z * Z) :=
  dom (filter (fun e : Z * Z * Z => snd e = c_now_ns c) (c_relay_dedup_set c)).

Lemma relay_seen_progress (U : gset (Z * Z)) h c :
  relay_fingerprint h ∈ U -> fst (relay_seen h c) = false ->
  (size (U ∖ seen_now (snd (relay_seen h c))) < size (U ∖ seen_now c))%nat.
Proof.
  intros HU Hnew. set (fp := relay_fingerprint h) in *.
  assert (forall x, x ∈ seen_now (snd (relay_seen h c)) <-> x = fp \/ x ∈ seen_now c) as Hs.
  { intros x. unfold relay_seen in *. fold fp in Hnew |- *. revert Hnew.
    set (s := if bool_decide _ then _ else _).
    assert (forall y, s !! y = Some (c_now_ns c) <-> c_relay_dedup_set c !! y = Some (c_now_ns c)) as Hk.
    { intros y. unfold s. case_bool_decide; [|done]. rewrite map_lookup_filter_Some. simpl.
      assert (c_now_ns c - RELAY_TTL_NS <= c_now_ns c) by (unfold RELAY_TTL_NS; lia). naive_solver. }
    destruct (s !! fp) eqn:E; [done|]. intros _. unfold seen_now. simpl.
    rewrite !elem_of_dom. unfold is_Some. setoid_rewrite map_lookup_filter_Some. simpl.
    destruct (decide (x = fp)) as [->|Hx].
    - split; [by left|]. intros _. exists (c_now_ns c). by rewrite lookup_insert_eq.
    - setoid_rewrite lookup_insert_ne; [|done]. specialize (Hk x). naive_solver. }
  apply subset_size. apply strict_spec_alt. split; [set_solver|].
  intros Heq. assert (fp ∉ seen_now c) as Hnot; [|set_solver].
  unfold seen_now. intros [v Hv]%elem_of_dom. apply map_lookup_filter_Some in Hv as [Hv Hv2].
  simpl in Hv2. subst v. unfold relay_seen in Hnew. fold fp in Hnew. revert Hnew.
  case_bool_decide; cbn zeta; [|by rewrite Hv].
  assert (filter (fun e : Z * Z * Z => c_now_ns c - RELAY_TTL_NS <= snd e) (c_relay_dedup_set c) !! fp
    = Some (c_now_ns c)) as ->; [|done].
  apply map_lookup_filter_Some. split; [exact Hv|]. simpl. unfold RELAY_TTL_NS. lia.
Qed.

Section termination.
Context `{CO : !CryptoOps}.
Abbreviation dispatcher := (Z -> header_t -> bytes -> Z -> CM unit).

(** [dispatch_packet] cut at depth [fuel], where [bot] takes over. *)
Section cut.
Variable bot : dispatcher.

Fixpoint dispatch_with (fuel : nat) (id : Z) (hdr : header_t) (payload : bytes) (recv_ts : Z)
    : CM unit :=
  add_in_flight 1 ;;
  dispatch_body (match fuel with O => bot | S fuel => dispatch_with fuel end)
    id hdr payload recv_ts ;;
  add_in_flight (-1).
End cut.

(** Two dispatchers that agree on the frames a call can still process. *)
Definition agree_below (U : gset (Z * Z)) (n : nat) (d1 d2 : dispatcher) : Prop :=
  forall id h p ts c, (size (U ∖ seen_now c) < n)%nat -> d1 id h p ts c = d2 id h p ts c.

Lemma handle_relay_ext U d1 d2 id p c :
  (forall h, header_wf h -> relay_fingerprint h ∈ U) ->
  agree_below U (size (U ∖ seen_now c)) d1 d2 ->
  handle_relay d1 id p c = handle_relay d2 id p c.
Proof.
  intros HU Hd. unfold handle_relay. case_bool_decide as Hlen; [done|]. case_match; [done|].
  case_match; [done|]. set (hdr := view_header _) in *.
  assert (header_wf hdr) as Hwf.
  { apply (cdec_wf (c := header_t_codec)). rewrite length_drop. unfold HDR_SIZE in Hlen. lia. }
  pose proof (relay_seen_progress U hdr c (HU _ Hwf)) as Hp.
  unfold mbind, cm_bind. destruct (relay_seen hdr c) as [[] c1]; [done|]. simpl in Hp |- *.
  case_bool_decide; [|done]. apply Hd. by apply Hp.
Qed.

Lemma deliver_plain_ext U d1 d2 id rec hdr payload plain ts c :
  (forall h, header_wf h -> relay_fingerprint h ∈ U) ->
  agree_below U (size (U ∖ seen_now c)) d1 d2 ->
  deliver_plain d1 id rec hdr payload plain ts c = deliver_plain d2 id rec hdr payload plain ts c.
Proof.
  intros HU Hd. unfold deliver_plain, mbind, cm_bind. simpl. case_match; [done|].
  case_match; [|done]. by apply (handle_relay_ext U).
Qed.

Lemma dispatch_body_ext U d1 d2 id hdr payload ts c :
  (forall h, header_wf h -> relay_fingerprint h ∈ U) ->
  agree_below U (size (U ∖ seen_now c)) d1 d2 ->
  dispatch_body d1 id hdr payload ts c = dispatch_body d2 id hdr payload ts c.
Proof.
  intros HU Hd. unfold dispatch_body. do 3 (case_match; [done|]).
  unfold mbind, cm_bind, rcu_find, gets. destruct (c_records c !! id) as [rec|]; [|done].
  pose proof (deliver_plain_ext U d1 d2 id rec hdr payload) as Hext.
  case_bool_decide; [done|]. destruct (r_localhost_passthrough rec); [by apply Hext|].
  destruct (negb _); [destruct (r_is_localhost rec); [by apply Hext|done]|].
  destruct (r_session rec) as [s|]; [|by apply Hext].
  destruct (r_is_localhost rec); [by apply Hext|].
  unfold session_decrypt, mbind, cm_bind. destruct (decrypt _ _ s) as [plain s']. simpl.
  destruct plain; [done|]. by apply Hext.
Qed.

Lemma dispatch_with_agree U n bot1 bot2 f1 f2 :
  (forall h, header_wf h -> relay_fingerprint h ∈ U) -> (n <= f1)%nat -> (n <= f2)%nat ->
  agree_below U n (dispatch_with bot1 f1) (dispatch_with bot2 f2).
Proof.
  intros HU. revert f1 f2. induction n as [|n IH]; intros f1 f2 H1 H2 id h p ts c Hc; [lia|].
  destruct f1 as [|f1], f2 as [|f2]; [lia..|]. cbn [dispatch_with]. unfold mbind, cm_bind.
  set (c1 := snd (add_in_flight 1 c)).
  change (add_in_flight 1 c) with (tt, c1). cbv iota beta.
  rewrite (dispatch_body_ext U _ (dispatch_with bot2 f2) id h p ts c1 HU); [done|].
  intros id' h' p' ts' c' Hc'. apply IH; [lia..|]. change (seen_now c1) with (seen_now c) in Hc'. lia.
Qed.

Lemma cm_dispatch_with :
  cm_dispatch = dispatch_with (fun _ _ _ _ => emit_ev (EvUB "dispatch_packet: recursion")).
Proof. reflexivity. Qed.

(** [handle_data] depends on its dispatcher only through its results. *)
Lemma reassemble_ext (d1 d2 : dispatcher) rounds peer ts consumed c :
  (forall id h p ts c, d1 id h p ts c = d2 id h p ts c) ->
  reassemble rounds d1 peer ts consumed c = reassemble rounds d2 peer ts consumed c.
Proof.
  intros Hd. revert consumed c. induction rounds as [|n IH]; intros consumed c; [done|].
  cbn [reassemble]. unfold mbind, cm_bind, rcu_find, gets.
  destruct (c_records c !! peer) as [rec|]; [|done]. destruct (next_frame _); [done..|].
  rewrite Hd. destruct (d2 _ _ _ _ _) as [[] c1]. apply IH.
Qed.

Lemma handle_data_ext (d1 d2 : dispatcher) id raw c :
  (forall id h p ts c, d1 id h p ts c = d2 id h p ts c) ->
  handle_data_with d1 id raw c = handle_data_with d2 id raw c.
Proof.
  intros Hd. unfold handle_data_with, mbind, cm_bind, gets, rcu_find.
  destruct (c_shutting_down c); [done|]. cbv beta iota.
  set (peer := default id (c_transport_index c !! id)). unfold gets.
  destruct (c_records c !! peer) as [rec|]; [|done]. cbv zeta beta iota.
  destruct (_ && _ && _ && _ && _); [apply Hd|]. unfold upd_record, modify.
  destruct (MAX_RECV_BUF <? _); [done|]. by apply reassemble_ext.
Qed.

(** C12: processing received bytes terminates.  There is a depth beyond which cutting the
    dispatch recursion changes nothing, for every state, connection and input, whatever
    would happen at the cut: the relay recursion never gets that deep. *)
Theorem handle_data_terminates :
  exists n, forall bot k id raw c,
    handle_data_with (dispatch_with bot (n + k)) id raw c = handle_data n id raw c.
Proof.
  destruct fingerprints_finite as [U HU]. exists (S (size U)). intros bot k id raw c.
  unfold handle_data. rewrite cm_dispatch_with. apply handle_data_ext. intros.
  apply (dispatch_with_agree U (S (size U))); [done|lia..|].
  assert (size (U ∖ seen_now c0) <= size U)%nat; [|lia]. apply subseteq_size. set_solver.
Qed.
End termination.
