(* ===== verification/CmPolicy.v ===== *)
(** * Relay, scheme negotiation, heartbeats, registration and rekeying

    The policies of the manager: a relayed frame is processed once and never sent back to
    where it came from; two nodes negotiate the same transport; the path status carried by
    heartbeats arrives; connector-registered handlers stay out of the system types; and a
    synchronous rekey keeps the two sessions paired. *)

From Stdlib Require Import ZArith Strings.Byte String Lia.
From stdpp Require Import base gmap list strings numbers.
From S2P Require Import Prelude Codec Wire NonceWindow Queue Crypto Noise Session Signals.
From S2P Require Import CmState CmTransport CmClose CmHandshake CmDispatch CmLifecycle CmFrame CmInvariant CmScenario.

Local Open Scope Z_scope.

(** ** Relay deduplication *)

Lemma relay_fingerprint_inj h h' :
  header_wf h -> header_wf h' ->
  relay_fingerprint h = relay_fingerprint h' <->
  hdr_packet_id h = hdr_packet_id h' /\ hdr_payload_type h = hdr_payload_type h'.
Proof.
  intros (_ & _ & _ & Ht & _ & _) (_ & _ & _ & Ht' & _ & _). cbn in Ht, Ht'.
  unfold relay_fingerprint, hash_u64. split; [|by intros [-> ->]].
  intros [= Hx Hp]. split; [done|]. rewrite Hp in Hx.
  assert (forall t, fits 16 t -> u64 (Z.shiftl t 32) = t * 2 ^ 32) as Hs.
  { intros t [? ?]. rewrite Z.shiftl_mul_pow2 by lia. apply wrap_small. unfold fits. lia. }
  rewrite !Hs in Hx by done. apply (f_equal (Z.lxor (hdr_packet_id h'))) in Hx.
  rewrite <-!Z.lxor_assoc, !Z.lxor_nilpotent, !Z.lxor_0_l in Hx. lia.
Qed.

Lemma relay_seen_records h c :
  fst (relay_seen h c) = false ->
  c_relay_dedup_set (snd (relay_seen h c)) !! relay_fingerprint h = Some (c_now_ns c).
Proof.
  unfold relay_seen. case_match; [done|]. intros _. simpl. by rewrite lookup_insert_eq.
Qed.

(** Gossip deduplication.  A relayed frame that was let through is recognised for the
    next 30 seconds, even when the table is being purged: a frame with the same packet id
    and message type is reported as seen. *)
Theorem relay_seen_once h h' c now' :
  hdr_packet_id h' = hdr_packet_id h -> hdr_payload_type h' = hdr_payload_type h ->
  fst (relay_seen h c) = false -> now' - RELAY_TTL_NS <= c_now_ns c ->
  fst (relay_seen h' (set_c_now_ns now' (snd (relay_seen h c)))) = true.
Proof.
  intros Hp Ht Hnew Hnow. pose proof (relay_seen_records h c Hnew) as Hin.
  assert (relay_fingerprint h' = relay_fingerprint h) as Hfp
    by (unfold relay_fingerprint; by rewrite Hp, Ht).
  unfold relay_seen at 1. rewrite Hfp. cbn [c_relay_dedup_set c_now_ns set_c_now_ns].
  case_bool_decide; cbn zeta.
  - assert (filter (fun e : Z * Z * Z => now' - RELAY_TTL_NS <= snd e)
      (c_relay_dedup_set (snd (relay_seen h c))) !! relay_fingerprint h = Some (c_now_ns c)) as ->; [|done].
    apply map_lookup_filter_Some. done.
  - by rewrite Hin.
Qed.

(** ** Nothing goes back to the sender *)

(** The connection [j] keeps its record and its queue. *)
Definition Untouched {A} (j : Z) (m : CM A) : Prop :=
  forall c, c_records (snd (m c)) !! j = c_records c !! j /\
            c_send_queues (snd (m c)) !! j = c_send_queues c !! j.

Lemma Untouched_bind {A B} j (m : CM A) (k : A -> CM B) :
  Untouched j m -> (forall a, Untouched j (k a)) -> Untouched j (m ≫= k).
Proof.
  intros Hm Hk c. unfold mbind, cm_bind. specialize (Hm c).
  destruct (m c) as [a c']. destruct Hm as [H1 H2], (Hk a c') as [H3 H4]. simpl in *. split; congruence.
Qed.

Lemma Untouched_for_each {A} j (l : list A) (f : A -> CM unit) :
  (forall a, a ∈ l -> Untouched j (f a)) -> Untouched j (for_each l f).
Proof.
  induction l as [|a l IH]; intros Hf; simpl; [done|].
  apply Untouched_bind; [apply Hf; set_solver|]. intros _. apply IH. set_solver.
Qed.

Lemma Untouched_upd j id f : id <> j -> Untouched j (upd_record id f).
Proof. intros Hne c. split; [|done]. simpl. by rewrite lookup_alter_ne. Qed.

Lemma Untouched_put j id q : id <> j -> Untouched j (put_queue id q).
Proof. intros Hne c. split; [done|]. simpl. by rewrite lookup_insert_ne. Qed.

Ltac untouched_step :=
  match goal with
  | |- forall _, _ => intros ?
  | |- Untouched _ (_ ≫= _) => apply Untouched_bind
  | |- Untouched _ (match ?x with _ => _ end) => destruct x
  | |- Untouched _ (upd_record _ _) => by apply Untouched_upd
  | |- Untouched _ (upd_path _ _ _) => by apply Untouched_upd
  | |- Untouched _ (put_queue _ _) => by apply Untouched_put
  | |- Untouched _ _ => solve [auto with untouched nocore | by intros ?]
  end.
Create HintDb untouched.
Ltac solve_untouched := repeat untouched_step.

Section untouched.
Context `{CO : !CryptoOps}.
Implicit Types j id : Z.

Lemma Untouched_build_frame j id t p : id <> j -> Untouched j (build_frame id t p).
Proof. intros. unfold build_frame, fetch_packet_id. solve_untouched. Qed.
Hint Resolve Untouched_build_frame : untouched.

Lemma Untouched_get_queue j id : id <> j -> Untouched j (get_or_create_queue id).
Proof.
  intros. unfold get_or_create_queue. solve_untouched.
  apply (Untouched_put j id queue_init); done.
Qed.
Hint Resolve Untouched_get_queue : untouched.

Lemma Untouched_send_each j id s ops ok fs : Untouched j (send_each id s ops ok fs).
Proof. revert ok. induction fs as [|f fs IH]; intros ok; simpl; solve_untouched. Qed.
Hint Resolve Untouched_send_each : untouched.

Lemma Untouched_flush j id s ops fs : Untouched j (flush_frames_to_connector id s ops fs).
Proof. unfold flush_frames_to_connector. solve_untouched. Qed.
Hint Resolve Untouched_flush : untouched.

Lemma Untouched_try_paths j id ps b : id <> j -> Untouched j (try_paths id ps b).
Proof. intros. induction ps as [|[i p] ps IH]; simpl; solve_untouched. Qed.
Hint Resolve Untouched_try_paths : untouched.

Lemma Untouched_flush_queue j id : id <> j -> Untouched j (flush_queue id).
Proof. intros. unfold flush_queue. solve_untouched. Qed.
Hint Resolve Untouched_flush_queue : untouched.

Lemma Untouched_send_frame j id t p : id <> j -> Untouched j (send_frame id t p).
Proof. intros. unfold send_frame. solve_untouched. Qed.
Hint Resolve Untouched_send_frame : untouched.

(** Split horizon: forwarding a frame that came from connection [id] sends nothing
    on [id]: its packet counter, its paths and its queue are what they were. *)
Theorem relay_no_echo id ttl dest inner c :
  c_records (snd (relay id ttl dest inner c)) !! id = c_records c !! id /\
  c_send_queues (snd (relay id ttl dest inner c)) !! id = c_send_queues c !! id.
Proof.
  revert c. change (Untouched id (relay id ttl dest inner)).
  unfold relay. apply Untouched_bind; [by intros c|]. intros direct.
  destruct (Z.eqb_spec direct CONN_ID_INVALID), (Z.eqb_spec direct id); simpl;
    try by apply Untouched_send_frame.
  all: apply Untouched_bind; [by intros c|]; intros rs; apply Untouched_for_each; intros [cid r] _;
    destruct (Z.eqb_spec cid id); simpl; [by intros c|]; case_match; [by intros c|];
    by apply Untouched_send_frame.
Qed.
End untouched.

(** ** Scheme negotiation *)

Lemma list_find_ext_iff {A} (P Q : A -> Prop) `{!forall x, Decision (P x), !forall x, Decision (Q x)} l :
  (forall x, P x <-> Q x) -> list_find P l = list_find Q l.
Proof.
  intros Hiff. induction l as [|x l IH]; simpl; [done|]. rewrite IH.
  destruct (decide (P x)), (decide (Q x)); naive_solver.
Qed.

(** Two nodes with the same priority list, each knowing the schemes of the other,
    negotiate the same transport: the first one of the list that both support. *)
Theorem negotiate_agree a ra b rb :
  c_scheme_priority a = c_scheme_priority b ->
  (forall s, s ∈ r_peer_schemes ra <-> s ∈ local_schemes b) ->
  (forall s, s ∈ r_peer_schemes rb <-> s ∈ local_schemes a) ->
  (exists s, s ∈ c_scheme_priority a /\ s ∈ local_schemes a /\ s ∈ local_schemes b) ->
  negotiate_scheme a ra = negotiate_scheme b rb /\
  exists i, c_scheme_priority a !! i = Some (negotiate_scheme a ra) /\
    negotiate_scheme a ra ∈ local_schemes a /\ negotiate_scheme a ra ∈ local_schemes b /\
    forall j s, c_scheme_priority a !! j = Some s -> (j < i)%nat ->
      ~ (s ∈ local_schemes a /\ s ∈ local_schemes b).
Proof.
  intros Hprio Ha Hb (s & Hs & Hsa & Hsb). unfold negotiate_scheme. rewrite <-Hprio.
  assert (r_peer_schemes ra <> []) as Hna.
  { intros E. apply Ha in Hsb. rewrite E in Hsb. by apply not_elem_of_nil in Hsb. }
  assert (r_peer_schemes rb <> []) as Hnb.
  { intros E. apply Hb in Hsa. rewrite E in Hsa. by apply not_elem_of_nil in Hsa. }
  rewrite (list_find_ext_iff
    (fun prio => prio ∈ local_schemes b /\ (r_peer_schemes rb = [] \/ prio ∈ r_peer_schemes rb))
    (fun prio => prio ∈ local_schemes a /\ (r_peer_schemes ra = [] \/ prio ∈ r_peer_schemes ra)))
    by (intros x; rewrite Ha, Hb; naive_solver).
  destruct (list_find _ (c_scheme_priority a)) as [[i x]|] eqn:E.
  - apply list_find_Some in E as (Hi & (Hx & [Hx'|Hx']) & Hbest); [done|]. split; [done|].
    exists i. split; [done|]. split; [done|]. split; [by apply Ha|].
    intros j s' Hj Hji [H1 H2]. apply (Hbest j s' Hj Hji). split; [done|]. right. by apply Ha.
  - apply list_find_None in E. rewrite Forall_forall in E.
    destruct (E s (proj1 (list_elem_of_In _ _) Hs)).
    split; [done|]. right. by apply Ha.
Qed.

(** ** Heartbeat path status *)

(** A path as the wire can carry it. *)
Definition path_wire_ok (tp : TransportPath) : Prop :=
  fits 8 (tp_priority tp) /\ 0 <= tp_last_rtt_us tp.

Lemma path_entry_wf tp : path_wire_ok tp -> cwf HeartbeatPathEntry_codec (path_entry tp).
Proof.
  intros [Hp Hr]. split; [|split; [|split]]; cbn.
  - by rewrite length_app, length_strncpy.
  - destruct (tp_active tp); unfold fits; lia.
  - exact Hp.
  - unfold fits. pose proof (Z.div_pos (tp_last_rtt_us tp) 10 Hr ltac:(lia)). lia.
Qed.

(** What the peer learns of a path. *)
Definition path_status (tp : TransportPath) : PeerPathInfo :=
  mk_peer_path (clip_scheme (tp_scheme tp)) (tp_active tp) (tp_priority tp)
    (Z.min (tp_last_rtt_us tp / 10) 65535).

Lemma until_nul_strncpy s n k : until_nul (strncpy s n ++ x00 :: k) = take n (until_nul (str_bytes s)).
Proof.
  unfold strncpy. set (src := take n _).
  assert (x00 ∉ src) as Hn.
  { intros Hin. apply (until_nul_no_nul (str_bytes s)). unfold src in Hin.
    by apply elem_of_take in Hin as (i & Hi & _); eapply list_elem_of_lookup_2. }
  rewrite <-app_assoc. destruct (n - length src)%nat; simpl; by apply until_nul_app_nul.
Qed.

Lemma peer_path_entry tp : peer_path (path_entry tp) = path_status tp.
Proof.
  unfold peer_path, path_entry, path_status, clip_scheme. cbn. f_equal; [|by destruct (tp_active tp)].
  by rewrite until_nul_strncpy.
Qed.

Lemma length_concat_codec {A} (c : codec A) `{!CodecOk c} (l : list A) :
  Forall (cwf c) l -> length (concat (map (cenc c) l)) = (length l * csize c)%nat.
Proof.
  induction 1 as [|x l Hx Hl IH]; [done|]. cbn [map concat length].
  by rewrite length_app, IH, cenc_length.
Qed.

(** The [i]-th record of a packed array. *)
Lemma drop_concat_codec {A} (c : codec A) `{!CodecOk c} (l : list A) i x k :
  Forall (cwf c) l -> l !! i = Some x ->
  cdec c (drop (i * csize c) (concat (map (cenc c) l) ++ k)) = x.
Proof.
  intros Hf. revert i. induction Hf as [|y l Hy Hf IH]; intros i Hi; [done|]. simpl map. simpl concat.
  rewrite <-app_assoc. destruct i as [|i]; simpl in Hi.
  - injection Hi as ->. simpl. by apply cdec_enc.
  - rewrite drop_app_ge by (rewrite cenc_length by done; simpl; lia).
    rewrite cenc_length by done. replace (S i * csize c - csize c)%nat with (i * csize c)%nat by (simpl; lia).
    by apply IH.
Qed.

(** The path status in a heartbeat arrives: a peer parsing the PING a node sends
    learns of its first eight paths exactly the scheme (as a 15-byte C string), whether it
    is active, its priority and its round-trip time in units of 10 us, capped at 65535. *)
Theorem heartbeat_paths_roundtrip `{CO : !CryptoOps} ts seq tps :
  fits 64 ts -> fits 32 seq -> Forall path_wire_ok tps ->
  parse_paths (ping_bytes ts seq tps) = map path_status (take 8 tps).
Proof.
  intros Hts Hseq Hf. unfold parse_paths, ping_bytes. set (ps := take HEARTBEAT_MAX_PATHS tps).
  assert (Forall (cwf HeartbeatPathEntry_codec) (map path_entry ps)) as Hwf.
  { apply Forall_map, Forall_forall. intros x Hx. apply path_entry_wf.
    rewrite Forall_forall in Hf. apply Hf. unfold ps in Hx. apply list_elem_of_In in Hx.
    apply elem_of_take in Hx as (i & Hi & _). by eapply list_elem_of_In, list_elem_of_lookup_2. }
  assert (length ps <= 8)%nat as Hps by (unfold ps; rewrite length_take; unfold HEARTBEAT_MAX_PATHS; lia).
  change (take 8 tps) with ps. clearbody ps. clear Hf.
  rewrite <-(map_map path_entry (cenc HeartbeatPathEntry_codec)).
  set (hb := heartbeat_bytes ts seq 0).
  set (info := cenc HeartbeatTransportInfo_codec _).
  set (body := concat _).
  assert (length hb = csize HeartbeatPayload_codec) as Lhb.
  { apply cenc_length. split_and!; try done; unfold fits; lia. }
  assert (length info = csize HeartbeatTransportInfo_codec) as Linfo.
  { apply cenc_length. cbn. unfold fits. lia. }
  assert (length body = (length ps * csize HeartbeatPathEntry_codec)%nat) as Lbody.
  { unfold body. rewrite (length_concat_codec _ _ Hwf). by rewrite length_map. }
  rewrite !length_app, Lhb, Linfo, Lbody.
  rewrite drop_app_length' by done.
  assert (cdec HeartbeatTransportInfo_codec (info ++ body) =
    mk_HeartbeatTransportInfo (Z.of_nat (length ps))) as ->.
  { apply cdec_enc. cbn. unfold fits. lia. }
  cbn [hti_path_count]. rewrite Nat2Z.id.
  destruct ps as [|p0 ps']; [by rewrite bool_decide_true by (cbn; lia)|]. set (ps := p0 :: ps') in *.
  assert (0 < length ps)%nat by (unfold ps; simpl; lia).
  rewrite bool_decide_false by (cbn; lia).
  replace (_ - _)%nat with (length ps * csize HeartbeatPathEntry_codec)%nat by lia.
  rewrite Nat.div_mul by done. rewrite !Nat.min_l by (unfold HEARTBEAT_MAX_PATHS; lia).
  apply list_eq. intros i. rewrite !list_lookup_fmap.
  destruct (ps !! i) as [tp|] eqn:Hi.
  - rewrite lookup_seq_lt by by eapply lookup_lt_Some. cbn [fmap option_fmap option_map]. f_equal.
    rewrite <-drop_drop, app_assoc, drop_app_length' by (rewrite length_app; lia).
    rewrite <-peer_path_entry. f_equal. rewrite <-(app_nil_r body).
    apply (drop_concat_codec _ (map path_entry ps)); [done|].
    transitivity (path_entry <$> ps !! i); [apply list_lookup_fmap|]. by rewrite Hi.
  - rewrite lookup_seq_ge by by apply lookup_ge_None. done.
Qed.

(** ** Registration *)

(** A handler registered by a connector is never subscribed to a system message type
    (0-9 and 0x0100-0x0FFF) nor to all of them: those channels and the wildcard chain are
    left as they were. *)
Theorem connector_handlers_confined h c t :
  is_connector_blocked_type t = true ->
  let c' := snd (register_handler_from_connector h c) in
  channels (c_bus c') !! t = channels (c_bus c) !! t /\ wildcards (c_bus c') = wildcards (c_bus c).
Proof.
  intros Hb c'. unfold c', register_handler_from_connector, register_handler_internal.
  destruct (h_name h) as [name|]; [|done].
  destruct (h_supported_types h) as [|t0 ts]; [done|].
  assert (forall l c, t ∉ l ->
    let c1 := snd (for_each l (fun t => on_bus (fun b =>
      snd (subscribe t name (make_cb h) (handler_priority h) b))) c) in
    channels (c_bus c1) !! t = channels (c_bus c) !! t /\ wildcards (c_bus c1) = wildcards (c_bus c)) as H.
  { clear. induction l as [|x l IH]; intros c Hn; [done|]. cbn [for_each]. unfold mbind, cm_bind.
    apply not_elem_of_cons in Hn as [Hx Hl]. simpl.
    edestruct IH as [E1 E2]; [exact Hl|].
    split; (etransitivity; [first [exact E1|exact E2]|]); simpl; [by rewrite lookup_insert_ne|done]. }
  assert (t ∉ allowed_types SrcConnector (t0 :: ts)) as Hnot.
  { unfold allowed_types. intros Hin%list_elem_of_In%filter_In. destruct Hin as [_ Hin].
    by rewrite Hb in Hin. }
  specialize (H _ c Hnot). cbn zeta in *. unfold mbind, cm_bind.
  set (ok := allowed_types SrcConnector (t0 :: ts)) in *. clearbody ok.
  destruct (for_each ok _ c) as [[] c1]. by destruct ok.
Qed.

(** ** Rekeying *)

(** Rekeying both ends keeps them paired: if each side's send key is the other's
    receive key before, it is so after, with empty windows. *)
Theorem rekey_keeps_pairing `{CO : !CryptoOps} a b ida idb ra rb sa sb :
  c_records a !! ida = Some ra -> r_session ra = Some sa -> r_state ra = STATE_ESTABLISHED ->
  c_records b !! idb = Some rb -> r_session rb = Some sb -> r_state rb = STATE_ESTABLISHED ->
  send_key sa = recv_key sb -> recv_key sa = send_key sb ->
  exists a' b' ra' rb' sa' sb',
    rekey_session ida a = (true, a') /\ rekey_session idb b = (true, b') /\
    c_records a' !! ida = Some ra' /\ c_records b' !! idb = Some rb' /\
    r_session ra' = Some sa' /\ r_session rb' = Some sb' /\
    send_key sa' = recv_key sb' /\ recv_key sa' = send_key sb' /\
    recv_window sa' = window_init /\ recv_window sb' = window_init /\
    r_send_packet_id ra' = 1 /\ r_send_packet_id rb' = 1.
Proof.
  intros Ha Hsa Hta Hb Hsb Htb K1 K2. unfold rekey_session, mbind, cm_bind, rcu_find, gets.
  rewrite Ha, Hsa, Hb, Hsb, !bool_decide_true by done.
  eexists _, _, _, _, (rekeyed sa), (rekeyed sb). split; [done|]. split; [done|]. simpl.
  rewrite !lookup_alter_eq, Ha, Hb. split; [done|]. split; [done|]. simpl. rewrite K1, K2. by split_and!.
Qed.

(** ** Concrete instances *)

#[local] Existing Instances ToyCrypto.ops ToyCrypto.laws.

Definition toy_relayed : header_t := mk_header_t GNET_MAGIC 1 0 100 0 77.

Lemma relay_seen_once_witness :
  fst (relay_seen toy_relayed alice) = false /\
  fst (relay_seen toy_relayed (set_c_now_ns 5000 (snd (relay_seen toy_relayed alice)))) = true.
Proof.
  assert (fst (relay_seen toy_relayed alice) = false) as E by (vm_compute; reflexivity).
  split; [exact E|]. apply (relay_seen_once toy_relayed toy_relayed alice 5000 eq_refl eq_refl E).
  vm_compute. discriminate.
Defined.

(** A record whose peer announced the schemes [ss]. *)
Definition knows_schemes (ss : list string) (r : ConnectionRecord) : ConnectionRecord :=
  set_r_peer_schemes ss r.

Lemma negotiate_agree_witness :
  negotiate_scheme alice (knows_schemes ["tcp"] alice_record) =
  negotiate_scheme bob (knows_schemes ["tcp"] bob_record).
Proof.
  assert (local_schemes alice = ["tcp"]) as Ea by (vm_compute; reflexivity).
  assert (local_schemes bob = ["tcp"]) as Eb by (vm_compute; reflexivity).
  refine (proj1 (negotiate_agree alice (knows_schemes ["tcp"] alice_record) bob
    (knows_schemes ["tcp"] bob_record) _ _ _ _)).
  - vm_compute. reflexivity.
  - rewrite Eb. intros s. reflexivity.
  - rewrite Ea. intros s. reflexivity.
  - exists "tcp"%string. rewrite Ea, Eb. split; [|split; constructor].
    apply (bool_decide_unpack ("tcp"%string ∈ c_scheme_priority alice)). vm_compute. exact I.
Defined.

Definition toy_paths : list TransportPath :=
  [mk_path 1 "tcp" 0 (toy_ep "10.0.0.2" 0) true 1500 0 0;
   mk_path 9 "ice" 1 (toy_ep "10.0.0.7" 0) false 9000000 2 0].

Lemma heartbeat_paths_roundtrip_witness :
  parse_paths (ping_bytes 123456 7 toy_paths) =
    [mk_peer_path "tcp" true 0 150; mk_peer_path "ice" false 1 65535].
Proof.
  transitivity (map path_status (take 8 toy_paths)); [|vm_compute; reflexivity].
  apply heartbeat_paths_roundtrip; [unfold fits; lia..|].
  repeat constructor; simpl; lia.
Defined.

(** A connector plugin's handler that asks for the AUTH type as well as its own. *)
Definition greedy_handler : handler_t :=
  mk_handler (Some "greedy") true None true [3; 5000] None.

Lemma connector_handlers_confined_witness :
  is_connector_blocked_type 3 = true /\
  channels (c_bus (snd (register_handler_from_connector greedy_handler alice))) !! 3 =
    channels (c_bus alice) !! 3 /\
  is_Some (channels (c_bus (snd (register_handler_from_connector greedy_handler alice))) !! 5000).
Proof.
  split; [reflexivity|]. split.
  - exact (proj1 (connector_handlers_confined greedy_handler alice 3 eq_refl)).
  - eexists. vm_compute. reflexivity.
Defined.

Lemma rekey_keeps_pairing_witness :
  exists a' b', rekey_session 1 alice = (true, a') /\ rekey_session 1 bob = (true, b').
Proof.
  edestruct (rekey_keeps_pairing alice bob 1 1 alice_record bob_record (session_of alice) (session_of bob))
    as (a' & b' & _ & _ & _ & _ & Ha & Hb & _).
  - exact alice_record_lookup.
  - vm_compute. reflexivity.
  - vm_compute. reflexivity.
  - exact bob_record_lookup.
  - vm_compute. reflexivity.
  - vm_compute. reflexivity.
  - vm_compute. reflexivity.
  - vm_compute. reflexivity.
  - exists a', b'. split; assumption.
Defined.
