(* ===== verification/CmSafety.v ===== *)
(** * Connection manager: safety of every run

    The operations that create and remove connections, and the theorems about whole runs:
    [run_calls] executes any sequence of API calls, with any data from the network, any
    connector behaviour and any handlers, and the invariant of [CmInvariant] holds
    throughout. *)

From Stdlib Require Import ZArith Strings.Byte String Lia.
From stdpp Require Import base gmap list strings numbers.
From S2P Require Import Prelude Codec Wire NonceWindow Queue Crypto Noise Session Signals.
From S2P Require Import CmState CmTransport CmClose CmHandshake CmDispatch CmLifecycle CmFrame CmInvariant CmScenario.

Local Open Scope Z_scope.

Section lifecycle.
Context `{CO : !CryptoOps}.
Implicit Types n k id : Z.

(** ** Disconnects *)

(** What a primary disconnect does to the fields the invariant reads. *)
Lemma disconnect_primary_effect id c r :
  c_records c !! id = Some r ->
  let c' := snd (disconnect_primary id c) in
  let c1 := set_c_pending_messages (delete (addr_key (r_remote r)) (c_pending_messages c))
    (set_c_pk_index (if r_peer_authenticated r
                     then delete (bytes_to_hex (r_peer_user_pubkey r)) (c_pk_index c)
                     else c_pk_index c)
    (set_c_transport_index (erase_tids id (r_transport_paths r) (c_transport_index c))
    (set_c_records (delete id (c_records c)) c))) in
  calm c1 c'.
Proof.
  intros Hr. unfold disconnect_primary, mbind, cm_bind, rcu_find. simpl. rewrite Hr.
  pose proof (erase_paths_run id (r_transport_paths r) c) as Hp.
  destruct (for_each (r_transport_paths r) _ c) as [[] c1]. simpl in Hp. subst c1.
  destruct (r_peer_authenticated r); simpl;
    (etrans; [|apply quiet_calm, Quiet_notify]; by apply calm_refl_pending).
Qed.

Lemma keeps_disconnect_primary n k id : keeps_cm (inv n k) (disconnect_primary id).
Proof.
  intros c Hc. destruct (c_records c !! id) as [r|] eqn:Hr.
  2: { unfold disconnect_primary, mbind, cm_bind, rcu_find. simpl. by rewrite Hr. }
  eapply inv_calm; [by apply disconnect_primary_effect|].
  pose proof (phase_of _ _ _ _ _ Hc Hr) as Hph. destruct Hc as [I1 I2 I3 I4 I5 I6].
  split; try done; cbn [c_records c_transport_index c_pk_index c_pending_messages
    set_c_records set_c_transport_index set_c_pk_index set_c_pending_messages].
  - intros i r' [Hne Hr']%lookup_delete_Some. destruct (I3 _ _ Hr') as (H1 & H2 & H3 & H4 & H5).
    split_and!; [done|lia|lia|done|done|]. intros tid Hin.
    destruct (H5 tid Hin) as [->|Hti]; [by left|right].
    rewrite erase_tids_lookup. case_decide as Hd; [|done].
    destruct Hd as [Hne' Hin']. destruct (I3 _ _ Hr) as (_ & _ & _ & _ & H5').
    destruct (H5' tid Hin') as [->|Hti']; congruence.
  - intros hex i Hpk.
    assert (c_pk_index c !! hex = Some i /\
            (r_peer_authenticated r = true -> hex <> bytes_to_hex (r_peer_user_pubkey r))) as [Hpk' Hne].
    { destruct (r_peer_authenticated r); [|done]. apply lookup_delete_Some in Hpk. naive_solver. }
    destruct (I4 _ _ Hpk') as (r' & Hr' & Hst & ->). exists r'. split; [|done].
    rewrite lookup_delete_ne; [done|]. intros ->. assert (r' = r) as -> by congruence.
    destruct Hph as [(? & _)|(_ & _ & _ & Ha & _)]; [congruence|by apply Hne].
  - intros tid pid. rewrite erase_tids_lookup. case_decide as Hd; [done|].
    intros (Hlt & Hno & r' & Hr' & Hst & Hin)%I5. split; [done|].
    split; [by apply lookup_delete_None; right|]. exists r'. split; [|done].
    rewrite lookup_delete_ne; [done|]. intros ->. assert (r' = r) as -> by congruence.
    apply Hd. split; [|done]. intros ->. congruence.
  - intros key q [_ Hq]%lookup_delete_Some. by apply (I6 key).
Qed.

Lemma filter_path_ids id ps tid :
  tid ∈ tp_transport_conn_id <$> List.filter (fun p => negb (tp_transport_conn_id p =? id)) ps <->
  tid <> id /\ tid ∈ tp_transport_conn_id <$> ps.
Proof.
  induction ps as [|p ps IH]; simpl; [set_solver|].
  destruct (Z.eqb_spec (tp_transport_conn_id p) id); simpl; set_solver.
Qed.

Lemma keeps_disconnect_secondary n k id pid :
  triple (fun c => inv n k c /\ c_transport_index c !! id = Some pid)
    (disconnect_secondary id pid) (fun _ => inv n k).
Proof.
  intros c [Hc Hti]. destruct (inv_ti _ _ _ Hc _ _ Hti) as (Hlt & Hno & r & Hr & Hst & Hin).
  unfold disconnect_secondary, mbind, cm_bind, rcu_find. simpl. rewrite Hr.
  set (c1 := set_c_records (alter (fun r => set_r_transport_paths
      (List.filter (fun p => negb (tp_transport_conn_id p =? id)) (r_transport_paths r)) r) pid
      (c_records c)) (set_c_transport_index (delete id (c_transport_index c)) c)).
  assert (inv n k c1) as Hc1.
  { destruct Hc as [I1 I2 I3 I4 I5 I6].
    split; try done; cbn [c1 c_records c_transport_index c_pk_index c_pending_messages
      set_c_records set_c_transport_index].
    - intros i r' Hr'. apply lookup_alter_Some in Hr' as [(-> & r0 & Hr0 & ->)|[Hne Hr']].
      + assert (r0 = r) as -> by congruence. destruct (I3 _ _ Hr) as (H1 & H2 & H3 & H4 & H5).
        split_and!; [done|lia|lia|done|done|]. intros tid [Hne Hin']%filter_path_ids.
        destruct (H5 tid Hin') as [?|?]; [by left|right]. by rewrite lookup_delete_ne.
      + destruct (I3 _ _ Hr') as (H1 & H2 & H3 & H4 & H5).
        split_and!; [done|lia|lia|done|done|]. intros tid Hin'.
        destruct (H5 tid Hin') as [?|?]; [by left|right]. rewrite lookup_delete_ne; congruence.
    - intros hex i (r' & Hr' & Hst' & ->)%I4. unfold pk_ok.
      destruct (decide (i = pid)) as [->|Hne]; [|rewrite lookup_alter_ne by done; eauto].
      rewrite lookup_alter_eq, Hr'. simpl. eauto.
    - intros tid pid' [Hne (Hlt' & Hno' & r' & Hr' & Hst' & Hin')%I5]%lookup_delete_Some.
      split; [done|]. split; [by apply lookup_alter_None|].
      destruct (decide (pid' = pid)) as [->|Hne']; [|rewrite lookup_alter_ne by done; eauto].
      rewrite lookup_alter_eq, Hr'. eexists. split; [done|]. split; [done|].
      apply filter_path_ids. done. }
  destruct (find_path_by_transport_id id r) as [[i p]|]; simpl.
  - destruct (String.eqb (tp_scheme p) ""); simpl;
      (eapply inv_calm; [|exact Hc1]; by apply calm_refl_pending).
  - exact Hc1.
Qed.

Lemma keeps_handle_disconnect n k id e : keeps_cm (inv n k) (handle_disconnect id e).
Proof.
  unfold handle_disconnect. apply triple_gets. intros [pid|].
  - destruct (pid =? CONN_ID_INVALID); [|apply keeps_disconnect_secondary].
    eapply triple_pre; [|apply keeps_disconnect_primary]. naive_solver.
  - eapply triple_pre; [|apply keeps_disconnect_primary]. naive_solver.
Qed.

(** ** New connections and transports *)

(** An id nothing in the manager refers to. *)
Definition fresh (id : Z) (c : cm) : Prop :=
  c_records c !! id = None /\ c_transport_index c !! id = None.

Lemma quiet_fresh id c c' : quiet c c' -> fresh id c -> fresh id c'.
Proof.
  intros Hq [H1 H2]. split; [|by rewrite (q_transport _ _ Hq)].
  pose proof (q_records _ _ Hq id) as Hr. rewrite H1 in Hr. by destruct (c_records c' !! id).
Qed.

(** Taking the next id. *)
Lemma take_id_inv n k c :
  inv n k c -> n + 1 < 2 ^ 64 ->
  inv (n + 1) k (set_c_next_id (u64 (n + 1)) c) /\ fresh n (set_c_next_id (u64 (n + 1)) c).
Proof.
  intros Hc Hn. pose proof Hc as [[I1 J1] I2 I3 I4 I5 I6]. split.
  - split; try done; simpl.
    + split; [|lia]. apply wrap_small. unfold fits. lia.
    + intros i r (H1 & H2 & H3 & H4 & H5)%I3. split_and!; try done; lia.
    + intros tid pid (Hlt & H)%I5. split; [lia|done].
  - split; simpl.
    + destruct (c_records c !! n) as [r0|] eqn:E; [|done]. apply I3 in E as (_ & ? & _). lia.
    + destruct (c_transport_index c !! n) as [p|] eqn:E; [|done]. apply I5 in E as [? _]. lia.
Qed.

(** A handshake record under a fresh id. *)
Lemma insert_record_inv n k id c r :
  inv n k c -> fresh id c -> 0 < id < n ->
  r_id r = id -> r_state r = STATE_NOISE_HANDSHAKE -> is_Some (r_handshake r) ->
  r_session r = None -> r_localhost_passthrough r = false -> r_peer_authenticated r = false ->
  path_ids r = [id] ->
  inv n k (set_c_records (<[id := r]> (c_records c)) c).
Proof.
  intros Hc [Hf1 Hf2] Hn R1 R2 R3 R4 R5 R6 R7. pose proof Hc as [[I1 J1] I2 I3 I4 I5 I6].
  split; try done; cbn [c_records c_transport_index c_pk_index c_pending_messages set_c_records].
  - intros i r' Hr'. apply lookup_insert_Some in Hr' as [[<- <-]|[Hne Hr']]; [|by apply I3].
    split_and!; [done|lia|lia|left; done|unfold auth_ok; congruence|].
    intros tid. rewrite R7, list_elem_of_singleton. by left.
  - intros hex i (r' & Hr' & Hst & ->)%I4. exists r'. split; [|done].
    rewrite lookup_insert_ne; [done|]. intros ->. congruence.
  - intros tid pid Hti. destruct (I5 _ _ Hti) as (Hlt & Hno & r' & Hr' & Hst & Hin). split; [lia|].
    split; [rewrite lookup_insert_ne; [done|intros ->; congruence]|]. exists r'. split; [|done].
    rewrite lookup_insert_ne; [done|]. intros ->. congruence.
Qed.

Lemma handle_connect_inv n k ep :
  n + 1 < 2 ^ 64 ->
  triple (inv n k) (handle_connect ep) (fun _ c => inv n k c \/ inv (n + 1) k c).
Proof.
  intros Hn. unfold handle_connect. apply triple_gets. intros [|]; [apply triple_ret; naive_solver|].
  apply triple_gets. intros id. apply triple_modify.
  apply (triple_pre (fun c => (inv (n + 1) k c /\ fresh id c) /\ 0 < id < n + 1)).
  { intros c (c0 & ((Hc & _) & <-) & ->). destruct (inv_next _ _ _ Hc) as [-> ?].
    split; [by apply take_id_inv|lia]. }
  apply triple_gets. intros me.
  eapply triple_bind with (R := fun _ c => (inv (n + 1) k c /\ fresh id c) /\ 0 < id < n + 1).
  { intros c [[[Hc Hf] Hid] _].
    assert (Quiet (match pk_to_curve25519 (device_pubkey me) with
      | Some x => mret x
      | None => emit_ev (EvUB "handle_connect: x25519_pk unset") ;; mret (zeros DHLEN)
      end : CM bytes)) as Hq by solve_quiet.
    split; [|done]. split; [by eapply Quiet_keeps|]. eapply quiet_fresh; [apply Hq|done]. }
  intros pk. apply triple_gets. intros c1. apply triple_modify.
  apply (triple_pre (inv (n + 1) k)).
  { intros c (c0 & ([[Hc Hf] Hid] & _) & ->).
    apply insert_record_inv; try done. }
  eapply triple_conseq with (P := inv (n + 1) k) (Q := fun _ => inv (n + 1) k);
    [|done|by right].
  apply keeps_seq; [apply keeps_modify; intros; by apply calm_refl_pending|intros _].
  apply keeps_seq; [apply Quiet_keeps; solve_quiet|intros _].
  apply keeps_seq; [apply Quiet_keeps; solve_quiet|intros _].
  apply keeps_seq; [|intros _; by apply triple_ret].
  case_match; [apply keeps_send_noise_init|by apply triple_ret].
Qed.

(** A secondary path under a fresh id. *)
Lemma add_path_inv n k pid tid r tp c :
  inv n k c -> fresh tid c -> 0 < tid < n -> c_records c !! pid = Some r ->
  r_state r = STATE_ESTABLISHED -> tp_transport_conn_id tp = tid ->
  inv n k (set_c_transport_index (<[tid := pid]> (c_transport_index c))
    (set_c_records (alter (fun r => set_r_transport_paths (r_transport_paths r ++ [tp]) r) pid
      (c_records c)) c)).
Proof.
  intros Hc [Hf1 Hf2] Hn Hr Hst Htp. pose proof Hc as [[I1 J1] I2 I3 I4 I5 I6].
  split; try done; cbn [c_records c_transport_index c_pk_index c_pending_messages set_c_records
    set_c_transport_index].
  - intros i r' Hr'. apply lookup_alter_Some in Hr' as [(-> & r0 & Hr0 & ->)|[Hne Hr']].
    + destruct (I3 _ _ Hr0) as (H1 & H2 & H3 & H4 & H5). split_and!; [done|lia|lia|done|done|].
      intros t. unfold path_ids. simpl. rewrite fmap_app, elem_of_app. simpl.
      rewrite list_elem_of_singleton, Htp. intros [Hin| ->]; [|right; by rewrite lookup_insert_eq].
      destruct (H5 t Hin) as [?|Ht]; [by left|right]. rewrite lookup_insert_ne; congruence.
    + destruct (I3 _ _ Hr') as (H1 & H2 & H3 & H4 & H5). split_and!; [done|lia|lia|done|done|].
      intros t Hin. destruct (H5 t Hin) as [?|Ht]; [by left|right].
      rewrite lookup_insert_ne; congruence.
  - intros hex i (r' & Hr' & Hst' & ->)%I4. unfold pk_ok.
    destruct (decide (i = pid)) as [->|Hne]; [|rewrite lookup_alter_ne by done; eauto].
    rewrite lookup_alter_eq, Hr'. simpl. eauto.
  - intros t p. rewrite lookup_insert_Some. intros [[<- <-]|[Hne Ht]].
    + split; [lia|]. split; [by apply lookup_alter_None|].
      rewrite lookup_alter_eq, Hr. eexists. split; [done|]. split; [done|].
      unfold path_ids. simpl. rewrite fmap_app, elem_of_app. right. simpl. set_solver.
    + destruct (I5 _ _ Ht) as (Hlt & Hno & r' & Hr' & Hst' & Hin). split; [done|].
      split; [by apply lookup_alter_None|].
      destruct (decide (p = pid)) as [->|Hne']; [|rewrite lookup_alter_ne by done; eauto].
      rewrite lookup_alter_eq, Hr'. eexists. split; [done|]. split; [done|].
      unfold path_ids. simpl. rewrite fmap_app, elem_of_app. by left.
Qed.

Lemma handle_add_transport_inv n k pk ep s :
  n + 1 < 2 ^ 64 ->
  triple (inv n k) (handle_add_transport pk ep s) (fun _ c => inv n k c \/ inv (n + 1) k c).
Proof.
  intros Hn. unfold handle_add_transport.
  destruct pk as [hex|], ep as [ep|], s as [s|]; try (apply triple_ret; naive_solver).
  apply triple_gets. intros [|]; [apply triple_ret; naive_solver|].
  apply triple_gets. intros pid. case_match; [apply triple_ret; naive_solver|].
  unfold rcu_find. apply triple_gets. intros [r|]; [|apply triple_ret; naive_solver].
  destruct (bool_decide _ || bool_decide _) eqn:Hb; [apply triple_ret; naive_solver|].
  apply orb_false_iff in Hb as [Hst%bool_decide_eq_false _]. apply dec_stable in Hst.
  apply triple_gets. intros tid. apply triple_modify.
  apply (triple_pre (fun c => inv (n + 1) k c /\ fresh tid c /\ 0 < tid < n + 1 /\
                              c_records c !! pid = Some r)).
  { intros c (c0 & ((((Hc & _) & _) & Hr) & Hid) & ->). subst tid.
    destruct (inv_next _ _ _ Hc) as [-> ?].
    destruct (take_id_inv n k c0 Hc Hn) as [? ?]. split_and!; try done; lia. }
  apply triple_gets. intros c1. unfold upd_record. apply triple_modify, triple_modify.
  apply (triple_pre (inv (n + 1) k)).
  { intros c (c3 & (c2 & ((Hc & Hf & Hid & Hr) & _) & ->) & ->).
    eapply (add_path_inv (n + 1) k pid tid r _ c2); done. }
  eapply triple_conseq with (P := inv (n + 1) k) (Q := fun _ => inv (n + 1) k);
    [|done|by right].
  apply keeps_seq; [apply keeps_modify; intros; by apply calm_refl_pending|intros _].
  apply keeps_seq; [apply Quiet_keeps; solve_quiet|intros _]. by apply triple_ret.
Qed.

(** ** Every call *)

Lemma keeps_register n k h src : keeps_cm (inv n k) (register_handler_internal h src).
Proof.
  unfold register_handler_internal. solve_keeps;
    first [apply keeps_modify | apply Calm_keeps]; intros c; by apply calm_refl_pending.
Qed.

Lemma keeps_shutdown n k : keeps_cm (inv n k) shutdown.
Proof.
  unfold shutdown. apply keeps_seq; [apply keeps_modify; intros; by apply calm_refl_pending|].
  intros _. solve_keeps.
Qed.

Lemma run_call_inv n fuel a :
  n + 1 < 2 ^ 64 ->
  triple (inv n 0) (run_call fuel a) (fun _ c => inv n 0 c \/ inv (n + 1) 0 c).
Proof.
  intros Hn. destruct a; simpl.
  2: { eapply triple_bind; [by apply handle_connect_inv|]. intros ?. by apply triple_ret. }
  2: { eapply triple_bind; [by apply handle_add_transport_inv|]. intros ?. by apply triple_ret. }
  all: apply (triple_conseq (inv n 0) _ _ (fun _ => inv n 0) _); [|done|by left].
  all: try (apply keeps_seq; [|intros; by apply triple_ret]).
  all: first
    [ apply Quiet_keeps; solve [auto with quiet nocore]
    | apply keeps_modify; intros; by apply calm_refl_pending
    | apply keeps_send_uri | apply keeps_shutdown | apply keeps_register
    | apply keeps_handle_disconnect | apply keeps_rekey | apply keeps_cleanup
    | apply keeps_handle_data; unfold fits; lia ].
Qed.

(** A state some sequence of fewer than 2^64 - 2 calls leads to, from an empty manager. *)
Definition reachable (c : cm) : Prop :=
  exists fuel calls b me cfg now wall rng0 io0,
    Z.of_nat (length calls) < 2 ^ 64 - 2 /\
    c = run_calls fuel calls (cm_init b me cfg now wall rng0 io0).

Lemma cm_init_inv b me cfg now wall rng0 io0 : inv 1 0 (cm_init b me cfg now wall rng0 io0).
Proof. split; try done; intros ??; simpl; by rewrite lookup_empty. Qed.

Lemma run_calls_inv fuel calls n c :
  inv n 0 c -> n + Z.of_nat (length calls) < 2 ^ 64 ->
  exists n', n <= n' <= n + Z.of_nat (length calls) /\ inv n' 0 (run_calls fuel calls c).
Proof.
  unfold run_calls. revert n c. induction calls as [|a calls IH]; intros n c Hc Hn; simpl in *.
  - exists n. split; [lia|done].
  - destruct (run_call_inv n fuel a ltac:(lia) c Hc) as [H|H].
    + destruct (IH _ _ H) as (n' & ? & ?); [lia|]. exists n'. split; [lia|done].
    + destruct (IH _ _ H) as (n' & ? & ?); [lia|]. exists n'. split; [lia|done].
Qed.

Lemma reachable_inv c : reachable c -> exists n, inv n 0 c.
Proof.
  intros (fuel & calls & b & me & cfg & now & wall & rng0 & io0 & Hlen & ->).
  destruct (run_calls_inv fuel calls 1 _ (cm_init_inv b me cfg now wall rng0 io0))
    as (n' & _ & ?); [lia|eauto].
Qed.

(** ** Properties *)

(** C5: connection safety.  In every reachable state, whatever calls were made and
    whatever arrived from the network, a connection is either in its handshake, without
    a session and without the localhost bypass, or established with a session, an
    authenticated peer and the bypass exactly for localhost; and an authenticated peer
    presented a signature by its user key over its user and device keys. *)
Theorem connections_sound c id r :
  reachable c -> c_records c !! id = Some r ->
  r_id r = id /\ 0 < id < c_next_id c /\
  ((r_state r = STATE_NOISE_HANDSHAKE /\ is_Some (r_handshake r) /\ r_session r = None /\
    r_localhost_passthrough r = false) \/
   (r_state r = STATE_ESTABLISHED /\ r_handshake r = None /\ is_Some (r_session r) /\
    r_peer_authenticated r = true /\ r_localhost_passthrough r = r_is_localhost r)) /\
  (r_peer_authenticated r = true ->
   exists sig, verify_detached sig (r_peer_user_pubkey r ++ r_peer_device_pubkey r)
                 (r_peer_user_pubkey r) = true).
Proof.
  intros (n & Hc)%reachable_inv Hr. destruct (inv_rec _ _ _ Hc _ _ Hr) as (H1 & H2 & H3 & H4 & _).
  destruct (inv_next _ _ _ Hc) as [-> _]. split_and!; [done|lia|lia|exact H3|]. intros Ha.
  by apply H4.
Qed.

(** C15: the key index only ever leads to an established connection with a peer that
    authenticated with exactly that key. *)
Theorem find_conn_by_pubkey_sound c pk :
  reachable c -> find_conn_by_pubkey c (bytes_to_hex pk) <> CONN_ID_INVALID ->
  exists r, c_records c !! find_conn_by_pubkey c (bytes_to_hex pk) = Some r /\
    r_state r = STATE_ESTABLISHED /\ r_peer_authenticated r = true /\ r_peer_user_pubkey r = pk.
Proof.
  intros (n & Hc)%reachable_inv. unfold find_conn_by_pubkey.
  destruct (c_pk_index c !! bytes_to_hex pk) as [id|] eqn:E; [|done]. intros _. simpl.
  destruct (inv_pk _ _ _ Hc _ _ E) as (r & Hr & Hst & Hhex). exists r.
  apply bytes_to_hex_inj in Hhex as ->. split_and!; try done.
  destruct (phase_of _ _ _ _ _ Hc Hr) as [(? & _)|(_ & _ & _ & ? & _)]; congruence.
Qed.

(** C16: transports.  An entry of the transport index leads to an established
    connection that has a path with that transport id, no connection uses that id
    itself, and conversely every path of a connection but the primary one is indexed;
    so an id of the connector belongs to at most one connection. *)
Theorem transport_index_sound c :
  reachable c ->
  (forall tid pid, c_transport_index c !! tid = Some pid ->
     c_records c !! tid = None /\
     exists r, c_records c !! pid = Some r /\ r_state r = STATE_ESTABLISHED /\ tid ∈ path_ids r) /\
  (forall id r tid, c_records c !! id = Some r -> tid ∈ path_ids r ->
     tid = id \/ c_transport_index c !! tid = Some id).
Proof.
  intros (n & Hc)%reachable_inv. split.
  - intros tid pid Ht. by destruct (inv_ti _ _ _ Hc _ _ Ht) as (_ & ? & ?).
  - intros id r tid Hr. destruct (inv_rec _ _ _ Hc _ _ Hr) as (_ & _ & _ & _ & H). apply H.
Qed.

(** C17: between calls no dispatch is in flight, so [shutdown] returns; after it the
    manager opens no connection, sends nothing and ignores incoming data. *)
Theorem shutdown_terminates c :
  reachable c ->
  exists c', shutdown c = (Some tt, c') /\
    forall fuel ep id t raw payload,
      handle_connect ep c' = (CONN_ID_INVALID, c') /\ send_frame id t payload c' = (tt, c') /\
      handle_data fuel id raw c' = (tt, c').
Proof.
  intros (n & Hc)%reachable_inv. unfold shutdown, mbind, cm_bind, modify, gets. simpl.
  rewrite (inv_flight _ _ _ Hc). simpl.
  set (c0 := set_c_shutting_down true c).
  assert (quiet c0 (snd (for_each (map_to_list (c_records c)).*1 close_now c0))) as Hq
    by (apply Quiet_for_each; intros; apply Quiet_close_now).
  destruct (for_each _ close_now c0) as [[] c'] eqn:E. simpl in Hq. exists c'. split; [done|].
  assert (c_shutting_down c' = true) as Hs by by rewrite (q_shutting _ _ Hq).
  intros. unfold handle_connect, send_frame, handle_data, handle_data_with, mbind, cm_bind, gets.
  by rewrite Hs.
Qed.

(** A peer that is not reachable never holds more than 100 messages per URI. *)
Theorem pending_bounded c uri q :
  reachable c -> c_pending_messages c !! uri = Some q -> (length q <= 100)%nat.
Proof. intros (n & Hc)%reachable_inv. apply (inv_pend _ _ _ Hc). Qed.
End lifecycle.

(** ** Witnesses, on the states of [CmScenario] *)

#[local] Existing Instances ToyCrypto.ops ToyCrypto.laws.

Lemma alice_reachable : reachable alice.
Proof.
  exists 2%nat, alice_calls, bus_init, (toy_identity x01 x02), None, 1000, 2000, 0%nat, 0%nat.
  split; [unfold alice_calls; simpl; lia|reflexivity].
Qed.

Lemma connections_sound_witness :
  r_state alice_record = STATE_ESTABLISHED /\
  exists sig, verify_detached sig (replicate 32 x03 ++ replicate 32 x04) (replicate 32 x03) = true.
Proof.
  split; [vm_compute; reflexivity|].
  destruct (connections_sound alice 1 alice_record alice_reachable alice_record_lookup)
    as (_ & _ & _ & H).
  apply H. vm_compute. reflexivity.
Defined.

Lemma find_conn_by_pubkey_sound_witness :
  exists r, c_records alice !! 1 = Some r /\ r_peer_user_pubkey r = replicate 32 x03.
Proof.
  destruct (find_conn_by_pubkey_sound alice (replicate 32 x03) alice_reachable)
    as (r & Hr & _ & _ & Hpk); [vm_compute; discriminate|].
  exists r. split; [|exact Hpk].
  replace 1 with (find_conn_by_pubkey alice (bytes_to_hex (replicate 32 x03)))
    by (vm_compute; reflexivity). exact Hr.
Defined.

Lemma transport_index_sound_witness :
  1 ∈ path_ids alice_record /\
  (forall tid, tid ∈ path_ids alice_record -> tid = 1 \/ c_transport_index alice !! tid = Some 1).
Proof.
  split; [vm_compute; constructor|].
  intros tid. exact (proj2 (transport_index_sound alice alice_reachable) 1 alice_record tid
    alice_record_lookup).
Defined.

Lemma shutdown_terminates_witness : exists c', shutdown alice = (Some tt, c').
Proof.
  destruct (shutdown_terminates alice alice_reachable) as (c' & H & _). by exists c'.
Defined.

Definition waiting : cm := run_calls 2 [ApiSendUri "tcp://10.0.0.9:1" 100 [x41]] alice0.

Lemma pending_bounded_witness :
  exists q, c_pending_messages waiting !! "10.0.0.9:1" = Some q /\ (length q <= 100)%nat.
Proof.
  eexists. split; [vm_compute; reflexivity|].
  eapply (pending_bounded waiting "10.0.0.9:1"); [|vm_compute; reflexivity].
  exists 2%nat, [ApiSendUri "tcp://10.0.0.9:1" 100 [x41]], bus_init, (toy_identity x01 x02), None,
    1000, 2000, 0%nat, 0%nat.
  split; [simpl; lia|reflexivity].
Defined.
