(* ===== verification/Core.v ===== *)
(** * Core facade ([src/core.cpp], [include/core.hpp], [core/util.cpp])

    The object an application uses: it owns the configuration, the identity, the connection
    manager and the plugin manager, wires them together, runs the threads and the heartbeat
    timer, and forwards calls to the manager.  The vtables behind the descriptors of
    [PluginManager] are a parameter; what a plugin calls while it is initialised is one too. *)

From Stdlib Require Import ZArith Strings.Byte String Ascii Lia.
From stdpp Require Import base gmap list strings numbers.
From S2P Require Import Prelude Codec Wire NonceWindow Queue Crypto Noise Session Signals.
From S2P Require Import CmState CmTransport CmClose CmHandshake CmDispatch CmLifecycle CmFrame CmInvariant CmSafety.
From S2P Require Import Config PluginManager Identity.

Local Open Scope Z_scope.

(** ** State *)

Record Core := mk_core {
  k_config : Config;
  k_identity : NodeIdentity;
  k_cm : cm;
  k_pm : PluginManager;
  k_io_threads : Z;          (* [io_threads.size()] *)
  k_running : bool;
  k_heartbeat : bool;        (* a wait of [heartbeat_timer] is pending *)
  k_io_stopped : bool;       (* the [io_context] was stopped *)
}.

(** What the constructor finds: the host, the identity files, the compiled-in plugins, the
    files below the plugin directory and the plain directories. *)
Record world := mk_world {
  w_host : host;
  w_fs : fsys;
  w_entropy : entropy;
  w_registry : list StaticPluginEntry;
  w_plugins : list (bool * bool * plugin_file);
  w_directory : string -> option (list (bool * plugin_file));   (* with a library's extension? *)
  w_now : Z;
  w_wall : Z;
}.

(** ** [expand_home] *)

Definition expand_home (home : option string) (p : string) : string :=
  match str_bytes p with
  | x7e :: x2f :: rest =>
      match rest with
      | x2f :: _ => bytes_str rest                       (* an absolute second part replaces the first *)
      | _ => path_join (default "."%string home) (bytes_str rest)
      end
  | _ => p
  end.

(** [std::getline(ss, dir, ';')] until the end; no line after a final separator. *)
Fixpoint split_semi (cur : bytes) (s : bytes) : list bytes :=
  match s with
  | [] => match cur with [] => [] | _ => [rev cur] end
  | x3b :: s => rev cur :: split_semi [] s
  | b :: s => split_semi (b :: cur) s
  end.

(** The scheme of a connector as it fits a buffer of [sz] bytes. *)
Definition connector_scheme (ops : connector_desc) (sz : nat) : string :=
  bytes_str (until_nul (strncpy (cd_scheme ops) (sz - 1) ++ [x00])).

Definition compression_of (cfg : Config) : Compression :=
  let z := cfg_compression cfg in mk_compression (cz_enabled z) (cz_threshold z) (cz_level z).

Definition set_dir (dir : string) (x : IdentityCfg) : IdentityCfg :=
  mk_identity_cfg dir (id_ssh_key_path x) (id_use_machine_id x) (id_skip_ssh_fallback x).

Definition identity_cfg (w : world) (cfg : Config) : IdentityCfg :=
  set_dir (expand_home (h_home (w_host w)) (id_dir (cfg_identity cfg))) (cfg_identity cfg).

Section core.
Context `{CO : !CryptoOps, KO : !KeyOps}.
Context (connector_of : connector_desc -> connector_ops) (handler_of : handler_desc -> handler_t).
(* the calls a plugin makes to the host while it is initialised *)
Context (init_calls : string -> list api_call) (fuel : nat).

(** ** Construction *)

Definition load_extra_dir (w : world) (p : PluginManager) (dir : bytes) : PluginManager :=
  match dir with
  | [] => p
  | _ =>
      match w_directory w (bytes_str dir) with
      | None => p
      | Some entries => fold_left (fun p '(library, f) => if (library : bool) then (load_plugin f p).2 else p) entries p
      end
  end.

Definition auto_load (w : world) (x : PluginsCfg) (p : PluginManager) : PluginManager :=
  let p := load_all_plugins (pl_base_dir x) (w_plugins w) p in
  fold_left (load_extra_dir w) (split_semi [] (str_bytes (pl_extra_dirs x))) p.

Definition register_connectors (l : list connector_desc) : CM unit :=
  for_each l (fun ops =>
    let scheme := connector_scheme ops 64 in
    if String.eqb scheme "" then mret tt else register_connector scheme (connector_of ops)).

Definition register_handlers (l : list handler_desc) : CM unit :=
  for_each l (fun h => register_handler (handler_of h)).

(** The plugins that were initialised, in order. *)
Definition inits (p : PluginManager) : list string :=
  concat (map (fun ev => match ev with PmInit q => [q] | _ => [] end) (pm_trace p)).

(** [Core::Core]; [None] is the exception of a failed identity. *)
Definition core_new (cfg : Config) (w : world) : option Core * fsys :=
  match load_or_generate (w_host w) (identity_cfg w cfg) (w_entropy w) (w_fs w) with
  | (None, fs) => (None, fs)
  | (Some me, fs) =>
      let c := cm_init bus_init me (Some (compression_of cfg)) (w_now w) (w_wall w) 0 0 in
      let p := load_static_plugins (w_registry w) pm_init in
      let x := cfg_plugins cfg in
      let p := if pl_auto_load x then auto_load w x p else p in
      let c := run_calls fuel (concat (map init_calls (inits p))) c in
      let c := if pl_auto_load x
               then (register_handlers (get_active_handlers p) (register_connectors (get_active_connectors p) c).2).2
               else c in
      (Some (mk_core cfg me c p 0 false false false), fs)
  end.

(** ** Lifecycle *)

Definition set_cm (c : cm) (k : Core) : Core :=
  mk_core (k_config k) (k_identity k) c (k_pm k) (k_io_threads k) (k_running k) (k_heartbeat k) (k_io_stopped k).

Definition thread_count (k : Core) (threads hardware : Z) : Z :=
  let n := if 0 <? threads then threads else co_io_threads (cfg_core (k_config k)) in
  if n <=? 0 then Z.max 2 hardware else n.

Definition run_async (threads hardware : Z) (k : Core) : Core :=
  if k_running k then k
  else
    mk_core (k_config k) (k_identity k) (k_cm k) (k_pm k) (k_io_threads k + thread_count k threads hardware)
      true true (k_io_stopped k).

(** [run] while it waits for the threads to end; those of a stopped [io_context] end at once, and
    [run] clears them and returns.  The waiting itself is in [CoreThreads]. *)
Definition core_run (hardware : Z) (k : Core) : Core :=
  let k := run_async 0 hardware k in
  if k_io_stopped k
  then mk_core (k_config k) (k_identity k) (k_cm k) (k_pm k) 0 (k_running k) (k_heartbeat k) (k_io_stopped k)
  else k.

(** [stop] on a thread of its own.  [None]: the wait of [ConnectionManager::shutdown] never ends.
    The threads it joins leave a stopped [io_context]; the joins are in [CoreThreads]. *)
Definition core_stop (k : Core) : option Core :=
  if negb (k_running k) then Some k
  else
    match shutdown (k_cm k) with
    | (None, _) => None
    | (Some _, c) => Some (mk_core (k_config k) (k_identity k) c (unload_all (k_pm k)) 0 false false true)
    end.

(** [stop] called by a packet callback: the dispatch that runs the callback is in flight until
    the callback returns. *)
Definition stop_in_callback (k : Core) : option Core :=
  k' ← core_stop (set_cm (add_in_flight 1 (k_cm k)).2 k); Some (set_cm (add_in_flight (-1) (k_cm k')).2 k').

(** The completion of the timer's wait: it runs on a thread of an [io_context] that is not
    stopped, and waits again. *)
Definition heartbeat (k : Core) : Core :=
  if k_heartbeat k && (0 <? k_io_threads k) && negb (k_io_stopped k)
  then set_cm (cleanup_stale_pending (check_heartbeat_timeouts (k_cm k)).2).2 k
  else k.

(** The manager reads the compression settings from the configuration it shares. *)
Definition set_config (x : Config) (k : Core) : Core :=
  let c := k_cm k in
  mk_core x (k_identity k)
    (mk_cm (c_records c) (c_send_queues c) (c_relay_dedup_set c) (c_bus c) (Some (compression_of x)) (c_identity c)
       (c_shutting_down c) (c_next_id c) (c_in_flight_dispatches c) (c_scheme_priority c) (c_handler_entries c)
       (c_connectors c) (c_uri_index c) (c_pk_index c) (c_transport_index c) (c_pending_messages c) (c_now_ns c)
       (c_wall_us c) (c_rng c) (c_io c) (c_trace c))
    (k_pm k) (k_io_threads k) (k_running k) (k_heartbeat k) (k_io_stopped k).

Definition reload_config (parse : string -> option json) (files : gmap string string) (k : Core) : bool * Core :=
  match reload parse files (k_config k) with
  | (true, x) => (true, set_config x k)
  | (false, _) => (false, k)
  end.

Definition core_rotate (w : world) (k : Core) : Core * fsys :=
  let '(c, fs) := rotate_identity (w_host w) (identity_cfg w (k_config k)) (w_entropy w) (k_cm k) (w_fs w) in
  (set_cm c k, fs).

(** ** Forwarding *)

Definition core_send_uri (uri : string) (t : Z) (p : bytes) (k : Core) : bool * Core :=
  let '(ok, c) := send_uri uri t p (k_cm k) in (ok, set_cm c k).
Definition core_send_id (id t : Z) (p : bytes) (k : Core) : bool * Core :=
  let '(ok, c) := send_id id t p (k_cm k) in (ok, set_cm c k).
Definition core_broadcast (t : Z) (p : bytes) (k : Core) : Core := set_cm (broadcast t p (k_cm k)).2 k.
Definition core_connect (uri : string) (k : Core) : Core := set_cm (cm_connect uri (k_cm k)).2 k.
Definition core_disconnect (id : Z) (k : Core) : Core := set_cm (cm_disconnect id (k_cm k)).2 k.
Definition core_close_now (id : Z) (k : Core) : Core := set_cm (close_now id (k_cm k)).2 k.
Definition core_rekey_session (id : Z) (k : Core) : bool * Core :=
  let '(ok, c) := rekey_session id (k_cm k) in (ok, set_cm c k).

Definition peer_pubkey (k : Core) (id : Z) : bytes := default [] (get_peer_pubkey (k_cm k) id).
Definition peer_pubkey_hex (k : Core) (id : Z) : string := get_peer_pubkey_hex (k_cm k) id.
Definition peer_endpoint (k : Core) (id : Z) : option endpoint_t := get_peer_endpoint (k_cm k) id.
Definition core_connection_count (k : Core) : nat := connection_count (k_cm k).
Definition active_uris (k : Core) : list string := get_active_uris (k_cm k).
Definition active_conn_ids (k : Core) : list Z := get_active_conn_ids (k_cm k).
Definition handler_count (k : Core) : nat := get_enabled_handler_count (k_pm k).
Definition connector_count (k : Core) : nat := get_enabled_connector_count (k_pm k).
Definition user_pubkey_hex (k : Core) : string := bytes_to_hex (user_pubkey (k_identity k)).
Definition device_pubkey_hex (k : Core) : string := bytes_to_hex (device_pubkey (k_identity k)).

Definition core_subscribe (t : Z) (name : string) (cb : HandlerPacketFn) (prio : Z) (k : Core) : Z * Core :=
  let '(sub, b) := subscribe t name cb prio (c_bus (k_cm k)) in (sub, set_cm (set_c_bus b (k_cm k)) k).
Definition core_subscribe_wildcard (name : string) (cb : HandlerPacketFn) (prio : Z) (k : Core) : Core :=
  set_cm (set_c_bus (subscribe_wildcard name cb prio (c_bus (k_cm k))) (k_cm k)) k.
Definition core_unsubscribe (sub : Z) (k : Core) : Core :=
  set_cm (set_c_bus (unsubscribe sub (c_bus (k_cm k))) (k_cm k)) k.

(** ** Runs *)

(** What application and plugins do to a core: the methods of [Core] ([run] starts the core and
    then waits for its threads, see [CoreThreads]; [CoCall] are those that go to the manager,
    also through the host API and [cm()]), the timer, and direct use of [pm()]. *)
Inductive core_op :=
  | CoRun (hardware : Z)
  | CoRunAsync (threads hardware : Z)
  | CoStop
  | CoStopInCallback
  | CoHeartbeat
  | CoReload (parse : string -> option json) (files : gmap string string)
  | CoRotate (w : world)
  | CoSubscribe (t : Z) (name : string) (cb : HandlerPacketFn) (prio : Z)
  | CoSubscribeWildcard (name : string) (cb : HandlerPacketFn) (prio : Z)
  | CoUnsubscribe (sub : Z)
  | CoCall (a : api_call)
  | CoPlugins (op : pm_op).

Definition set_pm (p : PluginManager) (k : Core) : Core :=
  mk_core (k_config k) (k_identity k) (k_cm k) p (k_io_threads k) (k_running k) (k_heartbeat k) (k_io_stopped k).

(** Neither the facade nor the host API registers connectors or shuts the manager down. *)
Definition outside_call (a : api_call) : bool :=
  match a with ApiRegisterConnector _ _ | ApiShutdown => false | _ => true end.

Definition run_core_op (op : core_op) (k : Core) : option Core :=
  match op with
  | CoRun hardware => Some (core_run hardware k)
  | CoRunAsync threads hardware => Some (run_async threads hardware k)
  | CoStop => core_stop k
  | CoStopInCallback => stop_in_callback k
  | CoHeartbeat => Some (heartbeat k)
  | CoReload parse files => Some (reload_config parse files k).2
  | CoRotate w => Some (core_rotate w k).1
  | CoSubscribe t name cb prio => Some (core_subscribe t name cb prio k).2
  | CoSubscribeWildcard name cb prio => Some (core_subscribe_wildcard name cb prio k)
  | CoUnsubscribe sub => Some (core_unsubscribe sub k)
  | CoCall a => Some (set_cm (run_call fuel a (k_cm k)).2 k)
  | CoPlugins op => Some (set_pm (run_pm_op (k_pm k) op) k)
  end.

(** [None]: some [stop] never returned. *)
Fixpoint run_core (ops : list core_op) (k : Core) : option Core :=
  match ops with
  | [] => Some k
  | op :: ops => k' ← run_core_op op k; run_core ops k'
  end.
End core.

(** ** The connectors of the manager *)

(** No call from outside changes the connectors, takes a shutdown back, or counts a
    failure. *)
Record fixed (c c' : cm) : Prop := mk_fixed {
  fx_connectors : c_connectors c' = c_connectors c;
  fx_failures : failures (c_bus c') = failures (c_bus c);
  fx_shutting : c_shutting_down c = true -> c_shutting_down c' = true;
}.

#[export] Instance fixed_preorder : PreOrder fixed.
Proof. split; [by split|]. intros a b c [H1 F1 H2] [H3 F2 H4]. split; [congruence..|auto]. Qed.

Definition Fixed {A} (m : CM A) : Prop := forall c, fixed c (snd (m c)).

Lemma Quiet_Fixed {A} (m : CM A) : Quiet m -> Fixed m.
Proof. intros H c. destruct (H c). split; [done|done|congruence]. Qed.

Lemma Fixed_ret {A} (a : A) : Fixed (mret a).
Proof. intros c. simpl. done. Qed.

Lemma Fixed_bind {A B} (m : CM A) (f : A -> CM B) : Fixed m -> (forall a, Fixed (f a)) -> Fixed (m ≫= f).
Proof.
  intros Hm Hf c. unfold mbind, cm_bind. specialize (Hm c). destruct (m c) as [a c']. etrans; [exact Hm|apply Hf].
Qed.

Lemma Fixed_for_each {A} (l : list A) (f : A -> CM unit) : (forall a, Fixed (f a)) -> Fixed (for_each l f).
Proof. intros Hf. induction l; simpl; [apply Fixed_ret|]. by apply Fixed_bind. Qed.

Create HintDb fixed.

Ltac fixed_step :=
  match goal with
  | |- forall _, _ => intros ?
  | |- Fixed (mret _) => apply Fixed_ret
  | |- Fixed (_ ≫= _) => apply Fixed_bind
  | |- Fixed (for_each _ _) => apply Fixed_for_each
  | |- Fixed (modify _) => by intros ?; split
  | |- Fixed (on_bus _) => intros ?; split; [done|solve [done|simpl; unfold failures; simpl; by destruct (accum _)]|done]
  | |- Fixed (match ?x with _ => _ end) => destruct x
  | |- Fixed _ => solve [auto with fixed nocore | apply Quiet_Fixed; solve_quiet | by intros ?; split]
  end.
Ltac solve_fixed := repeat fixed_step.

Section fixed_ops.
Context `{CO : !CryptoOps}.

Lemma Fixed_send_uri uri t p : Fixed (send_uri uri t p).
Proof. unfold send_uri, push_pending. solve_fixed. Qed.

Lemma Fixed_rekey id : Fixed (rekey_session id).
Proof. unfold rekey_session. solve_fixed. Qed.

Lemma Fixed_cleanup : Fixed cleanup_stale_pending.
Proof. unfold cleanup_stale_pending. solve_fixed. Qed.

Lemma Fixed_register h src : Fixed (register_handler_internal h src).
Proof. unfold register_handler_internal. solve_fixed. Qed.

Lemma Fixed_handle_disconnect id e : Fixed (handle_disconnect id e).
Proof.
  unfold handle_disconnect, disconnect_secondary, disconnect_primary, erase_uri, erase_queue, erase_transport,
    erase_pending, erase_pk, erase_record. solve_fixed.
Qed.

Lemma Fixed_noise_run {A} id (m : SE HandshakeState A) : Fixed (noise_run id m).
Proof. unfold noise_run. solve_fixed. Qed.
Hint Resolve @Fixed_noise_run : fixed.

Lemma Fixed_noise_write id p : Fixed (noise_write id p).
Proof. unfold noise_write. solve_fixed. Qed.
Lemma Fixed_noise_read id p : Fixed (noise_read id p).
Proof. unfold noise_read. solve_fixed. Qed.
Hint Resolve Fixed_noise_write Fixed_noise_read : fixed.

Lemma Fixed_send_noise_init id : Fixed (send_noise_init id).
Proof. unfold send_noise_init. solve_fixed. Qed.
Hint Resolve Fixed_send_noise_init : fixed.

Lemma Fixed_handle_connect ep : Fixed (handle_connect ep).
Proof. unfold handle_connect, put_queue. solve_fixed. Qed.

Lemma Fixed_add_transport pk ep s : Fixed (handle_add_transport pk ep s).
Proof. unfold handle_add_transport. solve_fixed. Qed.

Lemma Fixed_process_payload id d : Fixed (process_handshake_payload id d).
Proof. unfold process_handshake_payload. solve_fixed. Qed.
Hint Resolve Fixed_process_payload : fixed.

Lemma Fixed_flush_pending uri id : Fixed (flush_pending_messages uri id).
Proof. unfold flush_pending_messages. solve_fixed. Qed.
Hint Resolve Fixed_flush_pending : fixed.

Lemma Fixed_finalize id : Fixed (finalize_handshake id).
Proof. unfold finalize_handshake. solve_fixed. Qed.
Hint Resolve Fixed_finalize : fixed.

Lemma Fixed_noise_init id p : Fixed (handle_noise_init id p).
Proof. unfold handle_noise_init, handshake_as. solve_fixed. Qed.
Lemma Fixed_noise_resp id p : Fixed (handle_noise_resp id p).
Proof. unfold handle_noise_resp, handshake_as. solve_fixed. Qed.
Lemma Fixed_noise_fin id p : Fixed (handle_noise_fin id p).
Proof. unfold handle_noise_fin, handshake_as. solve_fixed. Qed.
Hint Resolve Fixed_noise_init Fixed_noise_resp Fixed_noise_fin : fixed.

Lemma Fixed_deliver_plain deliver id rec hdr payload plain ts :
  (forall i h b t, Fixed (deliver i h b t)) -> Fixed (deliver_plain deliver id rec hdr payload plain ts).
Proof. intros Hd. unfold deliver_plain, handle_relay. solve_fixed. Qed.
Hint Resolve Fixed_deliver_plain : fixed.

Lemma Fixed_dispatch_body deliver id hdr payload ts :
  (forall i h b t, Fixed (deliver i h b t)) -> Fixed (dispatch_body deliver id hdr payload ts).
Proof. intros Hd. unfold dispatch_body, session_decrypt. solve_fixed. Qed.

Lemma Fixed_dispatch f id hdr payload ts : Fixed (cm_dispatch f id hdr payload ts).
Proof.
  revert id hdr payload ts. induction f as [|f IH]; intros id hdr payload ts; simpl; unfold add_in_flight;
    (apply Fixed_bind; [solve_fixed|intros _]; apply Fixed_bind; [apply Fixed_dispatch_body|solve_fixed]); solve_fixed.
Qed.

Lemma Fixed_reassemble rounds d peer ts n :
  (forall i h b t, Fixed (d i h b t)) -> Fixed (reassemble rounds d peer ts n).
Proof. intros Hd. revert n. induction rounds as [|rounds IH]; intros n; simpl; solve_fixed. Qed.

Lemma Fixed_handle_data f id raw : Fixed (handle_data f id raw).
Proof.
  assert (forall i h b t, Fixed (cm_dispatch f i h b t)) as Hd by (intros; apply Fixed_dispatch).
  unfold handle_data, handle_data_with. solve_fixed. by apply Fixed_reassemble.
Qed.

Lemma Fixed_run_call f a : outside_call a = true -> Fixed (run_call f a).
Proof.
  intros Ha. destruct a; try done; simpl;
    repeat (apply Fixed_bind; [|intros; apply Fixed_ret]);
    first [ apply Fixed_send_uri | apply Fixed_rekey | apply Fixed_cleanup | apply Fixed_register
          | apply Fixed_handle_disconnect | apply Fixed_handle_connect | apply Fixed_add_transport
          | apply Fixed_handle_data | solve_fixed ].
Qed.

Lemma Fixed_run_calls f calls c :
  forallb outside_call calls = true -> fixed c (run_calls f calls c).
Proof.
  revert c. induction calls as [|a calls IH]; intros c Hc; [done|]. simpl in Hc. apply andb_prop in Hc as [Ha Hc].
  unfold run_calls in *. simpl. etrans; [by apply Fixed_run_call|by apply IH].
Qed.

Lemma Quiet_fixed_shutdown c u c' :
  shutdown c = (Some u, c') -> c_connectors c' = c_connectors c /\ c_shutting_down c' = true.
Proof.
  unfold shutdown, mbind, cm_bind, modify, gets. simpl. destruct (0 <? c_in_flight_dispatches c); [done|].
  set (c0 := set_c_shutting_down true c).
  assert (quiet c0 (snd (for_each (map_to_list (c_records c)).*1 close_now c0))) as Hq
    by (apply Quiet_for_each; intros; apply Quiet_close_now).
  destruct (for_each _ close_now c0) as [[] c1] eqn:E. simpl in Hq. intros [= <- <-].
  by rewrite (q_connectors _ _ Hq), (q_shutting _ _ Hq).
Qed.

Lemma run_call_failures f a c : failures (c_bus (snd (run_call f a c))) = failures (c_bus c).
Proof.
  destruct (outside_call a) eqn:Ha; [by apply (fx_failures _ _ (Fixed_run_call f a Ha c))|].
  destruct a; try done. cbn [run_call]. unfold shutdown, mbind, cm_bind, modify, gets. simpl.
  destruct (0 <? c_in_flight_dispatches c); [done|].
  pose proof (Quiet_for_each (map_to_list (c_records c)).*1 close_now Quiet_close_now
    (set_c_shutting_down true c)) as Hq.
  destruct (for_each _ close_now _) as [[] c1]. exact (q_failures _ _ Hq).
Qed.

(** Whatever the manager goes through, the counters of failed authentications and failed
    decryptions keep their value: both failures are only counted as drops. *)
Theorem failures_never_counted f calls c : failures (c_bus (run_calls f calls c)) = failures (c_bus c).
Proof.
  revert c. unfold run_calls. induction calls as [|a calls IH]; intros c; [done|]. simpl.
  by rewrite IH, run_call_failures.
Qed.
End fixed_ops.

(** ** Wiring and lifecycle *)

Section lifecycle.
Context `{CO : !CryptoOps, KO : !KeyOps}.
Context (connector_of : connector_desc -> connector_ops) (handler_of : handler_desc -> handler_t).
Context (init_calls : string -> list api_call) (fuel : nat).

Abbreviation new := (core_new connector_of handler_of init_calls fuel).
Abbreviation register := (register_connectors connector_of).

(** A loaded and enabled connector stands behind the entry. *)
Definition backed (p : PluginManager) (scheme : string) (ops : connector_ops) : Prop :=
  exists key i, pm_connectors p !! key = Some i /\ ci_enabled i = true /\
    connector_scheme (ci_ops i) 64 = scheme /\ connector_of (ci_ops i) = ops.

Lemma register_connectors_lookup l c scheme ops :
  c_connectors (register l c).2 !! scheme = Some ops ->
  c_connectors c !! scheme = Some ops \/
  exists d, d ∈ l /\ connector_scheme d 64 = scheme /\ connector_of d = ops /\ scheme <> ""%string.
Proof.
  unfold register_connectors. revert c. induction l as [|d l IH]; intros c; [by left|]. simpl. unfold mbind, cm_bind.
  destruct (String.eqb_spec (connector_scheme d 64) "") as [|Hne]; simpl.
  - intros [?|(d' & ? & ? & ? & ?)]%IH; [by left|]. right. exists d'. split; [by right|done].
  - intros [H|(d' & ? & ? & ? & ?)]%IH.
    + simpl in H. apply lookup_insert_Some in H as [[<- <-]|[_ ?]]; [|by left].
      right. exists d. split; [left|done].
    + right. exists d'. split; [by right|done].
Qed.

(** Every connector with a scheme is reachable under it. *)
Lemma register_connectors_complete l c d :
  d ∈ l -> connector_scheme d 64 <> ""%string -> is_Some (c_connectors (register l c).2 !! connector_scheme d 64).
Proof.
  assert (forall l c k, is_Some (c_connectors c !! k) -> is_Some (c_connectors (register l c).2 !! k)) as Hkeep.
  { unfold register_connectors. intros l'. induction l' as [|d' l' IH]; intros c' key Hk; [done|].
    simpl. unfold mbind, cm_bind. destruct (String.eqb _ _); simpl; apply IH; [done|]. simpl.
    rewrite lookup_insert_is_Some'. by right. }
  revert c. induction l as [|d' l IH]; intros c Hin Hne; [by apply elem_of_nil in Hin|].
  apply elem_of_cons in Hin as [->|Hin].
  - unfold register_connectors. simpl. unfold mbind, cm_bind. rewrite (proj2 (String.eqb_neq _ _) Hne). simpl.
    apply Hkeep. simpl. by rewrite lookup_insert_eq.
  - unfold register_connectors. simpl. unfold mbind, cm_bind. destruct (String.eqb _ _); by apply IH.
Qed.

Lemma active_connector p d :
  d ∈ get_active_connectors p <-> exists key i, pm_connectors p !! key = Some i /\ ci_enabled i = true /\ ci_ops i = d.
Proof.
  unfold get_active_connectors. rewrite list_elem_of_In, in_map_iff. split.
  - intros ([key i] & <- & [Hin He]%filter_In). exists key, i. split_and!; [|done|done].
    by apply elem_of_map_to_list, list_elem_of_In.
  - intros (key & i & Hk & He & <-). exists (key, i). split; [done|]. apply filter_In. split; [|done].
    by apply list_elem_of_In, elem_of_map_to_list.
Qed.

Lemma Fixed_register_handlers l : Fixed (register_handlers handler_of l).
Proof. unfold register_handlers. apply Fixed_for_each. intros h. apply Fixed_register. Qed.

(** The manager after the plugins' own calls: still without connectors. *)
Lemma plugin_calls_fixed me cfg w p :
  (forall q, forallb outside_call (init_calls q) = true) ->
  c_connectors (run_calls fuel (concat (map init_calls (inits p)))
    (cm_init bus_init me (Some (compression_of cfg)) (w_now w) (w_wall w) 0 0)) = ∅.
Proof.
  intros Hq. assert (forallb outside_call (concat (map init_calls (inits p))) = true) as Hall.
  { induction (inits p) as [|q l IH]; [done|]. simpl. by rewrite forallb_app, Hq, IH. }
  by destruct (Fixed_run_calls fuel _ (cm_init bus_init me (Some (compression_of cfg)) (w_now w) (w_wall w) 0 0) Hall).
Qed.

Lemma new_wired cfg w k fs :
  new cfg w = (Some k, fs) -> (forall q, forallb outside_call (init_calls q) = true) ->
  if pl_auto_load (cfg_plugins cfg) then
    (forall scheme ops, c_connectors (k_cm k) !! scheme = Some ops -> backed (k_pm k) scheme ops) /\
    (forall key i, pm_connectors (k_pm k) !! key = Some i -> ci_enabled i = true ->
       connector_scheme (ci_ops i) 64 <> ""%string -> is_Some (c_connectors (k_cm k) !! connector_scheme (ci_ops i) 64))
  else c_connectors (k_cm k) = ∅ /\ k_pm k = load_static_plugins (w_registry w) pm_init.
Proof.
  unfold core_new. destruct (load_or_generate _ _ _ _) as [[me|] fs']; [|done]. intros [= <- <-] Hq. cbn [k_cm k_pm].
  destruct (pl_auto_load (cfg_plugins cfg)).
  2: { split; [|done]. by apply plugin_calls_fixed. }
  set (p := auto_load _ _ _). set (c := run_calls _ _ _).
  assert (c_connectors c = ∅) as Hc by (by apply plugin_calls_fixed).
  destruct (Fixed_register_handlers (get_active_handlers p) (register (get_active_connectors p) c).2) as [Heq _].
  rewrite Heq. split.
  - intros scheme ops [H|(d & Hd & Hs & Ho & _)]%register_connectors_lookup; [by rewrite Hc in H|].
    apply active_connector in Hd as (key & i & Hi & He & <-). exists key, i. done.
  - intros key i Hi He Hne. apply register_connectors_complete; [|done]. apply active_connector. eauto.
Qed.

(** ** Runs of a core *)

(** Operations that neither load or unload plugins nor register connectors on their own. *)
Definition op_outside (op : core_op) : bool :=
  match op with CoCall a => outside_call a | CoPlugins _ => false | _ => true end.

(** What holds between two operations; [n] bounds the connection ids given out, [out] says that
    there were only operations from outside. *)
Record core_ok (out : bool) (n : Z) (k : Core) : Prop := {
  co_inv : exists m, m <= n /\ inv m 0 (k_cm k);
  co_threads : k_io_stopped k = false ->
    k_heartbeat k = k_running k /\ k_io_threads k = 0 /\ k_running k = false \/
    k_heartbeat k = k_running k /\ 0 < k_io_threads k /\ k_running k = true;
  co_backed scheme ops : out = true -> k_io_stopped k = false -> c_connectors (k_cm k) !! scheme = Some ops ->
    backed (k_pm k) scheme ops;
  co_stopped : k_io_stopped k = true -> c_shutting_down (k_cm k) = true;
  co_unloaded : out = true -> k_io_stopped k = true -> pm_connectors (k_pm k) = ∅ /\ pm_handlers (k_pm k) = ∅;
}.

Lemma core_ok_le out n n' k : core_ok out n k -> n <= n' -> core_ok out n' k.
Proof. intros [(m & Hm & Hi) Ht Hb Hs Hu] Hn. split; try done. exists m. split; [lia|done]. Qed.

Lemma core_ok_inside out n k : core_ok out n k -> core_ok false n k.
Proof. intros []. by split. Qed.

(** An operation on the manager alone. *)
Lemma core_ok_set_cm out n n' c k :
  core_ok out n k -> n <= n' -> (out = true -> c_connectors c = c_connectors (k_cm k)) ->
  (c_shutting_down (k_cm k) = true -> c_shutting_down c = true) ->
  (forall m, m <= n -> inv m 0 (k_cm k) -> exists m', m' <= n' /\ inv m' 0 c) ->
  core_ok out n' (set_cm c k).
Proof.
  intros [(m & Hm & Hi) Ht Hb Hs Hu] Hn Hc Hd Hinv. split; simpl; eauto. intros scheme ops Ho. rewrite Hc by done. by apply Hb.
Qed.

(** A change the invariant and the wiring do not see. *)
Lemma core_ok_calm out n c k :
  core_ok out n k -> c_connectors c = c_connectors (k_cm k) -> c_shutting_down c = c_shutting_down (k_cm k) ->
  calm (k_cm k) c -> core_ok out n (set_cm c k).
Proof.
  intros Hk Hf Hd Hc. apply (core_ok_set_cm _ n); [done|lia|done|congruence|]. intros m Hm Hi. exists m. split; [done|].
  by eapply inv_calm.
Qed.

Lemma core_ok_flight out n k : core_ok out n k -> c_in_flight_dispatches (k_cm k) = 0.
Proof. intros [(m & _ & Hi) _ _ _ _]. apply (inv_flight _ _ _ Hi). Qed.

Lemma thread_count_pos k threads hw : 0 < thread_count k threads hw.
Proof.
  unfold thread_count. destruct (Z.leb_spec (if 0 <? threads then threads else co_io_threads (cfg_core (k_config k))) 0); lia.
Qed.

Lemma run_async_ok out n threads hw k : core_ok out n k -> core_ok out n (run_async threads hw k).
Proof.
  intros Hk. unfold run_async. destruct (k_running k) eqn:Hr; [done|]. destruct Hk as [Hi Ht Hb Hs Hu].
  split; simpl; try done. intros H. destruct (Ht H) as [(H1 & H2 & H3)|(H1 & H2 & H3)]; [|congruence].
  right. split_and!; [done| |done]. pose proof (thread_count_pos k threads hw). lia.
Qed.

Lemma core_run_ok out n hw k : core_ok out n k -> core_ok out n (core_run hw k).
Proof.
  intros Hk%(run_async_ok _ _ 0 hw). unfold core_run. set (k' := run_async 0 hw k) in *. clearbody k'.
  destruct (k_io_stopped k') eqn:Hst; [|done]. destruct Hk as [Hi Ht Hb Hs Hu]. rewrite Hst in *. split; simpl; try done.
Qed.

Lemma stop_ok out n k : core_ok out n k -> exists k', core_stop k = Some k' /\ core_ok out n k'.
Proof.
  intros Hk. unfold core_stop. destruct (k_running k) eqn:Hr; [|eauto]. cbn [negb].
  destruct Hk as [(m & Hm & Hi) Ht Hb Hs Hu].
  assert (exists c, shutdown (k_cm k) = (Some tt, c)) as [c Hc].
  { unfold shutdown, mbind, cm_bind, modify, gets. simpl. rewrite (inv_flight _ _ _ Hi). simpl.
    destruct (for_each _ close_now _) as [[] c]. eauto. }
  rewrite Hc. eexists. split; [done|]. destruct (Quiet_fixed_shutdown _ _ _ Hc) as [H1 H2].
  pose proof (keeps_shutdown m 0 (k_cm k) Hi) as Hk. rewrite Hc in Hk. split; simpl; try done. eauto.
Qed.

(** A packet callback that stops a running core waits for its own end. *)
Lemma stop_in_callback_exact out n k : core_ok out n k -> stop_in_callback k = if k_running k then None else Some k.
Proof.
  intros H%core_ok_flight. unfold stop_in_callback, core_stop, add_in_flight, shutdown, mbind, cm_bind, modify, gets.
  cbn. rewrite H. destruct k as [x me c p t run hb st], run; cbn in *; [done|].
  destruct c. cbn in *. by rewrite H.
Qed.

Lemma heartbeat_ok out n k : core_ok out n k -> core_ok out n (heartbeat k).
Proof.
  intros Hk. unfold heartbeat. destruct (k_heartbeat k && _ && _); [|done].
  assert (fixed (k_cm k) (cleanup_stale_pending (check_heartbeat_timeouts (k_cm k)).2).2) as [Hc _ Hd]
    by (etrans; [apply (Quiet_Fixed _ Quiet_check_heartbeats)|apply Fixed_cleanup]).
  apply (core_ok_set_cm _ n); [done|lia|done|done|].
  intros m Hm Hi. exists m. split; [done|]. apply keeps_cleanup.
  apply (Quiet_keeps m 0 _ Quiet_check_heartbeats), Hi.
Qed.

Lemma set_config_ok out n x k : core_ok out n k -> core_ok out n (set_config x k).
Proof.
  intros [(m & Hm & Hi) Ht Hb Hs Hu]. split; simpl; try done. exists m. split; [done|].
  eapply inv_calm; [|exact Hi]. by apply calm_refl_pending.
Qed.

Lemma rotate_ok out n w k : core_ok out n k -> core_ok out n (core_rotate w k).1.
Proof.
  intros Hk. unfold core_rotate, rotate_identity. destruct (load_or_generate _ _ _ _) as [[me|] fs]; cbn;
    (apply core_ok_calm; [done..|by apply calm_refl_pending]).
Qed.

(** A call of the manager, from outside or not. *)
Lemma call_shutting f a c : c_shutting_down c = true -> c_shutting_down (run_call f a c).2 = true.
Proof.
  intros Hd. destruct (outside_call a) eqn:Ha; [by apply (fx_shutting _ _ (Fixed_run_call f a Ha c))|].
  destruct a; try done. cbn [run_call]. unfold shutdown, mbind, cm_bind, modify, gets. simpl.
  destruct (0 <? c_in_flight_dispatches c); [done|].
  pose proof (Quiet_for_each (map_to_list (c_records c)).*1 close_now Quiet_close_now (set_c_shutting_down true c)) as Hq.
  destruct (for_each _ close_now _) as [[] c1]. exact (q_shutting _ _ Hq).
Qed.

Lemma call_ok out n a k :
  core_ok out n k -> n + 1 < 2 ^ 64 -> (out = true -> outside_call a = true) ->
  core_ok out (n + 1) (set_cm (run_call fuel a (k_cm k)).2 k).
Proof.
  intros Hk Hn Ho. apply (core_ok_set_cm _ n); [done|lia| |apply call_shutting|].
  - intros H. apply (fx_connectors _ _ (Fixed_run_call fuel a (Ho H) (k_cm k))).
  - intros m Hm Hi. destruct (run_call_inv m fuel a ltac:(lia) (k_cm k) Hi) as [H|H]; [exists m|exists (m + 1)];
      (split; [lia|exact H]).
Qed.

Lemma run_core_op_ok out n op k :
  core_ok out n k -> op <> CoStopInCallback -> n + 1 < 2 ^ 64 ->
  exists k', run_core_op fuel op k = Some k' /\ core_ok (out && op_outside op) (n + 1) k'.
Proof.
  intros Hk Hop Hn.
  assert (forall b, core_ok (out && true) (n + 1) (set_cm (set_c_bus b (k_cm k)) k)) as Hbus.
  { intros b. rewrite andb_true_r. apply (core_ok_le _ n); [|lia]. apply core_ok_calm; [done..|by apply calm_refl_pending]. }
  assert (forall k', core_ok out n k' -> core_ok (out && true) (n + 1) k') as Hle.
  { intros k' H. rewrite andb_true_r. apply (core_ok_le _ n); [done|lia]. }
  destruct op as [hw|threads hw| | | |parse files|w|t name cb prio|name cb prio|sub|a|op]; cbn [run_core_op op_outside].
  - eexists. split; [done|]. by apply Hle, core_run_ok.
  - eexists. split; [done|]. by apply Hle, run_async_ok.
  - destruct (stop_ok out n k Hk) as (k' & -> & Hk'). eexists. split; [done|]. by apply Hle.
  - done.
  - eexists. split; [done|]. by apply Hle, heartbeat_ok.
  - eexists. split; [done|]. apply Hle. unfold reload_config.
    destruct (reload parse files (k_config k)) as [[] x]; [by apply set_config_ok|done].
  - eexists. split; [done|]. by apply Hle, rotate_ok.
  - eexists. split; [done|]. by apply Hbus.
  - eexists. split; [done|]. by apply Hbus.
  - eexists. split; [done|]. by apply Hbus.
  - eexists. split; [done|]. destruct (out && outside_call a) eqn:Ho.
    + apply andb_prop in Ho as [-> Ho]. by apply call_ok.
    + apply call_ok; [by eapply core_ok_inside|done|done].
  - eexists. split; [done|]. rewrite andb_false_r. apply (core_ok_le _ n); [|lia].
    destruct Hk as [Hi Ht _ Hs _]. by split.
Qed.

Lemma run_core_ok out n ops k :
  core_ok out n k -> CoStopInCallback ∉ ops -> n + Z.of_nat (length ops) < 2 ^ 64 ->
  exists k', run_core fuel ops k = Some k' /\ core_ok (out && forallb op_outside ops) (n + Z.of_nat (length ops)) k'.
Proof.
  revert out n k. induction ops as [|op ops IH]; intros out n k Hk Hops Hn.
  - exists k. cbn. rewrite andb_true_r. split; [done|]. apply (core_ok_le _ n); [done|lia].
  - cbn [length forallb] in *. apply not_elem_of_cons in Hops as [Hop Hops].
    destruct (run_core_op_ok out n op k Hk ltac:(congruence) ltac:(lia)) as (k1 & H1 & Hk1).
    destruct (IH _ (n + 1) k1 Hk1 Hops ltac:(lia)) as (k2 & H2 & Hk2). exists k2.
    split; [cbn; by rewrite H1|]. rewrite andb_assoc. apply (core_ok_le _ _ _ _ Hk2). lia.
Qed.

(** The calls plugins made while they were initialised. *)
Definition plugin_calls (k : Core) : list api_call := concat (map init_calls (inits (k_pm k))).

Lemma new_ok cfg w k fs :
  new cfg w = (Some k, fs) -> (forall q, forallb outside_call (init_calls q) = true) ->
  Z.of_nat (length (plugin_calls k)) < 2 ^ 64 - 1 -> core_ok true (1 + Z.of_nat (length (plugin_calls k))) k.
Proof.
  intros Hnew Hq Hlen. pose proof (new_wired cfg w k fs Hnew Hq) as Hw. revert Hw Hlen Hnew.
  unfold core_new. destruct (load_or_generate _ _ _ _) as [[me|] fs']; [|done]. intros Hw Hlen [= <- <-].
  unfold plugin_calls in *. cbn [k_cm k_pm] in *.
  match type of Hlen with Z.of_nat (length ?x) < _ => set (calls := x) in * end.
  split; cbn [k_cm k_pm k_io_stopped k_heartbeat k_running k_io_threads]; [|by left| |done|done].
  - destruct (run_calls_inv fuel calls 1 _ (cm_init_inv bus_init me (Some (compression_of cfg)) (w_now w) (w_wall w) 0 0)
      ltac:(clear Hw; lia)) as (m & Hm & Hi). exists m. split; [clear Hw; lia|].
    destruct (pl_auto_load (cfg_plugins cfg)); [|exact Hi].
    apply (keeps_for_each (inv m 0)); [intros h; apply keeps_register|].
    apply (keeps_for_each (inv m 0)); [|exact Hi]. intros d.
    cbv zeta. destruct (String.eqb (connector_scheme d 64) ""); [by apply triple_ret|].
    apply keeps_modify. intros c. by apply calm_refl_pending.
  - intros scheme ops _ _. destruct (pl_auto_load (cfg_plugins cfg)); [by apply Hw|].
    destruct Hw as [-> _]. by rewrite lookup_empty.
Qed.

(** The wiring of a new core.  With automatic loading the manager's connectors are exactly
    the enabled connectors of the plugin manager, each under its scheme; without it the
    manager has no connector at all, not even those compiled into the program, which are
    loaded and initialised nevertheless. *)
Theorem core_wired cfg w k fs :
  new cfg w = (Some k, fs) -> (forall q, forallb outside_call (init_calls q) = true) ->
  if pl_auto_load (cfg_plugins cfg) then
    (forall scheme ops, c_connectors (k_cm k) !! scheme = Some ops -> backed (k_pm k) scheme ops) /\
    (forall key i, pm_connectors (k_pm k) !! key = Some i -> ci_enabled i = true ->
       connector_scheme (ci_ops i) 64 <> ""%string -> is_Some (c_connectors (k_cm k) !! connector_scheme (ci_ops i) 64))
  else c_connectors (k_cm k) = ∅ /\ k_pm k = load_static_plugins (w_registry w) pm_init.
Proof. apply new_wired. Qed.


(** Unloading a connector through [pm()] leaves its vtable with the manager: [connect] calls a
    plugin that is gone. *)
Lemma unload_leaves_vtable scheme uri ops k :
  c_connectors (k_cm k) !! scheme = Some ops -> uri_scheme uri = scheme -> scheme <> ""%string ->
  let k' := set_pm (run_pm_op (k_pm k) (OpUnloadConnector scheme)) k in
  pm_connectors (k_pm k') !! scheme = None /\
  c_trace (k_cm (core_connect uri k')) = c_trace (k_cm k') ++ [EvConnect scheme uri].
Proof.
  intros Hc <- Hne k'. split.
  - unfold k', run_pm_op, unload_connector. cbn. destruct (pm_connectors (k_pm k) !! uri_scheme uri) eqn:E; cbn; [apply lookup_delete_eq|done].
  - unfold core_connect, cm_connect, find_connector, mbind, cm_bind, gets. cbn [k_cm k' set_pm].
    by rewrite (proj2 (String.eqb_neq _ _) Hne), Hc.
Qed.

(** After [stop] the manager still holds the vtables of the unloaded connectors, and
    [connect] calls them. *)
Lemma connect_after_stop uri ops k k' :
  k_running k = true -> core_stop k = Some k' -> uri_scheme uri <> ""%string ->
  c_connectors (k_cm k) !! uri_scheme uri = Some ops ->
  pm_connectors (k_pm k') = ∅ /\
  c_trace (k_cm (core_connect uri k')) = c_trace (k_cm k') ++ [EvConnect (uri_scheme uri) uri].
Proof.
  intros Hr Hstop Hne Hc. unfold core_stop in Hstop. rewrite Hr in Hstop. cbn [negb] in Hstop.
  destruct (shutdown (k_cm k)) as [[[]|] c] eqn:Hsh; [|done]. injection Hstop as <-. split; [done|].
  destruct (Quiet_fixed_shutdown _ _ _ Hsh) as [H1 _].
  unfold core_connect, cm_connect, find_connector, mbind, cm_bind, gets. cbn [k_cm].
  rewrite (proj2 (String.eqb_neq _ _) Hne), H1, Hc. done.
Qed.

(** A core that was stopped does not come back: its threads find a stopped [io_context]. *)
Lemma no_restart threads hw k k' :
  k_running k = true -> core_stop k = Some k' ->
  let k2 := run_async threads hw k' in
  k_running k2 = true /\ heartbeat k2 = k2 /\ c_shutting_down (k_cm k2) = true.
Proof.
  intros Hr Hstop. unfold core_stop in Hstop. rewrite Hr in Hstop. cbn [negb] in Hstop.
  destruct (shutdown (k_cm k)) as [[[]|] c] eqn:Hsh; [|done]. injection Hstop as <-.
  destruct (Quiet_fixed_shutdown _ _ _ Hsh) as [_ H2]. split_and!; [done| |done].
  unfold heartbeat, run_async. simpl. by rewrite andb_false_r.
Qed.
End lifecycle.

(** ** A toy core *)

#[local] Existing Instances ToyCrypto.ops ToyCrypto.laws toy_keys.

Definition toy_tcp_desc : connector_desc := mk_cdesc "tcp" "TCP connector" true.
Definition toy_world : world :=
  mk_world toy_host toy_fs (toy_entropy x01) [mk_static "TcpConnector" None (Some (Some toy_tcp_desc))] []
    (fun _ => None) 1000 2000.
Definition toy_new (cfg : Config) : option Core * fsys :=
  core_new (fun _ => mk_ops true true true (fun _ => 0)) (fun _ => mk_handler None false None false [] None)
    (fun _ => []) 2 cfg toy_world.

Definition toy_core_is {A} (f : Core -> A) : option A := f <$> (toy_new config_defaults).1.

Lemma core_wired_witness :
  exists k fs, toy_new config_defaults = (Some k, fs) /\ is_Some (c_connectors (k_cm k) !! "tcp"%string).
Proof.
  assert (toy_core_is (fun k => pm_connectors (k_pm k) !! "tcp"%string) =
    Some (Some (mk_cinfo "TcpConnector" false toy_tcp_desc "TCP connector" "tcp" true))) as Hp
    by (vm_compute; reflexivity).
  unfold toy_core_is in Hp. destruct (toy_new config_defaults) as [[k|] fs] eqn:E; [|discriminate Hp].
  exists k, fs. split; [reflexivity|]. injection Hp as Hp.
  destruct (core_wired _ _ _ 2%nat config_defaults toy_world k fs E) as [_ H]; [reflexivity|].
  apply (H "tcp"%string _ Hp); [reflexivity|discriminate].
Defined.

Definition toy_ops_run : list core_op :=
  [CoRunAsync 2 4; CoHeartbeat; CoCall (ApiConnect "tcp://10.0.0.1:1"); CoRotate toy_world; CoStop; CoRun 1].

