(* ===== verification/CoreThreads.v ===== *)
(** * Waiting for the threads of a core ([src/core.cpp]: [run], [stop])

    [run] starts the IO threads and joins them; [stop], called from another thread, stops the
    [io_context] and joins them as well.  A [std::thread] may be joined once.  The model has
    the thread objects of [io_threads], the two callers at their place in their loops, and a
    schedule that interleaves their steps with the ends of the threads.  A core started with
    [run_async] is stopped cleanly ([stop_joins_all]); a core in [run] is joined twice
    ([run_stop_double_join]). *)

From Stdlib Require Import ZArith Lia.
From stdpp Require Import base list.
From S2P Require Import Prelude.

(** Where a caller is in [for (auto& t : io_threads)]: before a thread, waiting in its [join],
    through the loop, or out of it by the exception of a [join] that is not allowed. *)
Inductive join_pc :=
  | CIdle
  | CAt (i : nat)
  | CJoining (i : nat)
  | CDone
  | CThrown.

Record io_threads_t := mk_threads {
  td_stopped : bool;            (* [ioc->stop()] *)
  td_ended : list bool;         (* the thread has left [ioc->run()] *)
  td_joinable : list bool;
  td_run : join_pc;
  td_stop : join_pc;
}.

(** The threads [run_async] has started. *)
Definition threads_init (n : nat) : io_threads_t :=
  mk_threads false (replicate n false) (replicate n true) CIdle CIdle.

Definition joinable (i : nat) (s : io_threads_t) : bool := default false (td_joinable s !! i).
Definition ended (i : nat) (s : io_threads_t) : bool := default false (td_ended s !! i).

Inductive thread_step := StepRun | StepStop | StepEnd (i : nat).

(** The loop of [run] joins without asking, that of [stop] asks [joinable] first. *)
Definition loop_step (asks : bool) (c : join_pc) (s : io_threads_t) : join_pc * list bool :=
  match c with
  | CAt i =>
      (if bool_decide (i < length (td_joinable s)) then
         if joinable i s then CJoining i else if asks then CAt (S i) else CThrown
       else CDone, td_joinable s)
  | CJoining i => if ended i s then (CAt (S i), <[i := false]> (td_joinable s)) else (c, td_joinable s)
  | _ => (c, td_joinable s)
  end.

Definition thread_step_run (s : io_threads_t) (x : thread_step) : io_threads_t :=
  match x with
  | StepRun =>
      let '(c, js) := match td_run s with CIdle => (CAt 0, td_joinable s) | c => loop_step false c s end in
      mk_threads (td_stopped s) (td_ended s) js c (td_stop s)
  | StepStop =>
      match td_stop s with
      | CIdle => mk_threads true (td_ended s) (td_joinable s) (td_run s) (CAt 0)
      | c => let '(c, js) := loop_step true c s in mk_threads (td_stopped s) (td_ended s) js (td_run s) c
      end
  | StepEnd i =>
      if td_stopped s then mk_threads true (<[i := true]> (td_ended s)) (td_joinable s) (td_run s) (td_stop s) else s
  end.

Definition run_threads (xs : list thread_step) (s : io_threads_t) : io_threads_t := fold_left thread_step_run xs s.

(** Two callers wait for the same thread. *)
Definition double_join (s : io_threads_t) : Prop := exists i, td_run s = CJoining i /\ td_stop s = CJoining i.

(** ** A core that is running in the background *)

(** Threads before the place of [stop] are joined, the others are not. *)
Definition joined_upto (n k : nat) (s : io_threads_t) : Prop :=
  td_joinable s = replicate k false ++ replicate (n - k) true.

Definition stop_inv (n : nat) (s : io_threads_t) : Prop :=
  length (td_ended s) = n /\ td_run s = CIdle /\
  match td_stop s with
  | CIdle => td_stopped s = false /\ joined_upto n 0 s
  | CAt i => td_stopped s = true /\ i <= n /\ joined_upto n i s
  | CJoining i => td_stopped s = true /\ i < n /\ joined_upto n i s
  | CDone => td_joinable s = replicate n false
  | CThrown => False
  end.

Lemma joined_lookup n k i s : joined_upto n k s -> k <= n -> joinable i s = bool_decide (k <= i < n).
Proof.
  intros H Hk. unfold joinable. rewrite H. destruct (decide (i < k)) as [Hi|Hi].
  - rewrite lookup_app_l, lookup_replicate_2 by (rewrite ?length_replicate; lia). cbn. by rewrite bool_decide_false by lia.
  - rewrite lookup_app_r by (rewrite length_replicate; lia). rewrite length_replicate. destruct (decide (i < n)) as [Hn|Hn].
    + rewrite lookup_replicate_2 by lia. cbn. by rewrite bool_decide_true by lia.
    + rewrite (proj1 (lookup_replicate_None _ _ _)) by lia. cbn. by rewrite bool_decide_false by lia.
Qed.

Lemma joined_next n i s : joined_upto n i s -> i < n -> <[i := false]> (td_joinable s) = replicate (S i) false ++ replicate (n - S i) true.
Proof.
  intros -> Hi. rewrite insert_app_r_alt, length_replicate, Nat.sub_diag by (rewrite length_replicate; lia).
  replace (n - i) with (S (n - S i)) by lia. cbn [replicate].
  change (false :: replicate (n - S i) true) with ([false] ++ replicate (n - S i) true).
  change (<[0 := false]> (true :: replicate (n - S i) true)) with ([false] ++ replicate (n - S i) true).
  rewrite app_assoc. f_equal. by rewrite <-replicate_cons_app.
Qed.

Lemma length_joined n k s : joined_upto n k s -> k <= n -> length (td_joinable s) = n.
Proof. intros -> Hk. rewrite length_app, !length_replicate. lia. Qed.

Lemma stop_inv_init n : stop_inv n (threads_init n).
Proof. split_and!; cbn; rewrite ?length_replicate; try done. unfold joined_upto. cbn. by rewrite Nat.sub_0_r. Qed.

Lemma stop_inv_step n s x : x <> StepRun -> stop_inv n s -> stop_inv n (thread_step_run s x).
Proof.
  intros Hx (Hl & Hr & Hs). destruct x as [| |i]; [done| |].
  - cbn [thread_step_run]. destruct (td_stop s) as [|i|i| |] eqn:Hst; cbn [loop_step].
    + unfold stop_inv. cbn [td_ended td_run td_stop td_stopped]. split_and!; try done; try lia. apply Hs.
    + destruct Hs as (H1 & H2 & H3). rewrite (length_joined n i s) by done. unfold stop_inv. cbn [td_ended td_run td_stop td_stopped].
      split; [done|]. split; [done|]. case_bool_decide as Hi; [|assert (i = n) as -> by lia; rewrite H3; by rewrite Nat.sub_diag, app_nil_r].
      rewrite (joined_lookup n i i s), bool_decide_true by (done || lia). done.
    + destruct Hs as (H1 & H2 & H3). unfold stop_inv. destruct (ended i s); cbn [td_ended td_run td_stop td_stopped]; split_and!; try done; try lia.
      unfold joined_upto. cbn [td_joinable]. by apply joined_next.
    + unfold stop_inv. cbn [td_ended td_run td_stop td_stopped]. by split_and!.
    + done.
  - cbn [thread_step_run]. destruct (td_stopped s) eqn:Ht; [|unfold stop_inv; rewrite Ht; exact (conj Hl (conj Hr Hs))]. unfold stop_inv. cbn [td_ended td_run td_stop td_stopped].
    rewrite length_insert. split; [done|]. split; [done|].
    destruct (td_stop s); try done.
Qed.

Lemma stop_inv_run n xs s : StepRun ∉ xs -> stop_inv n s -> stop_inv n (run_threads xs s).
Proof.
  revert s. induction xs as [|x xs IH]; intros s Hx H; [done|]. apply not_elem_of_cons in Hx as [Hx Hxs].
  apply IH; [done|]. apply stop_inv_step; [by intros ->|done].
Qed.

(** The loop of [stop] from a place on, when every thread has ended. *)
Lemma stop_finishes n k i s :
  stop_inv n s -> td_stop s = CAt i -> k = n - i -> (forall j, j < n -> ended j s = true) ->
  td_stop (run_threads (replicate (2 * k + 1) StepStop) s) = CDone.
Proof.
  revert i s. induction k as [|k IH]; intros i s H Hst Hk He; pose proof H as (Hl & Hr & Hs); rewrite Hst in Hs;
    destruct Hs as (H1 & H2 & H3).
  - cbn. rewrite Hst. cbn. rewrite (length_joined n i s) by done. by rewrite bool_decide_false by lia.
  - assert (thread_step_run (thread_step_run s StepStop) StepStop =
      mk_threads (td_stopped s) (td_ended s) (<[i := false]> (td_joinable s)) (td_run s) (CAt (S i))) as Hstep.
    { cbn [thread_step_run]. rewrite Hst. cbn [loop_step]. rewrite (length_joined n i s) by done.
      rewrite bool_decide_true by lia. rewrite (joined_lookup n i i s), bool_decide_true by (done || lia).
      cbn [td_stop loop_step]. unfold ended at 1. cbn [td_ended]. fold (ended i s). by rewrite (He i) by lia. }
    replace (2 * S k + 1) with (S (S (2 * k + 1))) by lia. cbn [replicate run_threads fold_left].
    rewrite Hstep. apply (IH (S i)); [|done|lia|done]. rewrite <-Hstep. by do 2 (apply stop_inv_step; [done|]).
Qed.

Lemma stop_returns n :
  td_stop (run_threads (StepStop :: map StepEnd (seq 0 n) ++ replicate (2 * n + 1) StepStop) (threads_init n)) = CDone.
Proof.
  unfold run_threads. cbn [fold_left]. rewrite fold_left_app. set (s0 := thread_step_run (threads_init n) StepStop).
  assert (forall k, k <= n -> fold_left thread_step_run (map StepEnd (seq 0 k)) s0 =
    mk_threads true (replicate k true ++ replicate (n - k) false) (replicate n true) CIdle (CAt 0)) as H.
  { induction k as [|k IH]; intros Hk; [by rewrite Nat.sub_0_r|]. rewrite seq_S, map_app, fold_left_app, IH by lia.
    cbn [map fold_left thread_step_run td_stopped td_ended td_joinable td_run td_stop Nat.add]. f_equal.
    rewrite insert_app_r_alt, length_replicate, Nat.sub_diag by (rewrite length_replicate; lia).
    replace (n - k) with (S (n - S k)) by lia. cbn [replicate].
    change (<[0 := true]> (false :: replicate (n - S k) false)) with ([true] ++ replicate (n - S k) false).
    by rewrite app_assoc, <-replicate_cons_app. }
  rewrite (H n) by done. rewrite Nat.sub_diag, app_nil_r. apply (stop_finishes n n 0); [|done|lia|].
  - unfold stop_inv. cbn [td_ended td_run td_stop td_stopped]. rewrite length_replicate. split_and!; try done; try lia.
    unfold joined_upto. cbn [td_joinable replicate app]. by rewrite Nat.sub_0_r.
  - intros j Hj. unfold ended. cbn [td_ended]. by rewrite lookup_replicate_2.
Qed.

(** A core that runs in the background: in every schedule [stop] never joins a thread twice, never
    throws, and when it returns every thread is joined. *)
Lemma stop_joins_all n xs :
  StepRun ∉ xs ->
  let s := run_threads xs (threads_init n) in
  ~ double_join s /\ td_stop s <> CThrown /\ (td_stop s = CDone -> td_joinable s = replicate n false).
Proof.
  intros Hx s. pose proof (stop_inv_run n xs _ Hx (stop_inv_init n)) as (Hl & Hr & Hs). fold s in Hl, Hr, Hs.
  split_and!; [intros (i & Hi & _); congruence|by intros H; rewrite H in Hs|by intros H; rewrite H in Hs].
Qed.

(** A core in [run]: when [stop] is called while [run] waits for the first thread, both wait for
    that thread. *)
Lemma run_stop_double_join n :
  0 < n -> double_join (run_threads [StepRun; StepRun; StepStop; StepStop] (threads_init n)).
Proof.
  intros Hn. destruct n as [|n]; [lia|]. exists 0. by split.
Qed.
