(* ===== verification/Capi.v ===== *)
(** * C API ([src/capi.cpp], [include/core.h])

    The flat functions around a handle of the core: null checks, return codes, copies into the
    caller's buffers, and the subscriptions of C callbacks.  A handle is [option Core] ([None]:
    null); a buffer is written as a list of bytes.  The callbacks live in a global table that
    the closures registered with the bus consult when a packet arrives. *)

From Stdlib Require Import ZArith Strings.Byte String Lia Sorted.
From stdpp Require Import base gmap list strings numbers.
From S2P Require Import Prelude Codec Wire NonceWindow Queue Crypto Noise Session Signals Config.
From S2P Require Import CmState CmTransport CmClose CmHandshake CmDispatch CmLifecycle HostApi.
From S2P Require Import PluginManager Identity Core.

Local Open Scope Z_scope.

(** ** Creation *)

Record gn_config_t := mk_gn_config {
  gc_config_dir : option string;
  gc_log_level : option string;
  gc_listen_port : Z;
}.

Definition create_config (cfg : option gn_config_t) : Config :=
  let x := config_defaults in
  match cfg with
  | None => x
  | Some g =>
      let '(mk_config co lo se cz pl id ic f) := x in
      mk_config
        (mk_core_cfg (co_listen_address co) (gc_listen_port g) (co_io_threads co) (co_max_connections co))
        (mk_log_cfg (default (lo_level lo) (gc_log_level g)) (lo_file lo) (lo_max_size lo) (lo_max_files lo))
        se cz pl
        (mk_identity_cfg (default (id_dir id) (gc_config_dir g)) (id_ssh_key_path id) (id_use_machine_id id)
           (id_skip_ssh_fallback id))
        ic f
  end.

(** ** Copies into the caller's buffer *)

(** [None]: nothing is written. *)
Definition copy_out (text : string) (buffer : bool) (max_len : nat) : nat * option bytes :=
  if negb buffer || bool_decide (max_len = O) then (0%nat, None)
  else
    let s := str_bytes text in
    let len := Nat.min (length s) (max_len - 1) in
    (len, Some (take len s ++ [x00])).

(** ** Calls on a handle *)

Section capi.
Context `{CO : !CryptoOps, KO : !KeyOps}.
Context (connector_of : connector_desc -> connector_ops) (handler_of : handler_desc -> handler_t).
Context (init_calls : string -> list api_call) (fuel : nat).

Definition gn_core_create (cfg : option gn_config_t) (w : world) : option Core * fsys :=
  core_new connector_of handler_of init_calls fuel (create_config cfg) w.

Definition gn_core_run_async (h : option Core) (threads hardware : Z) : option Core :=
  run_async threads hardware <$> h.

(** The outer [option]: a call that does not return. *)
Definition gn_core_stop (h : option Core) : option (option Core) :=
  match h with Some k => Some <$> core_stop k | None => Some None end.

(** The destructor of the core stops it. *)
Definition gn_core_destroy (h : option Core) : option (option Core) := gn_core_stop h.

Definition gn_core_reload_config (parse : string -> option json) (files : gmap string string) (h : option Core)
    : Z * option Core :=
  match h with
  | None => (-1, None)
  | Some k => let '(ok, k') := reload_config parse files k in (if ok : bool then 0 else -1, Some k')
  end.

Definition gn_core_is_running (h : option Core) : Z :=
  match h with Some k => if k_running k then 1 else 0 | None => 0 end.

Definition gn_core_send (h : option Core) (uri : string) (t : Z) (data : bytes) : option Core :=
  (fun k => (core_send_uri uri t data k).2) <$> h.
Definition gn_core_broadcast (h : option Core) (t : Z) (data : bytes) : option Core := core_broadcast t data <$> h.
Definition gn_core_disconnect (h : option Core) (id : Z) : option Core := core_disconnect id <$> h.

Definition gn_core_rekey (h : option Core) (id : Z) : Z * option Core :=
  match h with
  | None => (-1, None)
  | Some k => let '(ok, k') := core_rekey_session id k in (if ok : bool then 0 else -1, Some k')
  end.

Definition gn_core_get_user_pubkey (h : option Core) (buffer : bool) (max_len : nat) : nat * option bytes :=
  match h with Some k => copy_out (user_pubkey_hex k) buffer max_len | None => (0%nat, None) end.

(** [None]: the JSON library threw. *)
Definition gn_core_dump_connections (dump : json -> option string) (h : option Core) (buffer : bool) (max_len : nat)
    : option (nat * option bytes) :=
  match h with
  | Some k =>
      if negb buffer || bool_decide (max_len = O) then Some (0%nat, None)
      else text ← dump_connections dump (k_cm k); Some (copy_out text buffer max_len)
  | None => Some (0%nat, None)
  end.

Definition gn_core_connection_count (h : option Core) : Z :=
  match h with Some k => u32 (Z.of_nat (core_connection_count k)) | None => 0 end.
Definition gn_core_handler_count (h : option Core) : Z :=
  match h with Some k => u32 (Z.of_nat (handler_count k)) | None => 0 end.
Definition gn_core_connector_count (h : option Core) : Z :=
  match h with Some k => u32 (Z.of_nat (connector_count k)) | None => 0 end.

(** The counters in the order of [gn_stats_t]. *)
Record gn_stats_t := mk_gn_stats {
  gs_rx_bytes : Z; gs_tx_bytes : Z; gs_rx_packets : Z; gs_tx_packets : Z;
  gs_auth_ok : Z; gs_auth_fail : Z; gs_decrypt_fail : Z; gs_backpressure : Z;
  gs_consumed : Z; gs_rejected : Z; gs_connections : Z; gs_total_conn : Z; gs_total_disc : Z;
  gs_drops : list Z; gs_dispatch_lat_avg : Z;
}.

Definition gn_core_get_stats (h : option Core) : option gn_stats_t :=
  (fun k =>
     let s := stats_snapshot (c_bus (k_cm k)) in
     mk_gn_stats (rx_bytes s) (tx_bytes s) (rx_packets s) (tx_packets s) (auth_ok s) (auth_fail s) (decrypt_fail s)
       (backpressure s) (consumed s) (rejected s) (connections s) (total_conn s) (total_disc s) (drops s)
       (avg_ns (dispatch_lat s))) <$> h.
End capi.

(** ** Subscriptions *)

(** [cb] with its [user_data]. *)
Abbreviation c_callback := (Z -> bytes -> propagation_t).

(** The global table and counter, and the closures registered with the bus: their message type
    and token, in order. *)
Record csubs := mk_csubs {
  cs_map : gmap Z c_callback;
  cs_token : Z;
  cs_closures : list (Z * Z);
}.

Definition csubs_init : csubs := mk_csubs ∅ 1 [].

Definition gn_core_subscribe (core : bool) (t : Z) (cb : option c_callback) (s : csubs) : Z * csubs :=
  match core, cb with
  | true, Some cb =>
      let token := cs_token s in
      let m := match cs_map s !! token with Some _ => cs_map s | None => <[token := cb]> (cs_map s) end in
      (token, mk_csubs m (u64 (token + 1)) (cs_closures s ++ [(t, token)]))
  | _, _ => (0, s)
  end.

(** Only the table forgets the callback; the closure stays with the bus. *)
Definition gn_core_unsubscribe (token : Z) (s : csubs) : csubs :=
  mk_csubs (delete token (cs_map s)) (cs_token s) (cs_closures s).

Definition csub_handler (m : gmap Z c_callback) (token : Z) : HandlerPacketFn :=
  fun hdr _ data =>
    match m !! token with
    | Some cb => cb (hdr_payload_type hdr) data
    | None => PROPAGATION_CONTINUE
    end.

(** A bus with the closures of C callers, as they behave with the present table. *)
Definition csub_bus (s : csubs) : SignalBus :=
  fold_left (fun b '(t, token) => (subscribe t (to_string token) (csub_handler (cs_map s) token) 128 b).2)
    (cs_closures s) bus_init.

Definition csub_dispatch (s : csubs) (hdr : header_t) (ep : endpoint_t) (data : bytes) : propagation_t :=
  er_result (dispatch_packet (csub_bus s) (hdr_payload_type hdr) hdr ep data).1.

Inductive csub_op := CsSubscribe (t : Z) (cb : c_callback) | CsUnsubscribe (token : Z).

Definition run_csub (s : csubs) (op : csub_op) : csubs :=
  match op with
  | CsSubscribe t cb => (gn_core_subscribe true t (Some cb) s).2
  | CsUnsubscribe token => gn_core_unsubscribe token s
  end.

(** *** What subscriptions promise: the callbacks that are subscribed, in order *)

Record live_sub := mk_live { ls_token : Z; ls_type : Z; ls_cb : c_callback }.

Definition spec_csub (st : Z * list live_sub) (op : csub_op) : Z * list live_sub :=
  let '(next, live) := st in
  match op with
  | CsSubscribe t cb => (next + 1, live ++ [mk_live next t cb])
  | CsUnsubscribe token => (next, List.filter (fun l => negb (ls_token l =? token)) live)
  end.

(** The first verdict that is not CONTINUE. *)
Fixpoint first_verdict (vs : list propagation_t) : propagation_t :=
  match vs with
  | [] => PROPAGATION_CONTINUE
  | PROPAGATION_CONTINUE :: vs => first_verdict vs
  | v :: _ => v
  end.

Definition spec_dispatch (live : list live_sub) (t : Z) (data : bytes) : propagation_t :=
  first_verdict (map (fun l => ls_cb l t data) (List.filter (fun l => ls_type l =? t) live)).

(** *** The bus *)

Lemma emit_first p hdr ep data :
  er_result (emit p hdr ep data).1 = first_verdict (map (fun e => e_fn e hdr ep data) p).
Proof.
  induction p as [|e p IH]; [done|]. simpl. destruct (e_fn e hdr ep data); simpl; try done.
  by destruct (emit p hdr ep data).
Qed.

(** The entries of one message type. *)
Definition chain_of (m : gmap Z c_callback) (t : Z) (closures : list (Z * Z)) : list Entry :=
  map (fun c => mk_entry 128 (to_string c.2) (csub_handler m c.2)) (List.filter (fun c => c.1 =? t) closures).

Lemma connect_same_priority name fn p :
  Forall (fun e => e_priority e = 128) p -> connect 128 name fn p = p ++ [mk_entry 128 name fn].
Proof.
  intros Hp. assert (StronglySorted prio_ge p) as Hs.
  { induction Hp as [|e p He Hp IH]; constructor; [done|]. rewrite Forall_forall in Hp |- *.
    intros x Hx. specialize (Hp x Hx). unfold prio_ge. lia. }
  rewrite connect_insert by done. apply insert_entry_last. rewrite Forall_forall in Hp |- *.
  intros x Hx. specialize (Hp x Hx). unfold prio_ge. simpl. lia.
Qed.

Lemma csub_channels s t :
  default [] (channels (csub_bus s) !! t) = chain_of (cs_map s) t (cs_closures s) /\ wildcards (csub_bus s) = [].
Proof.
  unfold csub_bus. destruct s as [m next closures]. cbn [cs_map cs_closures].
  induction closures as [|[t' token] closures IH] using rev_ind; [done|].
  rewrite fold_left_app. cbn [fold_left]. destruct (fold_left _ closures bus_init) as [ch wc ns sm ac os ol oc ot].
  destruct IH as [Hc Hw]. cbn [channels wildcards] in Hc, Hw.
  unfold subscribe, with_subs, with_channels. cbn [channels wildcards snd next_sub_id]. split; [|done].
  unfold chain_of in *. rewrite List.filter_app, map_app. simpl.
  destruct (Z.eqb_spec t' t) as [->|Hne].
  - rewrite lookup_insert_eq. simpl. rewrite Hc. apply connect_same_priority.
    apply Forall_forall. intros e He. by apply in_map_iff in He as (c & <- & _).
  - rewrite lookup_insert_ne, app_nil_r by done. exact Hc.
Qed.

Lemma csub_dispatch_first s hdr ep data :
  csub_dispatch s hdr ep data =
  first_verdict (map (fun c => csub_handler (cs_map s) c.2 hdr ep data)
    (List.filter (fun c => c.1 =? hdr_payload_type hdr) (cs_closures s))).
Proof.
  unfold csub_dispatch, dispatch_packet. destruct (csub_channels s (hdr_payload_type hdr)) as [Hc Hw]. rewrite Hw.
  assert (er_result (emit (chain_of (cs_map s) (hdr_payload_type hdr) (cs_closures s)) hdr ep data).1 =
    first_verdict (map (fun c => csub_handler (cs_map s) c.2 hdr ep data)
      (List.filter (fun c => c.1 =? hdr_payload_type hdr) (cs_closures s)))) as He.
  { rewrite emit_first. unfold chain_of. by rewrite map_map. }
  rewrite <-He, <-Hc. destruct (channels (csub_bus s) !! hdr_payload_type hdr) as [ch|]; [|done]. simpl.
  destruct (emit ch hdr ep data) as [r calls]. simpl. case_bool_decide as Hr; simpl; [by rewrite Hr|done].
Qed.

(** *** The specification *)

(** The table holds exactly the live callbacks, in the order of their closures. *)
Record csub_rel (s : csubs) (st : Z * list live_sub) : Prop := {
  cr_token : cs_token s = st.1 /\ 0 < st.1;
  cr_tokens : forall t k, (t, k) ∈ cs_closures s -> k < st.1;
  cr_keys : forall k cb, cs_map s !! k = Some cb -> k < st.1;
  cr_live : st.2 = omap (fun c => mk_live c.2 c.1 <$> (cs_map s !! c.2)) (cs_closures s);
}.

Lemma omap_ext_in {A B} (f g : A -> option B) (l : list A) : (forall x, x ∈ l -> f x = g x) -> omap f l = omap g l.
Proof.
  induction l as [|x l IH]; intros H; [done|].
  assert (omap f l = omap g l) as E by (apply IH; intros y Hy; apply H; by right).
  simpl. rewrite (H x) by left. destruct (g x); [|exact E]. f_equal. exact E.
Qed.

Lemma csub_step s st op :
  csub_rel s st -> st.1 + 1 < 2 ^ 64 -> csub_rel (run_csub s op) (spec_csub st op).
Proof.
  intros [[Ht Hp] Hc Hk Hl] Hb. destruct s as [m next closures], st as [n live]. simpl in *. subst next.
  destruct op as [t cb|token]; simpl.
  - assert (m !! n = None) as Hm.
    { destruct (m !! n) eqn:E; [|done]. apply Hk in E. lia. }
    rewrite Hm. split; simpl.
    + split; [|lia]. apply wrap_small. unfold fits. lia.
    + intros t' k [?%Hc|[= _ ->]%list_elem_of_singleton]%elem_of_app; lia.
    + intros k cb' [[<- _]|[_ ?%Hk]]%lookup_insert_Some; lia.
    + rewrite omap_app, Hl. simpl. rewrite lookup_insert_eq. f_equal. apply omap_ext_in. intros [t' k] Hin.
      simpl. rewrite lookup_insert_ne; [done|]. apply Hc in Hin. lia.
  - split; simpl; [done|done| |].
    + intros k cb [_ ?%Hk]%lookup_delete_Some. done.
    + rewrite Hl. clear. induction closures as [|[t k] closures IH]; [done|]. simpl.
      destruct (decide (k = token)) as [->|Hne].
      * rewrite lookup_delete_eq. simpl. destruct (m !! token); simpl; [by rewrite Z.eqb_refl|done].
      * rewrite lookup_delete_ne by done. destruct (m !! k); simpl; [|done].
        rewrite (proj2 (Z.eqb_neq _ _) Hne). simpl. by f_equal.
Qed.

Lemma csub_run ops s st :
  csub_rel s st -> st.1 + Z.of_nat (length ops) < 2 ^ 64 ->
  csub_rel (fold_left run_csub ops s) (fold_left spec_csub ops st).
Proof.
  revert s st. induction ops as [|op ops IH]; intros s st H Hb; [done|]. simpl in *. apply IH.
  - apply csub_step; [done|lia].
  - destruct st as [n live], op; simpl in *; lia.
Qed.

(** C26: The subscriptions of C callers.  After any sequence of subscriptions and removals a
    packet gets the verdict of the subscribed callbacks of its type, asked in the order they
    were subscribed until one does not return CONTINUE; a removed callback is never asked,
    although its closure stays with the bus. *)
Theorem csub_refines ops hdr ep data :
  Z.of_nat (length ops) < 2 ^ 64 - 1 ->
  csub_dispatch (fold_left run_csub ops csubs_init) hdr ep data =
  spec_dispatch (fold_left spec_csub ops (1, [])).2 (hdr_payload_type hdr) data.
Proof.
  intros Hb. destruct (csub_run ops csubs_init (1, [])) as [_ _ _ ->].
  { split; simpl; try done. by intros ?? ?%elem_of_nil. }
  { simpl. lia. }
  rewrite csub_dispatch_first. unfold spec_dispatch.
  generalize (fold_left run_csub ops csubs_init). intros [m next closures]. cbn [cs_map cs_closures].
  induction closures as [|[t k] closures IH]; [done|]. simpl. destruct (Z.eqb_spec t (hdr_payload_type hdr)) as [->|Hne]; simpl.
  - assert (csub_handler m k hdr ep data =
      match m !! k with Some cb => cb (hdr_payload_type hdr) data | None => PROPAGATION_CONTINUE end) as -> by done.
    destruct (m !! k) as [cb|]; simpl; [|exact IH].
    rewrite Z.eqb_refl. simpl. destruct (cb (hdr_payload_type hdr) data); [exact IH|done|done].
  - destruct (m !! k); simpl; [|exact IH]. by rewrite (proj2 (Z.eqb_neq _ _) Hne).
Qed.

Definition toy_verdict (v : propagation_t) : c_callback := fun _ _ => v.

Lemma csub_refines_witness :
  let ops := [CsSubscribe 100 (toy_verdict PROPAGATION_REJECT); CsSubscribe 100 (toy_verdict PROPAGATION_CONSUMED);
              CsUnsubscribe 1] in
  csub_dispatch (fold_left run_csub ops csubs_init) (mk_hdr 0 100 [] 0) (mk_endpoint "" 0 [] 0 0) [] =
  PROPAGATION_CONSUMED.
Proof. intros ops. etrans; [apply csub_refines; reflexivity|reflexivity]. Defined.

(** ** Buffers *)

(** What is written fits the buffer, ends with a NUL and is the text up to the space there is. *)
Lemma copy_out_bounds text buffer max_len :
  match copy_out text buffer max_len with
  | (n, Some written) =>
      (length written <= max_len)%nat /\ n = (length written - 1)%nat /\
      written = take n (str_bytes text) ++ [x00]
  | (n, None) => n = O /\ (buffer = false \/ max_len = O)
  end.
Proof.
  unfold copy_out. destruct buffer; simpl; [|by split; [|left]]. case_bool_decide as Hm; simpl; [by split; [|right]|].
  rewrite length_app, length_take. simpl. split_and!; [lia|lia|done].
Qed.

(** A port of 0, which the header documents as the default, is taken literally. *)
Lemma create_port_zero : co_listen_port (cfg_core (create_config (Some (mk_gn_config None None 0)))) = 0.
Proof. reflexivity. Qed.
