(* ===== verification/Logger.v ===== *)
(** * Logger ([src/logger.cpp], [include/logger.hpp])

    The static settings with their setters, the lazily made singleton behind
    [std::call_once], the sinks it is given, the source flag [%Q], the logging calls and
    macros, and what [Core] and [Config] do with the logger at start-up.  spdlog's sinks
    and fmt are not modelled: a sink is a description, what reaches it is a list of lines,
    and whether a directory can be made or a log file opened is given by [log_env].  An
    exception that leaves a method is the failure of the state monad of the prelude. *)

From Stdlib Require Import ZArith Strings.Byte String Lia.
From stdpp Require Import base gmap list strings numbers.
From S2P Require Import Prelude Config.

Local Open Scope Z_scope.
Local Open Scope gn_scope.

(** ** Levels and settings *)

(** [spdlog::level::level_enum]. *)
Inductive log_level := LTrace | LDebug | LInfo | LWarn | LErr | LCritical | LOff.

Definition level_num (l : log_level) : Z :=
  match l with
  | LTrace => 0 | LDebug => 1 | LInfo => 2 | LWarn => 3 | LErr => 4 | LCritical => 5 | LOff => 6
  end.

Definition parse_level (s : string) : log_level :=
  if String.eqb s "trace" then LTrace
  else if String.eqb s "debug" then LDebug
  else if String.eqb s "warn" || String.eqb s "warning" then LWarn
  else if String.eqb s "error" then LErr
  else if String.eqb s "critical" then LCritical
  else if String.eqb s "off" then LOff
  else LInfo.

(** The static members of [Logger]. *)
Record LogSettings := mk_settings {
  log_level_ : string;
  log_file_ : string;
  max_size_ : Z;
  max_files_ : Z;
  project_root_ : bytes;
  strip_extension_ : bool;
  source_detail_mode_ : Z;
  file_pattern_ : string;
  console_pattern_ : string;
}.

(** [root] is [GOODNET_PROJECT_ROOT], empty when it is not defined. *)
Definition settings_init (root : bytes) : LogSettings :=
  mk_settings "info" "" (10 * 1024 * 1024) 5 root false 0
    "[%Y-%m-%d %H:%M:%S.%e] [%^%l%$] %Q%v" "%^[%Y-%m-%d %H:%M:%S.%e] [%l] %Q%$%v".

Inductive setter :=
  | SetLevel (level : string)
  | SetFile (path : string)
  | SetMaxSize (bytes : Z)
  | SetMaxFiles (count : Z)
  | SetRoot (root : bytes)
  | SetStrip (strip : bool)
  | SetMode (mode : Z)
  | SetFilePattern (pattern : string)
  | SetConsolePattern (pattern : string).

Definition apply_setter (o : setter) (s : LogSettings) : LogSettings :=
  let 'mk_settings lvl file size files root strip mode fp cp := s in
  match o with
  | SetLevel v => mk_settings v file size files root strip mode fp cp
  | SetFile v => mk_settings lvl v size files root strip mode fp cp
  | SetMaxSize v => mk_settings lvl file v files root strip mode fp cp
  | SetMaxFiles v => mk_settings lvl file size v root strip mode fp cp
  | SetRoot v => mk_settings lvl file size files v strip mode fp cp
  | SetStrip v => mk_settings lvl file size files root v mode fp cp
  | SetMode v => mk_settings lvl file size files root strip v fp cp
  | SetFilePattern v => mk_settings lvl file size files root strip mode v cp
  | SetConsolePattern v => mk_settings lvl file size files root strip mode fp v
  end.

(** ** The source flag [%Q] *)

Record source_loc := mk_loc { loc_file : bytes; loc_line : Z }.

(** [find_last_of] over a set of characters. *)
Fixpoint find_last_of (p : byte -> bool) (s : bytes) : option nat :=
  match s with
  | [] => None
  | b :: s =>
      match find_last_of p s with
      | Some i => Some (S i)
      | None => if p b then Some O else None
      end
  end.

Definition is_separator (b : byte) : bool := bool_decide (b = x2f) || bool_decide (b = x5c).

(** The name relative to the project root, or the part after the last separator. *)
Definition relative_name (root full : bytes) : bytes :=
  match root with
  | _ :: _ =>
      if bool_decide (take (length root) full = root) then
        let rel := drop (length root) full in
        match rel with
        | b :: rest => if is_separator b then rest else rel
        | [] => rel
        end
      else full
  | [] =>
      match find_last_of is_separator full with
      | Some s => drop (S s) full
      | None => full
      end
  end.

Definition strip_ext (name : bytes) : bytes :=
  match find_last_of (fun b => bool_decide (b = x2e)) name with
  | Some d => take d name
  | None => name
  end.

(** (show_path, show_line) by mode and level. *)
Definition source_detail (mode : Z) (lvl : log_level) : bool * bool :=
  let verbose := match lvl with LTrace | LDebug => true | _ => false end in
  if mode =? 0 then (verbose, verbose)
  else if mode =? 1 then (true, true)
  else if mode =? 2 then (false, true)
  else (false, false).

(** [custom_source_flag::format]; [None] is a message without a source location. *)
Definition format_source (s : LogSettings) (lvl : log_level) (src : option source_loc) : bytes :=
  match src with
  | None => []
  | Some loc =>
      let rel := relative_name (project_root_ s) (loc_file loc) in
      let name := if strip_extension_ s then strip_ext rel else rel in
      let '(show_path, show_line) := source_detail (source_detail_mode_ s) lvl in
      let display := if show_path then rel else name in
      if show_line then [x5b] ++ display ++ [x3a] ++ str_bytes (to_string (loc_line loc)) ++ [x5d; x20]
      else [x5b] ++ display ++ [x5d; x20]
  end.

(** ** The spdlog logger *)

Inductive sink_kind :=
  | RotatingFile (path : string) (max_size max_files : Z)
  | StdoutColor.

Record sink := mk_sink { sk_kind : sink_kind; sk_pattern : string; sk_level : log_level }.

Record spd_logger := mk_spd {
  sp_name : string;
  sp_sinks : list sink;
  sp_level : log_level;
  sp_flush_on : log_level;
}.

(** A message as one sink gets it: its level, what [%Q] gives, its text. *)
Record line := mk_line { ln_sink : sink; ln_level : log_level; ln_source : bytes; ln_text : string }.

Definition enabled (threshold lvl : log_level) : bool := level_num threshold <=? level_num lvl.

(** [spdlog::logger::log]: the logger's threshold, then each sink's. *)
Definition spd_lines (l : spd_logger) (s : LogSettings) (lvl : log_level) (src : option source_loc)
    (text : string) : list line :=
  if enabled (sp_level l) lvl then
    map (fun k => mk_line k lvl (format_source s lvl src) text)
      (List.filter (fun k => enabled (sk_level k) lvl) (sp_sinks l))
  else [].

(** ** The singleton *)

(** What the file system answers: whether a directory tree can be made, and whether the
    rotating sink can be made for a path, a size and a number of files. *)
Record log_env := mk_log_env {
  le_mkdirs : string -> bool;
  le_open : string -> Z -> Z -> bool;
}.

(** The process: settings, once flag, instance, spdlog's registry, lines written to the
    sinks and to [stderr]. *)
Record log_state := mk_log_state {
  st_settings : LogSettings;
  st_once : bool;
  st_instance : option spd_logger;
  st_registry : gmap string spd_logger;
  st_lines : list line;
  st_stderr : list string;
}.

Definition log_init (root : bytes) : log_state :=
  mk_log_state (settings_init root) false None ∅ [] [].

Definition put_lines (ls : list line) (st : log_state) : log_state :=
  mk_log_state (st_settings st) (st_once st) (st_instance st) (st_registry st) (st_lines st ++ ls)
    (st_stderr st).
Definition put_stderr (m : string) (st : log_state) : log_state :=
  mk_log_state (st_settings st) (st_once st) (st_instance st) (st_registry st) (st_lines st)
    (st_stderr st ++ [m]).

(** [fs::path::parent_path]: without the part after the last separator and the separators
    before it, except for the root directory. *)
Definition is_slash (b : byte) : bool := bool_decide (b = x2f).

Fixpoint drop_slashes (rev_path : bytes) : bytes :=
  match rev_path with
  | b :: rest => if is_slash b then drop_slashes rest else rev_path
  | [] => []
  end.

Definition parent_path (p : string) : string :=
  match find_last_of is_slash (str_bytes p) with
  | None => ""
  | Some i =>
      let dir := take i (str_bytes p) in
      match drop_slashes (rev dir) with
      | [] => "/"
      | d => bytes_str (rev d)
      end
  end.

Section logger.
Variable env : log_env.
(** Whether [NDEBUG] is defined. *)
Variable ndebug : bool.

Definition console_sink (s : LogSettings) : sink :=
  mk_sink StdoutColor (console_pattern_ s) (if ndebug then LWarn else LTrace).

(** The sinks, or the exception: [Some what] is a [spdlog_ex], which is reported and
    rethrown; [None] a [filesystem_error], which passes through. *)
Definition make_sinks (s : LogSettings) : list sink + option string :=
  let file := log_file_ s in
  if String.eqb file "" then inl [console_sink s]
  else if negb (String.eqb (parent_path file) "") && negb (le_mkdirs env (parent_path file)) then
    inr None
  else if le_open env file (max_size_ s) (u64 (max_files_ s)) then
    inl [mk_sink (RotatingFile file (max_size_ s) (u64 (max_files_ s))) (file_pattern_ s) LTrace;
         console_sink s]
  else inr (Some "[Logger] init failed: ").

Definition init_internal : SE log_state unit := fun st =>
  match make_sinks (st_settings st) with
  | inr None => (None, st)
  | inr (Some what) => (None, put_stderr what st)
  | inl sinks =>
      let l := mk_spd "goodnet" sinks (parse_level (log_level_ (st_settings st))) LWarn in
      let reg := <["goodnet" := l]> (delete "goodnet" (st_registry st)) in
      let st := mk_log_state (st_settings st) (st_once st) (Some l) reg (st_lines st) (st_stderr st) in
      (Some tt, put_lines (spd_lines l (st_settings st) LInfo None "Logger initialized.") st)
  end.

(** [std::call_once]: the flag is set when the call returns and not when it throws. *)
Definition call_once (c : SE log_state unit) : SE log_state unit := fun st =>
  if st_once st then (Some tt, st)
  else match c st with
       | (Some _, st') => (Some tt, mk_log_state (st_settings st') true (st_instance st')
                                     (st_registry st') (st_lines st') (st_stderr st'))
       | (None, st') => (None, st')
       end.

Definition ensure_initialized : SE log_state unit := fun st =>
  match st_instance st with
  | Some _ => (Some tt, st)
  | None => call_once init_internal st
  end.

Definition logger_get : SE log_state (option spd_logger) :=
  ensure_initialized ;;; se_get st_instance.

Definition should_log (lvl : log_level) : SE log_state bool :=
  ensure_initialized ;;;
  inst <-- se_get st_instance ;;
  se_ret (match inst with Some l => enabled (sp_level l) lvl | None => false end).

Definition log_raw (src : source_loc) (lvl : log_level) (msg : string) : SE log_state unit := fun st =>
  match st_instance st with
  | Some l => (Some tt, put_lines (spd_lines l (st_settings st) lvl (Some src) msg) st)
  | None => (Some tt, st)
  end.

(** [log_fmt]: [inl] is the formatted message, [inr] what the formatting threw. *)
Definition log_fmt (lvl : log_level) (src : source_loc) (msg : string + string) : SE log_state unit :=
  ok <-- should_log lvl ;;
  if (ok : bool) then
    match msg with
    | inl text => log_raw src lvl text
    | inr what => se_mod (put_stderr what)
    end
  else se_ret tt.

Definition logger_shutdown : SE log_state unit := fun st =>
  match st_instance st with
  | None => (Some tt, st)
  | Some l =>
      let st := put_lines (spd_lines l (st_settings st) LInfo None "Logger shutting down") st in
      (Some tt, mk_log_state (st_settings st) (st_once st) None ∅ (st_lines st) (st_stderr st))
  end.

(** [LOG_TRACE] and [LOG_DEBUG] are compiled out with [NDEBUG]. *)
Definition LOG (lvl : log_level) (src : source_loc) (msg : string + string) : SE log_state unit :=
  match lvl with
  | LTrace | LDebug => if ndebug then se_ret tt else log_fmt lvl src msg
  | _ => log_fmt lvl src msg
  end.

(** [ScopedLog] around a block: the destructor also runs when the block throws. *)
Definition log_scope {A} (lvl : log_level) (src : source_loc) (fn : string) (body : SE log_state A)
    : SE log_state A :=
  if ndebug then body
  else
    LOG lvl src (inl (">>> " +:+ fn)) ;;;
    (fun st =>
       let '(r, st1) := body st in
       let '(d, st2) := LOG lvl src (inl ("<<< " +:+ fn)) st1 in
       (match d with Some _ => r | None => None end, st2)).

(** [s_log] of the host API: a plugin's message, by number. *)
Definition host_log (level : Z) (src : source_loc) (msg : string) : SE log_state unit :=
  if level =? 0 then LOG LTrace src (inl msg)
  else if level =? 1 then LOG LDebug src (inl msg)
  else if level =? 2 then LOG LInfo src (inl msg)
  else if level =? 3 then LOG LWarn src (inl msg)
  else if level =? 4 then LOG LErr src (inl msg)
  else LOG LCritical src (inl msg).

(** ** A run *)

Inductive log_op :=
  | OpSet (o : setter)
  | OpGet
  | OpLog (lvl : log_level) (src : source_loc) (msg : string + string)
  | OpShutdown.

Definition run_log_op (op : log_op) : SE log_state unit :=
  match op with
  | OpSet o => se_mod (fun st => mk_log_state (apply_setter o (st_settings st)) (st_once st)
                                   (st_instance st) (st_registry st) (st_lines st) (st_stderr st))
  | OpGet => logger_get ;;; se_ret tt
  | OpLog lvl src msg => LOG lvl src msg
  | OpShutdown => logger_shutdown
  end.

(** The caller goes on after an exception. *)
Fixpoint run_log (ops : list log_op) (st : log_state) : log_state :=
  match ops with
  | [] => st
  | op :: ops => run_log ops (snd (run_log_op op st))
  end.
End logger.

(** ** Start-up *)

(** [Core::Core]: the settings of the configuration. *)
Definition core_logging (lo : LogCfg) : list log_op :=
  OpSet (SetLevel (lo_level lo)) ::
  if String.eqb (lo_file lo) "" then []
  else [OpSet (SetFile (lo_file lo)); OpSet (SetMaxSize (u64 (lo_max_size lo)));
        OpSet (SetMaxFiles (lo_max_files lo))].

(** The message of [Config::load_from_file] on each of its paths. *)
Inductive load_result := LoadMissing | LoadUnreadable | LoadRejected | LoadFailed | LoadDone.

Definition load_level (r : load_result) : log_level :=
  match r with
  | LoadMissing => LWarn
  | LoadUnreadable | LoadRejected | LoadFailed => LErr
  | LoadDone => LInfo
  end.

Definition load_log (r : load_result) (src : source_loc) (msg : string + string) : log_op :=
  OpLog (load_level r) src msg.

(** [Core::reload_config] after the configuration was read again. *)
Definition core_reload_logging (lo : LogCfg) (src : source_loc) : list log_op :=
  [OpSet (SetLevel (lo_level lo)); OpLog LInfo src (inl "Config reloaded.")].

(** ** What a run writes *)

Section theorems.
Variable env : log_env.
Variable ndebug : bool.
Abbreviation run ops st := (run_log env ndebug ops st).

Definition is_shutdown (op : log_op) : bool := match op with OpShutdown => true | _ => false end.

(** The macro exists in this build. *)
Definition compiled (lvl : log_level) : bool :=
  match lvl with LTrace | LDebug => negb ndebug | _ => true end.

(** An operation that needs the logger. *)
Definition first_use (op : log_op) : bool :=
  match op with OpGet => true | OpLog lvl _ _ => compiled lvl | _ => false end.

(** Specification: what one logger writes until it is shut down, with the settings the
    source flag reads when a message is written. *)
Fixpoint live_lines (l : spd_logger) (s : LogSettings) (ops : list log_op) : list line :=
  match ops with
  | [] => []
  | OpSet o :: ops => live_lines l (apply_setter o s) ops
  | OpGet :: ops => live_lines l s ops
  | OpLog lvl src msg :: ops =>
      (match msg with
       | inl text => if compiled lvl then spd_lines l s lvl (Some src) text else []
       | inr _ => []
       end) ++ live_lines l s ops
  | OpShutdown :: _ => spd_lines l s LInfo None "Logger shutting down"
  end.

(** A logger exists only once the flag is set, and nothing is written before. *)
Definition log_ok (st : log_state) : Prop :=
  st_once st = false -> st_instance st = None /\ st_lines st = [].

Lemma LOG_compiled lvl src msg :
  LOG env ndebug lvl src msg = if compiled lvl then log_fmt env ndebug lvl src msg else se_ret tt.
Proof. unfold LOG, compiled. by destruct lvl, ndebug. Qed.

(** A disabled message writes nothing. *)
Lemma spd_lines_disabled l s lvl src text :
  enabled (sp_level l) lvl = false -> spd_lines l s lvl src text = [].
Proof. unfold spd_lines. by intros ->. Qed.

(** Once there is a logger, an operation does what the specification says. *)
Lemma live_step op st l :
  st_once st = true -> st_instance st = Some l ->
  exists st', run_log_op env ndebug op st = (Some tt, st') /\ st_once st' = true /\
    st_instance st' = (if is_shutdown op then None else Some l) /\
    forall ops, st_lines st ++ live_lines l (st_settings st) (op :: ops) =
      st_lines st' ++ (if is_shutdown op then [] else live_lines l (st_settings st') ops).
Proof.
  intros Ho Hi. destruct op as [o| |lvl src msg|]; cbn [run_log_op is_shutdown live_lines].
  - by eexists.
  - exists st. unfold logger_get, se_bind, ensure_initialized. by rewrite Hi.
  - rewrite LOG_compiled. destruct (compiled lvl); [|exists st; split_and!; [done..|]; intros; by destruct msg].
    unfold log_fmt, should_log, se_bind, ensure_initialized, se_get. rewrite Hi. cbn.
    rewrite Hi. destruct (enabled (sp_level l) lvl) eqn:E.
    + destruct msg as [text|what]; [|eexists; split; [reflexivity|done]].
      unfold log_raw. rewrite Hi. eexists. split; [reflexivity|]. split_and!; [done|done|].
      intros ops. cbn. by rewrite app_assoc.
    + exists st. split_and!; [done|done|done|]. intros ops.
      destruct msg; [by rewrite spd_lines_disabled|done].
  - unfold logger_shutdown. rewrite Hi. eexists. split; [reflexivity|]. split_and!; [done|done|].
    intros ops. cbn. by rewrite app_nil_r.
Qed.

(** After a shutdown nothing brings the logger back. *)
Lemma dead_step op st :
  st_once st = true -> st_instance st = None ->
  exists st', run_log_op env ndebug op st = (Some tt, st') /\ st_once st' = true /\
    st_instance st' = None /\ st_lines st' = st_lines st.
Proof.
  intros Ho Hi. destruct op as [o| |lvl src msg|]; cbn [run_log_op].
  - by eexists.
  - exists st. unfold logger_get, se_bind, ensure_initialized, call_once. by rewrite Hi, Ho.
  - rewrite LOG_compiled. destruct (compiled lvl); [|by exists st].
    unfold log_fmt, should_log, se_bind, ensure_initialized, call_once, se_get. rewrite Hi, Ho. cbn.
    rewrite Hi. by exists st.
  - unfold logger_shutdown. rewrite Hi. by exists st.
Qed.

Lemma dead_run ops st :
  st_once st = true -> st_instance st = None ->
  st_lines (run ops st) = st_lines st /\ st_instance (run ops st) = None.
Proof.
  revert st. induction ops as [|op ops IH]; intros st Ho Hi; [done|]. cbn [run_log].
  destruct (dead_step op st Ho Hi) as (st' & -> & Ho' & Hi' & Hl). cbn [snd].
  rewrite <-Hl. by apply IH.
Qed.

Lemma live_run ops st l :
  st_once st = true -> st_instance st = Some l ->
  st_lines (run ops st) = st_lines st ++ live_lines l (st_settings st) ops /\
  st_instance (run ops st) = if existsb is_shutdown ops then None else Some l.
Proof.
  revert st. induction ops as [|op ops IH]; intros st Ho Hi; [by rewrite app_nil_r|]. cbn [run_log].
  destruct (live_step op st l Ho Hi) as (st' & -> & Ho' & Hi' & Hl). cbn [snd existsb].
  rewrite (Hl ops). destruct (is_shutdown op).
  - rewrite app_nil_r. by apply dead_run.
  - by apply IH.
Qed.

(** The first use makes the logger from the settings of that moment, or throws. *)
Lemma first_use_step op st :
  st_once st = false -> st_instance st = None -> first_use op = true ->
  match make_sinks env ndebug (st_settings st) with
  | inl sinks =>
      let l := mk_spd "goodnet" sinks (parse_level (log_level_ (st_settings st))) LWarn in
      exists st', run_log_op env ndebug op st = (Some tt, st') /\ st_once st' = true /\
        st_instance st' = Some l /\ st_settings st' = st_settings st /\
        st_lines st' = st_lines st ++
          spd_lines l (st_settings st) LInfo None "Logger initialized." ++
          live_lines l (st_settings st) [op]
  | inr _ =>
      fst (run_log_op env ndebug op st) = None /\
      st_once (snd (run_log_op env ndebug op st)) = false /\
      st_instance (snd (run_log_op env ndebug op st)) = None /\
      st_lines (snd (run_log_op env ndebug op st)) = st_lines st
  end.
Proof.
  intros Ho Hi Hu.
  assert (ensure_initialized env ndebug st = call_once (init_internal env ndebug) st) as He
    by (unfold ensure_initialized; by rewrite Hi).
  unfold call_once, init_internal in He. rewrite Ho in He.
  destruct (make_sinks env ndebug (st_settings st)) as [sinks|what] eqn:Hs.
  - cbv zeta. set (l := mk_spd _ _ _ _). set (st1 := snd (ensure_initialized env ndebug st)).
    assert (ensure_initialized env ndebug st = (Some tt, st1)) as He1 by (unfold st1; by rewrite He).
    assert (st_once st1 = true /\ st_instance st1 = Some l /\ st_settings st1 = st_settings st /\
      st_lines st1 = st_lines st ++ spd_lines l (st_settings st) LInfo None "Logger initialized.")
      as (H1 & H2 & H3 & H4) by (unfold st1; by rewrite He).
    assert (run_log_op env ndebug op st = run_log_op env ndebug op st1) as Hop.
    { assert (ensure_initialized env ndebug st1 = (Some tt, st1)) as He2
        by (unfold ensure_initialized; by rewrite H2).
      destruct op as [o| |lvl src msg|]; try done; cbn [run_log_op first_use] in *.
      - unfold logger_get, se_bind. by rewrite He1, He2.
      - rewrite !LOG_compiled, Hu. unfold log_fmt, should_log, se_bind. by rewrite He1, He2. }
    rewrite Hop. destruct (live_step op st1 l H1 H2) as (st' & Hr & Ho' & Hi' & Hl).
    assert (is_shutdown op = false) as Hsd by by destruct op. rewrite Hsd in Hi', Hl.
    exists st'. specialize (Hl []). cbn [live_lines] in Hl. rewrite app_nil_r, H3, H4 in Hl.
    split_and!; [done|done|done| |by rewrite <-Hl, app_assoc].
    destruct op as [o| |lvl src msg|]; try done; cbn [run_log_op first_use] in *.
    + unfold logger_get, se_bind in Hr. rewrite He1 in *. unfold ensure_initialized in Hr.
      rewrite H2 in Hr. cbn in Hr. injection Hr as <-. done.
    + rewrite LOG_compiled, Hu in Hr. unfold log_fmt, should_log, se_bind, ensure_initialized, se_get in Hr.
      rewrite H2 in Hr. cbn in Hr. rewrite H2 in Hr. destruct (enabled _ _); [|by injection Hr as <-].
      destruct msg; [|by injection Hr as <-]. unfold log_raw in Hr. rewrite H2 in Hr. by injection Hr as <-.
  - assert (exists st1, ensure_initialized env ndebug st = (None, st1) /\ st_once st1 = false /\
      st_instance st1 = None /\ st_lines st1 = st_lines st) as (st1 & He1 & H1 & H2 & H3)
      by (rewrite He; destruct what; eauto 10).
    destruct op as [o| |lvl src msg|]; try done; cbn [run_log_op first_use] in *.
    + unfold logger_get, se_bind. by rewrite He1.
    + rewrite LOG_compiled, Hu. unfold log_fmt, should_log, se_bind. by rewrite He1.
Qed.

Lemma log_ok_step op st : log_ok st -> log_ok (snd (run_log_op env ndebug op st)).
Proof.
  intros Hok. destruct (st_once st) eqn:Ho.
  { intros Hf. exfalso. destruct (st_instance st) as [l|] eqn:Hi.
    - destruct (live_step op st l Ho Hi) as (st' & E & Ho' & _). rewrite E in Hf. cbn in Hf. congruence.
    - destruct (dead_step op st Ho Hi) as (st' & E & Ho' & _). rewrite E in Hf. cbn in Hf. congruence. }
  destruct (Hok Ho) as [Hi Hl]. destruct (first_use op) eqn:Hu.
  - pose proof (first_use_step op st Ho Hi Hu) as H.
    destruct (make_sinks env ndebug (st_settings st)) as [sinks|what].
    + destruct H as (st' & -> & Ho' & _). intros Hf. cbn in Hf. congruence.
    + destruct H as (_ & _ & H2 & H3). intros _. rewrite H3. done.
  - destruct op as [o| |lvl src msg|]; cbn [run_log_op first_use] in *; [done|done| |].
    + by rewrite LOG_compiled, Hu.
    + unfold logger_shutdown. by rewrite Hi.
Qed.

Lemma log_ok_run ops st : log_ok st -> log_ok (run ops st).
Proof. revert st. induction ops as [|op ops IH]; intros st H; [done|]. by apply IH, log_ok_step. Qed.

(** The logger is made once.  In every run of the logging interface: nothing is written
    before it exists; the first call that needs it makes it with the level and the sinks of
    the settings of that moment, or throws and leaves the next call to try again; from then
    on the lines written are exactly those of that one logger (its level and sinks do not
    follow later setters, only the source flag does), up to the shutdown, after which
    nothing is written any more and no call brings it back. *)
Theorem logger_once root ops ops' :
  let st := run ops (log_init root) in
  (st_once st = false -> st_instance st = None /\ st_lines st = [] /\
    forall op, first_use op = true ->
      match make_sinks env ndebug (st_settings st) with
      | inl sinks => exists st', run_log_op env ndebug op st = (Some tt, st') /\ st_once st' = true /\
          st_instance st' = Some (mk_spd "goodnet" sinks (parse_level (log_level_ (st_settings st))) LWarn)
      | inr _ => fst (run_log_op env ndebug op st) = None /\
          st_once (snd (run_log_op env ndebug op st)) = false
      end) /\
  (st_once st = true ->
    st_lines (run ops' st) = st_lines st ++
      from_option (fun l => live_lines l (st_settings st) ops') [] (st_instance st) /\
    st_instance (run ops' st) = if existsb is_shutdown ops' then None else st_instance st).
Proof.
  intros st. pose proof (log_ok_run ops (log_init root) ltac:(done)) as Hok. fold st in Hok.
  clearbody st. split; intros Ho.
  - destruct (Hok Ho) as [Hi Hl]. split_and!; [done|done|]. intros op Hu.
    pose proof (first_use_step op st Ho Hi Hu) as H. destruct (make_sinks _ _ _).
    + destruct H as (st' & H1 & H2 & H3 & _). by exists st'.
    + by destruct H as (H1 & H2 & _).
  - destruct (st_instance st) as [l|] eqn:Hi; [by apply live_run|].
    cbn [from_option]. rewrite app_nil_r. destruct (dead_run ops' st Ho Hi) as [-> ->].
    by destruct (existsb _ _).
Qed.

(** A program that reads its configuration from a file before it makes a core logs from
    then on with the built-in settings: on every path [load_from_file] reports, which makes
    the logger, so that the level and the file of the configuration are set too late, as is
    the level of a reload. *)
Theorem config_too_late root r src msg lo ops :
  let st := run ([load_log r src msg] ++ core_logging lo ++ ops) (log_init root) in
  st_instance st = None \/
  st_instance st = Some (mk_spd "goodnet" [console_sink ndebug (settings_init root)] LInfo LWarn).
Proof.
  cbv zeta. cbn [app run_log].
  pose proof (first_use_step (load_log r src msg) (log_init root) eq_refl eq_refl) as H.
  destruct H as (st1 & Hr & Ho & Hi & _); [by destruct r|].
  rewrite Hr. cbn [snd].
  destruct (live_run (core_logging lo ++ ops) st1 _ Ho Hi) as [_ ->].
  destruct (existsb _ _); [by left|by right].
Qed.
End theorems.

(** ** The source flag *)

(** A file below the project root is shown by its path below the root, and with a path and
    a line the flag is that of the file the compiler saw. *)
Lemma relative_name_below root rel : root <> [] -> relative_name root (root ++ x2f :: rel) = rel.
Proof.
  intros Hr. destruct root as [|b root]; [done|]. unfold relative_name.
  rewrite take_app_length, bool_decide_true by done. by rewrite drop_app_length.
Qed.

(** With a project root the directories are shown in every mode: the modes without a path
    only drop the extension. *)
Theorem path_always_shown s lvl rel n :
  project_root_ s <> [] -> strip_extension_ s = false ->
  exists tail, format_source s lvl (Some (mk_loc (project_root_ s ++ x2f :: rel) n)) = x5b :: rel ++ tail.
Proof.
  intros Hr Hs. unfold format_source. cbn [loc_file loc_line].
  rewrite relative_name_below, Hs by done. destruct (source_detail _ _) as [p l].
  replace (if p then rel else rel) with rel by by destruct p.
  destruct l; eexists; cbn; reflexivity.
Qed.
