(* ===== verification/Double.v ===== *)
(** * Double-precision numbers and their printing

    [double] is the IEEE 754 binary64 of the standard library's executable specification
    ([SpecFloat]), with the conversions and the [printf] formats the command-line program
    uses.  A conversion to an integer type that cannot represent the value is undefined in
    C++: it is [None]. *)

From Stdlib Require Import ZArith Strings.Byte String Lia.
From Stdlib Require Import Floats.SpecFloat.
From stdpp Require Import base list strings numbers.
From S2P Require Import Prelude.

Local Open Scope Z_scope.

Definition double : Type := spec_float.

Definition d_of_Z (z : Z) : double := binary_normalize 53 1024 z 0 false.
Definition d_add : double -> double -> double := SFadd 53 1024.
Definition d_sub : double -> double -> double := SFsub 53 1024.
Definition d_mul : double -> double -> double := SFmul 53 1024.
Definition d_div : double -> double -> double := SFdiv 53 1024.
Definition d_lt : double -> double -> bool := SFltb.
Definition d_le : double -> double -> bool := SFleb.
Definition d_zero : double := S754_zero false.

(** Truncation towards zero. *)
Definition d_trunc (x : double) : option Z :=
  match x with
  | S754_zero _ => Some 0
  | S754_finite s m e =>
      let v := if 0 <=? e then Z.shiftl (Zpos m) e else Z.shiftr (Zpos m) (- e) in
      Some (if s then - v else v)
  | _ => None
  end.

(** [static_cast<int>], [static_cast<uint64_t>] and [static_cast<long>]. *)
Definition in_range (lo hi v : Z) : option Z := if (lo <=? v) && (v <=? hi) then Some v else None.
Definition d_to_int (x : double) : option Z := d_trunc x ≫= in_range (- 2 ^ 31) (2 ^ 31 - 1).
Definition d_to_u64 (x : double) : option Z := d_trunc x ≫= in_range 0 (2 ^ 64 - 1).
Definition d_to_long (x : double) : option Z := d_trunc x ≫= in_range (- 2 ^ 63) (2 ^ 63 - 1).

(** [std::chrono::duration<double>] of a number of nanoseconds. *)
Definition seconds (ns : Z) : double := d_div (d_of_Z ns) (d_of_Z 1000000000).

(** ** Decimal text *)

Definition dec (n : Z) : bytes := str_bytes (to_string n).

Definition pad_left (c : byte) (w : nat) (s : bytes) : bytes := replicate (w - length s) c ++ s.
Definition pad_right (c : byte) (w : nat) (s : bytes) : bytes := s ++ replicate (w - length s) c.

(** [num / den] rounded to the nearest integer, ties to even. *)
Definition round_div (num den : Z) : Z :=
  let q := num / den in
  let r := num mod den in
  if 2 * r <? den then q
  else if den <? 2 * r then q + 1
  else if Z.even q then q else q + 1.

(** The digits of [m * 2^e] with [d] decimals. *)
Definition fixed_digits (d : nat) (m e : Z) : bytes :=
  let scale := 10 ^ Z.of_nat d in
  let n := if 0 <=? e then Z.shiftl (m * scale) e else round_div (m * scale) (2 ^ (- e)) in
  match d with
  | O => dec n
  | _ => dec (n / scale) ++ [x2e] ++ pad_left x30 d (dec (n mod scale))
  end.

(** [%.<d>f]. *)
Definition fmt_f (d : nat) (x : double) : bytes :=
  match x with
  | S754_zero s => (if s then [x2d] else []) ++ fixed_digits d 0 0
  | S754_finite s m e => (if s then [x2d] else []) ++ fixed_digits d (Zpos m) e
  | S754_infinity s => (if s then [x2d] else []) ++ str_bytes "inf"
  | S754_nan => str_bytes "nan"
  end.

Example fmt_f_third : fmt_f 2 (d_div (d_of_Z 22) (d_of_Z 7)) = str_bytes "3.14".
Proof. vm_compute. reflexivity. Qed.

(** Ties are decided by the exact binary value: 2.5 is a tie, 0.1 + 0.2 is not 0.3. *)
Example fmt_f_ties : fmt_f 0 (d_div (d_of_Z 5) (d_of_Z 2)) = str_bytes "2" /\
  fmt_f 1 (d_sub d_zero (d_div (d_of_Z 5) (d_of_Z 4))) = str_bytes "-1.2" /\
  fmt_f 17 (d_add (d_div (d_of_Z 1) (d_of_Z 10)) (d_div (d_of_Z 2) (d_of_Z 10)))
    = str_bytes "0.30000000000000004".
Proof. vm_compute. split_and!; reflexivity. Qed.
