(* ===== verification/Dashboard.v ===== *)
(** * The terminal dashboard ([cli/dashboard.hpp])

    The ring of throughput samples, the formatting helpers, the live lines and the summary
    table of the command-line program.  What is printed is a list of bytes in UTF-8; a
    fixed buffer filled by [snprintf] is the cut of its text. *)

From Stdlib Require Import ZArith Strings.Byte String Lia.
From Stdlib Require Import Floats.SpecFloat.
From stdpp Require Import base list sets strings numbers sorting.
From S2P Require Import Prelude Signals Double.

Local Open Scope Z_scope.

(** ** Throughput samples *)

Definition SAMPLE_RING : nat := 1200.

Record Samples := mk_samples {
  sm_data : list double;
  sm_head : nat;
  sm_count : nat;
}.

Definition samples_init : Samples := mk_samples (replicate SAMPLE_RING d_zero) 0 0.

Definition push (v : double) (s : Samples) : Samples :=
  mk_samples (<[sm_head s := v]> (sm_data s)) (Nat.modulo (sm_head s + 1) SAMPLE_RING)
    (if bool_decide (sm_count s < SAMPLE_RING)%nat then S (sm_count s) else sm_count s).

(** [std::sort] with [operator<]: insertion after the elements that are not larger. *)
Fixpoint insert_sample (v : double) (l : list double) : list double :=
  match l with
  | [] => [v]
  | x :: l => if d_lt v x then v :: x :: l else x :: insert_sample v l
  end.

Definition sort_samples (l : list double) : list double := foldr insert_sample [] l.

Definition held_samples (s : Samples) : list double := take (sm_count s) (sm_data s).

Definition sorted (s : Samples) : list double := sort_samples (held_samples s).

(** [static_cast<size_t>(p / 100.0 * (s.size() - 1))]. *)
Definition percentile_index (p : double) (n : nat) : option nat :=
  Z.to_nat <$> d_to_u64 (d_mul (d_div p (d_of_Z 100)) (d_of_Z (Z.of_nat n - 1))).

(** [None]: the index is not representable. *)
Definition percentile (p : double) (s : Samples) : option double :=
  let v := sorted s in
  match v with
  | [] => Some d_zero
  | _ => idx ← percentile_index p (length v); v !! Nat.min idx (length v - 1)
  end.

Definition mean (s : Samples) : double :=
  match held_samples s with
  | [] => d_zero
  | l => d_div (fold_left d_add l d_zero) (d_of_Z (Z.of_nat (sm_count s)))
  end.

(** [std::max_element]: the first of the largest. *)
Definition peak (s : Samples) : double :=
  match held_samples s with
  | [] => d_zero
  | x :: l => fold_left (fun best v => if d_lt best v then v else best) l x
  end.

(** ** Formatting *)

(** [snprintf] into a buffer of [n] bytes. *)
Definition snprintf (n : nat) (text : bytes) : bytes := take (n - 1) text.

Definition fmt_bytes (v : double) : option bytes :=
  if d_lt v (d_of_Z 1000) then (fun n => dec n ++ str_bytes " B") <$> d_to_int v
  else if d_lt v (d_of_Z 1000000) then
    Some (snprintf 32 (fmt_f 1 (d_div v (d_of_Z 1000)) ++ str_bytes " KB"))
  else if d_lt v (d_of_Z 1000000000) then
    Some (snprintf 32 (fmt_f 1 (d_div v (d_of_Z 1000000)) ++ str_bytes " MB"))
  else Some (snprintf 32 (fmt_f 2 (d_div v (d_of_Z 1000000000)) ++ str_bytes " GB")).

Definition two_digits (n : Z) : bytes := pad_left x30 2 (dec n).

Definition fmt_duration (sec : double) : option bytes :=
  t ← d_to_int sec;
  let h := Z.quot t 3600 in
  let m := Z.quot (Z.rem t 3600) 60 in
  let s := Z.rem t 60 in
  Some (snprintf 32
    (if 0 <? h
     then dec h ++ str_bytes "h " ++ two_digits m ++ str_bytes "m " ++ two_digits s ++ str_bytes "s"
     else dec m ++ str_bytes "m " ++ two_digits s ++ str_bytes "s")).

(** The loop of [fmt_num]: [fuel] bounds the iterations by the number of digits. *)
Fixpoint insert_commas (fuel : nat) (insert_at : Z) (s : bytes) : bytes :=
  match fuel with
  | O => s
  | S fuel =>
      if 0 <? insert_at then
        insert_commas fuel (insert_at - 3)
          (take (Z.to_nat insert_at) s ++ [x2c] ++ drop (Z.to_nat insert_at) s)
      else s
  end.

Definition fmt_num (n : Z) : bytes :=
  let s := dec n in insert_commas (length s) (Z.of_nat (length s) - 3) s.

Definition FULL : bytes := [xe2; x96; x88].
Definition LIGHT : bytes := [xe2; x96; x91].

Definition rep (n : Z) (b : bytes) : bytes := concat (replicate (Z.to_nat n) b).

(** [std::clamp(fraction, 0.0, 1.0)]. *)
Definition clamp01 (x : double) : double :=
  if d_lt x d_zero then d_zero else if d_lt (d_of_Z 1) x then d_of_Z 1 else x.

Definition bar (fraction : double) (width : Z) : option bytes :=
  filled ← d_to_int (d_mul (clamp01 fraction) (d_of_Z width));
  Some (rep filled FULL ++ rep (width - filled) LIGHT).

(** A byte that does not start a character. *)
Definition is_continuation (b : byte) : bool := Z.land (b2z b) 0xc0 =? 0x80.

Definition utf8_len (s : bytes) : Z :=
  Z.of_nat (length (List.filter (fun b => negb (is_continuation b)) s)).

Definition BOX_H : bytes := [xe2; x95; x90].
Definition BOX_V : bytes := [xe2; x95; x91].
Definition BOX_TL : bytes := [xe2; x95; x94].
Definition BOX_TR : bytes := [xe2; x95; x97].
Definition BOX_BL : bytes := [xe2; x95; x9a].
Definition BOX_BR : bytes := [xe2; x95; x9d].
Definition BOX_ML : bytes := [xe2; x95; xa0].
Definition BOX_MR : bytes := [xe2; x95; xa3].
Definition BOX_SEP : bytes := [xe2; x94; x82].
Definition NL : bytes := [x0a].
Definition ESC : byte := x1b.
(** ["\033[<code>m"]. *)
Definition sgr (code : string) : bytes := [ESC; x5b] ++ str_bytes code ++ [x6d].

Definition box_line (left right : bytes) (width : Z) : bytes := left ++ rep width BOX_H ++ right ++ NL.

Definition row_prefix (label : bytes) : bytes := str_bytes "  " ++ label ++ str_bytes " : ".

Definition print_row (label value color : bytes) : bytes :=
  let prefix := row_prefix label in
  let padding := 58 - utf8_len prefix - utf8_len value in
  BOX_V ++ prefix ++ color ++ value ++ sgr "0" ++ rep padding [x20] ++ BOX_V ++ NL.

(** ** Live lines *)

Definition erase_line : bytes := [ESC] ++ str_bytes "[2K" ++ [x0d].
Definition CHECK : bytes := [xe2; x9c; x93].
Definition CROSS : bytes := [xe2; x9c; x97].

Definition print_live (gbps gbps_peak pkt_s total_sec : double) (total_bytes total_pkts : Z)
    (backlog_mb : double) (st : Accum) : option bytes :=
  dur ← fmt_duration total_sec;
  sent ← fmt_bytes (d_of_Z total_bytes);
  rx ← fmt_bytes (d_of_Z (rx_bytes st));
  tx ← fmt_bytes (d_of_Z (tx_bytes st));
  Some (erase_line ++ [x5b] ++ dur ++ str_bytes "] "
    ++ sgr "1;36" ++ fmt_f 2 gbps ++ str_bytes " Gbps" ++ sgr "0"
    ++ str_bytes " (peak " ++ sgr "33" ++ fmt_f 2 gbps_peak ++ sgr "0" ++ str_bytes ") | "
    ++ sgr "1;32" ++ pad_left x20 7 (fmt_f 0 pkt_s) ++ str_bytes " pkt/s" ++ sgr "0" ++ str_bytes " | "
    ++ str_bytes "Sent " ++ sgr "1" ++ sent ++ sgr "0" ++ str_bytes " (" ++ dec total_pkts
    ++ str_bytes " pkts) | Backlog "
    ++ sgr (if d_lt (d_of_Z 64) backlog_mb then "1;31" else "0") ++ fmt_f 1 backlog_mb
    ++ str_bytes " MB" ++ sgr "0" ++ str_bytes " | RX " ++ rx ++ str_bytes " | TX " ++ tx
    ++ str_bytes " | Auth " ++ CHECK ++ dec (auth_ok st) ++ str_bytes " " ++ CROSS ++ dec (auth_fail st)
    ++ str_bytes " | Drops " ++ dec (backpressure st)).

Definition print_server_line (total_sec : double) (conns : Z) (rx_gbps tx_gbps pkt_s : double)
    (st : Accum) : option bytes :=
  dur ← fmt_duration total_sec;
  Some (erase_line ++ str_bytes "[Server " ++ dur ++ str_bytes "] conns=" ++ sgr "1;32" ++ dec conns
    ++ sgr "0" ++ str_bytes "  RX " ++ sgr "1;36" ++ fmt_f 2 rx_gbps ++ sgr "0" ++ str_bytes " Gbps  TX "
    ++ sgr "1;33" ++ fmt_f 2 tx_gbps ++ sgr "0" ++ str_bytes " Gbps  " ++ fmt_f 0 pkt_s
    ++ str_bytes " pkt/s  auth" ++ CHECK ++ sgr "32" ++ dec (auth_ok st) ++ sgr "0" ++ str_bytes " "
    ++ CROSS ++ sgr "31" ++ dec (auth_fail st) ++ sgr "0" ++ str_bytes "  dec_fail "
    ++ sgr (if decrypt_fail st =? 0 then "0" else "1;31") ++ dec (decrypt_fail st) ++ sgr "0"
    ++ str_bytes "  drops=" ++ dec (backpressure st)).

(** ** Summary *)

Definition BINS : nat := 8.
Definition BAR_MAX_WIDTH : Z := 24.

(** The bin of a sample. *)
Definition bin_of (lo hi v : double) : option Z :=
  if d_lt lo hi then
    d_to_int (d_mul (d_div (d_sub v lo) (d_sub hi lo)) (d_of_Z (Z.of_nat BINS - 1)))
  else Some 0.

(** [++bins[std::min(b, BINS - 1)]]; [None] outside the array. *)
Definition count_bin (lo hi : double) (bins : option (list Z)) (v : double) : option (list Z) :=
  bins ← bins;
  b ← bin_of lo hi v;
  let i := Z.min b (Z.of_nat BINS - 1) in
  if 0 <=? i then
    n ← bins !! Z.to_nat i;
    Some (<[Z.to_nat i := n + 1]> bins)
  else None.

Definition histogram (sv : list double) : option (list Z) :=
  match sv with
  | [] => Some (replicate BINS 0)
  | lo :: _ => fold_left (count_bin lo (List.last sv d_zero)) sv (Some (replicate BINS 0))
  end.

(** ["%5.1f-%-5.1f Gbps"]. *)
Definition bin_label (lo hi : double) (i : Z) : bytes :=
  let w := d_sub hi lo in
  let edge k := d_add lo (d_div (d_mul w (d_of_Z k)) (d_of_Z (Z.of_nat BINS))) in
  snprintf 64 (pad_left x20 5 (fmt_f 1 (edge i)) ++ [x2d] ++ pad_right x20 5 (fmt_f 1 (edge (i + 1)))
    ++ str_bytes " Gbps").

Definition histogram_row (lo hi : double) (size i n : Z) : option bytes :=
  let num_blocks := n * BAR_MAX_WIDTH / size in
  pct ← d_to_int (d_div (d_mul (d_of_Z 100) (d_of_Z n)) (d_of_Z size));
  Some (BOX_V ++ str_bytes "  " ++ bin_label lo hi i ++ str_bytes " " ++ BOX_SEP ++ str_bytes " "
    ++ rep num_blocks FULL ++ rep (BAR_MAX_WIDTH - num_blocks) [x20] ++ BOX_SEP ++ str_bytes " "
    ++ pad_left x20 3 (dec pct) ++ str_bytes "%  " ++ BOX_V ++ NL).

Definition sep : bytes := box_line BOX_ML BOX_MR 58.

Definition histogram_lines (thr : Samples) : option (list bytes) :=
  let sv := sorted thr in
  match sv with
  | lo :: _ :: _ :: _ :: _ =>
      let hi := List.last sv d_zero in
      bins ← histogram sv;
      rows ← mapM (fun '(i, n) => histogram_row lo hi (Z.of_nat (length sv)) (Z.of_nat i) n)
               (imap pair bins);
      Some (sep :: rows)
  | _ => Some []
  end.

Definition c_red : bytes := sgr "1;31".
Definition c_green : bytes := sgr "1;32".
Definition gbps_text (v : double) : bytes := fmt_f 2 v ++ str_bytes " Gbps".

(** The rows of the table above the histogram. *)
Definition summary_rows (thr : Samples) (total_sec : double) (total_bytes total_pkts : Z) (st : Accum)
    : option (list bytes) :=
  let has_errors := (0 <? decrypt_fail st) || (0 <? auth_fail st) in
  let display_bytes := if 0 <? total_bytes then total_bytes else rx_bytes st in
  let display_pkts := if 0 <? total_pkts then total_pkts else rx_packets st in
  let pk := peak thr in
  dur ← fmt_duration total_sec;
  avg_bar ← bar (d_div (mean thr) (if d_lt d_zero pk then pk else d_of_Z 1)) 20;
  p95 ← percentile (d_of_Z 95) thr;
  data ← fmt_bytes (d_of_Z display_bytes);
  rate ← d_to_u64 (if d_lt d_zero total_sec then d_div (d_of_Z display_pkts) total_sec else d_zero);
  Some [print_row (str_bytes "Duration") dur [];
        print_row (str_bytes "Status")
          (str_bytes (if has_errors then "DONE (errors!)" else "DONE (OK)"))
          (if has_errors then c_red else c_green);
        sep;
        print_row (str_bytes "Average")
          (snprintf 128 (fmt_f 2 (mean thr) ++ str_bytes " Gbps  " ++ avg_bar)) [];
        print_row (str_bytes "Peak") (gbps_text pk) [];
        print_row (str_bytes "p95") (gbps_text p95) [];
        sep;
        print_row (str_bytes "Total data") data [];
        print_row (str_bytes "Total packets") (fmt_num display_pkts) [];
        print_row (str_bytes "Avg pkt/s") (fmt_num rate) [];
        sep;
        print_row (str_bytes "Connections (OK/Err)")
          (snprintf 128 (dec (total_conn st) ++ str_bytes " / " ++ dec (total_disc st))) [];
        print_row (str_bytes "Auth (ok/fail)")
          (snprintf 128 (dec (auth_ok st) ++ str_bytes " / " ++ dec (auth_fail st))) [];
        print_row (str_bytes "Decrypt failures") (fmt_num (decrypt_fail st))
          (if 0 <? decrypt_fail st then c_red else []);
        print_row (str_bytes "Backpressure drops") (fmt_num (backpressure st)) []].

Definition title_line : bytes :=
  BOX_V ++ str_bytes "                GoodNet Benchmark Results                 " ++ BOX_V ++ NL.

Definition print_summary (thr : Samples) (total_sec : double) (total_bytes total_pkts : Z) (st : Accum)
    : option (list bytes) :=
  rows ← summary_rows thr total_sec total_bytes total_pkts st;
  hist ← histogram_lines thr;
  Some ([NL; NL; box_line BOX_TL BOX_TR 58; title_line; sep] ++ rows ++ hist
        ++ [box_line BOX_BL BOX_BR 58]).

(** ** The ring holds the last samples *)

Definition pushes (vs : list double) : Samples := fold_left (fun s v => push v s) vs samples_init.

(** Specification: the last [SAMPLE_RING] values. *)
Definition last_samples (vs : list double) : list double := drop (length vs - SAMPLE_RING) vs.

Record ring_rel (vs : list double) (s : Samples) : Prop := mk_ring_rel {
  rr_length : length (sm_data s) = SAMPLE_RING;
  rr_head : (sm_head s < SAMPLE_RING)%nat;
  rr_filling : (length vs < SAMPLE_RING)%nat ->
    sm_head s = length vs /\ sm_count s = length vs /\ take (length vs) (sm_data s) = vs;
  rr_full : (SAMPLE_RING <= length vs)%nat ->
    sm_count s = SAMPLE_RING /\ drop (sm_head s) (sm_data s) ++ take (sm_head s) (sm_data s) = last_samples vs;
}.

Lemma last_samples_short vs : (length vs <= SAMPLE_RING)%nat -> last_samples vs = vs.
Proof. intros H. unfold last_samples. by replace (length vs - SAMPLE_RING)%nat with 0%nat by lia. Qed.

Lemma last_samples_snoc vs v :
  (SAMPLE_RING <= length vs)%nat -> last_samples (vs ++ [v]) = tail (last_samples vs) ++ [v].
Proof.
  intros H. unfold last_samples. rewrite length_app. cbn [length].
  replace (length vs + 1 - SAMPLE_RING)%nat with (S (length vs - SAMPLE_RING)) by lia.
  rewrite drop_app_le by (unfold SAMPLE_RING in *; lia). f_equal.
  rewrite <-Nat.add_1_r, <-drop_drop. by destruct (drop _ vs).
Qed.

Lemma take_insert_snoc {A} (l : list A) i v :
  (i < length l)%nat -> take (S i) (<[i := v]> l) = take i l ++ [v].
Proof.
  intros Hi. rewrite (take_S_r _ _ v) by (by rewrite list_lookup_insert_eq).
  by rewrite take_insert_ge by lia.
Qed.

Lemma ring_rel_push vs s v : ring_rel vs s -> ring_rel (vs ++ [v]) (push v s).
Proof.
  intros [Hlen Hhead Hfill Hfull].
  assert (forall k, length (<[k := v]> (sm_data s)) = SAMPLE_RING) as Hlen'
    by (intros; by rewrite length_insert).
  destruct (decide (length vs < SAMPLE_RING)%nat) as [Hlt|Hge].
  - destruct (Hfill Hlt) as (Hh & Hc & Ht). clear Hfill Hfull.
    assert (take (S (length vs)) (<[length vs := v]> (sm_data s)) = vs ++ [v]) as Hnew
      by (rewrite take_insert_snoc by lia; by rewrite Ht).
    unfold push. rewrite Hh, Hc, bool_decide_true by done.
    split; cbn [sm_data sm_head sm_count]; rewrite ?length_app; cbn [length];
      [done|apply Nat.mod_upper_bound; done| |].
    + intros H. rewrite Nat.mod_small by lia. split_and!; [lia|lia|].
      by rewrite Nat.add_1_r.
    + intros H. assert (S (length vs) = SAMPLE_RING) as E by lia. split; [done|].
      rewrite Nat.add_1_r, E, Nat.Div0.mod_same, drop_0, app_nil_r.
      rewrite last_samples_short by (rewrite length_app; cbn [length]; lia).
      rewrite <-Hnew, E. by rewrite take_ge by (rewrite Hlen'; done).
  - assert (SAMPLE_RING <= length vs)%nat as Hge' by lia.
    destruct (Hfull Hge') as (Hc & Hrot). clear Hfill Hfull.
    unfold push. rewrite Hc, bool_decide_false by lia.
    split; cbn [sm_data sm_head sm_count]; rewrite ?length_app; cbn [length];
      [done|apply Nat.mod_upper_bound; done|lia|]. intros _. split; [done|].
    rewrite last_samples_snoc, <-Hrot by done.
    assert (drop (sm_head s) (sm_data s) ++ take (sm_head s) (sm_data s) <> []) as Hne.
    { intros E. apply (f_equal length) in E. rewrite length_app, length_drop, length_take in E.
      cbn [length] in E. lia. }
    destruct (decide (sm_head s + 1 = SAMPLE_RING)%nat) as [E|E].
    + rewrite E, Nat.Div0.mod_same, drop_0, app_nil_r.
      assert (drop (sm_head s) (sm_data s) = [v] \/ exists x, drop (sm_head s) (sm_data s) = [x]) as Hd.
      { right. destruct (drop (sm_head s) (sm_data s)) as [|x [|y l]] eqn:Ed;
          apply (f_equal length) in Ed; rewrite length_drop in Ed; cbn [length] in Ed; try lia. eauto. }
      rewrite <-(take_ge (<[_ := v]> _) SAMPLE_RING) by (rewrite Hlen'; done).
      rewrite <-E, Nat.add_1_r, take_insert_snoc by lia.
      destruct Hd as [->|[x ->]]; done.
    + rewrite Nat.mod_small by lia. rewrite Nat.add_1_r, take_insert_snoc by lia.
      rewrite drop_insert_lt by lia. rewrite app_assoc. f_equal.
      destruct (lookup_lt_is_Some_2 (sm_data s) (sm_head s)) as [x Hx]; [lia|].
      by rewrite (drop_S _ _ _ Hx).
Qed.

Lemma ring_rel_pushes vs : ring_rel vs (pushes vs).
Proof.
  induction vs as [|v vs IH] using rev_ind.
  - split; [done|apply Nat.ltb_lt; reflexivity|done|]. unfold SAMPLE_RING. cbn [length]. lia.
  - unfold pushes. rewrite fold_left_app. cbn. by apply ring_rel_push.
Qed.

(** The samples held are the last ones. *)
Lemma held_last vs : held_samples (pushes vs) ≡ₚ last_samples vs.
Proof.
  destruct (ring_rel_pushes vs) as [Hlen Hhead Hfill Hfull]. unfold held_samples.
  destruct (decide (length vs < SAMPLE_RING)%nat) as [Hlt|Hge].
  - destruct (Hfill Hlt) as (_ & -> & ->). by rewrite last_samples_short by lia.
  - destruct (Hfull ltac:(lia)) as (-> & <-). rewrite take_ge by (rewrite Hlen; done).
    rewrite <-(take_drop (sm_head (pushes vs)) (sm_data (pushes vs))) at 1. apply Permutation_app_comm.
Qed.

(** ** Sorting *)

Lemma d_compare_antisym a b : SFcompare b a = option_map CompOpp (SFcompare a b).
Proof.
  destruct a as [s|s| |s m e], b as [s'|s'| |s' m' e']; try done; try (by destruct s);
    try (by destruct s'); try (by destruct s, s').
  cbn. rewrite (Z.compare_antisym e e').
  destruct s, s'; try done; destruct (e ?= e') eqn:E; try done; cbn;
    fold (Pos.compare m m'); fold (Pos.compare m' m); rewrite (Pos.compare_antisym m m');
    by destruct (Pos.compare m m').
Qed.

Lemma d_lt_asym a b : d_lt a b = true -> d_lt b a = false.
Proof.
  unfold d_lt, SFltb. rewrite (d_compare_antisym a b). by destruct (SFcompare a b) as [[]|].
Qed.

Definition not_after (a b : double) : Prop := d_lt b a = false.

Lemma insert_sample_perm v l : insert_sample v l ≡ₚ v :: l.
Proof.
  induction l as [|x l IH]; [done|]. cbn. destruct (d_lt v x); [done|]. rewrite IH. apply Permutation_swap.
Qed.

Lemma insert_sample_sorted v l : Sorted not_after l -> Sorted not_after (insert_sample v l).
Proof.
  induction 1 as [|x l Hl IH Hx]; cbn; [by repeat constructor|].
  destruct (d_lt v x) eqn:E.
  - repeat (constructor; try done). by apply d_lt_asym.
  - constructor; [done|]. destruct l as [|y l]; cbn; [by constructor|].
    destruct (d_lt v y); constructor; [done|]. by inversion Hx.
Qed.

Lemma sort_samples_spec l : sort_samples l ≡ₚ l /\ Sorted not_after (sort_samples l).
Proof.
  induction l as [|v l [IHp IHs]]; [done|]. cbn. fold (sort_samples l). split.
  - by rewrite insert_sample_perm, IHp.
  - by apply insert_sample_sorted.
Qed.

(** The index of the 95th percentile, for every number of samples the ring can hold. *)
Lemma p95_index n :
  (1 <= n <= SAMPLE_RING)%nat -> percentile_index (d_of_Z 95) n = Some (Nat.div (95 * (n - 1)) 100).
Proof.
  intros Hn.
  assert (Forall (fun n => percentile_index (d_of_Z 95) n = Some (Nat.div (95 * (n - 1)) 100))
    (seq 1 SAMPLE_RING)) as H by (apply (bool_decide_unpack _); vm_compute; exact I).
  rewrite Forall_forall in H. apply H. apply elem_of_seq. lia.
Qed.

Lemma peak_in s : held_samples s <> [] -> peak s ∈ held_samples s.
Proof.
  unfold peak. destruct (held_samples s) as [|x l]; [done|]. intros _.
  assert (forall best, fold_left (fun b v => if d_lt b v then v else b) l best ∈ best :: l) as H; [|apply H].
  induction l as [|y l IH]; intros best; cbn; [set_solver|].
  specialize (IH (if d_lt best y then y else best)). rewrite elem_of_cons in IH |- *.
  destruct (d_lt best y); set_solver.
Qed.

(** The ring of throughput samples is the window of the last 1200 values: whatever was
    measured, the values kept are, up to order, the last ones; [sorted] is their ascending
    arrangement; the peak is one of them, and the 95th percentile is the one at position
    floor (95 (n - 1) / 100) of the arrangement, so no index leaves it. *)
Theorem samples_window vs :
  held_samples (pushes vs) ≡ₚ last_samples vs /\
  sorted (pushes vs) ≡ₚ last_samples vs /\ Sorted not_after (sorted (pushes vs)) /\
  (vs = [] -> peak (pushes vs) = d_zero /\ percentile (d_of_Z 95) (pushes vs) = Some d_zero) /\
  (vs <> [] -> peak (pushes vs) ∈ last_samples vs /\
    exists x, percentile (d_of_Z 95) (pushes vs) = Some x /\ x ∈ last_samples vs /\
      sorted (pushes vs) !! Nat.div (95 * (length (last_samples vs) - 1)) 100 = Some x).
Proof.
  pose proof (held_last vs) as Hh. destruct (sort_samples_spec (held_samples (pushes vs))) as [Hp Hs].
  fold (sorted (pushes vs)) in Hp, Hs.
  assert (sorted (pushes vs) ≡ₚ last_samples vs) as Hsl by by etrans.
  split_and!; [done|done|done|by intros ->|]. intros Hne.
  assert (1 <= length (last_samples vs) <= SAMPLE_RING)%nat as Hn.
  { unfold last_samples. rewrite length_drop. destruct vs; [done|]. cbn [length].
    unfold SAMPLE_RING. lia. }
  split.
  - rewrite <-Hh. apply peak_in. intros E. rewrite E in Hh. apply Permutation_nil_l in Hh.
    rewrite <-Hh in Hn. cbn in Hn. lia.
  - pose proof (Permutation_length Hsl) as Hl. unfold percentile.
    destruct (sorted (pushes vs)) as [|y l] eqn:E; [cbn in Hl; lia|]. rewrite <-E in *.
    rewrite Hl, p95_index by done. cbn [mbind option_bind].
    assert (Nat.div (95 * (length (last_samples vs) - 1)) 100 <= length (last_samples vs) - 1)%nat as Hi
      by (apply Nat.Div0.div_le_upper_bound; lia).
    rewrite Nat.min_l by done.
    destruct (lookup_lt_is_Some_2 (sorted (pushes vs)) (Nat.div (95 * (length (last_samples vs) - 1)) 100))
      as [x Hx]; [lia|].
    exists x. split_and!; [done| |done]. rewrite <-Hsl. by eapply list_elem_of_lookup_2.
Qed.

(** ** Grouped decimal numbers *)

Definition digit (d : Z) : byte := z2b (48 + d).

Lemma pretty_N_go_app x s :
  str_bytes (pretty.pretty_N_go x s) = str_bytes (pretty.pretty_N_go x "") ++ str_bytes s.
Proof.
  revert s. induction (N.lt_wf_0 x) as [x _ IH]. intros s.
  destruct (decide (x = 0)%N) as [->|Hx]; [done|].
  rewrite !(pretty.pretty_N_go_step x) by lia.
  assert (x `div` 10 < x)%N as Hlt by (apply N.div_lt; lia).
  rewrite (IH _ Hlt), (IH _ Hlt (String _ "")), <-app_assoc. done.
Qed.

Lemma dec_pos n : 0 < n -> dec n = str_bytes (pretty.pretty_N_go (Z.to_N n) "").
Proof. intros Hn. by destruct n. Qed.

Lemma digit_glyph d : (d < 10)%N -> str_bytes (String (pretty.pretty_N_char d) "") = [digit (Z.of_N d)].
Proof.
  intros Hd. assert (d ∈ [0;1;2;3;4;5;6;7;8;9]%N) as Hin by (rewrite !elem_of_cons; lia).
  rewrite !elem_of_cons in Hin. destruct_or! Hin; try (subst; reflexivity). by apply elem_of_nil in Hin.
Qed.

Lemma dec_step n : 0 < n -> dec n = (if n <? 10 then [] else dec (n / 10)) ++ [digit (n mod 10)].
Proof.
  intros Hn. rewrite dec_pos, pretty.pretty_N_go_step, pretty_N_go_app, digit_glyph by
    (try apply N.mod_lt; lia).
  replace (Z.of_N (Z.to_N n `mod` 10)) with (n mod 10) by (rewrite N2Z.inj_mod; f_equal; lia).
  f_equal. replace (Z.to_N n `div` 10)%N with (Z.to_N (n / 10)) by (rewrite Z2N.inj_div by lia; done).
  destruct (Z.ltb_spec n 10).
  - by rewrite Z.div_small by lia.
  - rewrite dec_pos; [done|]. apply Z.div_str_pos. lia.
Qed.

Definition triple (n : Z) : bytes := [digit (n / 100); digit (n / 10 mod 10); digit (n mod 10)].

Lemma triple_padded n : 0 <= n < 1000 -> pad_left x30 3 (dec n) = triple n.
Proof.
  intros Hn. assert (Forall (fun k => pad_left x30 3 (dec (Z.of_nat k)) = triple (Z.of_nat k)) (seq 0 1000)) as H
    by (apply (bool_decide_unpack _); vm_compute; exact I).
  rewrite Forall_forall in H. specialize (H (Z.to_nat n)). rewrite Z2Nat.id in H by lia.
  apply H, elem_of_seq. lia.
Qed.

Lemma dec_thousands n : 1000 <= n -> dec n = dec (n / 1000) ++ pad_left x30 3 (dec (n mod 1000)).
Proof.
  intros Hn. rewrite triple_padded by (apply Z.mod_pos_bound; lia).
  assert (10 <= n / 10 /\ 10 <= n / 10 / 10) as [H1 H2].
  { split; repeat apply Z.div_le_lower_bound; lia. }
  rewrite (dec_step n) by lia. destruct (Z.ltb_spec n 10); [lia|].
  rewrite (dec_step (n / 10)) by lia. destruct (Z.ltb_spec (n / 10) 10); [lia|].
  rewrite (dec_step (n / 10 / 10)) by lia. destruct (Z.ltb_spec (n / 10 / 10) 10); [lia|].
  rewrite <-!app_assoc. cbn [app]. rewrite !Z.div_div by lia. unfold triple.
  change (10 * 10) with 100. change (10 * 100) with 1000. change (100 * 10) with 1000.
  assert (n = 1000 * (n / 1000) + n mod 1000) as E by (apply Z.div_mod; lia).
  pose proof (Z.mod_pos_bound n 1000 ltac:(lia)) as Hm. set (q := n / 1000) in *. set (r := n mod 1000) in *.
  clearbody q r. subst n.
  assert ((1000 * q + r) / 100 mod 10 = r / 100) as ->.
  { replace ((1000 * q + r) / 100) with (r / 100 + q * 10)
      by (rewrite <-(Z.div_add _ _ 100) by lia; f_equal; lia).
    rewrite Z.mod_add by lia. apply Z.mod_small.
    split; [apply Z.div_pos; lia|apply Z.div_lt_upper_bound; lia]. }
  assert ((1000 * q + r) / 10 mod 10 = r / 10 mod 10) as ->.
  { replace ((1000 * q + r) / 10) with (r / 10 + (10 * q) * 10)
      by (rewrite <-(Z.div_add _ _ 10) by lia; f_equal; lia). by rewrite Z.mod_add by lia. }
  replace (1000 * q + r) with (r + (100 * q) * 10) by lia. by rewrite Z.mod_add by lia.
Qed.

(** The loop does not look past the insertion point. *)
Lemma insert_commas_app fuel p a b :
  p <= Z.of_nat (length a) -> insert_commas fuel p (a ++ b) = insert_commas fuel p a ++ b.
Proof.
  revert p a. induction fuel as [|fuel IH]; intros p a Hp; [done|]. cbn.
  destruct (Z.ltb_spec 0 p); [|done].
  rewrite take_app_le, drop_app_le by lia.
  replace (take (Z.to_nat p) a ++ x2c :: drop (Z.to_nat p) a ++ b)
    with ((take (Z.to_nat p) a ++ x2c :: drop (Z.to_nat p) a) ++ b) by by rewrite <-app_assoc.
  rewrite IH; [done|]. rewrite length_app, length_take. cbn [length]. rewrite length_drop. lia.
Qed.

Lemma insert_commas_fuel f1 f2 p s :
  p <= Z.of_nat f1 -> p <= Z.of_nat f2 -> insert_commas f1 p s = insert_commas f2 p s.
Proof.
  revert f2 p s. induction f1 as [|f1 IH]; intros [|f2] p s H1 H2; cbn; [done| | |];
    destruct (Z.ltb_spec 0 p); try done; try lia. apply IH; lia.
Qed.

(** Numbers are printed with a comma before every three digits, and only there: a
    number below 1000 is its decimal text, any other is its thousands, a comma and the
    three digits of the rest. *)
Theorem fmt_num_groups n :
  0 <= n -> fmt_num n = if n <? 1000 then dec n
                        else fmt_num (n / 1000) ++ [x2c] ++ pad_left x30 3 (dec (n mod 1000)).
Proof.
  intros Hn. unfold fmt_num. destruct (Z.ltb_spec n 1000) as [Hlt|Hge].
  - assert (Forall (fun k => (length (dec (Z.of_nat k)) <= 3)%nat) (seq 0 1000)) as H
      by (apply (bool_decide_unpack _); vm_compute; exact I).
    rewrite Forall_forall in H. specialize (H (Z.to_nat n)). rewrite Z2Nat.id in H by lia.
    assert (length (dec n) <= 3)%nat as Hl by (apply H, elem_of_seq; lia).
    by rewrite (insert_commas_fuel _ 0) by lia.
  - rewrite (dec_thousands n) by done. set (a := dec (n / 1000)).
    rewrite triple_padded by (apply Z.mod_pos_bound; lia). set (t := triple (n mod 1000)).
    assert (0 < length a)%nat as Ha.
    { unfold a. rewrite dec_step by (apply Z.div_str_pos; lia). rewrite length_app. cbn. lia. }
    rewrite length_app. change (length t) with 3%nat.
    replace (length a + 3)%nat with (S (length a + 2)) by lia. cbn [insert_commas].
    destruct (Z.ltb_spec 0 (Z.of_nat (S (length a + 2)) - 3)); [|lia].
    replace (Z.of_nat (S (length a + 2)) - 3) with (Z.of_nat (length a)) by lia.
    rewrite Nat2Z.id, take_app_length, drop_app_length.
    rewrite insert_commas_app by lia. f_equal. apply insert_commas_fuel; lia.
Qed.

(** ** The table on the screen *)

(** Columns a terminal shows for a line: characters, without the escape sequences (up to
    their final [m]) and the line end. *)
Fixpoint columns (esc : bool) (s : bytes) : Z :=
  match s with
  | [] => 0
  | b :: s =>
      if esc then columns (negb (bool_decide (b = x6d))) s
      else if bool_decide (b = ESC) then columns true s
      else (if is_continuation b || bool_decide (b = x0a) then 0 else 1) + columns false s
  end.

(** Text that can stand in a cell. *)
Definition plain (s : bytes) : Prop := Forall (fun b => b <> ESC /\ b <> x0a) s.

Lemma columns_plain s k : plain s -> columns false (s ++ k) = utf8_len s + columns false k.
Proof.
  intros Hs. induction Hs as [|b s [Hb Hn] Hs IH]; [done|]. cbn [app columns].
  rewrite !bool_decide_false, orb_false_r, IH by done. unfold utf8_len. cbn [List.filter].
  destruct (is_continuation b); cbn [negb length]; lia.
Qed.

Lemma columns_sgr code k :
  Forall (fun b => b <> x6d) (str_bytes code) -> columns false (sgr code ++ k) = columns false k.
Proof.
  intros Hc. unfold sgr. rewrite <-!app_assoc. cbn [app]. cbn [columns].
  rewrite bool_decide_true, bool_decide_false by done. cbn [negb].
  induction Hc as [|b s Hb Hs IH]; cbn [app columns].
  - by rewrite bool_decide_true.
  - by rewrite bool_decide_false.
Qed.

Lemma utf8_len_app a b : utf8_len (a ++ b) = utf8_len a + utf8_len b.
Proof. unfold utf8_len. rewrite List.filter_app, length_app. lia. Qed.

Lemma utf8_len_rep n b : 0 <= n -> utf8_len (rep n b) = n * utf8_len b.
Proof.
  intros Hn. unfold rep. rewrite <-(Z2Nat.id n) at 2 by lia. induction (Z.to_nat n) as [|k IH]; [done|].
  cbn [replicate concat]. rewrite utf8_len_app, IH. lia.
Qed.

Lemma plain_rep n b : plain b -> plain (rep n b).
Proof. intros Hb. unfold rep. induction (Z.to_nat n); [by constructor|]. by apply Forall_app. Qed.

Lemma plain_app a b : plain (a ++ b) <-> plain a /\ plain b.
Proof. apply Forall_app. Qed.

Lemma plain_dec s : bool_decide (Forall (fun b => b <> ESC /\ b <> x0a) s) = true -> plain s.
Proof. by intros H%bool_decide_eq_true_1. Qed.

(** The frame of the summary is straight: a row is exactly 60 columns wide, whatever
    its colour, when its label and its value together have at most 53 characters, and so
    are the lines between the rows and the title; a longer value pushes the right border
    out by exactly its excess. *)
Theorem row_width label value code :
  plain label -> plain value -> Forall (fun b => b <> x6d) (str_bytes code) ->
  columns false (print_row label value (sgr code)) = columns false (print_row label value []) /\
  columns false (print_row label value []) = Z.max 60 (utf8_len label + utf8_len value + 7) /\
  columns false sep = 60 /\ columns false title_line = 60.
Proof.
  intros Hl Hv Hc. set (pad := 58 - utf8_len (row_prefix label) - utf8_len value).
  assert (plain (row_prefix label)) as Hp
    by (unfold row_prefix; rewrite !plain_app; split_and!; [by apply plain_dec|done|by apply plain_dec]).
  assert (plain BOX_V) as HV by by apply plain_dec.
  assert (utf8_len (row_prefix label) = utf8_len label + 5) as Hlen.
  { unfold row_prefix. rewrite !utf8_len_app. change (utf8_len (str_bytes "  ")) with 2.
    change (utf8_len (str_bytes " : ")) with 3. lia. }
  assert (columns false (value ++ sgr "0" ++ rep pad [x20] ++ BOX_V ++ NL) =
    utf8_len value + (Z.max 0 pad + 1)) as Htail.
  { rewrite columns_plain, columns_sgr by (done || by repeat constructor).
    rewrite columns_plain by (apply plain_rep; by apply plain_dec).
    change (columns false (BOX_V ++ NL)) with 1. f_equal. f_equal.
    destruct (Z.le_gt_cases 0 pad).
    - rewrite utf8_len_rep by done. change (utf8_len [x20]) with 1. lia.
    - unfold rep. replace (Z.to_nat pad) with 0%nat by lia. change (utf8_len (concat (replicate 0 [x20]))) with 0. lia. }
  assert (columns false (print_row label value (sgr code)) = columns false (print_row label value [])) as H1.
  { unfold print_row. rewrite !(columns_plain BOX_V), !(columns_plain (row_prefix label)) by done.
    by rewrite columns_sgr. }
  split_and!; [done| |vm_compute; reflexivity|vm_compute; reflexivity].
  unfold print_row. rewrite (columns_plain BOX_V), (columns_plain (row_prefix label)) by done.
  cbn [app]. fold pad. rewrite Htail. change (utf8_len BOX_V) with 1. unfold pad. lia.
Qed.

Lemma row_width_witness :
  columns false (print_row (str_bytes "Status") (str_bytes "DONE (OK)") c_green) = 60.
Proof.
  destruct (row_width (str_bytes "Status") (str_bytes "DONE (OK)") "1;32") as (H1 & H2 & _);
    [by apply plain_dec|by apply plain_dec|by repeat constructor|].
  unfold c_green. rewrite H1, H2. vm_compute. reflexivity.
Defined.

(** The rows of the histogram are five columns short of the frame. *)
Lemma histogram_row_narrow :
  exists row, histogram_row (d_of_Z 1) (d_of_Z 9) 8 0 4 = Some row /\ columns false row = 55.
Proof. eexists. split; [vm_compute; reflexivity|vm_compute; reflexivity]. Qed.

(** Every sample is counted in one bin. *)
Definition sum_Z (l : list Z) : Z := foldr Z.add 0 l.

Lemma sum_insert i n (l : list Z) : l !! i = Some n -> sum_Z (<[i := n + 1]> l) = sum_Z l + 1.
Proof.
  revert i. induction l as [|x l IH]; intros [|i]; cbn; try done.
  - intros [= ->]. unfold sum_Z. cbn. lia.
  - intros H. unfold sum_Z in *. cbn. rewrite IH by done. lia.
Qed.

Lemma histogram_counts sv bins :
  histogram sv = Some bins -> length bins = BINS /\ sum_Z bins = Z.of_nat (length sv).
Proof.
  assert (forall lo hi vs b0 bins, fold_left (count_bin lo hi) vs (Some b0) = Some bins ->
    length bins = length b0 /\ sum_Z bins = sum_Z b0 + Z.of_nat (length vs)) as H.
  { intros lo hi vs. induction vs as [|v vs IH]; intros b0 bs; cbn [fold_left]; [intros [= ->]; cbn; lia|].
    assert (forall vs', fold_left (count_bin lo hi) vs' None = None) as Hnone
      by (intros vs'; induction vs'; done).
    unfold count_bin at 2. cbn [mbind option_bind].
    destruct (bin_of lo hi v) as [b|]; cbn [mbind option_bind]; [|by rewrite Hnone].
    destruct (0 <=? Z.min b (Z.of_nat BINS - 1)); [|by rewrite Hnone].
    destruct (b0 !! Z.to_nat (Z.min b (Z.of_nat BINS - 1))) as [n|] eqn:E; cbn [mbind option_bind];
      [|by rewrite Hnone].
    intros Hf. destruct (IH _ _ Hf) as [-> ->]. rewrite length_insert, sum_insert by done. cbn [length]. lia. }
  unfold histogram. destruct sv as [|lo sv]; [intros [= <-]; done|]. intros Hf.
  destruct (H _ _ _ _ _ Hf) as [-> ->]. split; [done|]. change (sum_Z (replicate BINS 0)) with 0. lia.
Qed.

Lemma fmt_num_groups_witness :
  0 <= 1234567 /\ fmt_num 1234567 = fmt_num 1234 ++ [x2c] ++ pad_left x30 3 (dec 567).
Proof. split; [lia|]. rewrite (fmt_num_groups 1234567) by lia. reflexivity. Defined.
