(* ===== verification/Bench.v ===== *)
(** * The benchmark client ([cli/bench.cpp], [cli/bench.hpp])

    The sender threads as a step relation over the two atomic counters and the stop flag,
    and the sequential parts of [run_benchmark]: the wait for the handshake, the ICE
    upgrade, the monitor loop and the flush, each over the list of what it observes in its
    iterations (times in nanoseconds since the start of the loop). *)

From Stdlib Require Import ZArith Strings.Byte String Lia.
From stdpp Require Import base list strings numbers relations.
From S2P Require Import Prelude Signals Double Dashboard.

Local Open Scope Z_scope.

Record BenchConfig := mk_bench_cfg {
  bc_target : string;
  bc_threads : Z;
  bc_pkt_limit : Z;
  bc_pkt_size_kb : Z;
  bc_report_hz : double;
  bc_timeout : double;
  bc_no_color : bool;
  bc_ice_upgrade : bool;
}.

Record BenchResult := mk_bench_result {
  br_total_sec : double;
  br_total_bytes : Z;
  br_total_pkts : Z;
  br_throughput : Samples;
  br_stats : Accum;
  br_exit_status : Z;
}.

(** ** Sender threads *)

(** Where a worker stands in its loop. *)
Inductive wstate :=
  | WLoop      (* before the load of keep_running *)
  | WRunning   (* keep_running was true; before the check of the packet limit *)
  | WChecked   (* about to send *)
  | WSent      (* the send succeeded; before the byte counter *)
  | WBytes     (* before the packet counter *)
  | WDone.

Record bench := mk_bench {
  b_running : bool;
  b_pkts : Z;
  b_bytes : Z;
  b_workers : list wstate;
}.

Definition bench_init (threads : nat) : bench := mk_bench true 0 0 (replicate threads WLoop).

Section workers.
Variables (limit psz : Z).

Definition limit_reached (pkts : Z) : bool := (0 <? limit) && (limit <=? pkts).

Definition at_worker (t : nat) (w : wstate) (b : bench) : bench :=
  mk_bench (b_running b) (b_pkts b) (b_bytes b) (<[t := w]> (b_workers b)).

Inductive bstep : bench -> bench -> Prop :=
  | b_stop b : bstep b (mk_bench false (b_pkts b) (b_bytes b) (b_workers b))
  | b_enter b t :
      b_workers b !! t = Some WLoop -> b_running b = true -> bstep b (at_worker t WRunning b)
  | b_leave b t :
      b_workers b !! t = Some WLoop -> b_running b = false -> bstep b (at_worker t WDone b)
  | b_limit b t :
      b_workers b !! t = Some WRunning -> limit_reached (b_pkts b) = true ->
      bstep b (at_worker t WDone b)
  | b_go b t :
      b_workers b !! t = Some WRunning -> limit_reached (b_pkts b) = false ->
      bstep b (at_worker t WChecked b)
  | b_failed b t : b_workers b !! t = Some WChecked -> bstep b (at_worker t WLoop b)
  | b_sent b t : b_workers b !! t = Some WChecked -> bstep b (at_worker t WSent b)
  | b_count_bytes b t :
      b_workers b !! t = Some WSent ->
      bstep b (mk_bench (b_running b) (b_pkts b) (u64 (b_bytes b + psz)) (<[t := WBytes]> (b_workers b)))
  | b_count_packet b t :
      b_workers b !! t = Some WBytes ->
      bstep b (mk_bench (b_running b) (u64 (b_pkts b + 1)) (b_bytes b) (<[t := WLoop]> (b_workers b))).

(** Packets a worker may still add, and packets whose bytes are already counted. *)
Definition sending (w : wstate) : Z := match w with WChecked | WSent | WBytes => 1 | _ => 0 end.
Definition counted (w : wstate) : Z := match w with WBytes => 1 | _ => 0 end.

Definition total (f : wstate -> Z) (ws : list wstate) : Z := sum_Z (map f ws).

Lemma workers_insert f t w w0 ws :
  ws !! t = Some w0 -> total f (<[t := w]> ws) = total f ws - f w0 + f w.
Proof.
  revert t. unfold total. induction ws as [|x ws IH]; intros [|t] H; try done; cbn in *.
  - injection H as ->. unfold sum_Z. cbn. lia.
  - unfold sum_Z in *. cbn. rewrite IH by done. lia.
Qed.

Lemma workers_le f ws : (forall w, f w <= 1) -> total f ws <= Z.of_nat (length ws).
Proof.
  intros Hf. unfold total, sum_Z. induction ws as [|w ws IH]; cbn; [lia|]. specialize (Hf w). lia.
Qed.

Lemma workers_nonneg f ws : (forall w, 0 <= f w) -> 0 <= total f ws.
Proof.
  intros Hf. unfold total, sum_Z. induction ws as [|w ws IH]; cbn; [lia|]. specialize (Hf w). lia.
Qed.

Lemma total_zero f ws : Forall (fun w => f w = 0) ws -> total f ws = 0.
Proof. unfold total, sum_Z. induction 1; cbn; lia. Qed.

Record bench_inv (n : nat) (b : bench) : Prop := mk_bench_inv {
  bi_threads : length (b_workers b) = n;
  bi_pkts : 0 <= b_pkts b;
  bi_limit : 0 < limit -> b_pkts b + total sending (b_workers b) <= limit - 1 + Z.of_nat n;
  bi_bytes : 0 < limit -> b_bytes b = u64 (psz * (b_pkts b + total counted (b_workers b)));
  bi_done : b_running b = true -> WDone ∈ b_workers b -> 0 < limit <= b_pkts b;
}.

Lemma done_insert (t : nat) w (ws : list wstate) :
  WDone ∈ <[t := w]> ws -> w <> WDone -> WDone ∈ ws.
Proof.
  intros H Hw. apply list_elem_of_lookup in H as [i Hi].
  destruct (decide (i = t)) as [->|Hne].
  - apply list_lookup_insert_Some in Hi as [(_ & ? & _)|(? & _)]; congruence.
  - rewrite list_lookup_insert_ne in Hi by done. by eapply list_elem_of_lookup_2.
Qed.

Lemma u64_add_l a b : u64 (u64 a + b) = u64 (a + b).
Proof. unfold u64, wrap. by rewrite Z.add_mod_idemp_l by done. Qed.

(** A worker moves and the counters stay. *)
Lemma bench_inv_move n b t w0 w :
  0 < limit -> bench_inv n b -> b_workers b !! t = Some w0 -> counted w = counted w0 ->
  (sending w <= sending w0 \/ b_pkts b < limit) ->
  (w = WDone -> b_running b = true -> limit <= b_pkts b) ->
  bench_inv n (at_worker t w b).
Proof.
  intros Hlim [H1 H2 H3 H4 H5] Ht Hc Hs Hd. specialize (H3 Hlim). specialize (H4 Hlim).
  split; cbn [at_worker b_running b_pkts b_bytes b_workers]; rewrite ?length_insert; [done|done|..].
  - intros _. destruct Hs as [Hs|Hs]; [rewrite (workers_insert _ _ _ _ _ Ht); lia|].
    pose proof (workers_le sending (<[t := w]> (b_workers b)) ltac:(by intros [])) as Hle.
    rewrite length_insert in Hle. lia.
  - intros _. rewrite (workers_insert _ _ _ _ _ Ht), Hc, H4. f_equal. lia.
  - intros Hr Hin. destruct w; try (apply H5; [done|by eapply done_insert]). auto.
Qed.

Lemma bench_inv_step n b b' :
  limit + Z.of_nat n < 2 ^ 64 -> 0 < limit -> bench_inv n b -> bstep b b' -> bench_inv n b'.
Proof.
  intros Hn Hlim Hinv Hstep. pose proof Hinv as [H1 H2 H3 H4 H5].
  specialize (H3 Hlim). specialize (H4 Hlim). unfold limit_reached in *.
  inversion Hstep as [b0|b0 t Ht Hr|b0 t Ht Hr|b0 t Ht Hr|b0 t Ht Hr|b0 t Ht|b0 t Ht|b0 t Ht|b0 t Ht];
    subst b0; subst b'.
  - by split.
  - eapply bench_inv_move; try done. by left.
  - eapply bench_inv_move; try done; [by left|congruence].
  - apply andb_prop in Hr as [_ Hr%Z.leb_le]. eapply bench_inv_move; try done. by left.
  - apply andb_false_iff in Hr as [Hr%Z.ltb_ge|Hr%Z.leb_gt]; [lia|].
    eapply bench_inv_move; try done. by right.
  - eapply bench_inv_move; try done. left. done.
  - eapply bench_inv_move; try done. by left.
  - split; cbn [b_running b_pkts b_bytes b_workers];
      rewrite ?length_insert, ?(workers_insert _ _ _ _ _ Ht); cbn [sending counted]; [done|done|lia| |].
    + intros _. rewrite H4, u64_add_l. f_equal. lia.
    + intros Hr Hd. apply H5; [done|by eapply done_insert].
  - pose proof (workers_insert sending t WLoop WBytes _ Ht) as Es. cbn [sending] in Es.
    pose proof (workers_nonneg sending (<[t := WLoop]> (b_workers b)) ltac:(by intros [])) as Hs0.
    assert (u64 (b_pkts b + 1) = b_pkts b + 1) as Ew by (apply wrap_small; unfold fits; lia).
    split; cbn [b_running b_pkts b_bytes b_workers]; rewrite ?length_insert, ?Ew; [done|lia|lia| |].
    + intros _. rewrite (workers_insert _ _ _ _ _ Ht), H4. cbn [counted]. f_equal. lia.
    + intros Hr Hd. assert (0 < limit <= b_pkts b) by (apply H5; [done|by eapply done_insert]). lia.
Qed.

Lemma bench_inv_init n : bench_inv n (bench_init n).
Proof.
  assert (forall f, f WLoop = 0 -> total f (replicate n WLoop) = 0) as H0.
  { intros f Hf. apply total_zero, Forall_replicate, Hf. }
  split; cbn [bench_init b_running b_pkts b_bytes b_workers];
    [apply length_replicate|done|rewrite H0 by done; lia|rewrite H0 by done; by rewrite Z.mul_0_r|].
  intros _ Hin. apply elem_of_replicate in Hin as [? _]. done.
Qed.

(** The packet limit of the benchmark.  In every interleaving of the sender threads
    with a limit, the packets counted never exceed the limit by more than the number of
    threads less one (each thread checks before it sends), and that much can happen; when
    every thread has finished, the byte counter is the packet size times the packet
    counter, and if nobody asked the threads to stop the limit was reached. *)
Theorem bench_packets n b :
  0 < limit -> limit + Z.of_nat n < 2 ^ 64 -> rtc bstep (bench_init n) b ->
  0 <= b_pkts b <= limit - 1 + Z.of_nat n /\
  (Forall (eq WDone) (b_workers b) ->
    b_bytes b = u64 (psz * b_pkts b) /\ (b_running b = true -> (0 < n)%nat -> limit <= b_pkts b)).
Proof.
  intros Hlim Hn Hr.
  assert (bench_inv n b) as [H1 H2 H3 H4 H5].
  { revert Hr. apply rtc_ind_r; [apply bench_inv_init|].
    intros x y _ Hs Hi. by eapply bench_inv_step. }
  specialize (H3 Hlim). specialize (H4 Hlim).
  pose proof (workers_nonneg sending (b_workers b) ltac:(by intros [])) as Hs0.
  split; [lia|]. intros Hd. split.
  - rewrite H4, (total_zero counted), Z.add_0_r; [done|].
    eapply Forall_impl; [exact Hd|]. by intros w <-.
  - intros Hrun Hpos. apply H5; [done|]. destruct (b_workers b) as [|w ws]; [cbn in H1; lia|].
    inversion Hd; subst. apply elem_of_cons. by left.
Qed.
End workers.

(** Two threads, a limit of one packet: both pass the check. *)
Lemma bench_overshoot : exists b, rtc (bstep 1 1024) (bench_init 2) b /\ b_pkts b = 2.
Proof.
  exists (mk_bench true 2 2048 [WLoop; WLoop]). split; [|done].
  eapply rtc_l; [apply (b_enter _ _ _ 0); done|]. eapply rtc_l; [apply (b_enter _ _ _ 1); done|].
  eapply rtc_l; [apply (b_go _ _ _ 0); done|]. eapply rtc_l; [apply (b_go _ _ _ 1); done|].
  eapply rtc_l; [apply (b_sent _ _ _ 0); done|]. eapply rtc_l; [apply (b_sent _ _ _ 1); done|].
  eapply rtc_l; [apply (b_count_bytes _ _ _ 0); done|]. eapply rtc_l; [apply (b_count_bytes _ _ _ 1); done|].
  eapply rtc_l; [apply (b_count_packet _ _ _ 0); done|]. eapply rtc_l; [apply (b_count_packet _ _ _ 1); done|].
  done.
Qed.

Lemma bench_packets_witness :
  exists b, rtc (bstep 1 1024) (bench_init 2) b /\ b_pkts b = 2 /\ 0 <= b_pkts b <= 1 - 1 + Z.of_nat 2.
Proof.
  destruct bench_overshoot as (b & Hr & Hb). exists b. split_and!; [exact Hr|exact Hb|..].
  - apply (bench_packets 1 1024 2 b); [lia|reflexivity|exact Hr].
  - apply (bench_packets 1 1024 2 b); [lia|reflexivity|exact Hr].
Defined.

(** ** The sequential part *)

(** A polling loop: the condition, then the deadline.  [Some true]: the deadline passed;
    [None]: still polling after all observations. *)
Fixpoint poll {O} (waiting late : O -> bool) (obs : list O) : option bool :=
  match obs with
  | [] => None
  | o :: obs => if waiting o then if late o then Some true else poll waiting late obs else Some false
  end.

(** What one iteration of a wait sees: the stop flag, the established connections, the
    number of connections and the time since the wait began. *)
Record wait_obs := mk_wait_obs {
  wo_running : bool;
  wo_active : list Z;
  wo_connections : Z;
  wo_elapsed : Z;
}.

Definition later_than (timeout : double) (o : wait_obs) : bool := d_lt timeout (seconds (wo_elapsed o)).

Definition wait_handshake (timeout : double) : list wait_obs -> option bool :=
  poll (fun o => wo_running o && bool_decide (wo_active o = [])) (later_than timeout).

(** [try_ice_upgrade]: [peer] is the key of the first connection that has one, [found] the
    connections when the loop ends. *)
Definition wait_ice : list wait_obs -> option bool :=
  poll (fun o => wo_running o && (wo_connections o <? 2)) (later_than (d_of_Z 30)).

Definition try_ice_upgrade (primary : Z) (peer : option bytes) (obs : list wait_obs)
    (connections : Z) (found : list Z) : option Z :=
  match peer with
  | None => Some primary
  | Some _ =>
      late ← wait_ice obs;
      Some (if (late : bool) then primary
            else if 2 <=? connections then
              default primary (List.find (fun cid => negb (cid =? primary)) found)
            else primary)
  end.

(** What one iteration of the monitor sees, and its state. *)
Record monitor_obs := mk_monitor_obs {
  mo_running : bool;
  mo_running_after_sleep : bool;
  mo_dt : Z;
  mo_total : Z;
  mo_bytes : Z;
  mo_pkts : Z;
  mo_backlog : Z;
  mo_stats : Accum;
}.

Record monitor := mk_monitor {
  mn_last_bytes : Z;
  mn_peak : double;
  mn_samples : Samples;
  mn_output : list (option bytes);
}.

Definition monitor_init : monitor := mk_monitor 0 d_zero samples_init [].

Definition gbps (delta : Z) (dt : double) : double :=
  d_div (d_div (d_mul (d_of_Z delta) (d_of_Z 8)) dt) (d_of_Z 1000000000).

Definition plain_line (total_sec g pkt_s : double) (bytes_sent : Z) (backlog_mb : double) : option bytes :=
  sent ← fmt_bytes (d_of_Z bytes_sent);
  Some ([x5b] ++ fmt_f 0 total_sec ++ str_bytes "s] " ++ fmt_f 2 g ++ str_bytes " Gbps | " ++ fmt_f 0 pkt_s
        ++ str_bytes " pkt/s | Sent " ++ sent ++ str_bytes " | Backlog " ++ fmt_f 1 backlog_mb
        ++ str_bytes " MB" ++ NL).

Definition monitor_step (cfg : BenchConfig) (o : monitor_obs) (m : monitor) : monitor :=
  let dt := seconds (mo_dt o) in
  let total_sec := seconds (mo_total o) in
  let g := gbps (u64 (mo_bytes o - mn_last_bytes m)) dt in
  let pkt_s := if d_lt d_zero total_sec then d_div (d_of_Z (mo_pkts o)) total_sec else d_zero in
  let pk := if d_lt (mn_peak m) g then g else mn_peak m in
  let backlog_mb := d_div (d_of_Z (mo_backlog o)) (d_of_Z 1000000) in
  let out := if bc_no_color cfg then plain_line total_sec g pkt_s (mo_bytes o) backlog_mb
             else print_live g pk pkt_s total_sec (mo_bytes o) (mo_pkts o) backlog_mb (mo_stats o) in
  mk_monitor (mo_bytes o) pk (push g (mn_samples m)) (mn_output m ++ [out]).

(** [None]: the loop is still running. *)
Fixpoint monitor_loop (cfg : BenchConfig) (obs : list monitor_obs) (m : monitor) : option monitor :=
  match obs with
  | [] => None
  | o :: obs =>
      if negb (mo_running o) then Some m
      else if negb (mo_running_after_sleep o) then Some m
      else
        let m := monitor_step cfg o m in
        if limit_reached (bc_pkt_limit cfg) (mo_pkts o) then Some m else monitor_loop cfg obs m
  end.

(** Everything a run observes. *)
Record bench_env := mk_bench_env {
  be_wait : list wait_obs;
  be_running_after_wait : bool;
  be_first_conn : Z;
  be_peer : option bytes;
  be_ice : list wait_obs;
  be_connections : Z;
  be_conn_ids : list Z;
  be_running_after_ice : bool;
  be_monitor : list monitor_obs;
  be_total : Z;
  be_total_bytes : Z;
  be_total_pkts : Z;
  be_stats : Accum;
}.

Definition empty_result (exit_status : Z) : BenchResult :=
  mk_bench_result d_zero 0 0 samples_init accum_init exit_status.

(** The connection the workers use ([None] before they start) and the result; [None]: the
    run has not ended.  After the monitor the stop flag is cleared, the workers are joined
    and the flush of at most five seconds changes nothing of the result. *)
Definition run_benchmark (cfg : BenchConfig) (e : bench_env) : option (option Z * BenchResult) :=
  late ← wait_handshake (bc_timeout cfg) (be_wait e);
  if (late : bool) then Some (None, empty_result 1)
  else if negb (be_running_after_wait e) then Some (None, empty_result 0)
  else
    conn ← (if bc_ice_upgrade cfg
            then try_ice_upgrade (be_first_conn e) (be_peer e) (be_ice e) (be_connections e) (be_conn_ids e)
            else Some (be_first_conn e));
    if negb (be_running_after_ice e) then Some (None, empty_result 0)
    else
      m ← monitor_loop cfg (be_monitor e) monitor_init;
      Some (Some conn, mk_bench_result (seconds (be_total e)) (be_total_bytes e) (be_total_pkts e)
                         (mn_samples m) (be_stats e) 0).

(** The status is 1 exactly when the handshake timed out, and never 2. *)
Lemma run_benchmark_status cfg e conn r :
  run_benchmark cfg e = Some (conn, r) ->
  br_exit_status r = if bool_decide (wait_handshake (bc_timeout cfg) (be_wait e) = Some true) then 1 else 0.
Proof.
  unfold run_benchmark. destruct (wait_handshake _ _) as [[]|]; cbn [mbind option_bind]; [by intros [= <- <-]| |done].
  rewrite bool_decide_false by done. destruct (be_running_after_wait e); cbn [negb]; [|by intros [= <- <-]].
  destruct (if bc_ice_upgrade cfg then _ else _); cbn [mbind option_bind]; [|done].
  destruct (be_running_after_ice e); cbn [negb]; [|by intros [= <- <-]].
  destruct (monitor_loop _ _ _); cbn [mbind option_bind]; [by intros [= <- <-]|done].
Qed.

(** The samples of a run are one throughput per iteration of the monitor. *)
Lemma monitor_samples cfg obs m m' vs :
  monitor_loop cfg obs m = Some m' -> mn_samples m = pushes vs ->
  exists ws, mn_samples m' = pushes (vs ++ ws) /\ (length ws <= length obs)%nat.
Proof.
  revert m vs. induction obs as [|o obs IH]; intros m vs; cbn [monitor_loop]; [done|].
  destruct (mo_running o), (mo_running_after_sleep o); cbn [negb];
    try (intros [= <-] H; exists []; rewrite app_nil_r; cbn; split; [done|lia]).
  intros H Hs. set (m1 := monitor_step cfg o m) in H.
  assert (exists v, mn_samples m1 = pushes (vs ++ [v])) as [v Hv].
  { eexists. unfold m1, monitor_step. cbn [mn_samples]. rewrite Hs. unfold pushes. by rewrite fold_left_app. }
  destruct (limit_reached _ _).
  - injection H as <-. exists [v]. cbn. split; [done|lia].
  - destruct (IH m1 _ H Hv) as (ws & Hw & Hl). exists (v :: ws). rewrite Hw, <-app_assoc. cbn. split; [done|lia].
Qed.

(** The connection after an ICE upgrade is the old one or another established one. *)
Lemma try_ice_upgrade_conn primary peer obs n found c :
  try_ice_upgrade primary peer obs n found = Some c -> c = primary \/ c ∈ found.
Proof.
  unfold try_ice_upgrade. destruct peer; [|intros [= <-]; by left].
  destruct (wait_ice obs) as [late|]; cbn [mbind option_bind]; [|done].
  intros [= <-]. destruct late; [by left|]. destruct (2 <=? n); [|by left].
  destruct (List.find _ found) as [x|] eqn:E; cbn; [|by left].
  right. apply List.find_some in E as [Hin _]. by apply list_elem_of_In.
Qed.
