(* ===== verification/Cli.v ===== *)
(** * The command-line program ([cli/server.cpp], [cli/server.hpp], [src/main.cpp])

    The monitor loop of the server mode and [main]: the effective configuration, the
    thread count, the core it makes, the choice of the mode and the exit code.  The parsing
    of the arguments is boost's: [main] is given its outcome. *)

From Stdlib Require Import ZArith Strings.Byte String Lia.
From stdpp Require Import base gmap list strings numbers.
From S2P Require Import Prelude Signals Crypto CmState CmLifecycle CmFrame Config PluginManager Identity Core Double Dashboard Bench.

Local Open Scope Z_scope.

(** ** Server mode *)

Record ServerConfig := mk_server_cfg {
  sc_report_hz : double;
  sc_exit_after : double;
  sc_no_color : bool;
}.

Record ServerResult := mk_server_result {
  sr_total_sec : double;
  sr_throughput : Samples;
  sr_stats : Accum;
}.

(** [static_cast<long>(1000.0 / hz)]: the time between two reports. *)
Definition interval_ms (hz : double) : option Z := d_to_long (d_div (d_of_Z 1000) hz).

(** What an iteration sees: the stop flag, the times and the statistics. *)
Record server_obs := mk_server_obs {
  so_running : bool;
  so_total : Z;
  so_dt : Z;
  so_stats : Accum;
}.

Record server := mk_server {
  sv_last_rx : Z;
  sv_last_tx : Z;
  sv_last_pkts : Z;
  sv_samples : Samples;
  sv_output : list (option bytes);
}.

Definition server_init : server := mk_server 0 0 0 samples_init [].

(** [static_cast<double>(delta) * 8.0 / dt / 1e9], 0 when no time has passed. *)
Definition rate (delta : Z) (dt : double) : double := if d_lt d_zero dt then gbps delta dt else d_zero.

Definition server_line (total_sec rx tx pkt_s : double) (st : Accum) : bytes :=
  str_bytes "[Server " ++ fmt_f 0 total_sec ++ str_bytes "s] conns=" ++ dec (connections st)
  ++ str_bytes "  RX " ++ fmt_f 2 rx ++ str_bytes " Gbps  TX " ++ fmt_f 2 tx ++ str_bytes " Gbps  "
  ++ fmt_f 0 pkt_s ++ str_bytes " pkt/s  auth ok=" ++ dec (auth_ok st) ++ str_bytes " fail="
  ++ dec (auth_fail st) ++ NL.

Definition server_step (cfg : ServerConfig) (o : server_obs) (s : server) : server :=
  let total_sec := seconds (so_total o) in
  let dt := seconds (so_dt o) in
  let st := so_stats o in
  let rx := rate (u64 (rx_bytes st - sv_last_rx s)) dt in
  let tx := rate (u64 (tx_bytes st - sv_last_tx s)) dt in
  let pkt_s := if d_lt d_zero dt then d_div (d_of_Z (u64 (rx_packets st - sv_last_pkts s))) dt else d_zero in
  let out := if sc_no_color cfg then Some (server_line total_sec rx tx pkt_s st)
             else print_server_line total_sec (connections st) rx tx pkt_s st in
  mk_server (rx_bytes st) (tx_bytes st) (rx_packets st)
    (if d_lt (d_of_Z 2) total_sec then push rx (sv_samples s) else sv_samples s)
    (sv_output s ++ [out]).

(** [None]: the loop is still running. *)
Fixpoint server_loop (cfg : ServerConfig) (obs : list server_obs) (s : server) : option server :=
  match obs with
  | [] => None
  | o :: obs =>
      if negb (so_running o) then Some s
      else
        let s := server_step cfg o s in
        if d_lt d_zero (sc_exit_after cfg) && d_le (sc_exit_after cfg) (seconds (so_total o))
        then Some s else server_loop cfg obs s
  end.

Definition run_server (cfg : ServerConfig) (obs : list server_obs) (total : Z) (st : Accum)
    : option ServerResult :=
  s ← server_loop cfg obs server_init;
  Some (mk_server_result (seconds total) (sv_samples s) st).

(** ** [main] *)

(** The options after parsing. *)
Record cli_options := mk_options {
  op_help : bool;
  op_target : string;
  op_listen_port : Z;
  op_threads : Z;
  op_pkts_limit : Z;
  op_kb_size : Z;
  op_report_hz : double;
  op_timeout : double;
  op_exit_after : double;
  op_no_color : bool;
  op_exit_code : bool;
  op_ice_upgrade : bool;
  op_config_path : string;
}.

(** [hardware]: what [std::thread::hardware_concurrency] reports, 0 if unknown. *)
Definition effective_threads (threads hardware : Z) : Z :=
  if threads <=? 0 then (if 0 <? hardware then hardware else 2) else threads.

Definition with_io_threads (n : Z) (x : Config) : Config :=
  let c := cfg_core x in
  mk_config (mk_core_cfg (co_listen_address c) (co_listen_port c) n (co_max_connections c))
    (cfg_logging x) (cfg_security x) (cfg_compression x) (cfg_plugins x) (cfg_identity x) (cfg_ice x)
    (cfg_last_file x).

Definition with_plugins (f : PluginsCfg -> PluginsCfg) (x : Config) : Config :=
  mk_config (cfg_core x) (cfg_logging x) (cfg_security x) (cfg_compression x) (f (cfg_plugins x))
    (cfg_identity x) (cfg_ice x) (cfg_last_file x).

Section main.
Context `{CO : !CryptoOps, KO : !KeyOps}.
Context (connector_of : connector_desc -> connector_ops) (handler_of : handler_desc -> handler_t).
Context (init_calls : string -> list api_call) (fuel : nat) (parse : string -> option json).

(** The configuration handed to the core; [plugins_dir] is [GOODNET_PLUGINS_DIR]. *)
Definition main_config (files : gmap string string) (plugins_dir : option string) (threads : Z)
    (config_path : string) : Config :=
  let x := with_io_threads (Z.max 1 threads) config_defaults in
  let x := with_plugins (fun p => mk_plugins_cfg (pl_base_dir p) true (pl_scan_interval p) (pl_extra_dirs p)) x in
  let x := if String.eqb config_path "" then x else (load_from_file parse files config_path x).2 in
  match plugins_dir with
  | Some dir =>
      with_plugins (fun p => mk_plugins_cfg dir (pl_auto_load p) (pl_scan_interval p) (pl_extra_dirs p)) x
  | None =>
      with_plugins (fun p => mk_plugins_cfg "./result/plugins" (pl_auto_load p) (pl_scan_interval p)
                               "./plugins") x
  end.

(** What the process meets: the initialisation of libsodium, the machine, the configuration
    file, and what the mode it runs in observes. *)
Record main_env := mk_main_env {
  me_sodium : bool;
  me_hardware : Z;
  me_files : gmap string string;
  me_plugins_dir : option string;
  me_world : world;
  me_bench : bench_env;
  me_server : list server_obs;
  me_total : Z;
  me_stats : Accum;
}.

Definition bench_config (o : cli_options) (threads : Z) : BenchConfig :=
  mk_bench_cfg (op_target o) threads (op_pkts_limit o) (op_kb_size o) (op_report_hz o) (op_timeout o)
    (op_no_color o) (op_ice_upgrade o).

Definition crypto_failed (st : Accum) : bool := (0 <? auth_fail st) || (0 <? decrypt_fail st).

(** How the process ends: by [return], or by the exception of the constructor of the core, which
    nothing catches. *)
Inductive outcome := Exited (code : Z) | Terminated.

(** The core [main] makes. *)
Definition main_core (o : cli_options) (e : main_env) : option Core :=
  (core_new connector_of handler_of init_calls fuel
     (main_config (me_files e) (me_plugins_dir e) (effective_threads (op_threads o) (me_hardware e)) (op_config_path o))
     (me_world e)).1.

(** [args] is [None] when the arguments are refused.  The result is [None] while the program
    runs. *)
Definition main (args : option cli_options) (e : main_env) : option outcome :=
  if negb (me_sodium e) then Some (Exited 1)
  else
    match args with
    | None => Some (Exited 1)
    | Some o =>
        if op_help o then Some (Exited 0)
        else
          match main_core o e with
          | None => Some Terminated
          | Some core =>
              if (0 <? op_listen_port o) && bool_decide (find_connector_by_scheme "tcp" (k_pm core) = None)
              then Some (Exited 1)
              else if negb (String.eqb (op_target o) "") then
                '(_, r) ← run_benchmark (bench_config o (effective_threads (op_threads o) (me_hardware e))) (me_bench e);
                Some (Exited (if negb (br_exit_status r =? 0) then br_exit_status r
                              else if op_exit_code o && crypto_failed (br_stats r) then 1 else 0))
              else
                r ← run_server (mk_server_cfg (op_report_hz o) (op_exit_after o) (op_no_color o)) (me_server e)
                      (me_total e) (me_stats e);
                Some (Exited (if op_exit_code o && crypto_failed (sr_stats r) then 1 else 0))
          end
    end.
End main.

(** ** Theorems *)

(** The plugin directories of a configuration file are always replaced: the directory in
    every case, the further ones unless the environment names the directory. *)
Theorem plugin_dirs_replaced parse files dir threads path :
  let x := main_config parse files dir threads path in
  pl_base_dir (cfg_plugins x) = default "./result/plugins" dir /\
  (dir = None -> pl_extra_dirs (cfg_plugins x) = "./plugins").
Proof. unfold main_config. by destruct dir. Qed.

(** The server stops at the first report after its time limit. *)
Theorem exit_after_stops cfg obs s o :
  d_lt d_zero (sc_exit_after cfg) = true -> o ∈ obs ->
  d_le (sc_exit_after cfg) (seconds (so_total o)) = true ->
  exists s', server_loop cfg obs s = Some s' /\ (length (sv_output s') <= length (sv_output s) + length obs)%nat.
Proof.
  intros Hpos Hin Hle. revert s. induction obs as [|o' obs IH]; intros s; [by apply elem_of_nil in Hin|].
  cbn [server_loop length]. destruct (so_running o'); cbn [negb]; [|eexists; split; [done|lia]].
  assert (length (sv_output (server_step cfg o' s)) = S (length (sv_output s))) as Hlen
    by (unfold server_step; cbn [sv_output]; rewrite length_app; cbn; lia).
  rewrite Hpos. cbn [andb].
  destruct (d_le (sc_exit_after cfg) (seconds (so_total o'))) eqn:E.
  - eexists. split; [done|lia].
  - apply elem_of_cons in Hin as [->|Hin]; [congruence|].
    destruct (IH Hin (server_step cfg o' s)) as (s' & Hs & Hl). exists s'. split; [done|lia].
Qed.

Section exit_codes.
Context `{CO : !CryptoOps, KO : !KeyOps}.
Context (connector_of : connector_desc -> connector_ops) (handler_of : handler_desc -> handler_t).
Context (init_calls : string -> list api_call) (fuel : nat) (parse : string -> option json).

(** The statistics a program can read from its manager, whose bus started from zero. *)
Definition readable (st : Accum) : Prop :=
  exists f calls me cfg now wall rng io,
    st = stats_snapshot (c_bus (run_calls f calls (cm_init bus_init me cfg now wall rng io))).

Lemma readable_no_failure st : readable st -> crypto_failed st = false.
Proof.
  intros (f & calls & me & cfg & now & wall & rng & io & ->). unfold crypto_failed, stats_snapshot.
  pose proof (failures_never_counted f calls (cm_init bus_init me cfg now wall rng io)) as H.
  unfold failures in H. injection H as -> ->. done.
Qed.

(** The benchmark of an accepted command line ends with its own status. *)
Lemma bench_code cfg e conn r :
  run_benchmark cfg e = Some (conn, r) -> readable (be_stats e) ->
  br_exit_status r = (if bool_decide (wait_handshake (bc_timeout cfg) (be_wait e) = Some true) then 1 else 0) /\
  (br_exit_status r = 0 -> crypto_failed (br_stats r) = false).
Proof.
  intros Er Hbs. pose proof (run_benchmark_status _ _ _ _ Er) as Hx. split; [done|]. rewrite Hx.
  case_bool_decide as Hb; [done|]. intros _. unfold run_benchmark in Er.
  destruct (wait_handshake _ _) as [[]|]; cbn [mbind option_bind] in Er; [done| |done].
  destruct (be_running_after_wait _); cbn [negb] in Er; [|by injection Er as <- <-].
  destruct (if bc_ice_upgrade cfg then _ else _); cbn [mbind option_bind] in Er; [|done].
  destruct (be_running_after_ice _); cbn [negb] in Er; [|by injection Er as <- <-].
  destruct (monitor_loop _ _ _); cbn [mbind option_bind] in Er; [|done].
  injection Er as <- <-. by apply readable_no_failure.
Qed.

End exit_codes.

(** [--hz 0] asks for an interval that no [long] can hold. *)
Lemma hz_zero_undefined : interval_ms (d_of_Z 0) = None.
Proof. reflexivity. Qed.

#[local] Existing Instances ToyCrypto.ops toy_keys.

Definition idle_stats : Accum :=
  stats_snapshot (c_bus (run_calls 1 [] (cm_init bus_init (mk_identity [] [] [] []) None 0 0 0 0))).

Lemma idle_readable : readable idle_stats.
Proof. exists 1%nat, [], (mk_identity [] [] [] []), None, 0, 0, 0%nat, 0%nat. reflexivity. Qed.

(** A benchmark whose handshake never completes. *)
Definition late_wait : list wait_obs := [mk_wait_obs true [] 0 1000000000; mk_wait_obs true [] 0 31000000000].
Definition late_env (w : world) : main_env :=
  mk_main_env true 8 ∅ None w (mk_bench_env late_wait true 0 None [] 0 [] true [] 0 0 0 idle_stats) [] 0 idle_stats.
Definition late_options : cli_options :=
  mk_options false "tcp://10.0.0.2:25565" 0 0 0 64 (d_of_Z 2) (d_of_Z 30) d_zero false true false "".

Definition toy_main (w : world) : option outcome :=
  main (fun _ => mk_ops true true true (fun _ => 0)) (fun _ => mk_handler None false None false [] None)
    (fun _ => []) 2 (fun _ => None) (Some late_options) (late_env w).

(** A machine where no key file can be written. *)
Definition broken_world : world :=
  mk_world (mk_host true (Some "/home/a"%string) toy_hw true) (mk_fsys ∅ (fun _ => true) (fun _ => false)) (toy_entropy x01) [] [] (fun _ => None) 1000 2000.

