(* ===== verification/Sdk.v ===== *)
(** * Plugin SDK ([sdk/cpp/handler.hpp], [sdk/cpp/connector.hpp], [sdk/cpp/data.hpp],
      [sdk/static_registry.hpp], [plugins/handlers], [plugins/connectors/template])

    The C++ base classes over the C tables: what [IHandler] and [IConnector] put into the
    descriptor they hand to the core, their default methods, the guarded calls of the host
    API, the entry points the macros generate, the typed message wrappers, and the plugins
    of the repository that are written against the base classes alone: the packet logger and
    the two templates.  A subclass is a record of its overrides; its methods run in the state
    monad over the object, the manager and the logger, and fail when an exception leaves
    them.  The verdict of a handler depends on the packet only, as it does in every handler
    of the repository. *)

From Stdlib Require Import ZArith Strings.Byte String Lia Sorting.Sorted.
From stdpp Require Import base gmap list strings numbers.
From S2P Require Import Prelude Codec Wire NonceWindow Queue Crypto Noise Session Signals Config PluginManager.
From S2P Require Import CmState CmTransport CmClose CmHandshake CmDispatch CmLifecycle HostApi CmScenario CmPolicy Logger Core.

Local Open Scope Z_scope.
Local Open Scope gn_scope.

(** ** Objects and their surroundings *)

Record plugin_info_t := mk_info { pi_name : option string; pi_version : Z; pi_prio : Z; pi_caps_mask : Z }.

(** A process around a plugin object: the manager, the logger, and the function-local
    static of the base class's [get_plugin_info]. *)
Record pworld (Obj : Type) := mk_pworld {
  pw_obj : Obj;
  pw_cm : cm;
  pw_log : log_state;
  pw_info : option plugin_info_t;
}.
Arguments mk_pworld {Obj}.
Arguments pw_obj {Obj}.
Arguments pw_cm {Obj}.
Arguments pw_log {Obj}.
Arguments pw_info {Obj}.

Definition lift_cm {Obj A} (m : CM A) : SE (pworld Obj) A := fun w =>
  let '(a, c) := m (pw_cm w) in (Some a, mk_pworld (pw_obj w) c (pw_log w) (pw_info w)).

Definition lift_log {Obj A} (m : SE log_state A) : SE (pworld Obj) A := fun w =>
  let '(a, l) := m (pw_log w) in (a, mk_pworld (pw_obj w) (pw_cm w) l (pw_info w)).

Definition set_obj {Obj} (o : Obj) : SE (pworld Obj) unit :=
  se_mod (fun w => mk_pworld o (pw_cm w) (pw_log w) (pw_info w)).

(** A call of the host API: without a table it gives [dflt].  The table the manager fills
    has every entry, so that a missing entry is a missing table. *)
Definition guarded {Obj A} (api : Obj -> option host_api_t) (dflt : A) (f : host_api_t -> CM A) : SE (pworld Obj) A :=
  a <-- se_get (fun w => api (pw_obj w)) ;;
  match a with Some a => lift_cm (f a) | None => se_ret dflt end.

(** A value of the configuration through a zeroed buffer of [sz] bytes, read as a C string. *)
Definition config_buffer (api : option host_api_t) (sz : nat) (key : string) : bytes :=
  match api with
  | None => []
  | Some a => until_nul (default (replicate sz x00) (api_config_get a key sz).2)
  end.

(** ** [IHandler] *)

(** The members of the base class, then those of the subclass. *)
Record IHandler (St : Type) := mk_ihandler {
  ih_supported_types : list Z;
  ih_api : option host_api_t;
  ih_self : St;
}.
Arguments mk_ihandler {St}.
Arguments ih_supported_types {St}.
Arguments ih_api {St}.
Arguments ih_self {St}.

Abbreviation HM St := (SE (pworld (IHandler St))).

Section handler.
Context {St : Type}.

Definition set_supported_types (ts : list Z) : HM St unit :=
  o <-- se_get pw_obj ;; set_obj (mk_ihandler ts (ih_api o) (ih_self o)).

Definition set_self (s : St) : HM St unit :=
  o <-- se_get pw_obj ;; set_obj (mk_ihandler (ih_supported_types o) (ih_api o) s).

Definition handler_send (uri : string) (t : Z) (d : bytes) : HM St unit :=
  guarded ih_api tt (fun a => api_send a uri t d).
Definition handler_send_response (id t : Z) (d : bytes) : HM St unit :=
  guarded ih_api tt (fun a => api_send_response a id t d).
Definition handler_broadcast (t : Z) (d : bytes) : HM St unit :=
  guarded ih_api tt (fun a => api_broadcast a t d).
Definition handler_disconnect (id : Z) : HM St unit :=
  guarded ih_api tt (fun a => api_disconnect a id).
Definition find_conn (hex : string) : HM St Z :=
  guarded ih_api CONN_ID_INVALID (fun a => api_find_conn_by_pubkey a (Some hex)).
(** [true] and the endpoint, or [false]. *)
Definition handler_peer_info (id : Z) : HM St (bool * option endpoint_t) :=
  r <-- guarded ih_api (-1, None) (fun a => api_get_peer_info a id) ;; se_ret (r.1 =? 0, r.2).
Definition handler_config_get (key : string) : HM St bytes :=
  se_get (fun w => config_buffer (ih_api (pw_obj w)) 1024 key).
(** The return code and the signature. *)
Definition handler_sign (data : bytes) : HM St (Z * option bytes) :=
  guarded ih_api (-1, None) (fun a c => let '(s, c) := api_sign_with_device a data c in ((0, Some s), c)).
Definition handler_verify (data pk sig : bytes) : HM St Z :=
  se_get (fun w => match ih_api (pw_obj w) with
                   | Some a => if api_verify_signature a data pk sig then 0 else -1
                   | None => -1
                   end).

(** The virtual methods. *)
Record handler_class := mk_hclass {
  hc_new : St;
  hc_get_plugin_name : string;
  hc_on_init : HM St unit;
  hc_on_shutdown : HM St unit;
  hc_handle_message : option header_t -> option endpoint_t -> bytes -> HM St unit;
  hc_on_result : header_t -> Z -> propagation_t;
  hc_on_conn_state : bytes -> conn_state_t -> HM St unit;
}.

(** The defaults of the base class. *)
Definition default_on_result (_ : header_t) (_ : Z) : propagation_t := PROPAGATION_CONTINUE.
Definition default_on_conn_state (_ : bytes) (_ : conn_state_t) : HM St unit := se_ret tt.

(** The static is initialised by the first object that asks. *)
Definition get_plugin_info (cls : handler_class) : HM St plugin_info_t := fun w =>
  let i := default (mk_info (Some (hc_get_plugin_name cls)) 0x00010000 128 0) (pw_info w) in
  (Some i, mk_pworld (pw_obj w) (pw_cm w) (pw_log w) (Some i)).

Definition to_c_handler (cls : handler_class) : HM St handler_t :=
  info <-- get_plugin_info cls ;;
  o <-- se_get pw_obj ;;
  se_ret (mk_handler (Some (hc_get_plugin_name cls)) true
            (Some (fun hdr _ _ => hc_on_result cls hdr (hdr_payload_type hdr))) true
            (ih_supported_types o) (Some (pi_prio info))).

Definition handler_object (cls : handler_class) : IHandler St := mk_ihandler [] None (hc_new cls).

Definition ihandler_init (cls : handler_class) (api : host_api_t) : HM St unit :=
  o <-- se_get pw_obj ;;
  set_obj (mk_ihandler (ih_supported_types o) (Some api) (ih_self o)) ;;; hc_on_init cls.

(** [handler_init]: the return code and what is stored through [out]. *)
Definition handler_plugin_init (cls : handler_class) (api : host_api_t) : HM St (Z * handler_t) :=
  ihandler_init cls api ;;; h <-- to_c_handler cls ;; se_ret (0, h).

(** What the loader keeps of a handler: [shutdown] is always set. *)
Definition handler_description (h : handler_t) : handler_desc := mk_hdesc (default "" (h_name h)) true.

(** The static registration of the macro. *)
Definition register_static_handler (class_name : string) (h : handler_t) (registry : list StaticPluginEntry)
    : list StaticPluginEntry :=
  registry ++ [mk_static class_name (Some (Some (handler_description h))) None].

(** One packet through the descriptor, the way the manager's callback calls it. *)
Definition deliver (cls : handler_class) (hdr : header_t) (ep : endpoint_t) (data : bytes) : HM St propagation_t :=
  hc_handle_message cls (Some hdr) (Some ep) data ;;; se_ret (hc_on_result cls hdr (hdr_payload_type hdr)).
End handler.
Arguments handler_class St : clear implicits.

(** ** [IConnector] *)

Record IConnector (St : Type) := mk_iconnector { ic_api : option host_api_t; ic_self : St }.
Arguments mk_iconnector {St}.
Arguments ic_api {St}.
Arguments ic_self {St}.

Abbreviation TM St := (SE (pworld (IConnector St))).

Section connector.
Context {St : Type}.

Definition notify_connect (ep : endpoint_t) : TM St Z :=
  guarded ic_api CONN_ID_INVALID (fun a => api_on_connect a ep).
Definition notify_data (id : Z) (d : bytes) : TM St unit := guarded ic_api tt (fun a => api_on_data a id d).
Definition notify_disconnect (id error : Z) : TM St unit :=
  guarded ic_api tt (fun a => api_on_disconnect a id error).
Definition find_peer_conn (hex : string) : TM St Z :=
  guarded ic_api CONN_ID_INVALID (fun a => api_find_conn_by_pubkey a (Some hex)).
Definition connector_peer_info (id : Z) : TM St (bool * option endpoint_t) :=
  r <-- guarded ic_api (-1, None) (fun a => api_get_peer_info a id) ;; se_ret (r.1 =? 0, r.2).
Definition register_extra_handler (h : handler_t) : TM St unit :=
  guarded ic_api tt (fun a => api_register_handler a h).
Definition add_transport_path (hex : string) (ep : endpoint_t) (scheme : string) : TM St Z :=
  guarded ic_api CONN_ID_INVALID (fun a => api_add_transport a (Some hex) (Some ep) (Some scheme)).
Definition connector_config_get (key : string) : TM St bytes :=
  se_get (fun w => config_buffer (ic_api (pw_obj w)) 256 key).

Record connector_class := mk_tclass {
  tc_new : St;
  tc_get_scheme : string;
  tc_get_name : string;
  tc_on_init : TM St unit;
  tc_on_shutdown : TM St unit;
  tc_do_connect : bytes -> TM St Z;
  tc_do_listen : bytes -> Z -> TM St Z;
  tc_do_send : Z -> bytes -> TM St Z;
  tc_do_send_gather : option (Z -> list bytes -> TM St Z);   (* [None]: the base class's *)
  tc_do_close : Z -> bool -> TM St unit;
}.

(** The default gathering send: one [do_send] per segment until one fails; [rc] is the
    value of the variable when the loop is entered. *)
Fixpoint gather_from (do_send : Z -> bytes -> TM St Z) (id rc : Z) (iov : list bytes) : TM St Z :=
  match iov with
  | [] => se_ret rc
  | seg :: iov => rc <-- do_send id seg ;; if rc =? 0 then gather_from do_send id rc iov else se_ret rc
  end.

Definition do_send_gather (cls : connector_class) (id : Z) (iov : list bytes) : TM St Z :=
  match tc_do_send_gather cls with
  | Some f => f id iov
  | None => gather_from (tc_do_send cls) id 0 iov
  end.

(** [strncpy(buf, s.c_str(), sz - 1); buf[sz - 1] = 0]. *)
Definition string_out (s : string) (sz : nat) : bytes := strncpy s (sz - 1) ++ [x00].

(** The table of [to_c_ops]. *)
Record c_ops := mk_c_ops {
  ops_connect : bytes -> TM St Z;
  ops_listen : bytes -> Z -> TM St Z;
  ops_send_to : Z -> bytes -> TM St Z;
  ops_send_gather : Z -> list bytes -> TM St Z;
  ops_close : Z -> TM St unit;
  ops_close_now : Z -> TM St unit;
  ops_get_scheme : nat -> bytes;
  ops_get_name : nat -> bytes;
  ops_shutdown : TM St unit;
}.

Definition to_c_ops (cls : connector_class) : c_ops :=
  mk_c_ops (tc_do_connect cls) (tc_do_listen cls) (tc_do_send cls) (do_send_gather cls)
    (fun id => tc_do_close cls id false) (fun id => tc_do_close cls id true)
    (string_out (tc_get_scheme cls)) (string_out (tc_get_name cls)) (tc_on_shutdown cls).

Definition connector_object (cls : connector_class) : IConnector St := mk_iconnector None (tc_new cls).

Definition iconnector_init (cls : connector_class) (api : host_api_t) : TM St unit :=
  o <-- se_get pw_obj ;; set_obj (mk_iconnector (Some api) (ic_self o)) ;;; tc_on_init cls.

Definition connector_plugin_init (cls : connector_class) (api : host_api_t) : TM St (Z * c_ops) :=
  iconnector_init cls api ;;; se_ret (0, to_c_ops cls).

(** What the loader reads of a connector through its buffers of [szs] and [szn] bytes. *)
Definition connector_description (ops : c_ops) (szs szn : nat) : connector_desc :=
  mk_cdesc (bytes_str (until_nul (ops_get_scheme ops szs))) (bytes_str (until_nul (ops_get_name ops szn))) true.

Definition register_static_connector (class_name : string) (d : connector_desc) (registry : list StaticPluginEntry)
    : list StaticPluginEntry :=
  registry ++ [mk_static class_name None (Some (Some d))].
End connector.
Arguments connector_class St : clear implicits.
Arguments c_ops St : clear implicits.

(** ** Typed messages *)

(** The abstract base [IData]; [None] is the exception of a short buffer, and
    [deserialize] assigns to an existing object. *)
Class IData (T : Type) := {
  data_new : T;
  data_serialize : T -> bytes;
  data_deserialize : bytes -> T -> option T;
  data_min_size : T -> nat;
}.

(** What the core relies on when it sends an object and rebuilds it from a payload. *)
Class IDataLaws (T : Type) `{IData T} (ok : T -> Prop) := {
  data_roundtrip x y : ok x -> data_deserialize (data_serialize x) y = Some x;
  data_short b y : is_Some (data_deserialize b y) <-> (data_min_size y <= length b)%nat;
}.

(** [PodData<T>], by the layout of [T]; value-initialised, its bytes are zero. *)
Record PodData {A} (c : codec A) := mk_pod { pod_value : A }.
Arguments mk_pod {A c}.
Arguments pod_value {A c}.

#[export] Instance pod_data {A} (c : codec A) : IData (PodData c) := {
  data_new := mk_pod (cdec c (replicate (csize c) x00));
  data_serialize x := PodData.serialize c (pod_value x);
  data_deserialize b _ := mk_pod <$> PodData.deserialize c b;
  data_min_size _ := PodData.min_size c;
}.

Record VarData := mk_var { var_bytes : bytes }.

#[export] Instance var_data : IData VarData := {
  data_new := mk_var [];
  data_serialize x := var_bytes x;
  data_deserialize b _ := Some (mk_var b);
  data_min_size _ := 0%nat;
}.

Definition from_bytes (T : Type) `{IData T} (b : bytes) : option T := data_deserialize b data_new.
Definition to_bytes {T} `{IData T} (x : T) : bytes := data_serialize x.

(** The typed overloads of [Core::send] and [Core::broadcast]. *)
Section typed.
Context `{CO : !CryptoOps} {T : Type} `{IData T}.

Definition send_uri_data (uri : string) (t : Z) (x : T) (k : Core) : bool * Core :=
  core_send_uri uri t (data_serialize x) k.
Definition send_id_data (id t : Z) (x : T) (k : Core) : bool * Core := core_send_id id t (data_serialize x) k.
Definition broadcast_data (t : Z) (x : T) (k : Core) : Core := core_broadcast t (data_serialize x) k.
End typed.

(** ** The plugins written against the base classes *)

Section plugins.
Variable env : log_env.
Variable ndebug : bool.
Variable file : bytes.              (* [__FILE__] of the plugin *)

Definition LOG_INFO {Obj} (line : Z) (text : string) : SE (pworld Obj) unit :=
  lift_log (LOG env ndebug LInfo (mk_loc file line) (inl text)).

Local Open Scope string_scope.
Local Open Scope Z_scope.

(** *** [MsgLogger] *)

Record MsgLogger := mk_msg_logger { ml_count : Z; ml_start_ts : Z }.

(** The steady clock in microseconds. *)
Definition now_us {Obj} : SE (pworld Obj) Z := se_get (fun w => c_now_ns (pw_cm w) / 1000).

Definition type_str (t : Z) : string :=
  if t =? 1 then "NOISE_INIT" else if t =? 2 then "NOISE_RESP" else if t =? 3 then "NOISE_FIN"
  else if t =? 4 then "HEARTBEAT" else if t =? 10 then "RELAY" else if t =? 11 then "ICE_SIGNAL"
  else if t =? 100 then "CHAT" else if t =? 200 then "FILE" else "USER".

Definition logger_types : list Z := [1; 2; 3; 4; 10; 11; 100; 200].

Definition logger_on_init : HM MsgLogger unit :=
  set_supported_types logger_types ;;;
  now <-- now_us ;;
  o <-- se_get pw_obj ;;
  set_self (mk_msg_logger (ml_count (ih_self o)) now) ;;;
  LOG_INFO 32 "[MsgLogger] started — logging all packet types".

Definition packet_line (count : Z) (hdr : header_t) (ep : option endpoint_t) (payload : bytes) : string :=
  let addr := match ep with Some e => if String.eqb (ep_address e) "" then "?" else ep_address e | None => "?" end in
  let port := from_option ep_port 0 ep in
  let pk := from_option (fun e => bytes_to_hex (take 4 (ep_pubkey e))) "????????" ep in
  "[MsgLogger] #" ++ to_string count ++ " type=" ++ to_string (hdr_payload_type hdr) ++ " ("
  ++ type_str (hdr_payload_type hdr) ++ ") from=" ++ addr ++ ":" ++ to_string port
  ++ " size=" ++ to_string (Z.of_nat (length payload)) ++ " pkt=" ++ to_string (hdr_packet_id hdr)
  ++ " pk=" ++ pk ++ "...".

Definition logger_handle_message (hdr : option header_t) (ep : option endpoint_t) (payload : bytes)
    : HM MsgLogger unit :=
  match hdr with
  | None => se_ret tt
  | Some h =>
      o <-- se_get pw_obj ;;
      let count := u64 (ml_count (ih_self o) + 1) in
      set_self (mk_msg_logger count (ml_start_ts (ih_self o))) ;;;
      LOG_INFO 59 (packet_line count h ep payload)
  end.

Definition logger_on_shutdown : HM MsgLogger unit :=
  now <-- now_us ;;
  o <-- se_get pw_obj ;;
  let elapsed_ms := u64 (now - ml_start_ts (ih_self o)) / 1000 in
  LOG_INFO 70 ("[MsgLogger] stopped — " ++ to_string (ml_count (ih_self o)) ++ " packets logged in "
               ++ to_string elapsed_ms ++ " ms").

Definition msg_logger : handler_class MsgLogger :=
  mk_hclass (mk_msg_logger 0 0) "MsgLogger" logger_on_init logger_on_shutdown logger_handle_message
    default_on_result default_on_conn_state.

(** *** [TemplateHandler] *)

Definition MY_MSG_TYPE : Z := 100.

Definition template_on_init : HM unit unit :=
  set_supported_types [MY_MSG_TYPE] ;;;
  greeting <-- handler_config_get "template.greeting" ;;
  (match greeting with
   | [] => se_ret tt
   | _ => LOG_INFO 40 ("[TemplateHandler] Приветствие: " ++ bytes_str greeting)
   end) ;;;
  LOG_INFO 42 "[TemplateHandler] Инициализирован".

Definition template_on_shutdown : HM unit unit := LOG_INFO 47 "[TemplateHandler] Завершение работы".

(** A missing header or endpoint is dereferenced: no behaviour. *)
Definition template_handle_message (hdr : option header_t) (ep : option endpoint_t) (payload : bytes)
    : HM unit unit :=
  match hdr, ep with
  | Some h, Some e =>
      LOG_INFO 62 ("[TemplateHandler] Получен пакет type=" ++ to_string (hdr_payload_type h) ++ " size="
                   ++ to_string (Z.of_nat (length payload)) ++ " от " ++ ep_address e ++ ":"
                   ++ to_string (ep_port e)) ;;;
      match payload with
      | [] => se_ret tt
      | _ => handler_send_response (ep_peer_id e) (hdr_payload_type h) payload
      end
  | _, _ => se_fail
  end.

Definition template_on_conn_state (uri : bytes) (st : conn_state_t) : HM unit unit :=
  match st with
  | STATE_ESTABLISHED => LOG_INFO 85 ("[TemplateHandler] Пир подключён: " ++ bytes_str (take 12 uri) ++ "...")
  | STATE_CLOSED => LOG_INFO 87 ("[TemplateHandler] Пир отключён: " ++ bytes_str (take 12 uri) ++ "...")
  | _ => se_ret tt
  end.

Definition template_handler : handler_class unit :=
  mk_hclass tt "template_handler" template_on_init template_on_shutdown template_handle_message
    (fun _ _ => PROPAGATION_CONSUMED) template_on_conn_state.

(** *** [TemplateConnector]: nothing is implemented but the report of a close *)

Definition template_connector : connector_class unit :=
  mk_tclass tt "myproto" "Template Connector"
    (LOG_INFO 34 "[TemplateConnector] Инициализирован")
    (LOG_INFO 40 "[TemplateConnector] Завершение работы")
    (fun uri => LOG_INFO 56 ("[TemplateConnector] do_connect: " ++ bytes_str uri) ;;; se_ret (-1))
    (fun host port => LOG_INFO 71 ("[TemplateConnector] do_listen: " ++ bytes_str host ++ ":" ++ to_string port) ;;;
                      se_ret (-1))
    (fun _ _ => se_ret (-1)) None
    (fun id _ => notify_disconnect id 0).
End plugins.

(** ** Handlers that only look *)

Definition bus_sorted (b : SignalBus) : Prop :=
  map_Forall (fun _ p => StronglySorted prio_ge p) (channels b) /\ StronglySorted prio_ge (wildcards b).

Lemma connect_sorted prio name fn p : StronglySorted prio_ge p -> StronglySorted prio_ge (connect prio name fn p).
Proof. intros. rewrite connect_insert by done. by apply insert_entry_sorted. Qed.

Lemma channel_sorted b t : bus_sorted b -> StronglySorted prio_ge (default [] (channels b !! t)).
Proof. intros [H _]. destruct (channels b !! t) eqn:E; [by apply (H _ _ E)|constructor]. Qed.

(** Every change of the chains keeps them sorted. *)
Lemma bus_sorted_init : bus_sorted bus_init.
Proof. split; [apply map_Forall_empty|constructor]. Qed.

Lemma bus_sorted_subscribe t name cb prio b : bus_sorted b -> bus_sorted (subscribe t name cb prio b).2.
Proof.
  intros Hb. split; [|apply Hb]. cbn. apply map_Forall_insert_2; [|apply Hb].
  apply connect_sorted, (channel_sorted b t Hb).
Qed.

Lemma bus_sorted_wildcard name cb prio b : bus_sorted b -> bus_sorted (subscribe_wildcard name cb prio b).
Proof. intros [H1 H2]. split; [done|]. by apply connect_sorted. Qed.

Lemma bus_sorted_unsubscribe sub b : bus_sorted b -> bus_sorted (unsubscribe sub b).
Proof.
  intros [H1 H2]. unfold unsubscribe. destruct (sub_map b !! sub) as [[t name]|]; [|by split].
  destruct (channels b !! t) as [ch|] eqn:E; split; cbn; try done.
  apply map_Forall_insert_2; [|done]. by apply filter_sorted, (H1 _ _ E).
Qed.

Section observer.
Variable name : string.

Definition others (calls : list string) : list string := List.filter (fun n => negb (String.eqb n name)) calls.

Definition chain (b : SignalBus) (t : Z) : list Entry := default [] (channels b !! t) ++ wildcards b.

(** [b'] decides every packet as [b] does and calls the same other handlers. *)
Definition unobserved (b b' : SignalBus) : Prop := forall t hdr ep data,
  (dispatch_packet b' t hdr ep data).1 = (dispatch_packet b t hdr ep data).1 /\
  others (dispatch_packet b' t hdr ep data).2 = others (dispatch_packet b t hdr ep data).2.

Lemma dispatch_chain b t hdr ep data : dispatch_packet b t hdr ep data = emit (chain b t) hdr ep data.
Proof.
  unfold dispatch_packet, chain. destruct (channels b !! t) as [ch|]; [|done]. cbn. by rewrite emit_app.
Qed.

Lemma emit_observer e l1 l2 hdr ep data :
  e_name e = name -> e_fn e hdr ep data = PROPAGATION_CONTINUE ->
  (emit (l1 ++ e :: l2) hdr ep data).1 = (emit (l1 ++ l2) hdr ep data).1 /\
  others (emit (l1 ++ e :: l2) hdr ep data).2 = others (emit (l1 ++ l2) hdr ep data).2.
Proof.
  intros Hn Hc. rewrite !emit_app. cbn [emit]. rewrite Hc.
  destruct (emit l1 hdr ep data) as [r calls]. case_bool_decide; [|done].
  destruct (emit l2 hdr ep data) as [r' calls']. cbn. split; [done|].
  unfold others. rewrite !List.filter_app. cbn. by rewrite Hn, String.eqb_refl.
Qed.

(** Adding one entry that always continues anywhere in one chain. *)
Lemma unobserved_insert b b' e :
  e_name e = name -> (forall hdr ep data, e_fn e hdr ep data = PROPAGATION_CONTINUE) ->
  (forall t, chain b' t = chain b t \/ exists l1 l2, chain b t = l1 ++ l2 /\ chain b' t = l1 ++ e :: l2) ->
  unobserved b b'.
Proof.
  intros Hn Hc H t hdr ep data. rewrite !dispatch_chain.
  destruct (H t) as [->|(l1 & l2 & -> & ->)]; [done|]. by apply emit_observer.
Qed.

Lemma insert_entry_cut e l : exists l1 l2, l = l1 ++ l2 /\ insert_entry e l = l1 ++ e :: l2.
Proof.
  induction l as [|x l (l1 & l2 & -> & IH)]; cbn; [by exists [], []|].
  destruct (e_priority x <? e_priority e); [by exists [], (x :: l1 ++ l2)|]. exists (x :: l1), l2. by rewrite IH.
Qed.

Lemma unobserved_subscribe t cb prio b :
  bus_sorted b -> (forall hdr ep data, cb hdr ep data = PROPAGATION_CONTINUE) ->
  unobserved b (subscribe t name cb prio b).2.
Proof.
  intros Hb Hc. apply (unobserved_insert b _ (mk_entry prio name cb)); [done|done|]. intros t'.
  unfold chain. cbn [subscribe snd channels with_channels with_subs wildcards].
  destruct (decide (t' = t)) as [->|Hne]; [|left; by rewrite lookup_insert_ne].
  right. rewrite lookup_insert_eq. pose proof (channel_sorted b t Hb) as Hs. revert Hs.
  generalize (default [] (channels b !! t)). intros l Hs. cbn. rewrite connect_insert by done.
  destruct (insert_entry_cut (mk_entry prio name cb) l) as (l1 & l2 & -> & ->).
  exists l1, (l2 ++ wildcards b). by rewrite <-!app_assoc.
Qed.

Lemma unobserved_wildcard cb prio b :
  bus_sorted b -> (forall hdr ep data, cb hdr ep data = PROPAGATION_CONTINUE) ->
  unobserved b (subscribe_wildcard name cb prio b).
Proof.
  intros Hb Hc. apply (unobserved_insert b _ (mk_entry prio name cb)); [done|done|]. intros t. right.
  unfold chain. cbn [subscribe_wildcard channels wildcards]. rewrite connect_insert by apply Hb.
  destruct (insert_entry_cut (mk_entry prio name cb) (wildcards b)) as (l1 & l2 & -> & ->).
  exists (default [] (channels b !! t) ++ l1), l2. by rewrite <-!app_assoc.
Qed.

#[export] Instance unobserved_trans : PreOrder unobserved.
Proof.
  split; [done|]. intros b1 b2 b3 H1 H2 t hdr ep data. destruct (H1 t hdr ep data), (H2 t hdr ep data).
  split; congruence.
Qed.

(** A handler on the chain of a packet that every handler lets pass is called. *)
Lemma continue_calls b t hdr ep data e :
  e ∈ chain b t -> er_result (dispatch_packet b t hdr ep data).1 = PROPAGATION_CONTINUE ->
  e_name e ∈ (dispatch_packet b t hdr ep data).2.
Proof.
  intros He. pose proof (dispatch_packet_chain b t hdr ep data) as H. cbv zeta in H. fold (chain b t) in H.
  destruct (list_find _ (chain b t)) as [[i x]|] eqn:E; rewrite H; cbn; [|intros; by apply list_elem_of_fmap_2].
  apply list_find_Some in E as (_ & Hx & _). done.
Qed.
End observer.

(** The subscriptions of [register_handler]. *)
Section registration.
Context (name : string) (cb : HandlerPacketFn) (prio : Z).
Hypothesis continues : forall hdr ep data, cb hdr ep data = PROPAGATION_CONTINUE.

Let sub t := on_bus (fun b => (subscribe t name cb prio b).2).

Lemma observer_subscriptions ts c :
  bus_sorted (c_bus c) ->
  let c' := (for_each ts sub c).2 in
  bus_sorted (c_bus c') /\ unobserved name (c_bus c) (c_bus c') /\
  (forall t e, e ∈ default [] (channels (c_bus c) !! t) -> e ∈ default [] (channels (c_bus c') !! t)) /\
  (forall t, t ∈ ts -> mk_entry prio name cb ∈ default [] (channels (c_bus c') !! t)).
Proof.
  revert c. induction ts as [|t ts IH]; intros c Hb; cbv zeta.
  - split_and!; [done|apply unobserved_trans|done|]. by intros t ?%elem_of_nil.
  - cbn [for_each]. unfold sub at 1. unfold mbind, cm_bind, on_bus, modify. cbn [fst snd].
    set (c1 := set_c_bus (subscribe t name cb prio (c_bus c)).2 c). assert (c_bus c1 = (subscribe t name cb prio (c_bus c)).2) as Hc1 by done.
    assert (forall t' e, e ∈ default [] (channels (c_bus c1) !! t') <->
      (t' = t /\ e = mk_entry prio name cb) \/ e ∈ default [] (channels (c_bus c) !! t')) as Hch.
    { intros t' e. rewrite Hc1. cbn [subscribe snd channels with_channels with_subs].
      destruct (decide (t' = t)) as [->|Hne]; [|rewrite lookup_insert_ne by done; naive_solver].
      rewrite lookup_insert_eq. pose proof (channel_sorted _ t Hb) as Hs. revert Hs.
      generalize (default [] (channels (c_bus c) !! t)). intros l Hs. cbn.
      rewrite connect_insert, insert_entry_elem by done. naive_solver. }
    destruct (IH c1) as (H1 & H2 & H3 & H4); [rewrite Hc1; by apply bus_sorted_subscribe|].
    split_and!; [done| | |].
    + etrans; [|exact H2]. rewrite Hc1. by apply unobserved_subscribe.
    + intros t' e He. apply H3, Hch. by right.
    + intros t' [->|Ht]%elem_of_cons; [|by apply H4]. apply H3, Hch. by left.
Qed.
End registration.

(** Observers are transparent.  Whatever a handler does with a packet, if its class never
    overrides the default verdict then registering its descriptor changes no decision: every
    packet of every type gets the same verdict from the same handler as before, the other
    handlers run in the same order, and the observer itself sees every packet of a type it
    subscribed to that the chain lets pass. *)
Theorem observer_transparent {St} (cls : handler_class St) w h w' c :
  to_c_handler cls w = (Some h, w') -> (forall hdr t, hc_on_result cls hdr t = default_on_result hdr t) ->
  bus_sorted (c_bus c) ->
  let b := c_bus c in
  let b' := c_bus (register_handler h c).2 in
  bus_sorted b' /\
  forall t hdr ep data,
    (dispatch_packet b' t hdr ep data).1 = (dispatch_packet b t hdr ep data).1 /\
    others (hc_get_plugin_name cls) (dispatch_packet b' t hdr ep data).2 =
      others (hc_get_plugin_name cls) (dispatch_packet b t hdr ep data).2 /\
    (er_result (dispatch_packet b t hdr ep data).1 = PROPAGATION_CONTINUE ->
     ih_supported_types (pw_obj w) = [] \/ t ∈ ih_supported_types (pw_obj w) ->
     hc_get_plugin_name cls ∈ (dispatch_packet b' t hdr ep data).2).
Proof.
  intros [= <- _] Hr Hb. cbv zeta. unfold register_handler, register_handler_internal. cbn [h_name h_supported_types].
  match goal with |- context [make_cb ?h] => set (cb := make_cb h); set (prio := handler_priority h) end.
  assert (forall hdr ep data, cb hdr ep data = PROPAGATION_CONTINUE) as Hcb by (intros; apply Hr).
  set (name := hc_get_plugin_name cls). clearbody cb prio name.
  destruct (ih_supported_types (pw_obj w)) as [|t0 ts] eqn:Ets.
  - cbn. split; [by apply bus_sorted_wildcard|]. intros t hdr ep data.
    destruct (unobserved_wildcard name cb prio (c_bus c) Hb Hcb t hdr ep data) as [H1 H2].
    split_and!; [done|done|]. intros Hok _. rewrite <-H1 in Hok.
    refine (continue_calls _ t hdr ep data (mk_entry prio name cb) _ Hok).
    unfold chain. cbn [subscribe_wildcard channels wildcards]. apply elem_of_app. right.
    rewrite connect_insert, insert_entry_elem by apply Hb. by left.
  - assert (allowed_types SrcPlugin (t0 :: ts) = t0 :: ts) as Hall.
    { clear. unfold allowed_types. generalize (t0 :: ts). intros l. induction l as [|x l IH]; cbn; [done|]. by f_equal. }
    rewrite Hall. destruct (observer_subscriptions name cb prio Hcb (t0 :: ts) c Hb) as (H1 & H2 & _ & H4).
    unfold mbind, cm_bind. destruct (for_each (t0 :: ts) _ c) as [[] c1]. cbn [snd] in *.
    set (c2 := (modify _ c1).2). assert (c_bus c2 = c_bus c1) as -> by reflexivity. clear c2.
    split; [done|]. intros t hdr ep data. destruct (H2 t hdr ep data) as [Hv Ho].
    split_and!; [done|done|]. intros Hok [?|Ht]; [done|]. rewrite <-Hv in Hok.
    refine (continue_calls _ t hdr ep data (mk_entry prio name cb) _ Hok).
    unfold chain. apply elem_of_app. left. by apply H4.
Qed.

(** ** The packet logger *)

Section msg_logger.
Variable env : log_env.
Variable ndebug : bool.
Variable file : bytes.

Abbreviation packet := (header_t * endpoint_t * bytes)%type.

(** Packets through the descriptor one after the other, with the verdicts. *)
Fixpoint observe (ps : list packet) : HM MsgLogger (list propagation_t) :=
  match ps with
  | [] => se_ret []
  | (h, e, d) :: ps =>
      v <-- deliver (msg_logger env ndebug file) h e d ;; vs <-- observe ps ;; se_ret (v :: vs)
  end.

Definition logged (n : Z) (p : packet) : log_op :=
  OpLog LInfo (mk_loc file 59) (inl (packet_line n p.1.1 (Some p.1.2) p.2)).

(** The messages of packets [n+1], [n+2], ... *)
Fixpoint packet_log (n : Z) (ps : list packet) : list log_op :=
  match ps with
  | [] => []
  | (h, e, d) :: ps =>
      logged (u64 (n + 1)) (h, e, d) :: packet_log (u64 (n + 1)) ps
  end.

Lemma deliver_live h e d w l :
  st_once (pw_log w) = true -> st_instance (pw_log w) = Some l ->
  let o := pw_obj w in
  let n := u64 (ml_count (ih_self o) + 1) in
  let st := (run_log_op env ndebug (logged n (h, e, d)) (pw_log w)).2 in
  deliver (msg_logger env ndebug file) h e d w =
    (Some PROPAGATION_CONTINUE,
     mk_pworld (mk_ihandler (ih_supported_types o) (ih_api o) (mk_msg_logger n (ml_start_ts (ih_self o))))
       (pw_cm w) st (pw_info w)) /\
  st_once st = true /\ st_instance st = Some l.
Proof.
  intros Ho Hi o n st. destruct (live_step env ndebug (logged n (h, e, d)) (pw_log w) l Ho Hi) as (st' & Hst & Ho' & Hi' & _).
  unfold st. rewrite Hst. split; [|by split]. cbn [run_log_op logged fst snd] in Hst.
  unfold deliver, msg_logger. cbn [hc_handle_message hc_on_result].
  unfold logger_handle_message, set_self, set_obj, LOG_INFO, lift_log, se_bind, se_get, se_mod.
  cbn [pw_log pw_obj pw_cm pw_info ih_self ml_count]. fold o n. by rewrite Hst.
Qed.

Lemma observe_run ps w l :
  st_once (pw_log w) = true -> st_instance (pw_log w) = Some l ->
  let n := ml_count (ih_self (pw_obj w)) in
  exists w', observe ps w = (Some (map (fun _ => PROPAGATION_CONTINUE) ps), w') /\
    ml_count (ih_self (pw_obj w')) = (if decide (ps = []) then n else u64 (n + Z.of_nat (length ps))) /\
    pw_cm w' = pw_cm w /\ pw_log w' = run_log env ndebug (packet_log n ps) (pw_log w).
Proof.
  revert w. induction ps as [|[[h e] d] ps IH]; intros w Ho Hi n; [by exists w|].
  destruct (deliver_live h e d w l Ho Hi) as (Hd & Ho' & Hi'). cbn [observe]. unfold se_bind at 1. rewrite Hd.
  match type of Hd with _ = (_, ?w1) => destruct (IH w1 Ho' Hi') as (w' & Hw & Hc & Hm & Hl) end.
  exists w'. unfold se_bind, se_ret. rewrite Hw. split_and!; [done| |done|done].
  rewrite Hc. cbn [pw_obj ih_self ml_count]. fold n. destruct (decide _) as [->|]; [done|].
  rewrite decide_False by done. cbn [length]. unfold u64, wrap. rewrite Zplus_mod_idemp_l. f_equal. lia.
Qed.
End msg_logger.

(** With a live logger every packet gets the verdict CONTINUE and exactly one message, and the
    messages are numbered by a counter that wraps at its width; the manager is not touched. *)
Theorem msg_logger_exact env ndebug file ps w l :
  st_once (pw_log w) = true -> st_instance (pw_log w) = Some l ->
  let n := ml_count (ih_self (pw_obj w)) in
  exists w', observe env ndebug file ps w = (Some (map (fun _ => PROPAGATION_CONTINUE) ps), w') /\
    pw_cm w' = pw_cm w /\
    st_lines (pw_log w') = st_lines (pw_log w) ++ live_lines ndebug l (st_settings (pw_log w)) (packet_log file n ps).
Proof.
  intros Ho Hi n. destruct (observe_run env ndebug file ps w l Ho Hi) as (w' & Hw & _ & Hc & Hl).
  exists w'. split_and!; [done|done|]. rewrite Hl. by apply live_run.
Qed.

(** ** The default gathering send *)

Section gather.
Context {St : Type} (do_send : Z -> bytes -> TM St Z) (id : Z).

(** Segments that are all sent. *)
Fixpoint all_sent (segs : list bytes) (w : pworld (IConnector St)) : option (pworld (IConnector St)) :=
  match segs with
  | [] => Some w
  | seg :: segs =>
      match do_send id seg w with
      | (Some rc, w') => if rc =? 0 then all_sent segs w' else None
      | (None, _) => None
      end
  end.

(** The segments are sent in order up to the first that fails; the code is that segment's,
    and zero exactly when all of them were sent. *)
Lemma gather_prefix iov w rc w' :
  gather_from do_send id 0 iov w = (Some rc, w') <->
  (rc = 0 /\ all_sent iov w = Some w') \/
  exists pre seg post w1, iov = pre ++ seg :: post /\ all_sent pre w = Some w1 /\
    do_send id seg w1 = (Some rc, w') /\ rc <> 0.
Proof.
  revert w. induction iov as [|seg iov IH]; intros w; cbn [gather_from all_sent].
  - unfold se_ret. split; [intros [= <- <-]; by left|].
    intros [[-> [= ->]]|(pre & seg & post & w1 & H & _)]; [done|by destruct pre].
  - unfold se_bind. destruct (do_send id seg w) as [[r|] w1] eqn:Hs.
    + destruct (Z.eqb_spec r 0) as [->|Hr].
      * rewrite IH. split.
        -- intros [H|(pre & s & post & w2 & -> & H2 & H)]; [by left|].
           right. exists (seg :: pre), s, post, w2. cbn. by rewrite Hs.
        -- intros [H|(pre & s & post & w2 & He & H2 & H3 & H4)]; [by left|].
           destruct pre as [|s' pre]; injection He as <- ->; [by injection H2 as <-; rewrite Hs in H3; injection H3 as <-|].
           cbn in H2. rewrite Hs in H2. right. by exists pre, s, post, w2.
      * unfold se_ret. split.
        -- intros [= <- <-]. right. by exists [], seg, iov, w.
        -- intros [[_ ?]|(pre & s & post & w2 & He & H2 & H3 & H4)]; [done|].
           destruct pre as [|s' pre]; injection He as <- ->; [by injection H2 as <-; rewrite Hs in H3|].
           cbn in H2. rewrite Hs in H2. by destruct (Z.eqb_spec r 0).
    + split; [done|]. intros [[_ ?]|(pre & s & post & w2 & He & H2 & H3 & H4)]; [done|].
      destruct pre as [|s' pre]; injection He as <- ->; [by injection H2 as <-; rewrite Hs in H3|].
      cbn in H2. by rewrite Hs in H2.
Qed.
End gather.

(** ** Typed messages *)

#[export] Instance pod_laws {A} (c : codec A) `{!CodecOk c} : IDataLaws (PodData c) (fun x => cwf c (pod_value x)).
Proof.
  split.
  - intros [x] y Hx. cbn. rewrite <-(app_nil_r (PodData.serialize c x)).
    by rewrite PodData.deserialize_serialize.
  - intros b y. cbn. rewrite fmap_is_Some. unfold PodData.deserialize, is_Some.
    case_bool_decide; split; [by intros []|lia|lia|eauto].
Qed.

#[export] Instance var_laws : IDataLaws VarData (fun _ => True).
Proof. split; [by intros [b] ?|]. intros b y. cbn. split; [lia|eauto]. Qed.

(** What is sent as an object is received as that object. *)
Lemma typed_roundtrip T `{IData T} ok `{!IDataLaws T ok} (x : T) : ok x -> from_bytes T (to_bytes x) = Some x.
Proof. intros Hx. unfold from_bytes, to_bytes. by apply data_roundtrip. Qed.

(** A fixed layout ignores what follows it. *)
Lemma pod_prefix {A} (c : codec A) `{!CodecOk c} (x : A) rest :
  cwf c x -> from_bytes (PodData c) (to_bytes (mk_pod (c := c) x) ++ rest) = Some (mk_pod x).
Proof. intros Hx. unfold from_bytes, to_bytes. cbn. by rewrite PodData.deserialize_serialize. Qed.

(** ** Configuration through the helpers *)

(** A value shorter than the buffer reaches the plugin whole, a longer one cut to one byte
    less than the buffer. *)
Lemma config_buffer_value `{CO : !CryptoOps} config fuel x key v sz :
  config = Some x -> get_raw x key = Some v -> x00 ∉ str_bytes v ->
  config_buffer (Some (fill_host_api config fuel)) sz key = take (sz - 1) (str_bytes v).
Proof.
  intros -> Hv H0. unfold config_buffer. cbn [api_config_get fill_host_api]. unfold s_config_get. rewrite Hv.
  cbn [snd default from_option]. unfold id. by rewrite until_nul_strncpy, until_nul_id.
Qed.

(** A key of a plugin's own is never found, whatever the configuration file holds. *)
Lemma greeting_never_found `{CO : !CryptoOps} config fuel :
  config_buffer (Some (fill_host_api config fuel)) 1024 "template.greeting" = [].
Proof. by destruct config. Qed.

(** The metadata of the base class is that of the first handler that asked for it: a second
    handler of the process is described by the name of the first. *)
Lemma plugin_info_shared {S1 S2} (c1 : handler_class S1) (c2 : handler_class S2) w1 o2 :
  pw_info w1 = None ->
  let w2 := mk_pworld o2 (pw_cm w1) (pw_log w1) (pw_info (get_plugin_info c1 w1).2) in
  pi_name <$> (get_plugin_info c2 w2).1 = Some (Some (hc_get_plugin_name c1)).
Proof. intros H. unfold get_plugin_info. by rewrite H. Qed.

(** ** Witnesses *)

(** A node where a chat handler consumes the packets of its type, and the packet logger. *)
Definition toy_chat_node : cm :=
  set_c_bus (subscribe 100 "chat" (fun _ _ _ => PROPAGATION_CONSUMED) 200 bus_init).2 alice0.
Definition toy_log_env : log_env := mk_log_env (fun _ => true) (fun _ _ _ => true).
Definition toy_logger : handler_class MsgLogger := msg_logger toy_log_env true [].
Definition toy_logger_world : pworld (IHandler MsgLogger) :=
  mk_pworld (mk_ihandler logger_types None (mk_msg_logger 0 0)) toy_chat_node (log_init []) None.

Lemma observer_transparent_witness :
  exists h w', to_c_handler toy_logger toy_logger_world = (Some h, w') /\
  (dispatch_packet (c_bus (register_handler h toy_chat_node).2) 100 toy_relayed (toy_ep "10.0.0.2" 0) []).1 =
    mk_emit PROPAGATION_CONSUMED "chat".
Proof.
  do 2 eexists. split; [reflexivity|].
  pose proof (observer_transparent toy_logger toy_logger_world _ _ toy_chat_node eq_refl (fun _ _ => eq_refl)
    (bus_sorted_subscribe _ _ _ _ _ bus_sorted_init)) as [_ H].
  rewrite (proj1 (H _ _ _ _)). reflexivity.
Defined.
