(* ===== verification/CmIce.v ===== *)
(** * ICE signals through the connection manager ([plugins/connectors/ice/ice.cpp], [core/cm])

    At start the ICE connector registers a handler for its signals; a signal is a message of
    the application like any other.  Here the registration and the callback are composed with
    the manager: signals reach the connector ([ice_signal_reaches]), together with the
    endpoint of the connection they came over.  That endpoint is what the transport reported
    when the connection was made: no operation of the manager writes the peer's key into it
    ([remote_kept]).  The TCP connector reports no key, so over TCP every signal is taken for
    one of the same, all-zero peer ([ice_signals_anonymous]). *)

From Stdlib Require Import ZArith Strings.Byte String Lia.
From stdpp Require Import base gmap list strings numbers.
From S2P Require Import Prelude Codec Wire NonceWindow Queue Crypto Noise Session Signals Stun Candidate IceSession IceConnector.
From S2P Require Import CmState CmTransport CmClose CmHandshake CmDispatch CmLifecycle CmFrame CmInvariant CmSafety CmScenario.
From S2P Require Import CmReassembly Tcp CmDelivery CmLink Sdk.

Local Open Scope Z_scope.

(** ** Registration and callback *)

(** [sig_handler_] as [on_init] fills it. *)
Definition ice_sig_handler : handler_t :=
  mk_handler (Some "ice_signal_handler"%string) true None false [MSG_TYPE_ICE_SIGNAL] None.

Definition ice_on_init : CM unit := register_handler_from_connector ice_sig_handler.

Definition hex32 (pk : bytes) : bytes := str_bytes (bytes_to_hex (take 32 pk)).

Definition s_on_signal (hmac : bytes -> bytes -> bytes) (rng : nat -> nat -> draw) (env : core_env) (b : birth)
    (ep : endpoint_t) (pl : bytes) (c : IceConnector) : IceConnector :=
  on_ice_signal hmac rng env b (ep_pubkey ep) pl c.

(** The signals among the handler calls of a manager. *)
Definition ice_signals (tr : list event) : list (endpoint_t * bytes) :=
  omap (fun e => match e with EvHandle "ice_signal_handler" _ ep d => Some (ep, d) | _ => None end) tr.

(** ** The endpoint of a connection *)

(** Records come from records with the same endpoint. *)
Definition Kept {A} (m : CM A) : Prop := forall c id r',
  c_records (m c).2 !! id = Some r' -> exists r, c_records c !! id = Some r /\ r_remote r' = r_remote r.

Lemma Kept_ret {A} (a : A) : Kept (mret a).
Proof. intros c id r' H. eauto. Qed.

Lemma Kept_bind {A B} (m : CM A) (k : A -> CM B) : Kept m -> (forall a, Kept (k a)) -> Kept (m ≫= k).
Proof.
  intros Hm Hk c id r'. unfold mbind, cm_bind. specialize (Hm c). destruct (m c) as [a c1]. intros H.
  apply Hk in H as (r1 & H1 & ->). by apply Hm.
Qed.

Lemma Kept_for_each {A} (l : list A) (f : A -> CM unit) : (forall a, Kept (f a)) -> Kept (for_each l f).
Proof. intros Hf. induction l; simpl; [apply Kept_ret|]. by apply Kept_bind. Qed.

Lemma Kept_modify f : (forall c, c_records (f c) = c_records c) -> Kept (modify f).
Proof. intros Hf c id r'. cbn. rewrite Hf. eauto. Qed.

Lemma Kept_upd id f : (forall r, r_remote (f r) = r_remote r) -> Kept (upd_record id f).
Proof.
  intros Hf c i r'. cbn. intros [[-> (r & Hr & ->)]|[_ Hr]]%lookup_alter_Some; eauto.
Qed.

Lemma Kept_erase id : Kept (erase_record id).
Proof. intros c i r'. cbn. intros [_ H]%lookup_delete_Some. eauto. Qed.

Lemma Kept_Quiet {A} (m : CM A) : Quiet m -> Kept m.
Proof.
  intros Hm c id r' Hr. destruct (core_record c _ id r' (q_records _ _ (Hm c)) Hr) as (r & H & Hc).
  exists r. split; [done|]. by apply core_of_remote in Hc as (_ & ? & _).
Qed.

Create HintDb kept.

Ltac kept_step :=
  match goal with
  | |- forall _, _ => intros ?
  | |- Kept (mret _) => apply Kept_ret
  | |- Kept (_ ≫= _) => apply Kept_bind
  | |- Kept (for_each _ _) => apply Kept_for_each
  | |- Kept (upd_record _ _) => by apply Kept_upd
  | |- Kept (erase_record _) => apply Kept_erase
  | |- Kept (modify _) => by apply Kept_modify
  | |- Kept (on_bus _) => by apply Kept_modify
  | |- Kept (match ?x with _ => _ end) => destruct x
  | |- Kept _ => solve [auto with kept nocore | apply Kept_Quiet; solve_quiet]
  end.
Ltac solve_kept := repeat kept_step.

Section endpoints.
Context `{CO : !CryptoOps}.

Lemma Kept_noise_run {A} id (m : SE HandshakeState A) : Kept (noise_run id m).
Proof. unfold noise_run. solve_kept. Qed.
Hint Resolve @Kept_noise_run : kept.

Lemma Kept_noise_write id p : Kept (noise_write id p).
Proof. unfold noise_write. solve_kept. Qed.
Hint Resolve Kept_noise_write : kept.

Lemma Kept_process id d : Kept (process_handshake_payload id d).
Proof.
  unfold process_handshake_payload. solve_kept. apply Kept_upd. intros r. unfold accept_payload. cbn zeta.
  by case_match.
Qed.
Hint Resolve Kept_process : kept.

Lemma Kept_push_pending key t p : Kept (push_pending key t p).
Proof. unfold push_pending. solve_kept. Qed.
Hint Resolve Kept_push_pending : kept.

Lemma Kept_send_uri uri t p : Kept (send_uri uri t p).
Proof. unfold send_uri. solve_kept. Qed.

Lemma Kept_finalize id : Kept (finalize_handshake id).
Proof.
  unfold finalize_handshake, flush_pending_messages, erase_queue, erase_uri, erase_pending. solve_kept.
  apply Kept_upd. intros r. unfold establish. destruct (hs_split _). cbn zeta. by case_match.
Qed.
Hint Resolve Kept_finalize : kept.

Lemma Kept_noise_init id p : Kept (handle_noise_init id p).
Proof. unfold handle_noise_init, handshake_as, build_handshake_payload, noise_read. solve_kept. Qed.

Lemma Kept_noise_resp id p : Kept (handle_noise_resp id p).
Proof. unfold handle_noise_resp, handshake_as, build_handshake_payload, noise_read. solve_kept. Qed.

Lemma Kept_noise_fin id p : Kept (handle_noise_fin id p).
Proof. unfold handle_noise_fin, handshake_as, noise_read. solve_kept. Qed.
Hint Resolve Kept_noise_init Kept_noise_resp Kept_noise_fin : kept.

Lemma Kept_dispatch_body d id hdr p ts :
  (forall id hdr p ts, Kept (d id hdr p ts)) -> Kept (dispatch_body d id hdr p ts).
Proof. intros Hd. unfold dispatch_body, deliver_plain, handle_relay, session_decrypt. solve_kept. Qed.

Lemma Kept_dispatch fuel id hdr p ts : Kept (cm_dispatch fuel id hdr p ts).
Proof.
  revert id hdr p ts. induction fuel as [|fuel IH]; intros id hdr p ts; cbn [cm_dispatch];
    (apply Kept_bind; [by apply Kept_modify|intros _]; apply Kept_bind; [|intros _; by apply Kept_modify];
     apply Kept_dispatch_body); solve_kept.
Qed.

Lemma Kept_reassemble rounds d peer ts consumed :
  (forall id hdr p ts, Kept (d id hdr p ts)) -> Kept (reassemble rounds d peer ts consumed).
Proof.
  intros Hd. revert consumed. induction rounds as [|rounds IH]; intros consumed; cbn [reassemble]; solve_kept.
Qed.

Lemma Kept_handle_data fuel id raw : Kept (handle_data fuel id raw).
Proof.
  pose proof (Kept_dispatch fuel) as Hd. unfold handle_data, handle_data_with. solve_kept. by apply Kept_reassemble.
Qed.

Lemma Kept_handle_disconnect id e : Kept (handle_disconnect id e).
Proof.
  unfold handle_disconnect, disconnect_primary, disconnect_secondary, erase_transport, erase_queue, erase_uri, erase_pending, erase_pk.
  solve_kept.
Qed.

Lemma Kept_add_transport pk ep s : Kept (handle_add_transport pk ep s).
Proof. unfold handle_add_transport. solve_kept. Qed.

Lemma Kept_register h src : Kept (register_handler_internal h src).
Proof. unfold register_handler_internal. solve_kept. Qed.

(** A new connection has the endpoint the connector reported. *)
Definition Adds {A} (ep : endpoint_t) (m : CM A) : Prop := forall c id r',
  c_records (m c).2 !! id = Some r' ->
  r_remote r' = ep \/ exists r, c_records c !! id = Some r /\ r_remote r' = r_remote r.

Lemma Adds_Kept {A} ep (m : CM A) : Kept m -> Adds ep m.
Proof. intros Hm c id r' H. right. by apply Hm. Qed.

Lemma Adds_after {A B} ep (m : CM A) (k : A -> CM B) : Kept m -> (forall a, Adds ep (k a)) -> Adds ep (m ≫= k).
Proof.
  intros Hm Hk c id r'. unfold mbind, cm_bind. specialize (Hm c). destruct (m c) as [a c1]. intros H.
  apply Hk in H as [?|(r1 & H1 & ->)]; [by left|]. right. by apply Hm.
Qed.

Lemma Adds_before {A B} ep (m : CM A) (k : A -> CM B) : Adds ep m -> (forall a, Kept (k a)) -> Adds ep (m ≫= k).
Proof.
  intros Hm Hk c id r'. unfold mbind, cm_bind. specialize (Hm c). destruct (m c) as [a c1]. intros H.
  apply Hk in H as (r1 & H1 & ->). by apply Hm.
Qed.

Lemma Adds_connect ep : Adds ep (handle_connect ep).
Proof.
  unfold handle_connect. apply Adds_after; [solve_kept|intros [|]; [apply Adds_Kept, Kept_ret|]].
  do 4 (apply Adds_after; [solve_kept|intros ?]). apply Adds_after; [solve_kept|intros c0].
  apply Adds_before; [|unfold send_noise_init; solve_kept].
  intros c id r'. cbn. intros [[<- <-]|[_ H]]%lookup_insert_Some; [by left|eauto].
Qed.

(** ** In every reachable state *)

(** The endpoints the connectors reported. *)
Definition reported (calls : list api_call) : list endpoint_t :=
  omap (fun a => match a with ApiOnConnect ep => Some ep | _ => None end) calls.

Lemma run_call_remote fuel a c id r' :
  c_records (run_call fuel a c).2 !! id = Some r' ->
  (r_remote r' ∈ reported [a]) \/ exists r, c_records c !! id = Some r /\ r_remote r' = r_remote r.
Proof.
  intros H. destruct a; try (right; revert H; match goal with |- c_records (run_call _ ?a _).2 !! _ = _ -> _ => enough (Kept (run_call fuel a)) as Hk by apply Hk end;
    cbn [run_call]; unfold shutdown, rotate_identity_keys, register_handler, register_handler_from_connector,
      register_connector, set_scheme_priority, rekey_session, cleanup_stale_pending;
    solve [solve_kept | apply Kept_bind; [apply Kept_send_uri || apply Kept_add_transport|intros; apply Kept_ret]
          | apply Kept_handle_data | apply Kept_handle_disconnect | apply Kept_register]).
  cbn [run_call] in H. apply (Adds_before ep _ (fun _ => mret tt) (Adds_connect ep)) in H as [->|H];
    [left; cbn; by left|by right|intros; apply Kept_ret].
Qed.

Lemma remote_kept fuel calls c id r :
  c_records (run_calls fuel calls c) !! id = Some r ->
  r_remote r ∈ reported calls \/ exists r0, c_records c !! id = Some r0 /\ r_remote r = r_remote r0.
Proof.
  revert r. induction calls as [|a calls IH] using rev_ind; intros r; [eauto|]. unfold run_calls. rewrite fold_left_app. cbn [fold_left].
  unfold reported. rewrite omap_app. intros H. apply run_call_remote in H as [H|(r1 & H1 & ->)].
  - left. apply elem_of_app. by right.
  - apply IH in H1 as [H1|H1]; [|by right]. left. apply elem_of_app. by left.
Qed.

(** ** Signals *)

(** Signals reach the connector: once [on_init] has run, a signal packet that the other handlers
    let pass is handed to the connector's handler, and no packet of any type is decided
    differently. *)
Theorem ice_signal_reaches c :
  bus_sorted (c_bus c) ->
  let c' := (ice_on_init c).2 in
  bus_sorted (c_bus c') /\ unobserved "ice_signal_handler" (c_bus c) (c_bus c') /\
  forall ep hdr d, hdr_payload_type hdr = MSG_TYPE_ICE_SIGNAL ->
    er_result (dispatch_packet (c_bus c) MSG_TYPE_ICE_SIGNAL hdr ep d).1 = PROPAGATION_CONTINUE ->
    (ep, d) ∈ ice_signals (handled c' ep hdr d).
Proof.
  intros Hb c'. set (cb := make_cb ice_sig_handler).
  destruct (observer_subscriptions "ice_signal_handler" cb 128 (fun _ _ _ => eq_refl) [MSG_TYPE_ICE_SIGNAL] c Hb) as (H1 & H2 & _ & H4).
  assert (c_bus c' = c_bus (for_each [MSG_TYPE_ICE_SIGNAL] (fun t => on_bus (fun b => (subscribe t "ice_signal_handler" cb 128 b).2)) c).2)
    as Hc' by reflexivity.
  rewrite Hc'. set (c1 := (for_each [MSG_TYPE_ICE_SIGNAL] _ c).2) in *. split; [done|]. split; [done|].
  intros ep hdr d Ht Hok. destruct (H2 MSG_TYPE_ICE_SIGNAL hdr ep d) as [Hv _]. rewrite <-Hv in Hok.
  assert ("ice_signal_handler"%string ∈ (dispatch_packet (c_bus c1) MSG_TYPE_ICE_SIGNAL hdr ep d).2) as Hin.
  { refine (continue_calls _ _ hdr ep d (mk_entry 128 "ice_signal_handler" cb) _ Hok). unfold chain. apply elem_of_app.
    left. apply H4. by left. }
  unfold handled. rewrite Ht, Hc'. fold c1. apply list_elem_of_omap. exists (EvHandle "ice_signal_handler" hdr ep d).
  split; [|done]. by apply (list_elem_of_fmap_2 (fun name => EvHandle name hdr ep d)).
Qed.

(** The key of the peer all TCP connections seem to have. *)
Definition zero_peer : bytes := hex32 (replicate 32 x00).

(** C39: Over TCP every signal is taken for one of the same peer.  In a manager whose connections
    were all reported by the TCP connector the endpoint of every connection has the all-zero
    key, whoever authenticated on it; so an answer is dropped unless there is a session with
    the all-zero peer, and an offer is dropped while there is one, whichever peer it is from. *)
Theorem ice_signals_anonymous fuel calls b me cfg now wall rng0 io0 id r :
  (forall ep, ep ∈ reported calls -> exists peer outbound, ep = endpoint_of peer outbound) ->
  c_records (run_calls fuel calls (cm_init b me cfg now wall rng0 io0)) !! id = Some r ->
  ep_pubkey (remote_view id r) = replicate 32 x00 /\
  forall hmac rng env bth pl offer sd cs ic,
    parse_signal pl = Some (offer, sd, cs) ->
    (if offer then is_Some (ic_sessions ic !! zero_peer) else ic_sessions ic !! zero_peer = None) ->
    s_on_signal hmac rng env bth (remote_view id r) pl ic = ic.
Proof.
  intros Hep Hr.
  assert (ep_pubkey (remote_view id r) = replicate 32 x00) as Hpk.
  { unfold remote_view. cbn [ep_pubkey].
    apply remote_kept in Hr as [Hr|(r0 & Hr & _)]; [|cbn [c_records cm_init] in Hr; by rewrite lookup_empty in Hr].
    apply Hep in Hr as (peer & outbound & ->). by destruct peer. }
  split; [done|]. intros hmac rng env bth pl offer sd cs ic Hp Hs. unfold s_on_signal, on_ice_signal.
  rewrite Hp, Hpk. change (str_bytes (bytes_to_hex (take 32 (replicate 32 x00)))) with zero_peer. destruct offer.
  - unfold create_session. by rewrite bool_decide_true.
  - unfold by_peer. by rewrite Hs.
Qed.
End endpoints.

(** ** Two peers over TCP *)

#[local] Existing Instances ToyCrypto.ops ToyCrypto.laws.

Definition toy_tcp_calls : list api_call :=
  [ApiOnConnect (endpoint_of (Some (mk_peer "10.0.0.1" 4000 false)) false);
   ApiOnConnect (endpoint_of (Some (mk_peer "10.0.0.2" 4000 false)) false)].

Definition toy_tcp_manager : cm := run_calls 2 toy_tcp_calls (cm_init bus_init (toy_identity x01 x02) None 1000 2000 0 0).

Definition toy_tcp_endpoint (id : Z) : endpoint_t :=
  from_option (remote_view id) (endpoint_of None false) (c_records toy_tcp_manager !! id).

Definition toy_birth : birth := mk_birth (generate_credentials (replicate 64 x01) (replicate 64 x02)) 2 (fun _ => None) 5000.
Definition toy_core_env : core_env := mk_env (fun _ => 0) (fun _ => 0) (fun _ => 0).
Definition toy_offer : bytes := signal_packet OFFER (serialize_signal toy_sender).

Definition toy_ice_signal (id : Z) (c : IceConnector) : IceConnector :=
  s_on_signal toy_hmac (fun _ _ => mk_draw [] true true) toy_core_env toy_birth (toy_tcp_endpoint id) toy_offer c.

Lemma toy_tcp_reported ep : ep ∈ reported toy_tcp_calls -> exists peer outbound, ep = endpoint_of peer outbound.
Proof.
  unfold toy_tcp_calls, reported. cbn [omap list_omap].
  intros [->|Hep]%elem_of_cons; [by eexists _, _|]. apply list_elem_of_singleton in Hep as ->. by eexists _, _.
Qed.

Lemma toy_tcp_record :
  exists r, c_records (run_calls 2 toy_tcp_calls (cm_init bus_init (toy_identity x01 x02) None 1000 2000 0 0)) !! 2 = Some r /\
    toy_tcp_endpoint 2 = remote_view 2 r.
Proof. eexists. split; vm_compute; reflexivity. Qed.

Lemma toy_offer_parsed : exists sd cs, parse_signal toy_offer = Some (true, sd, cs).
Proof. do 2 eexists. vm_compute. reflexivity. Qed.

Lemma toy_first_offer : ic_sessions (toy_ice_signal 1 (connector_init default_config)) !! zero_peer = Some 0%nat.
Proof. vm_compute. reflexivity. Qed.

(** The offer of the second peer is dropped because of the first. *)
Lemma ice_signals_anonymous_witness :
  toy_ice_signal 2 (toy_ice_signal 1 (connector_init default_config)) = toy_ice_signal 1 (connector_init default_config).
Proof.
  pose proof toy_first_offer as Hic. set (ic := toy_ice_signal 1 _) in *. clearbody ic.
  destruct toy_tcp_record as (r & Hr & He), toy_offer_parsed as (sd & cs & Hp). unfold toy_ice_signal. rewrite He.
  exact (proj2 (ice_signals_anonymous 2 toy_tcp_calls bus_init (toy_identity x01 x02) None 1000 2000 0 0 2 r toy_tcp_reported Hr)
    _ _ _ _ _ true sd cs ic Hp (ex_intro _ 0%nat Hic)).
Defined.
