(* ===== verification/Dynlib.v ===== *)
(** * Loaded libraries ([core/dynlib.hpp], [core/types/plugin.hpp], [core/pm/core.cpp])

    Who owns a loaded library: the move-only [DynLib], and the [HandlerInfo] and
    [ConnectorInfo] records that hold one next to the plugin's descriptor (the two classes
    have the same constructors, assignment and destructor).  Objects live in a store by
    address, so that moves and self-assignment are those of the source.  The n-th successful
    [dlopen] gives the reference n: each has to be given back by one [dlclose]. *)

From Stdlib Require Import ZArith Lia.
From stdpp Require Import base gmap list.
From S2P Require Import Prelude.

(** ** Objects *)

(** A [DynLib], or an info record with its [lib] and its descriptor: the reference of the
    library the descriptor points into. *)
Record obj := mk_obj {
  o_info : bool;
  o_handle : option nat;
  o_desc : option nat;
}.

Inductive dl_event := DlClosed (h : nat) | DlShutdown (h : nat).

Record dl_state := mk_dl {
  dl_objs : gmap nat obj;
  dl_opened : nat;
  dl_trace : list dl_event;
}.

Definition dl_init : dl_state := mk_dl ∅ 0 [].

Definition put_obj (v : nat) (o : obj) (s : dl_state) : dl_state := mk_dl (<[v := o]> (dl_objs s)) (dl_opened s) (dl_trace s).
Definition del_obj (v : nat) (s : dl_state) : dl_state := mk_dl (delete v (dl_objs s)) (dl_opened s) (dl_trace s).
Definition tell_dl (evs : list dl_event) (s : dl_state) : dl_state := mk_dl (dl_objs s) (dl_opened s) (dl_trace s ++ evs).

Definition closing (h : option nat) : list dl_event := match h with Some h => [DlClosed h] | None => [] end.
Definition shutting (d : option nat) : list dl_event := match d with Some h => [DlShutdown h] | None => [] end.

Definition set_handle (h : option nat) (o : obj) : obj := mk_obj (o_info o) h (o_desc o).

(** ** [DynLib] *)

Definition dynlib_close (v : nat) (s : dl_state) : dl_state :=
  match dl_objs s !! v with
  | Some o => put_obj v (set_handle None o) (tell_dl (closing (o_handle o)) s)
  | None => s
  end.

Definition is_open (v : nat) (s : dl_state) : bool :=
  match dl_objs s !! v with Some o => bool_decide (is_Some (o_handle o)) | None => false end.

(** The destructor. *)
Definition dynlib_destroy (v : nat) (s : dl_state) : dl_state := del_obj v (dynlib_close v s).

(** [DynLib(DynLib&& other)] at a new address. *)
Definition dynlib_move (v other : nat) (s : dl_state) : dl_state :=
  match dl_objs s !! other with
  | Some o => put_obj other (set_handle None o) (put_obj v (mk_obj false (o_handle o) None) s)
  | None => s
  end.

(** [operator=(DynLib&& other)]. *)
Definition dynlib_assign (v other : nat) (s : dl_state) : dl_state :=
  if bool_decide (v = other) then s
  else
    let s := dynlib_close v s in
    match dl_objs s !! v, dl_objs s !! other with
    | Some o, Some o' => put_obj other (set_handle None o') (put_obj v (set_handle (o_handle o') o) s)
    | _, _ => s
    end.

(** [DynLib::open]: a local object at [tmp] gets the handle and is moved into the result at
    [v]; [ok] is what [dlopen] answers.  Without a handle there is no result. *)
Definition dynlib_open (tmp v : nat) (ok : bool) (s : dl_state) : bool * dl_state :=
  let s := put_obj tmp (mk_obj false None None) s in
  if ok then
    let s := mk_dl (<[tmp := mk_obj false (Some (dl_opened s)) None]> (dl_objs s)) (S (dl_opened s)) (dl_trace s) in
    (true, dynlib_destroy tmp (dynlib_move v tmp s))
  else (false, dynlib_destroy tmp s).

(** [symbol]: [None] without a handle, otherwise what [dlsym] answers. *)
Definition symbol {A} (v : nat) (dlsym : nat -> option A) (s : dl_state) : option A :=
  match dl_objs s !! v with
  | Some o => h ← o_handle o; dlsym h
  | None => None
  end.

(** ** [HandlerInfo] and [ConnectorInfo] *)

Definition info_new (v : nat) (s : dl_state) : dl_state := put_obj v (mk_obj true None None) s.

(** [info->handler = h] once the initialisation gave a descriptor of the library it holds. *)
Definition info_fill (v : nat) (s : dl_state) : dl_state :=
  match dl_objs s !! v with
  | Some o => put_obj v (mk_obj (o_info o) (o_handle o) (o_handle o)) s
  | None => s
  end.

(** The move constructor: the library, the descriptor, then the source's descriptor is
    cleared. *)
Definition info_move (v other : nat) (s : dl_state) : dl_state :=
  match dl_objs s !! other with
  | Some o => put_obj other (mk_obj true None None) (put_obj v (mk_obj true (o_handle o) (o_desc o)) s)
  | None => s
  end.

(** The move assignment. *)
Definition info_assign (v other : nat) (s : dl_state) : dl_state :=
  if bool_decide (v = other) then s
  else
    let s := dynlib_assign v other s in
    match dl_objs s !! v, dl_objs s !! other with
    | Some o, Some o' =>
        put_obj other (mk_obj true (o_handle o') None) (put_obj v (mk_obj true (o_handle o) (o_desc o')) s)
    | _, _ => s
    end.

(** The destructor shuts the plugin down, then that of the member closes the library. *)
Definition info_destroy (v : nat) (s : dl_state) : dl_state :=
  match dl_objs s !! v with
  | Some o => dynlib_destroy v (tell_dl (shutting (o_desc o)) s)
  | None => s
  end.

(** ** Programs *)

Inductive dl_op :=
  | DlDefault (v : nat)
  | DlOpen (tmp v : nat) (ok : bool)
  | DlMove (v other : nat)
  | DlAssign (v other : nat)
  | DlClose (v : nat)
  | DlDestroy (v : nat)
  | InfoNew (v : nat)
  | InfoFill (v : nat)
  | InfoMove (v other : nat)
  | InfoAssign (v other : nat)
  | InfoDestroy (v : nat).

Definition run_dl_op (op : dl_op) (s : dl_state) : dl_state :=
  match op with
  | DlDefault v => put_obj v (mk_obj false None None) s
  | DlOpen tmp v ok => (dynlib_open tmp v ok s).2
  | DlMove v other => dynlib_move v other s
  | DlAssign v other => dynlib_assign v other s
  | DlClose v => dynlib_close v s
  | DlDestroy v => dynlib_destroy v s
  | InfoNew v => info_new v s
  | InfoFill v => info_fill v s
  | InfoMove v other => info_move v other s
  | InfoAssign v other => info_assign v other s
  | InfoDestroy v => info_destroy v s
  end.

(** The lifetime rules of the language: objects are constructed at free addresses and used
    while they live, each by the operations of its class; and a library is taken from an info
    record only by the operations of the record once its descriptor is set. *)
Definition is_lib (s : dl_state) (v : nat) : Prop := exists o, dl_objs s !! v = Some o /\ o_info o = false.
Definition is_info (s : dl_state) (v : nat) : Prop := exists o, dl_objs s !! v = Some o /\ o_info o = true.
Definition unset (s : dl_state) (v : nat) : Prop := exists o, dl_objs s !! v = Some o /\ o_desc o = None.

Definition lawful (op : dl_op) (s : dl_state) : Prop :=
  match op with
  | DlDefault v | InfoNew v => dl_objs s !! v = None
  | DlOpen tmp v _ => dl_objs s !! v = None /\ dl_objs s !! tmp = None /\ tmp <> v
  | DlMove v other => dl_objs s !! v = None /\ unset s other
  | DlAssign v other => unset s v /\ unset s other
  | DlClose v => unset s v
  | DlDestroy v => is_lib s v
  | InfoFill v => is_info s v
  | InfoMove v other => dl_objs s !! v = None /\ is_info s other
  | InfoAssign v other => is_info s v /\ is_info s other
  | InfoDestroy v => is_info s v
  end.

Inductive dl_run : dl_state -> Prop :=
  | dl_start : dl_run dl_init
  | dl_next s op : dl_run s -> lawful op s -> dl_run (run_dl_op op s).

(** ** Ownership *)

Definition handle_list (o : obj) : list nat := option_list (o_handle o).
Definition owned (m : gmap nat obj) : list nat := concat (map (fun kv => handle_list kv.2) (map_to_list m)).
Definition closed_of (evs : list dl_event) : list nat :=
  concat (map (fun ev => match ev with DlClosed h => [h] | DlShutdown _ => [] end) evs).

(** Every reference is owned by one object or was closed, and by one [dlclose] only. *)
Definition owns (s : dl_state) : Prop := closed_of (dl_trace s) ++ owned (dl_objs s) ≡ₚ seq 0 (dl_opened s).

(** A set descriptor points into the library of its own record, and only records have one. *)
Definition desc_ok (o : obj) : Prop :=
  match o_desc o with Some h => o_handle o = Some h /\ o_info o = true | None => True end.

Definition descs_ok (s : dl_state) : Prop := map_Forall (fun _ => desc_ok) (dl_objs s).

(** No plugin is called after its library was closed. *)
Definition ordered (evs : list dl_event) : Prop :=
  forall i j h, evs !! i = Some (DlClosed h) -> evs !! j = Some (DlShutdown h) -> j < i.

Lemma owned_put m v o : owned (<[v := o]> m) ≡ₚ handle_list o ++ owned (delete v m).
Proof.
  unfold owned. rewrite <-insert_delete_eq. rewrite map_to_list_insert by apply lookup_delete_eq. done.
Qed.

Lemma owned_at m v o : m !! v = Some o -> owned m ≡ₚ handle_list o ++ owned (delete v m).
Proof. intros H. rewrite <-(insert_id m v o H) at 1. apply owned_put. Qed.

Lemma owned_put2 m v w o o' : v <> w ->
  owned (<[v := o]> (<[w := o']> m)) ≡ₚ handle_list o ++ handle_list o' ++ owned (delete w (delete v m)).
Proof.
  intros Hne. rewrite owned_put, delete_insert_ne by done. by rewrite owned_put.
Qed.

Lemma closed_of_app t1 t2 : closed_of (t1 ++ t2) = closed_of t1 ++ closed_of t2.
Proof. unfold closed_of. by rewrite map_app, concat_app. Qed.

Lemma closed_of_closing h : closed_of (closing h) = option_list h.
Proof. by destruct h. Qed.

Lemma closed_of_shutting d : closed_of (shutting d) = [].
Proof. by destruct d. Qed.

(** A new object that owns nothing, and a change that keeps what an object owns. *)
Lemma owns_put v o s :
  handle_list o = from_option handle_list [] (dl_objs s !! v) -> owns s -> owns (put_obj v o s).
Proof.
  unfold owns. intros Ho <-. cbn. rewrite owned_put, Ho.
  destruct (dl_objs s !! v) as [o'|] eqn:E; cbn; [by rewrite (owned_at _ _ _ E)|]. by rewrite delete_id.
Qed.

Lemma owns_close v s : owns s -> owns (dynlib_close v s).
Proof.
  unfold owns, dynlib_close. intros Hs. destruct (dl_objs s !! v) as [o|] eqn:E; [|done].
  cbn [put_obj tell_dl dl_trace dl_objs dl_opened]. rewrite <-Hs, owned_put, closed_of_app, closed_of_closing, (owned_at _ _ _ E). cbn. by rewrite app_assoc.
Qed.

Lemma owns_del v s o : dl_objs s !! v = Some o -> o_handle o = None -> owns s -> owns (del_obj v s).
Proof.
  unfold owns. intros E Ho <-. cbn. rewrite (owned_at _ _ _ E). unfold handle_list. by rewrite Ho.
Qed.

Lemma close_lookup v s o :
  dl_objs s !! v = Some o -> dl_objs (dynlib_close v s) = <[v := set_handle None o]> (dl_objs s).
Proof. intros H. unfold dynlib_close. by rewrite H. Qed.

Lemma owns_destroy v s o : dl_objs s !! v = Some o -> owns s -> owns (dynlib_destroy v s).
Proof.
  intros H Hs. unfold dynlib_destroy. apply (owns_del v _ (set_handle None o)); [|done|by apply owns_close].
  rewrite (close_lookup v s o H). by rewrite lookup_insert_eq.
Qed.

(** The handle of [o'] goes from [other] to [v], which owned none. *)
Lemma owns_take v other o' o1 o2 s :
  v <> other -> dl_objs s !! other = Some o' -> from_option handle_list [] (dl_objs s !! v) = [] ->
  o_handle o1 = o_handle o' -> o_handle o2 = None ->
  owns s -> owns (put_obj other o2 (put_obj v o1 s)).
Proof.
  unfold owns. intros Hne Ho Hv H1 H2 <-. cbn. rewrite owned_put2 by done.
  unfold handle_list at 1 2. rewrite H1, H2. cbn [option_list app]. rewrite delete_delete.
  rewrite (owned_at _ _ _ Ho). 
  apply Permutation_app_head, (Permutation_app_head (handle_list o')).
  destruct (dl_objs s !! v) as [o3|] eqn:E; cbn in Hv.
  - rewrite (owned_at (delete other (dl_objs s)) v o3) by (by rewrite lookup_delete_ne).
    rewrite Hv, delete_delete. done.
  - by rewrite (delete_id (dl_objs s) v E).
Qed.

Lemma owns_assign v other s o o' :
  dl_objs s !! v = Some o -> dl_objs s !! other = Some o' -> owns s -> owns (dynlib_assign v other s).
Proof.
  intros Hv Ho Hs. unfold dynlib_assign. case_bool_decide as Hne; [done|].
  rewrite (close_lookup v s o Hv), lookup_insert_eq, lookup_insert_ne, Ho by done.
  apply (owns_take v other o'); [done| | |done|done|by apply owns_close].
  - by rewrite (close_lookup v s o Hv), lookup_insert_ne.
  - by rewrite (close_lookup v s o Hv), lookup_insert_eq.
Qed.

(** The objects after an assignment between different objects. *)
Lemma assign_objs v other s o o' :
  v <> other -> dl_objs s !! v = Some o -> dl_objs s !! other = Some o' ->
  dl_objs (dynlib_assign v other s) =
    <[other := set_handle None o']> (<[v := set_handle (o_handle o') o]> (dl_objs s)) /\
  dl_trace (dynlib_assign v other s) = dl_trace s ++ closing (o_handle o).
Proof.
  intros Hne Hv Ho. unfold dynlib_assign. rewrite bool_decide_false by done.
  rewrite (close_lookup v s o Hv), lookup_insert_eq, lookup_insert_ne, Ho by done.
  cbn [put_obj dl_objs dl_trace set_handle]. rewrite (close_lookup v s o Hv), insert_insert_eq.
  unfold dynlib_close. by rewrite Hv.
Qed.

Lemma ordered_closing evs h : ordered evs -> ordered (evs ++ closing h).
Proof.
  intros H i j k Hi Hj. destruct h as [h|]; [|rewrite app_nil_r in Hi, Hj; by eapply H].
  apply lookup_app_Some in Hi, Hj. destruct Hj as [Hj|[Hl Hj]]; [|by apply list_lookup_singleton_Some in Hj as [_ ?]].
  destruct Hi as [Hi|[Hl Hi]]; [by eapply H|]. apply lookup_lt_Some in Hj. lia.
Qed.

Lemma ordered_shutting evs d :
  ordered evs -> (forall h, d = Some h -> h ∉ closed_of evs) -> ordered (evs ++ shutting d).
Proof.
  intros H Hd i j k Hi Hj. destruct d as [h|]; [|rewrite app_nil_r in Hi, Hj; by eapply H].
  apply lookup_app_Some in Hi, Hj. destruct Hi as [Hi|[Hl Hi]]; [|by apply list_lookup_singleton_Some in Hi as [_ ?]].
  destruct Hj as [Hj|[Hl Hj]]; [by eapply H|]. apply list_lookup_singleton_Some in Hj as [_ [= ->]].
  destruct (Hd _ eq_refl). apply list_elem_of_In, in_concat. exists [k]. split; [|by left].
  apply in_map_iff. exists (DlClosed k). split; [done|]. by eapply list_elem_of_In, list_elem_of_lookup_2.
Qed.

(** What an object owns was not closed. *)
Lemma owned_not_closed v o h s :
  owns s -> dl_objs s !! v = Some o -> o_handle o = Some h -> h ∉ closed_of (dl_trace s).
Proof.
  intros Hs Hv Hh Hin. unfold owns in Hs. pose proof (NoDup_seq 0 (dl_opened s)) as Hn. rewrite <-Hs in Hn.
  apply NoDup_app in Hn as (_ & Hn & _). apply (Hn h Hin). rewrite (owned_at _ _ _ Hv).
  unfold handle_list. rewrite Hh. by left.
Qed.

(** ** Preservation *)

Record dl_inv (s : dl_state) : Prop := {
  di_owns : owns s;
  di_descs : descs_ok s;
  di_ordered : ordered (dl_trace s);
}.

Lemma desc_unset o : o_desc o = None -> desc_ok o.
Proof. unfold desc_ok. by intros ->. Qed.
#[local] Hint Resolve desc_unset : core.

(** A step that keeps the trace, up to closing a library. *)
Lemma dl_inv_step s s' h :
  dl_inv s -> owns s' -> descs_ok s' -> dl_trace s' = dl_trace s ++ closing h -> dl_inv s'.
Proof. intros [_ _ Ht] Ho Hd He. split; [done|done|]. rewrite He. by apply ordered_closing. Qed.

Lemma inv_fresh v o s :
  dl_inv s -> dl_objs s !! v = None -> o_handle o = None -> o_desc o = None -> dl_inv (put_obj v o s).
Proof.
  intros Hi Hv Hh Hd. apply (dl_inv_step s _ None); [done| | |by rewrite app_nil_r].
  - apply owns_put; [|apply Hi]. rewrite Hv. unfold handle_list. by rewrite Hh.
  - apply map_Forall_insert_2; [by auto|apply Hi].
Qed.

Lemma inv_close v s o : dl_inv s -> dl_objs s !! v = Some o -> o_desc o = None -> dl_inv (dynlib_close v s).
Proof.
  intros Hi Hv Hd. apply (dl_inv_step s _ (o_handle o)); [done|by apply owns_close, Hi| |].
  - unfold descs_ok. rewrite (close_lookup v s o Hv). apply map_Forall_insert_2; [by auto|apply Hi].
  - unfold dynlib_close. by rewrite Hv.
Qed.

Lemma inv_destroy v s o : dl_inv s -> dl_objs s !! v = Some o -> o_desc o = None -> dl_inv (dynlib_destroy v s).
Proof.
  intros Hi Hv Hd. pose proof (inv_close v s o Hi Hv Hd) as Hc.
  apply (dl_inv_step (dynlib_close v s) _ None); [done|by apply (owns_destroy v s o), Hi| |by rewrite app_nil_r].
  apply map_Forall_delete, Hc.
Qed.

Lemma inv_move v other s o :
  dl_inv s -> dl_objs s !! v = None -> dl_objs s !! other = Some o -> o_desc o = None -> dl_inv (dynlib_move v other s).
Proof.
  intros Hi Hv Ho Hd. unfold dynlib_move. rewrite Ho. assert (v <> other) by congruence.
  apply (dl_inv_step s _ None); [done| | |by rewrite app_nil_r].
  - apply (owns_take v other o); [done|done|by rewrite Hv|done|done|apply Hi].
  - apply map_Forall_insert_2; [by auto|]. apply map_Forall_insert_2; [by auto|apply Hi].
Qed.

Lemma inv_assign v other s o o' :
  dl_inv s -> dl_objs s !! v = Some o -> dl_objs s !! other = Some o' -> o_desc o = None -> o_desc o' = None ->
  dl_inv (dynlib_assign v other s).
Proof.
  intros Hi Hv Ho Hd Hd'. destruct (decide (v = other)) as [->|Hne].
  { unfold dynlib_assign. by rewrite bool_decide_true. }
  destruct (assign_objs v other s o o' Hne Hv Ho) as [Hobj Htr].
  apply (dl_inv_step s _ (o_handle o)); [done|by apply (owns_assign v other s o o'), Hi| |done].
  unfold descs_ok. rewrite Hobj. apply map_Forall_insert_2; [by auto|]. apply map_Forall_insert_2; [by auto|apply Hi].
Qed.

Lemma inv_open tmp v ok s :
  dl_inv s -> dl_objs s !! v = None -> dl_objs s !! tmp = None -> tmp <> v -> dl_inv (dynlib_open tmp v ok s).2.
Proof.
  intros Hi Hv Ht Hne. unfold dynlib_open. pose proof (inv_fresh tmp (mk_obj false None None) s Hi Ht eq_refl eq_refl) as H1.
  destruct ok; cbn [snd].
  - set (o := mk_obj false (Some (dl_opened s)) None).
    set (s1 := mk_dl (<[tmp := o]> (dl_objs s)) (S (dl_opened s)) (dl_trace s)).
    assert (dl_inv s1) as H2.
    { apply (dl_inv_step s _ None); [done| | |by rewrite app_nil_r].
      - unfold owns. cbn [s1 dl_trace dl_objs dl_opened]. rewrite owned_put, delete_id by done.
        pose proof (di_owns _ Hi) as Ho. unfold owns in Ho. rewrite seq_S, <-Ho. cbn [o handle_list o_handle option_list].
        cbn [app]. rewrite <-Permutation_cons_append. symmetry. apply Permutation_middle.
      - apply map_Forall_insert_2; [by auto|apply Hi]. }
    match goal with |- dl_inv (dynlib_destroy _ (dynlib_move _ _ ?x)) => assert (x = s1) as -> end.
    { unfold s1, put_obj. cbn. by rewrite insert_insert_eq. }
    assert (dl_objs s1 !! tmp = Some o) as Hs1 by apply lookup_insert_eq.
    assert (dl_inv (dynlib_move v tmp s1)) as H3.
    { apply (inv_move v tmp s1 o); [done| |done|done]. cbn. by rewrite lookup_insert_ne. }
    apply (inv_destroy tmp _ (set_handle None o)); [done| |done].
    unfold dynlib_move. rewrite Hs1. cbn. by rewrite lookup_insert_eq.
  - eapply inv_destroy; [done|cbn; by rewrite lookup_insert_eq|done].
Qed.

Lemma inv_info_fill v s o : dl_inv s -> dl_objs s !! v = Some o -> o_info o = true -> dl_inv (info_fill v s).
Proof.
  intros Hi Hv Ho. unfold info_fill. rewrite Hv. apply (dl_inv_step s _ None); [done| | |by rewrite app_nil_r].
  - apply owns_put; [|apply Hi]. by rewrite Hv.
  - apply map_Forall_insert_2; [|apply Hi]. unfold desc_ok. cbn. by destruct (o_handle o).
Qed.

Lemma inv_info_move v other s o :
  dl_inv s -> dl_objs s !! v = None -> dl_objs s !! other = Some o -> o_info o = true -> dl_inv (info_move v other s).
Proof.
  intros Hi Hv Ho Hk. unfold info_move. rewrite Ho. assert (v <> other) by congruence.
  apply (dl_inv_step s _ None); [done| | |by rewrite app_nil_r].
  - apply (owns_take v other o); [done|done|by rewrite Hv|done|done|apply Hi].
  - apply map_Forall_insert_2; [by auto|]. apply map_Forall_insert_2; [|apply Hi].
    pose proof (di_descs _ Hi other o Ho) as Hd. unfold desc_ok in *. cbn. destruct (o_desc o); [|done]. by destruct Hd.
Qed.

Lemma inv_info_assign v other s o o' :
  dl_inv s -> dl_objs s !! v = Some o -> dl_objs s !! other = Some o' -> dl_inv (info_assign v other s).
Proof.
  intros Hi Hv Ho. unfold info_assign. case_bool_decide as Hne; [done|].
  destruct (assign_objs v other s o o' Hne Hv Ho) as [Hobj Htr].
  pose proof (owns_assign v other s o o' Hv Ho (di_owns _ Hi)) as Hown.
  rewrite Hobj, lookup_insert_eq, lookup_insert_ne, lookup_insert_eq by done.
  apply (dl_inv_step s _ (o_handle o)); [done| | |exact Htr].
  - apply owns_put; [cbn [put_obj dl_objs]; by rewrite Hobj, lookup_insert_ne, lookup_insert_eq|].
    apply owns_put; [by rewrite Hobj, lookup_insert_ne, lookup_insert_eq|done].
  - unfold descs_ok. cbn [put_obj dl_objs]. rewrite Hobj. cbn [o_handle set_handle].
    intros k ok. destruct (decide (k = other)) as [->|Hko]; [rewrite lookup_insert_eq; intros [= <-]; by auto|].
    rewrite lookup_insert_ne by done. destruct (decide (k = v)) as [->|Hkv].
    + rewrite lookup_insert_eq. intros [= <-]. pose proof (di_descs _ Hi other o' Ho) as Hd. unfold desc_ok in *. cbn.
      destruct (o_desc o'); [|done]. by destruct Hd.
    + rewrite !lookup_insert_ne by done. apply (di_descs _ Hi).
Qed.

Lemma inv_info_destroy v s o : dl_inv s -> dl_objs s !! v = Some o -> dl_inv (info_destroy v s).
Proof.
  intros Hi Hv. unfold info_destroy. rewrite Hv. set (s1 := tell_dl (shutting (o_desc o)) s).
  assert (owns s1) as Ho1.
  { unfold owns, s1. cbn [tell_dl dl_trace dl_objs dl_opened]. rewrite closed_of_app, closed_of_shutting, app_nil_r.
    apply Hi. }
  assert (dl_objs s1 !! v = Some o) as Hv1 by done.
  split; [by apply (owns_destroy v s1 o)| |].
  - unfold descs_ok, dynlib_destroy. cbn [del_obj dl_objs]. rewrite (close_lookup v s1 o Hv1), delete_insert_eq.
    apply map_Forall_delete, Hi.
  - unfold dynlib_destroy, dynlib_close. rewrite Hv1. cbn [del_obj put_obj tell_dl dl_trace s1].
    apply ordered_closing, ordered_shutting; [apply Hi|]. intros h Hh.
    pose proof (di_descs _ Hi v o Hv) as Hd. unfold desc_ok in Hd. rewrite Hh in Hd.
    apply (owned_not_closed v o h s (di_owns _ Hi) Hv), Hd.
Qed.

Lemma dl_inv_init : dl_inv dl_init.
Proof.
  split; [|apply map_Forall_empty|by intros [|i] j h Hx].
  unfold owns, owned, dl_init. cbn [dl_objs dl_opened dl_trace]. by rewrite map_to_list_empty.
Qed.

Lemma dl_inv_run s : dl_run s -> dl_inv s.
Proof.
  induction 1 as [|s op Hs IH Hl]; [apply dl_inv_init|].
  destruct op; cbn [run_dl_op lawful] in *.
  - by apply inv_fresh.
  - destruct Hl as (? & ? & ?). by apply inv_open.
  - destruct Hl as (? & o & ? & ?). by eapply inv_move.
  - destruct Hl as [(o & ? & ?) (o' & ? & ?)]. by eapply inv_assign.
  - destruct Hl as (o & ? & ?). by eapply inv_close.
  - destruct Hl as (o & Ho & Hk). apply (inv_destroy _ _ o IH Ho).
    pose proof (di_descs _ IH _ _ Ho) as Hd. unfold desc_ok in Hd. destruct (o_desc o); [|done]. destruct Hd. congruence.
  - by apply inv_fresh.
  - destruct Hl as (o & ? & ?). by eapply inv_info_fill.
  - destruct Hl as (? & o & ? & ?). by eapply inv_info_move.
  - destruct Hl as [(o & ? & ?) (o' & ? & ?)]. by eapply inv_info_assign.
  - destruct Hl as (o & ? & ?). by eapply inv_info_destroy.
Qed.

(** C33: Ownership of loaded libraries.  However libraries are opened, moved, assigned (to
    themselves as well), closed and destroyed, alone or inside the plugin records, each
    successful [dlopen] is at every moment either owned by exactly one live object or was given
    back by exactly one [dlclose]; once no object is left each was given back exactly once; and
    no plugin's [shutdown] is called after its library was closed. *)
Theorem libraries_closed_once s :
  dl_run s ->
  closed_of (dl_trace s) ++ owned (dl_objs s) ≡ₚ seq 0 (dl_opened s) /\
  (dl_objs s = ∅ -> closed_of (dl_trace s) ≡ₚ seq 0 (dl_opened s)) /\
  (forall i j h, dl_trace s !! i = Some (DlClosed h) -> dl_trace s !! j = Some (DlShutdown h) -> j < i).
Proof.
  intros Hs. destruct (dl_inv_run s Hs) as [Ho _ Ht]. split_and!; [exact Ho| |exact Ht].
  intros He. unfold owns in Ho. rewrite He in Ho. by rewrite app_nil_r in Ho.
Qed.

(** A plugin loaded the way the manager does it: open, move into a record, fill, destroy. *)
Definition toy_load : dl_state :=
  fold_left (fun s op => run_dl_op op s)
    [DlOpen 9 0 true; DlMove 1 0; InfoNew 2; DlAssign 2 1; InfoFill 2; DlDestroy 1; DlDestroy 0; InfoDestroy 2] dl_init.

Lemma libraries_closed_once_witness :
  dl_trace toy_load = [DlShutdown 0; DlClosed 0] /\ closed_of (dl_trace toy_load) ≡ₚ seq 0 1.
Proof.
  split; [reflexivity|]. refine (proj1 (proj2 (libraries_closed_once toy_load _)) eq_refl).
  unfold toy_load. cbn [fold_left].
  repeat first [apply dl_start | apply dl_next]; cbn; repeat split; try done; by eexists.
Defined.

(** An assignment over a filled record closes its library without the plugin's [shutdown]. *)
Lemma info_assign_no_shutdown s v other o o' :
  v <> other -> dl_objs s !! v = Some o -> dl_objs s !! other = Some o' ->
  dl_trace (info_assign v other s) = dl_trace s ++ closing (o_handle o).
Proof.
  intros Hne Hv Ho. unfold info_assign. rewrite bool_decide_false by done.
  destruct (assign_objs v other s o o' Hne Hv Ho) as [Hobj Htr].
  by rewrite Hobj, lookup_insert_eq, lookup_insert_ne, lookup_insert_eq by done.
Qed.
