(* ===== verification/StoreApp.v ===== *)
(** * The store program ([apps/store/store_app.cpp], [apps/store/store_app.hpp], [apps/store/main.cpp],
      [apps/store/sqlite_backend.cpp])

    How the database is opened and closed, what the program builds from its options, and how
    its threads start and stop: the main thread that waits for a signal, the application thread inside [StoreApp::run], and the
    clean-up thread.  A step is one action of one thread on the shared state; the polling loops
    wait, so a thread whose condition does not hold has no step.  The reads and the write of
    [cleanup_thread_] are atomic here. *)

From Stdlib Require Import ZArith String Lia.
From stdpp Require Import base gmap list strings numbers sets.
From S2P Require Import Prelude Codec Wire NonceWindow Queue Crypto Noise Session Signals Config PluginManager StoreBackend.
From S2P Require Import CmState CmTransport CmClose CmHandshake CmDispatch CmLifecycle Identity CmFrame CmInvariant Core.

Local Open Scope Z_scope.

(** ** The database handle ([Sqlite::Sqlite], [Sqlite::~Sqlite]) *)

Inductive stmt := StPut | StGet | StPrefix | StDel | StSince | StCleanup.

Definition all_stmts : list stmt := [StPut; StGet; StPrefix; StDel; StSince; StCleanup].

(** What SQLite answers for a database. *)
Record sq_env := mk_sq_env { sq_open : Z; sq_schema : Z; sq_prepare : stmt -> Z }.

Inductive sq_event := SqOpen | SqClose | SqPrepare (s : stmt) | SqFinalize (s : stmt).

Definition SQLITE_OK : Z := 0.
Definition SQLITE_ROW : Z := 100.

(** [true] when no exception is thrown. *)
Definition check_rc (rc : Z) : bool := (rc =? SQLITE_OK) || (rc =? SQLITE_DONE) || (rc =? SQLITE_ROW).

Fixpoint prepare_statements (env : sq_env) (l : list stmt) : bool * list sq_event :=
  match l with
  | [] => (true, [])
  | s :: l =>
      if check_rc (sq_prepare env s) then
        let '(ok, evs) := prepare_statements env l in (ok, SqPrepare s :: evs)
      else (false, [])
  end.

(** The constructor: whether it returns an object, and the resources it took and gave back;
    the results of the [PRAGMA]s are ignored. *)
Definition sqlite_new (env : sq_env) : bool * list sq_event :=
  if negb (sq_open env =? SQLITE_OK) then (false, [SqOpen; SqClose])
  else if negb (sq_schema env =? SQLITE_OK) then (false, [SqOpen])
  else let '(ok, evs) := prepare_statements env all_stmts in (ok, SqOpen :: evs).

(** The destructor of an object whose statements are [l]. *)
Definition finalize_statements (l : list stmt) : list sq_event := map SqFinalize l.
Definition sqlite_destroy (l : list stmt) : list sq_event := finalize_statements l ++ [SqClose].

(** An object that was made has all its statements, and its destructor gives everything back:
    every statement before the database. *)
Lemma sqlite_balanced env evs :
  sqlite_new env = (true, evs) ->
  evs ++ sqlite_destroy all_stmts = SqOpen :: map SqPrepare all_stmts ++ map SqFinalize all_stmts ++ [SqClose].
Proof.
  unfold sqlite_new. destruct (negb _); [done|]. destruct (negb _); [done|].
  assert (forall l e, prepare_statements env l = (true, e) -> e = map SqPrepare l) as H.
  { induction l as [|x l IH]; intros e; cbn; [by intros [= <-]|]. destruct (check_rc _); [|done].
    destruct (prepare_statements env l) as [ok e']. intros [= -> <-]. by rewrite (IH e'). }
  destruct (prepare_statements env all_stmts) as [ok e] eqn:E. intros [= -> <-]. by rewrite (H _ _ E).
Qed.

(** A constructor that fails after the database was opened leaves it open: no destructor runs
    for an object that was not made. *)
Lemma sqlite_leak env evs :
  sqlite_new env = (false, evs) -> sq_open env = SQLITE_OK -> SqOpen ∈ evs /\ SqClose ∉ evs.
Proof.
  unfold sqlite_new. generalize all_stmts. intros l0 H Ho. rewrite Ho, Z.eqb_refl in H. cbn [negb] in H.
  assert (forall l, SqClose ∉ (prepare_statements env l).2) as Hp.
  { induction l as [|x l IH]; cbn [prepare_statements snd]; [by intros ?%elem_of_nil|].
    destruct (check_rc (sq_prepare env x)); [|by intros ?%elem_of_nil].
    destruct (prepare_statements env l) as [ok e]. cbn [snd] in *. by intros [?|?]%elem_of_cons. }
  specialize (Hp l0). destruct (negb (sq_schema env =? SQLITE_OK)); [injection H as <-|].
  { split; [by left|]. by intros ?%list_elem_of_singleton. }
  destruct (prepare_statements env l0) as [ok e]. injection H as -> <-. cbn [snd] in Hp.
  split; [by left|]. by intros [?|?]%elem_of_cons.
Qed.

(** ** Construction *)

Record StoreConfig := mk_store_config {
  sc_listen_address : string;
  sc_listen_port : Z;
  sc_backend_type : string;
  sc_db_path : string;
  sc_cleanup_interval_s : Z;
  sc_seed_peers : list string;
}.

Definition store_config_defaults : StoreConfig :=
  mk_store_config "0.0.0.0" 25566 "sqlite" "store.db" 600 [].

(** The configuration the core is given. *)
Definition store_core_config (cfg : StoreConfig) : Config :=
  let x := config_defaults in
  mk_config
    (mk_core_cfg (sc_listen_address cfg) (sc_listen_port cfg) (co_io_threads (cfg_core x)) (co_max_connections (cfg_core x)))
    (cfg_logging x) (cfg_security x) (cfg_compression x)
    (mk_plugins_cfg (pl_base_dir (cfg_plugins x)) false (pl_scan_interval (cfg_plugins x)) (pl_extra_dirs (cfg_plugins x)))
    (cfg_identity x) (cfg_ice x) (cfg_last_file x).

Section construction.
Context `{CO : !CryptoOps, KO : !KeyOps}.
Context (connector_of : connector_desc -> connector_ops) (handler_of : handler_desc -> handler_t).
Context (init_calls : string -> list api_call) (fuel : nat).

(** [StoreApp::StoreApp]: the core, given what SQLite answers for a path; [None] is an
    exception. *)
Definition store_app_new (db : string -> sq_env) (cfg : StoreConfig) (w : world) : option Core * fsys :=
  let '(k, fs) := core_new connector_of handler_of init_calls fuel (store_core_config cfg) w in
  match k with
  | None => (None, fs)
  | Some k =>
      if String.eqb (sc_backend_type cfg) "sqlite" && (sqlite_new (db (sc_db_path cfg))).1 then (Some k, fs) else (None, fs)
  end.

(** What the command line gives; the values of an accepted one are those of the options or
    their defaults, with the seeds in the order given. *)
Inductive store_options := StoreArgError | StoreHelp | StoreRun (cfg : StoreConfig).

(** The exit code of [main]; the threads of an application that could be made are below. *)
Definition store_main (sodium : bool) (db : string -> sq_env) (o : store_options) (w : world) : Z :=
  if negb sodium then 1
  else
    match o with
    | StoreArgError => 1
    | StoreHelp => 0
    | StoreRun cfg => match (store_app_new db cfg w).1 with Some _ => 0 | None => 1 end
    end.

Lemma stop_connectors k k' : core_stop k = Some k' -> c_connectors (k_cm k') = c_connectors (k_cm k).
Proof.
  unfold core_stop. destruct (k_running k); cbn; [|by intros [= <-]].
  destruct (shutdown (k_cm k)) as [[[]|] c] eqn:Hsh; [|done]. intros [= <-]. by apply (Quiet_fixed_shutdown _ _ _ Hsh).
Qed.

Lemma run_core_op_connectors op k k' :
  run_core_op fuel op k = Some k' -> op_outside op = true -> c_connectors (k_cm k') = c_connectors (k_cm k).
Proof.
  intros H Hop. destruct op as [hw|threads hw| | | |parse files|w|t name cb prio|name cb prio|sub|a|op]; cbn in H;
    try (injection H as <-).
  - unfold core_run, run_async. by destruct (k_running k), (k_io_stopped k).
  - unfold run_async. by destruct (k_running k).
  - by apply stop_connectors.
  - unfold stop_in_callback in H. apply bind_Some in H as (k1 & H%stop_connectors & [= <-]). exact H.
  - unfold heartbeat. destruct (k_heartbeat k && _ && _); [|done]. cbn.
    apply fx_connectors, (Quiet_Fixed _ Quiet_check_heartbeats).
  - unfold reload_config. by destruct (reload parse files (k_config k)) as [[] x].
  - unfold core_rotate, rotate_identity. by destruct (load_or_generate _ _ _ _) as [[me|] fs].
  - done.
  - done.
  - done.
  - by apply (fx_connectors _ _ (Fixed_run_call fuel a Hop (k_cm k))).
  - done.
Qed.

Lemma run_core_connectors ops k k' :
  run_core fuel ops k = Some k' -> forallb op_outside ops = true -> c_connectors (k_cm k') = c_connectors (k_cm k).
Proof.
  revert k. induction ops as [|op ops IH]; intros k H Hops; [by injection H as <-|].
  cbn in H, Hops. apply andb_prop in Hops as [H1 H2]. apply bind_Some in H as (k1 & Hk1 & H).
  rewrite (IH k1 H H2). by eapply run_core_op_connectors.
Qed.

(** The store program is alone.  The core it builds has no connector and gets none, whatever
    happens to it afterwards, so that a connection to a seed does nothing at all and no peer
    can be reached. *)
Theorem store_isolated db cfg w k fs ops k' uri :
  store_app_new db cfg w = (Some k, fs) -> (forall q, forallb outside_call (init_calls q) = true) ->
  run_core fuel ops k = Some k' -> forallb op_outside ops = true ->
  c_connectors (k_cm k') = ∅ /\ core_connect uri k' = k'.
Proof.
  intros Hnew Hq Hrun Hops. unfold store_app_new in Hnew.
  destruct (core_new _ _ _ _ _ _) as [[k0|] fs0] eqn:Hk; [|done].
  assert (k0 = k) as -> by (destruct (_ && _); congruence).
  destruct (new_wired _ _ _ _ _ _ _ _ Hk Hq) as [Hc _].
  assert (c_connectors (k_cm k') = ∅) as He by by rewrite (run_core_connectors _ _ _ Hrun Hops).
  split; [done|]. unfold core_connect, cm_connect, find_connector, mbind, cm_bind, gets. rewrite He, lookup_empty.
  cbn. by destruct k'.
Qed.
End construction.

#[local] Existing Instances ToyCrypto.ops toy_keys.

Definition toy_store : option Core * fsys :=
  store_app_new (fun _ => mk_ops true true true (fun _ => 0)) (fun _ => mk_handler None false None false [] None)
    (fun _ => []) 2 (fun _ => mk_sq_env 0 0 (fun _ => 0)) store_config_defaults toy_world.

Lemma store_isolated_witness :
  exists k fs, toy_store = (Some k, fs) /\
    core_connect "tcp://10.0.0.1:25565" (run_async 1 1 k) = run_async 1 1 k.
Proof.
  assert ((fun _ => tt) <$> toy_store.1 = Some tt) as Hp by (vm_compute; reflexivity).
  destruct toy_store as [[k|] fs] eqn:E; [|discriminate Hp]. exists k, fs. split; [reflexivity|].
  refine (proj2 (store_isolated _ _ _ 2%nat _ _ _ k fs [CoRunAsync 1 1] _ _ E _ _ _)); reflexivity.
Defined.

(** ** Threads *)

Inductive store_event :=
  | SvCoreRun | SvHandlerStart | SvTracking | SvSeed (uri : string)
  | SvCleanup | SvHandlerStop | SvCoreStop.

(** Who called [StoreApp::stop]: [main], or the destructor. *)
Inductive stopper := ByMain | ByDestructor.

Inductive main_pc :=
  | MWait                        (* the loop on [g_running] *)
  | MExchange (k : stopper)      (* [stop]: the exchange *)
  | MHandlerStop (k : stopper)
  | MJoin (k : stopper)          (* [cleanup_thread_.join()] *)
  | MCoreStop (k : stopper)
  | MJoinApp
  | MMembers                     (* the destructors of the members *)
  | MDone.

Inductive app_pc :=
  | AStart | ACore | AHandler | ATracking | ASeeds (left : list string) | ACleanup | ALoop | ADone.

(** The clean-up thread waits for its interval, is past its last test of [running_], or has
    ended. *)
Inductive clean_pc := CNone | CWaiting | CExpiring | CEnded.

Record store_state := mk_store_state {
  ss_running : bool;
  ss_signal : bool;
  ss_main : main_pc;
  ss_app : app_pc;
  ss_clean : clean_pc;
  ss_joinable : bool;
  ss_aborted : bool;             (* [std::terminate] *)
  ss_trace : list store_event;
}.

Definition store_init : store_state := mk_store_state false false MWait AStart CNone false false [].

(** The clean-up thread moves by finding [running_] false ([TClean]), by the end of its interval
    ([TExpire]) and by removing expired entries ([TCleanup]). *)
Inductive store_thread := TSignal | TMain | TApp | TClean | TExpire | TCleanup.

Definition return_to (k : stopper) : main_pc := match k with ByMain => MJoinApp | ByDestructor => MMembers end.

(** [main] after the threads were made, with [StoreApp::stop] and the destructor inlined. *)
Definition main_step (s : store_state) : option store_state :=
  let '(mk_store_state r sg m a c j ab tr) := s in
  match m with
  | MWait => if sg then Some (mk_store_state r sg (MExchange ByMain) a c j ab tr) else None
  | MExchange k =>
      Some (mk_store_state false sg (if r then MHandlerStop k else return_to k) a c j ab tr)
  | MHandlerStop k => Some (mk_store_state r sg (MJoin k) a c j ab (tr ++ [SvHandlerStop]))
  | MJoin k =>
      if j then
        match c with
        | CEnded => Some (mk_store_state r sg (MCoreStop k) a c false ab tr)
        | _ => None
        end
      else Some (mk_store_state r sg (MCoreStop k) a c j ab tr)
  | MCoreStop k => Some (mk_store_state r sg (return_to k) a c j ab (tr ++ [SvCoreStop]))
  | MJoinApp =>
      match a with
      | ADone => Some (mk_store_state r sg (MExchange ByDestructor) a c j ab tr)
      | _ => None
      end
  | MMembers => Some (mk_store_state r sg MDone a c j (ab || j) tr)
  | MDone => None
  end.

(** [StoreApp::run]. *)
Definition app_step (seeds : list string) (s : store_state) : option store_state :=
  let '(mk_store_state r sg m a c j ab tr) := s in
  match a with
  | AStart => Some (mk_store_state true sg m ACore c j ab tr)
  | ACore => Some (mk_store_state r sg m AHandler c j ab (tr ++ [SvCoreRun]))
  | AHandler => Some (mk_store_state r sg m ATracking c j ab (tr ++ [SvHandlerStart]))
  | ATracking => Some (mk_store_state r sg m (ASeeds seeds) c j ab (tr ++ [SvTracking]))
  | ASeeds (uri :: l) => Some (mk_store_state r sg m (ASeeds l) c j ab (tr ++ [SvSeed uri]))
  | ASeeds [] => Some (mk_store_state r sg m ACleanup c j ab tr)
  | ACleanup => Some (mk_store_state r sg m ALoop CWaiting true ab tr)
  | ALoop => if r then None else Some (mk_store_state r sg m ADone c j ab tr)
  | ADone => None
  end.

(** The loop of [start_cleanup_loop].  While it waits it ends when it finds [running_] false. *)
Definition clean_step (s : store_state) : option store_state :=
  let '(mk_store_state r sg m a c j ab tr) := s in
  match c with
  | CWaiting => if r then None else Some (mk_store_state r sg m a CEnded j ab tr)
  | _ => None
  end.

(** The interval is over: the last test of [running_] before the clean-up. *)
Definition expire_step (s : store_state) : option store_state :=
  let '(mk_store_state r sg m a c j ab tr) := s in
  match c with
  | CWaiting => Some (mk_store_state r sg m a (if r then CExpiring else CEnded) j ab tr)
  | _ => None
  end.

(** [cleanup_expired], whatever has become of [running_] since. *)
Definition cleanup_step (s : store_state) : option store_state :=
  let '(mk_store_state r sg m a c j ab tr) := s in
  match c with
  | CExpiring => Some (mk_store_state r sg m a CWaiting j ab (tr ++ [SvCleanup]))
  | _ => None
  end.

Definition signal_step (s : store_state) : option store_state :=
  let '(mk_store_state r sg m a c j ab tr) := s in
  if sg then None else Some (mk_store_state r true m a c j ab tr).

Definition store_step (seeds : list string) (t : store_thread) (s : store_state) : option store_state :=
  match t with
  | TSignal => signal_step s
  | TMain => main_step s
  | TApp => app_step seeds s
  | TClean => clean_step s
  | TExpire => expire_step s
  | TCleanup => cleanup_step s
  end.

Fixpoint run_schedule (seeds : list string) (ts : list store_thread) (s : store_state) : option store_state :=
  match ts with
  | [] => Some s
  | t :: ts => s' ← store_step seeds t s; run_schedule seeds ts s'
  end.

(** ** Orderly shutdown *)

(** Start-up is over: [run] is in its loop. *)
Definition serving (s : store_state) : Prop :=
  ss_running s = true /\ ss_main s = MWait /\ ss_app s = ALoop /\ ss_clean s = CWaiting /\
  ss_joinable s = true /\ ss_aborted s = false.

Definition cleanups (n : nat) : list store_event := replicate n SvCleanup.

(** A clean-up that is past its test. *)
Definition pending_cleanup (c : clean_pc) : nat := match c with CExpiring => 1 | _ => 0 end.

(** The events since [boot]: clean-ups before the handler was stopped, and at most one after. *)
Definition stopped_handler (boot : list store_event) (pending : nat) (tr : list store_event) : Prop :=
  exists n m, tr = boot ++ cleanups n ++ [SvHandlerStop] ++ cleanups m /\ (m + pending <= 1)%nat.

Definition stopped_core (boot tr : list store_event) : Prop :=
  exists n m, tr = boot ++ cleanups n ++ [SvHandlerStop] ++ cleanups m ++ [SvCoreStop] /\ (m <= 1)%nat.

(** Where [main] is, what it has done since [boot] and what it relies on. *)
Definition main_inv (boot : list store_event) (s : store_state) : Prop :=
  match ss_main s with
  | MWait | MExchange ByMain =>
      ss_running s = true /\ ss_joinable s = true /\ exists n, ss_trace s = boot ++ cleanups n
  | MHandlerStop ByMain => ss_running s = false /\ ss_joinable s = true /\ exists n, ss_trace s = boot ++ cleanups n
  | MJoin ByMain =>
      ss_running s = false /\ ss_joinable s = true /\ stopped_handler boot (pending_cleanup (ss_clean s)) (ss_trace s)
  | MCoreStop ByMain =>
      ss_running s = false /\ ss_joinable s = false /\ ss_clean s = CEnded /\ stopped_handler boot 0 (ss_trace s)
  | MJoinApp =>
      ss_running s = false /\ ss_joinable s = false /\ ss_clean s = CEnded /\ stopped_core boot (ss_trace s)
  | MExchange ByDestructor | MMembers | MDone =>
      ss_running s = false /\ ss_joinable s = false /\ ss_clean s = CEnded /\ ss_app s = ADone /\
      stopped_core boot (ss_trace s)
  | _ => False
  end.

Record shutdown_inv (boot : list store_event) (s : store_state) : Prop := {
  si_aborted : ss_aborted s = false;
  si_app : ss_app s = ALoop \/ ss_app s = ADone;
  si_clean : ss_clean s <> CNone;
  si_running : ss_running s = true -> ss_app s = ALoop /\ ss_clean s <> CEnded;
  si_main : main_inv boot s;
}.

Definition main_left (m : main_pc) : nat :=
  match m with
  | MWait => 8 | MExchange ByMain => 7 | MHandlerStop ByMain => 6 | MJoin ByMain => 5 | MCoreStop ByMain => 4
  | MJoinApp => 3 | MExchange ByDestructor => 2 | MMembers => 1 | _ => 0
  end.

Definition others_left (s : store_state) : nat :=
  main_left (ss_main s) + (if ss_signal s then 0 else 1) + match ss_app s with ALoop => 1 | _ => 0 end.

(** Steps left, the rounds of the clean-up thread aside. *)
Definition steps_left (s : store_state) : nat :=
  others_left s + match ss_clean s with CWaiting | CExpiring => 1 | _ => 0 end.

(** All steps left once [running_] is false. *)
Definition steps_left_stopped (s : store_state) : nat :=
  others_left s + match ss_clean s with CWaiting => 1 | CExpiring => 2 | _ => 0 end.

Definition counts (t : store_thread) : bool := match t with TExpire | TCleanup => false | _ => true end.

Lemma cleanups_app n : cleanups n ++ [SvCleanup] = cleanups (S n).
Proof. unfold cleanups. by rewrite <-replicate_S_end. Qed.

Lemma stopped_handler_more boot tr :
  stopped_handler boot 1 tr -> stopped_handler boot 0 (tr ++ [SvCleanup]).
Proof. intros (n & m & -> & H). exists n, (S m). split; [by rewrite <-!app_assoc, cleanups_app|lia]. Qed.

Lemma stopped_handler_core boot tr : stopped_handler boot 0 tr -> stopped_core boot (tr ++ [SvCoreStop]).
Proof. intros (n & m & -> & H). exists n, m. split; [by rewrite <-!app_assoc|lia]. Qed.

Lemma stopped_handler_first boot c n : stopped_handler boot (pending_cleanup c) ((boot ++ cleanups n) ++ [SvHandlerStop]).
Proof. exists n, 0%nat. split; [by rewrite app_nil_r, <-app_assoc|by destruct c; cbn; lia]. Qed.

Lemma stopped_handler_ends boot p tr : stopped_handler boot p tr -> stopped_handler boot 0 tr.
Proof. intros (n & m & -> & H). exists n, m. split; [done|lia]. Qed.

(** What a thread other than [main] keeps: [main] is where it was. *)
Lemma main_inv_step boot r sg m a c j ab tr a' c' tr' :
  main_inv boot (mk_store_state r sg m a c j ab tr) ->
  (a = ADone -> a' = ADone) -> (c = CEnded -> c' = CEnded /\ tr' = tr) ->
  (r = true -> exists n, tr' = tr ++ cleanups n) ->
  (r = false -> c' <> CExpiring /\ tr' = tr ++ cleanups (pending_cleanup c)) ->
  main_inv boot (mk_store_state r sg m a' c' j ab tr').
Proof.
  assert (forall n k, cleanups n ++ cleanups k = cleanups (n + k)) as Hadd by (intros; unfold cleanups; by rewrite replicate_add).
  unfold main_inv. intros H Ha Hc Ht Hf. destruct m as [|[]|[]|[]|[]| | |]; cbn in *; try done.
  1, 2: destruct H as (-> & -> & n & ->); destruct (Ht eq_refl) as [k ->]; (split_and!; [done..|]);
    exists (n + k)%nat; by rewrite <-app_assoc, Hadd.
  1: naive_solver.
  1: destruct H as (-> & -> & n & ->); destruct (Hf eq_refl) as [_ ->]; (split_and!; [done..|]);
    exists (n + pending_cleanup c)%nat; by rewrite <-app_assoc, Hadd.
  1: { destruct H as (-> & -> & H). destruct (Hf eq_refl) as [Hne ->]. split_and!; [done..|].
       destruct c; cbn in *; rewrite ?app_nil_r; [destruct c'; done..| |destruct c'; done].
       apply (stopped_handler_more) in H. by destruct c'. }
  all: naive_solver.
Qed.

Ltac count_steps := unfold steps_left, steps_left_stopped, others_left; cbn; split; [try lia|intros; split; [done|lia]].

(** A step keeps the invariant and brings the end nearer. *)
Definition good_step (boot : list store_event) (t : store_thread) (s s' : store_state) : Prop :=
  shutdown_inv boot s' /\ (steps_left s' + (if counts t then 1 else 0) <= steps_left s)%nat /\
  (ss_running s = false -> ss_running s' = false /\ (steps_left_stopped s' < steps_left_stopped s)%nat).

Lemma shutdown_main boot s s' : shutdown_inv boot s -> main_step s = Some s' -> good_step boot TMain s s'.
Proof.
  intros [Hab Ha Hc Hr Hm] Hs. destruct s as [r sg m a c j ab tr]. cbn in Hab, Ha, Hc, Hr. subst ab.
  unfold main_inv in Hm. destruct m as [|[]|[]|[]|[]| | |]; cbn in Hm, Hs; try done.
  - destruct sg; [|done]. destruct Hm as (-> & -> & Ht). injection Hs as <-. split; [by split|]. count_steps.
  - destruct Hm as (-> & -> & Ht). injection Hs as <-. split; [by split|]. count_steps.
  - destruct Hm as (-> & -> & -> & -> & Ht). injection Hs as <-. split; [by split|]. count_steps.
  - destruct Hm as (-> & -> & n & ->). injection Hs as <-. split; [|count_steps].
    split; unfold main_inv; try done. cbn. split_and!; [done|done|]. apply stopped_handler_first.
  - destruct Hm as (-> & -> & Ht). destruct c; try done. injection Hs as <-. split; [by split|count_steps].
  - destruct Hm as (-> & -> & -> & Ht). injection Hs as <-. split; [|count_steps].
    split; unfold main_inv; try done. cbn. split_and!; [done..|]. by apply stopped_handler_core.
  - destruct Hm as (-> & -> & -> & Ht). destruct a; try done. injection Hs as <-. split; [by split|count_steps].
  - destruct Hm as (-> & -> & -> & -> & Ht). injection Hs as <-. split; [by split|count_steps].
Qed.

Lemma shutdown_step seeds boot t s s' : shutdown_inv boot s -> store_step seeds t s = Some s' -> good_step boot t s s'.
Proof.
  intros Hi Hs. destruct t; cbn in Hs; [|by apply shutdown_main|..]; destruct Hi as [Hab Ha Hc Hr Hm];
    destruct s as [r sg m a c j ab tr]; cbn in Hab, Ha, Hc, Hr, Hs; subst ab.
  - destruct sg; [done|]. injection Hs as <-. split; [by split|count_steps].
  - destruct Ha as [->| ->]; [|done]. cbn in Hs. destruct r; [done|]. injection Hs as <-. split; [|count_steps].
    split; cbn; try done; [by right|]. unfold main_inv in *. destruct m as [|[]|[]|[]|[]| | |]; cbn in *; try done; naive_solver.
  - destruct c; try done. destruct r; [done|]. injection Hs as <-. split; [|count_steps].
    split; cbn; try done. eapply main_inv_step; [exact Hm|done..|by rewrite app_nil_r].
  - destruct c; try done. injection Hs as <-. split.
    + split; cbn; try done; [by destruct r|intros ->; split; [by apply Hr|done]|].
      eapply main_inv_step; [exact Hm|done|done|intros; exists 0%nat; by rewrite app_nil_r|intros ->; by rewrite app_nil_r].
    + destruct r; [split; [unfold steps_left, others_left; cbn; lia|done]|count_steps].
  - destruct c; try done. injection Hs as <-. split; [|count_steps].
    split; cbn; try done; [intros ->; split; [by apply Hr|done]|].
    eapply main_inv_step; [exact Hm|done|done|intros; by exists 1%nat|done].
Qed.

(** Once the signal came some thread can move until [main] is over. *)
Lemma shutdown_progress seeds boot s :
  shutdown_inv boot s -> ss_signal s = true -> ss_main s <> MDone ->
  exists t, t <> TSignal /\ t <> TExpire /\ is_Some (store_step seeds t s).
Proof.
  intros [Hab Ha Hc Hr Hm] Hsg Hd. destruct s as [r sg m a c j ab tr]. unfold main_inv in Hm. cbn in *. subst sg.
  destruct m as [|[]|[]|[]|[]| | |]; cbn in Hm; try done; try (by exists TMain; cbn; eauto).
  - destruct Hm as (-> & -> & _). destruct c; [done|exists TClean|exists TCleanup|exists TMain]; cbn; eauto.
  - destruct Hm as (-> & _). destruct Ha as [->| ->]; [exists TApp|exists TMain]; cbn; eauto.
Qed.

Lemma shutdown_run seeds boot ts s s' :
  shutdown_inv boot s -> run_schedule seeds ts s = Some s' ->
  shutdown_inv boot s' /\ (length (List.filter counts ts) + steps_left s' <= steps_left s)%nat /\
  (ss_running s = false -> length ts <= steps_left_stopped s)%nat.
Proof.
  revert s. induction ts as [|t ts IH]; intros s Hi Hs; [injection Hs as <-; split_and!; [done|cbn; lia|cbn; lia]|].
  cbn in Hs. apply bind_Some in Hs as (s1 & H1 & Hs). destruct (shutdown_step _ _ _ _ _ Hi H1) as (Hi1 & Hl & Hst).
  destruct (IH s1 Hi1 Hs) as (Hi' & Hl' & Hlen). split_and!; [done|cbn; destruct (counts t); cbn; lia|].
  intros H. destruct (Hst H) as [H' Hlt]. specialize (Hlen H'). cbn. lia.
Qed.

(** Once [stop] has cleared [running_] there are at most ten steps left. *)
Lemma stopped_bound boot s :
  shutdown_inv boot s -> ss_running s = false -> (steps_left_stopped s <= 10)%nat.
Proof.
  intros [_ Ha Hc _ Hm] Hr. destruct s as [r sg m a c j ab tr]. cbn in *. subst r. unfold main_inv in Hm.
  unfold steps_left_stopped, others_left. cbn in *.
  destruct m as [|[]|[]|[]|[]| | |]; cbn in Hm; try done; destruct sg, a, c; cbn; try lia; naive_solver.
Qed.

(** C23: Orderly shutdown of the store.  Once start-up is over, whatever the schedule: the program
    is never terminated; the rounds of the clean-up thread aside it makes at most eleven more
    steps, and at most ten of all threads once [stop] has cleared [running_]; after the signal
    some thread can move until [main] is over, so that it ends; and when it has ended both
    threads have ended, the clean-up thread was joined, the handler was stopped before the
    core, each of them once, and every clean-up but at most one, which was past its test of
    [running_] when the program was stopped, came before the stop of the handler, that one
    before the stop of the core. *)
Theorem store_shutdown seeds s ts s' :
  serving s -> run_schedule seeds ts s = Some s' ->
  ss_aborted s' = false /\ (length (List.filter counts ts) <= 11)%nat /\
  (forall ts' s'', ss_running s' = false -> run_schedule seeds ts' s' = Some s'' -> (length ts' <= 10)%nat) /\
  (ss_signal s' = true -> ss_main s' <> MDone ->
     exists t, t <> TSignal /\ t <> TExpire /\ is_Some (store_step seeds t s')) /\
  (ss_main s' = MDone ->
     ss_app s' = ADone /\ ss_clean s' = CEnded /\ ss_joinable s' = false /\
     exists n m, ss_trace s' = ss_trace s ++ cleanups n ++ [SvHandlerStop] ++ cleanups m ++ [SvCoreStop] /\ (m <= 1)%nat).
Proof.
  intros (H1 & H2 & H3 & H4 & H5 & H6) Hrun.
  assert (shutdown_inv (ss_trace s) s) as Hi.
  { split; [done|by left|by rewrite H4|by rewrite H4|]. unfold main_inv. rewrite H2. split_and!; [done|done|].
    exists 0%nat. by rewrite app_nil_r. }
  destruct (shutdown_run _ _ _ _ _ Hi Hrun) as (Hi' & Hl & _).
  split_and!; [apply Hi'| | |by apply (shutdown_progress _ (ss_trace s))|].
  - assert (steps_left s <= 11)%nat by (unfold steps_left, others_left; rewrite H2, H3, H4; cbn; destruct (ss_signal s); lia). lia.
  - intros ts' s'' Hr Hrun'. destruct (shutdown_run _ _ _ _ _ Hi' Hrun') as (_ & _ & Hlen).
    specialize (Hlen Hr). pose proof (stopped_bound _ _ Hi' Hr). lia.
  - intros Hd. pose proof (si_main _ _ Hi') as Hm. unfold main_inv in Hm. rewrite Hd in Hm.
    destruct Hm as (_ & Hj & Hc & Ha & Ht). split_and!; [done..|exact Ht].
Qed.

(** Start-up without a signal leads there. *)
Definition boot_schedule (seeds : list string) : list store_thread := replicate (6 + length seeds) TApp.

Definition toy_seeds : list string := ["tcp://10.0.0.1:25565"%string].

(** A clean-up that overlaps the stop: it runs after the handler was stopped. *)
Definition late_cleanup : list store_thread :=
  [TSignal; TExpire; TMain; TMain; TMain; TCleanup; TClean; TMain; TMain; TApp; TMain; TMain; TMain].

Lemma store_shutdown_witness :
  exists s s', run_schedule toy_seeds (boot_schedule toy_seeds) store_init = Some s /\
  run_schedule toy_seeds late_cleanup s = Some s' /\
  exists n m, ss_trace s' = ss_trace s ++ cleanups n ++ [SvHandlerStop] ++ cleanups m ++ [SvCoreStop] /\ (m <= 1)%nat.
Proof.
  do 2 eexists. split; [vm_compute; reflexivity|]. split; [vm_compute; reflexivity|].
  match goal with |- exists n m, ss_trace ?s' = ss_trace ?s ++ _ /\ _ =>
    destruct (store_shutdown toy_seeds s late_cleanup s') as (_ & _ & _ & _ & H) end.
  - by repeat split.
  - vm_compute; reflexivity.
  - by destruct (H eq_refl) as (_ & _ & _ & Hn).
Defined.

(** ** Signals during start-up *)

(** A signal before the application thread set [running_]: [stop] returns at once, the
    application then starts and serves forever, and [main] waits for it. *)
Lemma early_signal_hangs :
  exists s, run_schedule [] [TSignal; TMain; TMain; TApp; TApp; TApp; TApp; TApp; TApp] store_init = Some s /\
    ss_main s = MJoinApp /\ ss_app s = ALoop /\
    forall t s', store_step [] t s = Some s' -> t = TExpire.
Proof.
  eexists. split; [vm_compute; reflexivity|]. split; [done|]. split; [done|]. by intros [] s'.
Qed.

(** A signal between [running_] and the start of the clean-up thread: nothing joins the
    thread, and its destructor terminates the program. *)
Lemma early_stop_aborts :
  exists s, run_schedule [] [TApp; TSignal; TMain; TMain; TMain; TMain; TMain; TApp; TApp; TApp; TApp; TApp; TApp;
    TClean; TMain; TMain; TMain] store_init = Some s /\ ss_main s = MDone /\ ss_aborted s = true.
Proof. eexists. split; [vm_compute; reflexivity|done]. Qed.
